(* ===== verification/_CoqProject ===== *)
-Q . S2P
Prelude.v
HelperProto.v
ProtoWire.v
Framing.v
SocketServer.v
PipeServer.v
Win32.v
WinCodec.v
DelayedRender.v
RenderEnds.v
StaWorker.v
ChunkProvider.v
ClipboardFormat.v
VirtualFile.v
ComObjects.v
VirtualPaste.v
HandlerProg.v
WinDispatch.v
ClipboardOps.v
RenderAll.v
LinuxCodec.v
LinuxDispatch.v
UriList.v
ExtManager.v
ExtPastes.v
X11Manager.v
X11Pastes.v
PasteBackend.v
LinuxSession.v
LinuxHelper.v
Backend.v
CommandLine.v
LinuxMain.v
LinuxQuit.v
LinuxReturn.v
WinMain.v
WinHelper.v
WinPastes.v
WinShutdown.v
Images.v
Log.v
