(* ===== verification/Prelude.v ===== *)
(** * clipboard-helper: a verification development

    ** The program

    clipboard-helper is a small process that a peer application starts and
    drives over a local stream socket: it puts the peer's text, images and
    file lists on the system clipboard, reports what other applications put
    there, and defers the contents until somebody pastes ("delayed
    rendering").  There is one C++ helper for Windows ([src/windows/src]) and
    one for Linux ([src/linux/src]).  Both speak the messages of
    [Proto/clipboard_helper.proto], written by hand on a protobuf wire layer
    and carried in frames with a 32-bit length prefix.

    On Windows [wmain] starts the STA thread ([StaWorker], the owner of the
    clipboard window), the named-pipe server ([PipeServer]: an accept loop, a
    writer thread, any number of senders) and the [Dispatcher].  Requests
    arrive on the pipe thread; clipboard notifications and render requests
    arrive on the STA thread, whose waits pump messages and can therefore be
    re-entered.  Files announced by the peer are published as a virtual data
    object whose streams fetch their bytes by FILE_CHUNK_REQUEST frames
    through [DispatcherChunkProvider]; files of other applications are sent
    to the peer in chunks.

    On Linux [main] chooses a backend (ext-data-control, wlr-data-control,
    X11 or the stub), starts [SocketServer] and the [Dispatcher] and runs the
    Qt main loop.  The backends share one contract, [ClipboardManager]: the
    wire handler's thread calls them, the Qt main thread owns the clipboard
    objects, and a paste waits for PROVIDE_DATA, in a worker thread on Wayland
    and inside [retrieveData] on X11.

    ** The files

    Shared layers
    - [Prelude]: machine integers, byte strings, executions of labelled
      transition systems, systems that come to rest ([ComesToRest]), record
      update ([s <| f := v |>]), and the lemmas and tactics all files share.
    - [HelperProto], [ProtoWire]: [helper_proto.h] and [proto_wire.cpp]: the
      schema constants, the varint and field [Writer], the [Reader].
    - [WinCodec], [LinuxCodec]: the two [dispatch_codec.cpp]: every encoder
      and every decoder of each helper.
    - [Framing]: the length prefix and the read-exactly and write-exactly
      loops, with the reference parse of a byte stream into frames, its length
      bytes written out apart from the code's shifts.
    - [CommandLine], [Log]: [ParseArgs] and its Windows counterparts; [log.cpp].

    Linux
    - [SocketServer]: [socket_server.cpp].
    - [LinuxDispatch]: [dispatch.cpp] over the class [ClipboardManager] of
      [clipboard_manager.h], and the stub backend; each backend is an instance.
    - [UriList]: [uri_list_format.cpp].
    - [ExtManager]: [clipboard_manager_ext.cpp], and with it
      [clipboard_manager_wayland.cpp], which is the same text over the wlr
      protocol's names; [ExtPastes]: its pastes come to an end.
    - [X11Manager]: [clipboard_manager_x11.cpp] and [echo_suppressor.cpp];
      [X11Pastes]: its main thread comes back.
    - [PasteBackend]: what the session theorems ask of a backend, as a class
      with its laws, and sessions of the dispatcher over any such backend;
      [LinuxSession]: the Wayland, X11 and stub backends as its
      instances.
    - [LinuxHelper]: what [main] leaves running: the socket server's worker,
      the writers under [client_mutex_], the dispatcher, any backend with its
      callbacks, and the shutdown, from bytes on the socket to pastes.
    - [Backend]: [backend_detector.cpp], [wayland_probe.cpp],
      [wayland_display.cpp] and the backends' factories.
    - [LinuxMain]: [main.cpp] and [parent_watchdog.cpp]; [LinuxQuit]: its signal
      handler, the watchdog and the event loop's end as steps beside those of
      [LinuxHelper]; [LinuxReturn]: [main] returns.

    Windows
    - [Win32]: result codes, tick counts and wait answers.
    - [PipeServer]: [pipe_server.cpp]: construction to destruction, with the
      instance handle the threads share and the wake-ups [Stop] can lose.
    - [StaWorker]: [sta_worker.cpp] and [work_queue.cpp].
    - [HandlerProg]: the language in which the dispatcher's handlers are
      written, its two meanings (one handler alone; any number interleaved)
      and the ownership discipline of COM references.
    - [WinDispatch]: the handlers of [dispatch.cpp]; [DelayedRender]: its
      render state and [OnRenderFormat]; [RenderEnds]: each render ends;
      [ChunkProvider]: its chunk provider.
    - [ClipboardFormat]: [clipboard_format.cpp] and the readers of the same
      layouts; [ClipboardOps]: [clipboard_ops.cpp]; [RenderAll]: the handler of
      WM_RENDERALLFORMATS over its calls.
    - [VirtualFile]: [virtual_file_provider.cpp]; [ComObjects]: its three COM
      classes on a heap, with the references their clients hold;
      [VirtualPaste]: its streams reading through the chunk provider.
    - [WinMain]: [main.cpp] and [session.cpp].
    - [WinHelper]: what [wmain] leaves running: the accept thread in [Run] and in
      the handlers, the writer, the STA thread with its tasks and nested
      renders, the watchdog, console handlers and the tear-down;
      [WinPastes] and [WinShutdown]: its theorems on pastes and on the tear-down.

    Both
    - [Images]: [webp_decode.cpp] and [wic_image.cpp].

    Names are those of the code.  A class's state is a record with the
    fields the operations use; an operation is a definition of the same name.
    Code that several threads run is an executable step function over labels,
    one step per lock-protected region and per stretch of code between
    blocking calls; its executions ([run_exec], or the relation a file
    defines) are all interleavings.  A region under a lock is
    one step, but for [client_mutex_], which is held across blocking writes
    and appears as such in [LinuxHelper].  Spurious wake-ups are steps like any other where
    the code waits on a condition variable.

    ** What the theorems show

    - What is pasted: in every interleaving a paste receives bytes of data
      that came for exactly the announcement it belongs to, or nothing, on
      Wayland ([ext_no_stale_paste], from the bytes on the socket on
      [helper_pastes_from_peer]), on X11 ([x11_no_stale_paste],
      [x11_helper_pastes_from_peer]) and on Windows ([no_stale_render], from the
      requests the pipe thread has handled on [win_pastes_from_peer]); and
      the announced selection is owned and the paste is at every moment in one
      of its stages and can complete
      ([delayed_paste_end_to_end]; [delayed_paste_complete] on Windows) and every
      paste ends with one answer ([ext_pastes_end], [x11_pastes_end],
      [renders_end]).
    - What is transferred: files fetched in chunks are exact
      ([download_is_exact], [copy_is_exact], [fetch_returns_own_chunk], and all of
      them together [virtual_paste_exact]), each
      request is answered ([chunk_request_always_answered],
      [linux_requests_end_to_end], [linux_replies_typed],
      [set_clipboard_end_to_end]).
    - Streams and queues: frames are neither lost, split nor reordered
      ([socket_frames_roundtrip], [socket_frame_boundaries],
      [outbound_fifo], [worker_session]), and the peer reads only messages of
      the protocol ([peer_reads_protocol]); shutting down drains or cancels
      ([stop_drains], [sta_tasks_served], [sta_tasks_exactly_once],
      [win_tasks_served], [no_lost_wakeup], [cancel_ends_fetch]).
    - Resources: handles, locks, references, descriptors, Wayland objects and
      buffers are given back exactly once ([references_balanced], [com_objects_balanced],
      [clipboard_writes_balanced], [clipboard_reads_balanced], [render_all_formats_cached], [fetch_events_closed],
      [ext_resources_balanced], [wayland_connections_balanced],
      [start_all_or_nothing], [main_lifetimes], [wmain_lifetimes]).
    - Formats: codecs, file lists, descriptors and bitmaps round-trip, stay in
      bounds, and the decoders of both helpers agree ([codecs_agree],
      [decoders_terminate], [files_paste_roundtrip],
      [descriptor_roundtrip], [dib_reads_in_bounds], [webp_decode_exact],
      [command_line_roundtrip], [log_line_bounded], [win_logs_alike]).
    - Start-up and life cycle: [helper_life_cycle], [win_teardown], [main_backend],
      [backend_decision], [probe_predicts_start], [watchdog_fires_once]; the
      Linux helper quits when it is asked to and only then, and its [main] then
      returns ([helper_returns_when_asked], [helper_quits_when_asked],
      [helper_quits_for_cause]).
    - Echo and departures from the intention, each with the interleaving or
      input that shows it: [x11_announcements_not_echoed] with its case
      [x11_sync_emission_requests]; [ext_primary_selection_double_destroy],
      [shutdown_releases_twice], [x11_superseded_paste_blocks],
      [late_callback_dangles] against [x11_callbacks_in_time],
      [stop_waits_for_writer], [greeting_overtaken], [torn_greeting],
      [sta_late_task_wedges], [empty_reply_wedges_renders],
      [drains_out_of_order], [stop_can_lose_wakeup], [torn_across_clients],
      [console_dangles], [forker_end_quits], [failed_start_strays] and the
      others beside the code they concern.

    ** Fuel and bounds

    Recursion that is not structural takes fuel.  The decoders get one round
    more than there are bytes, and [decoders_terminate] proves they then
    always answer; a varint needs at most 10 rounds, a 64-bit number at most
    20 decimal digits; [copy_fuel] is the size still to be copied plus two
    ([copy_is_exact] includes the end of the loop); [ParseArgs_loop] takes
    the number of arguments ([parse_args_total]); the splitting loop of
    [UriList] is proved equal to a structural splitter.  Loops over calls of
    the operating system take the list of the answers: a loop at the end of
    its list is still blocked in the call, and says so in its result.
    Integers keep their width ([u8] to [u64], [i32], [i64]) wherever the code
    casts or can wrap; sizes are 64 bits wide.

    ** Parameters and hypotheses

    What is not in the sources is a parameter: the string conversions of
    Win32 ([Win32Strings]), [QString] ([QtText]), image codecs
    ([ImageCodec], the answers of libwebp and Windows Imaging), [iswspace],
    [localtime], the clock, the answers of libwayland, of the kernel and of
    the clipboard calls.  Theorems that need something of them state it as a
    hypothesis and have a witness that instantiates them with a concrete
    function.  Where a call may answer otherwise than the code expects, the
    theorems say what follows rather than exclude it: a snapshot with a data
    object and no files loses its reference ([references_balanced] counts
    these), [PostMessageW] can fail ([sta_tasks_served]), [GetData] can answer
    another medium than asked ([clipboard_reads_balanced]), and Qt can emit
    [dataChanged] inside [setMimeData] ([x11_announcements_not_echoed]).
    Effects of the system that theorems rest on are state: the file pointer
    that a seek sets and a read starts from ([file_answers] in
    [WinDispatch]), and what [shutdown] does to a socket (the flags
    [h_listen_shut] and [h_client_shut] of [LinuxHelper], without which a
    blocked [accept], [read] or [send] of [LinuxReturn] is not bound to
    return).

    ** Not modelled

    - The macOS helper (Swift) and the text of the .proto file.
    - Third-party code: Qt, libwayland, libwebp, Windows Imaging, OLE; the
      models contain the calls and what the code does with the answers.
    - Memory exhaustion in the standard containers; where the code handles an
      allocation that fails ([Framing], [ClipboardOps]) the answer
      is a parameter.
    - Session managers and platform plugins of Qt, which could end the event
      loop on their own: in [LinuxQuit] it ends by a quit metacall.
    - The textual copies: [proto_wire.cpp] of the Windows helper and
      [clipboard_manager_wayland.cpp] repeat the Linux files modelled here under
      other names, as [log.cpp] of the Windows helper does but for its last
      function; a second copy of the definitions would add nothing.
    - The text of log messages; [Log] models the function that prints them.

    - In [WinHelper] a WM_RENDERALLFORMATS message is the cache-only renders it
      consists of, one [WmRender] each; its clipboard calls are in [RenderAll].

    ** What could be added

    The tear-down of [WinHelper] as a system that comes to rest: [Stop] can lose
    its wake-up ([stop_can_lose_wakeup]) and a console handler can call a
    destroyed server ([console_dangles]), so it holds only without these. *)

From Stdlib Require Export ZArith Lia String Ascii.
From stdpp Require Export base numbers list list_numbers option gmap strings.

#[global] Open Scope Z_scope.

(** ** Machine integers *)

(** The C++ casts [static_cast<std::uintN_t>] and [static_cast<std::intN_t>]
    on an integer of any width (C++ [std::size_t] is 64 bits wide here). *)
Definition u8 (x : Z) : Z := x mod 2 ^ 8.
Definition u16 (x : Z) : Z := x mod 2 ^ 16.
Definition u32 (x : Z) : Z := x mod 2 ^ 32.
Definition u64 (x : Z) : Z := x mod 2 ^ 64.
Definition i32 (x : Z) : Z := let y := x mod 2 ^ 32 in if y <? 2 ^ 31 then y else y - 2 ^ 32.
Definition i64 (x : Z) : Z := let y := x mod 2 ^ 64 in if y <? 2 ^ 63 then y else y - 2 ^ 64.

Definition is_byte (b : Z) : Prop := 0 <= b < 2 ^ 8.
Definition is_u16 (x : Z) : Prop := 0 <= x < 2 ^ 16.
Definition is_u32 (x : Z) : Prop := 0 <= x < 2 ^ 32.
Definition is_u64 (x : Z) : Prop := 0 <= x < 2 ^ 64.

(** ** Byte strings *)

(** [std::string], [std::string_view] and [std::vector<std::uint8_t>] are lists
    of bytes; [Zlen] is [size()]. *)
Definition Zlen {A} (l : list A) : Z := Z.of_nat (length l).

(** A C++ string literal as its bytes. *)
Fixpoint str (s : string) : list Z :=
  match s with
  | EmptyString => []
  | String c s' => Z.of_N (N_of_ascii c) :: str s'
  end.

(** [c_str()] handed to a callee that reads up to the first NUL. *)
Fixpoint c_str (s : list Z) : list Z :=
  match s with
  | [] => []
  | c :: s' => if c =? 0 then [] else c :: c_str s'
  end.

Definition bytes_eqb (a b : list Z) : bool := bool_decide (a = b).

(** [std::to_string] / [std::to_wstring] on an unsigned integer: decimal digits,
    most significant first.  Twenty rounds suffice for 64 bits. *)
Fixpoint to_string_loop (fuel : nat) (n : Z) (acc : list Z) : list Z :=
  match fuel with
  | O => acc
  | S fuel' =>
      let acc' := (48 + n mod 10) :: acc in
      if n <? 10 then acc' else to_string_loop fuel' (n / 10) acc'
  end.
Definition to_string (n : Z) : list Z := to_string_loop 20 n [].

(** The inverse reading of decimal digits, used only to state that [to_string]
    loses nothing. *)
Definition of_decimal (l : list Z) : Z := foldl (fun acc d => 10 * acc + (d - 48)) 0 l.

(** ** Little-endian integers *)

Definition le16 (x : Z) : list Z := [u8 x; u8 (Z.shiftr x 8)].
Definition le32 (x : Z) : list Z := [u8 x; u8 (Z.shiftr x 8); u8 (Z.shiftr x 16); u8 (Z.shiftr x 24)].

(** ** Parsers

    Every C++ reader method returns [false] on malformed input and otherwise
    advances its cursor: a parser maps the unread bytes to a result and the
    bytes that remain. *)
Definition Parser (A : Type) : Type := list Z -> option (A * list Z).

#[export] Instance Parser_ret : MRet Parser := fun A a r => Some (a, r).
#[export] Instance Parser_bind : MBind Parser := fun A B k p r =>
  match p r with
  | Some (a, r') => k a r'
  | None => None
  end.

(** A parser that is the C++ [return false]. *)
Definition pfail {A} : Parser A := fun _ => None.

(** A [while (!r.eof())] loop either finishes, rejects its input, or (in the
    model only) runs out of fuel. *)
Inductive outcome (A : Type) : Type :=
| Done (a : A)
| Malformed
| OutOfFuel.
Arguments Done {A} a.
Arguments Malformed {A}.
Arguments OutOfFuel {A}.

(** ** Step relations *)

(** Reachable states of a labelled transition system from an initial state. *)
Section Reachability.
Context {S L : Type} (step : S -> L -> S -> Prop).

Inductive steps : S -> list L -> S -> Prop :=
| steps_nil s : steps s [] s
| steps_cons s l s' ls s'' : step s l s' -> steps s' ls s'' -> steps s (l :: ls) s''.

(** Invariants by rule induction. *)
Lemma steps_invariant (I : S -> Prop) :
  (forall s l s', step s l s' -> I s -> I s') ->
  forall s ls s', steps s ls s' -> I s -> I s'.
Proof. intros Hpres s ls s' H. induction H; eauto. Qed.

(** Invariants that relate the state to the labels seen so far. *)
Lemma steps_trace_invariant (I : list L -> S -> Prop) :
  (forall tr s l s', step s l s' -> I tr s -> I (tr ++ [l]) s') ->
  forall s ls s' tr, steps s ls s' -> I tr s -> I (tr ++ ls) s'.
Proof.
  intros Hpres s ls s' tr H. revert tr.
  induction H as [s|s l s' ls s'' Hstep _ IH]; intros tr HI.
  - by rewrite app_nil_r.
  - replace (tr ++ l :: ls) with ((tr ++ [l]) ++ ls) by (by rewrite <- app_assoc). eauto.
Qed.
End Reachability.

(** An executable transition system runs a list of labels. *)
Section Execution.
Context {S L : Type} (exec : L -> S -> option S).

Fixpoint run_exec (ls : list L) (s : S) : option S :=
  match ls with
  | [] => Some s
  | l :: ls' => match exec l s with Some s' => run_exec ls' s' | None => None end
  end.

(** Invariants of the runs whose labels all satisfy [P]. *)
Lemma run_exec_invariant (I : S -> Prop) (P : L -> Prop) :
  (forall l s s', P l -> exec l s = Some s' -> I s -> I s') ->
  forall ls s s', Forall P ls -> run_exec ls s = Some s' -> I s -> I s'.
Proof.
  intros Hstep ls. induction ls as [|l ls IH]; intros s s' Hl H HI; cbn in H; [by simplify_eq|].
  apply Forall_cons in Hl as [Hl Hls]. destruct (exec l s) as [s1|] eqn:E; [|done]. eauto.
Qed.

Lemma run_exec_app ls ls' s :
  run_exec (ls ++ ls') s = match run_exec ls s with Some s1 => run_exec ls' s1 | None => None end.
Proof. revert s. induction ls as [|l ls IH]; intros s; [done|]. cbn. by destruct (exec l s). Qed.

End Execution.

(** ** Coming to rest

    A system that, left to the steps it has due, takes boundedly many of them
    in whatever order and is then at rest: a measure that each due step
    decreases, and a due step that can be taken as long as it is not at rest.
    [rest_kept] is an invariant of the due steps. *)
Class ComesToRest {S L : Type} (exec : L -> S -> option S) := {
  rest_due : L -> S -> Prop;
  rest_todo : S -> nat;
  rest_kept : S -> Prop;
  rest_at : S -> Prop;
  rest_step l s s' : rest_due l s -> exec l s = Some s' -> rest_kept s -> rest_kept s' /\ (rest_todo s' < rest_todo s)%nat;
  rest_live s : rest_kept s -> ~ rest_at s -> exists l, rest_due l s /\ is_Some (exec l s);
  rest_dec s : Decision (rest_at s)
}.

Section Rest.
Context {S L : Type} (exec : L -> S -> option S) `{!ComesToRest exec}.

(** Every step of the run is due when it is taken. *)
Fixpoint due_all (ls : list L) (s : S) : Prop :=
  match ls with
  | [] => True
  | l :: ls' => rest_due l s /\ match exec l s with Some s' => due_all ls' s' | None => True end
  end.

Lemma due_all_bounded ls s s' :
  rest_kept s -> due_all ls s -> run_exec exec ls s = Some s' ->
  rest_kept s' /\ (length ls + rest_todo s' <= rest_todo s)%nat.
Proof.
  revert s. induction ls as [|l ls IH]; intros s Hk Hl E; cbn in *; [by simplify_eq|]. destruct Hl as [Hl Hls].
  destruct (exec l s) as [s1|] eqn:E1; [|done]. destruct (rest_step _ _ _ Hl E1 Hk) as [Hk1 ?].
  destruct (IH s1 Hk1 Hls E). split; [done|lia].
Qed.

Lemma comes_to_rest ls s s' :
  rest_kept s -> due_all ls s -> run_exec exec ls s = Some s' ->
  (length ls <= rest_todo s)%nat /\ ((forall l, rest_due l s' -> exec l s' = None) -> rest_at s').
Proof.
  intros Hk Hl E. destruct (due_all_bounded _ _ _ Hk Hl E) as [Hk' ?]. split; [lia|]. intros Hstuck.
  destruct (rest_dec s') as [|Hn]; [done|]. destruct (rest_live _ Hk' Hn) as (l & Hd & [s2 E2]). by rewrite Hstuck in E2.
Qed.

(** When what is due depends on the label alone. *)
Lemma due_all_static (due : L -> bool) ls s :
  (forall l s, due l = true -> rest_due l s) -> forallb due ls = true -> due_all ls s.
Proof.
  intros Hd. revert s. induction ls as [|l ls IH]; intros s Hl; [done|]. apply andb_prop in Hl as [Hl Hls].
  split; [by apply Hd|]. destruct (exec l s); [by apply IH|done].
Qed.
End Rest.

(** ** Record update

    [s <| f := v |>] is the record [s] with field [f] replaced, written out as
    a constructor application when it is parsed.  A record type joins by an
    [Eta] instance, its eta expansion. *)
Class Eta (R : Type) := eta : R -> R.

Ltac head_of t := lazymatch t with ?f _ => head_of f | _ => t end.

(** [t] is [s] with every argument a projection of [s0] replaced by the argument
    of [s] in its place. *)
Ltac project t s0 s :=
  lazymatch t with
  | ?f ?a =>
      lazymatch s with
      | ?g ?b => let f' := project f s0 g in lazymatch a with ?p s0 => constr:(f' b) | _ => constr:(f' a) end
      end
  | _ => t
  end.

Ltac set_field s proj v :=
  let R := type of s in
  let inst := constr:(_ : Eta R) in
  let h := match inst with ?h => h end in
  let m := eval cbv beta delta [eta h] in (@eta R inst s) in
  let r := eval pattern (proj s) in m in
  lazymatch r with
  | ?F _ =>
      let t := eval cbv beta in (F v) in
      let c := head_of s in
      tryif is_constructor c then (let t' := project t s s in exact t') else exact t
  end.

Notation "s <| p := v |>" := (ltac:(set_field s p v)) (at level 1, left associativity, only parsing).

(** ** Calls in progress

    Threads inside a function, each with what it carries; the first entry of
    thread [t] is its innermost call. *)
Fixpoint take_key {A} (t : Z) (l : list (Z * A)) : option (A * list (Z * A)) :=
  match l with
  | [] => None
  | (t', a) :: l' =>
      if t' =? t then Some (a, l')
      else match take_key t l' with Some (a', r) => Some (a', (t', a) :: r) | None => None end
  end.

Lemma take_key_perm {A} t (l : list (Z * A)) a rest : take_key t l = Some (a, rest) -> l ≡ₚ (t, a) :: rest.
Proof.
  revert rest. induction l as [|[t' a'] l IH]; intros rest; simpl; [done|].
  destruct (t' =? t) eqn:E; [intros [= -> ->]; by apply Z.eqb_eq in E as ->|].
  destruct (take_key t l) as [[a1 r1]|]; [|done]. intros [= -> <-]. rewrite (IH r1) by done. apply Permutation_swap.
Qed.

(** ** Automation *)

Create HintDb clip discriminated.
Create Rewrite HintDb clip.

(** Split every boolean test and [decide] of the goal. *)
Ltac case_tests :=
  repeat match goal with
         | |- context [if ?b then _ else _] => destruct b eqn:?
         end.

(** Turn boolean integer comparisons of the context into propositions. *)
Ltac zbool :=
  repeat match goal with
         | H : (_ <? _) = true |- _ => apply Z.ltb_lt in H
         | H : (_ <? _) = false |- _ => apply Z.ltb_ge in H
         | H : (_ <=? _) = true |- _ => apply Z.leb_le in H
         | H : (_ <=? _) = false |- _ => apply Z.leb_gt in H
         | H : (_ =? _) = true |- _ => apply Z.eqb_eq in H
         | H : (_ =? _) = false |- _ => apply Z.eqb_neq in H
         | H : (_ && _)%bool = true |- _ => apply andb_prop in H; destruct H
         end.

(** Membership in explicit lists of constructors. *)
Ltac in_list :=
  unfold not; intros; repeat rewrite ?elem_of_app, ?elem_of_cons, ?elem_of_nil in *; intuition congruence.

(** ** Shared lemmas *)

(** Replacing one element of a list seen through [f]. *)
Lemma concat_map_split {A B} (f : A -> list B) (l : list A) i x :
  l !! i = Some x -> exists rest, concat (map f l) ≡ₚ f x ++ rest /\
    forall y, concat (map f (<[i := y]> l)) ≡ₚ f y ++ rest.
Proof.
  intros Hi. exists (concat (map f (take i l)) ++ concat (map f (drop (S i) l))).
  assert (Hmid : forall a y b, concat (map f (a ++ y :: b)) ≡ₚ f y ++ concat (map f a) ++ concat (map f b)).
  { intros a y b. rewrite map_app, concat_app. cbn [map concat].
    rewrite app_assoc, (Permutation_app_comm (concat _) (f y)). by rewrite <- app_assoc. }
  split.
  - rewrite <- (take_drop_middle _ _ _ Hi) at 1. apply Hmid.
  - intros y. rewrite insert_take_drop by (by eapply lookup_lt_Some). apply Hmid.
Qed.

(** Sums over a list with one element deleted or replaced. *)
Lemma sum_delete {A} (f : A -> nat) l i x : l !! i = Some x -> sum_list_with f l = (f x + sum_list_with f (delete i l))%nat.
Proof. intros Hx. by rewrite (delete_Permutation l i x) at 1. Qed.
Lemma sum_insert {A} (f : A -> nat) l i x y :
  l !! i = Some x -> (sum_list_with f (<[i:=y]> l) + f x = sum_list_with f l + f y)%nat.
Proof.
  revert i. induction l as [|z l IH]; intros [|i] Hx; simpl in *; simplify_eq; [lia|]. specialize (IH i Hx). lia.
Qed.

Lemma Zlen_nil {A} : Zlen (@nil A) = 0.
Proof. done. Qed.
Lemma Zlen_cons {A} (x : A) l : Zlen (x :: l) = 1 + Zlen l.
Proof. unfold Zlen. simpl. lia. Qed.
Lemma Zlen_app {A} (a b : list A) : Zlen (a ++ b) = Zlen a + Zlen b.
Proof. unfold Zlen. rewrite length_app. lia. Qed.
Lemma Zlen_nonneg {A} (l : list A) : 0 <= Zlen l.
Proof. unfold Zlen. lia. Qed.
Lemma Zlen_to_nat {A} (l : list A) : Z.to_nat (Zlen l) = length l.
Proof. unfold Zlen. lia. Qed.
#[export] Hint Rewrite @Zlen_nil @Zlen_cons @Zlen_app : clip.
#[export] Hint Resolve Zlen_nonneg : clip.

Lemma take_Zlen {A} (a b : list A) : take (Z.to_nat (Zlen a)) (a ++ b) = a.
Proof. rewrite Zlen_to_nat. apply take_app_length. Qed.
Lemma drop_Zlen {A} (a b : list A) : drop (Z.to_nat (Zlen a)) (a ++ b) = b.
Proof. rewrite Zlen_to_nat. apply drop_app_length. Qed.
#[export] Hint Rewrite @take_Zlen @drop_Zlen : clip.

Lemma Forall2_in_l {A B} (P : A -> B -> Prop) l k x : Forall2 P l k -> x ∈ l -> exists y, P x y.
Proof.
  induction 1 as [|x' y l k Hxy _ IH]; [by intros ?%not_elem_of_nil|]. intros [->|Hin]%elem_of_cons; [by exists y|auto].
Qed.
Lemma Forall2_impl_in {A B} (P Q : A -> B -> Prop) l k :
  Forall2 P l k -> (forall x y, x ∈ l -> P x y -> Q x y) -> Forall2 Q l k.
Proof.
  induction 1 as [|x y l k Hxy _ IH]; intros HPQ; [constructor|]. constructor; [apply HPQ; [by left|done]|].
  apply IH. intros x' y' Hin. apply HPQ. by right.
Qed.

Lemma bytes_eqb_eq a b : bytes_eqb a b = true <-> a = b.
Proof. unfold bytes_eqb. by rewrite bool_decide_eq_true. Qed.
Lemma bytes_eqb_refl a : bytes_eqb a a = true.
Proof. by apply bytes_eqb_eq. Qed.
Lemma bytes_eqb_neq a b : bytes_eqb a b = false <-> a <> b.
Proof. unfold bytes_eqb. by rewrite bool_decide_eq_false. Qed.

Lemma u8_small x : is_byte x -> u8 x = x.
Proof. intros H. by apply Z.mod_small. Qed.
Lemma u32_small x : is_u32 x -> u32 x = x.
Proof. intros H. by apply Z.mod_small. Qed.
Lemma u64_small x : is_u64 x -> u64 x = x.
Proof. intros H. by apply Z.mod_small. Qed.
Lemma u8_range x : is_byte (u8 x).
Proof. apply Z.mod_pos_bound. lia. Qed.
Lemma u16_range x : is_u16 (u16 x).
Proof. apply Z.mod_pos_bound. lia. Qed.
Lemma u32_range x : is_u32 (u32 x).
Proof. apply Z.mod_pos_bound. lia. Qed.
Lemma u64_range x : is_u64 (u64 x).
Proof. apply Z.mod_pos_bound. lia. Qed.
Lemma i32_small x : - 2 ^ 31 <= x < 2 ^ 31 -> i32 x = x.
Proof.
  intros H. unfold i32. destruct (decide (0 <= x)).
  - rewrite Z.mod_small by lia. case_tests; zbool; lia.
  - replace (x mod 2 ^ 32) with (x + 2 ^ 32) by (apply (Z.mod_unique_pos _ _ (-1)); lia).
    case_tests; zbool; lia.
Qed.
#[export] Hint Resolve u8_range u16_range u32_range u64_range : clip.

(** The low and high parts of a disjunction do not interfere. *)
Lemma lor_shiftl_add a b n :
  0 <= a < 2 ^ n -> 0 <= n -> Z.lor a (Z.shiftl b n) = a + b * 2 ^ n.
Proof.
  intros Ha Hn. rewrite <- Z.shiftl_mul_pow2 by done.
  assert (Hdisj : Z.land a (Z.shiftl b n) = 0).
  { apply Z.bits_inj'. intros i Hi. rewrite Z.land_spec, Z.bits_0.
    destruct (decide (i < n)).
    - rewrite (Z.shiftl_spec_low b n i) by lia. apply andb_false_r.
    - rewrite <- (Z.mod_small a (2 ^ n)) by lia. rewrite Z.mod_pow2_bits_high by lia. done. }
  symmetry. by rewrite <- Z.lxor_lor, <- Z.add_nocarry_lxor.
Qed.

Lemma land_ones_mod x n : 0 <= n -> Z.land x (2 ^ n - 1) = x mod 2 ^ n.
Proof. intros Hn. rewrite <- Z.land_ones by done. by rewrite Z.ones_equiv, Z.sub_1_r. Qed.

(** [std::to_string] is injective: the decimal digits determine the number. *)
Lemma to_string_loop_spec fuel n acc :
  0 <= n < 10 ^ Z.of_nat fuel ->
  exists ds, to_string_loop fuel n acc = ds ++ acc /\ of_decimal ds = n.
Proof.
  revert n acc. induction fuel as [|fuel IH]; intros n acc Hn.
  - change (10 ^ Z.of_nat 0) with 1 in Hn. exists []. split; [done|]. unfold of_decimal. simpl. lia.
  - simpl. destruct (n <? 10) eqn:E; zbool.
    + exists [48 + n mod 10]. split; [done|]. unfold of_decimal. simpl.
      rewrite Z.mod_small by lia. lia.
    + rewrite Nat2Z.inj_succ, Z.pow_succ_r in Hn by lia.
      destruct (IH (n / 10) ((48 + n mod 10) :: acc)) as (ds & Heq & Hd).
      { split; [apply Z.div_pos; lia|apply Z.div_lt_upper_bound; lia]. }
      exists (ds ++ [48 + n mod 10]). split; [by rewrite Heq, <- app_assoc|].
      unfold of_decimal in *. rewrite foldl_app, Hd. simpl.
      pose proof (Z.div_mod n 10). lia.
Qed.

Lemma of_decimal_to_string n : is_u64 n -> of_decimal (to_string n) = n.
Proof.
  intros Hn. unfold to_string.
  destruct (to_string_loop_spec 20 n []) as (ds & -> & <-); [unfold is_u64 in Hn; lia|].
  by rewrite app_nil_r.
Qed.

Lemma to_string_inj n m : is_u64 n -> is_u64 m -> to_string n = to_string m -> n = m.
Proof. intros Hn Hm E. rewrite <- (of_decimal_to_string n), E by done. by apply of_decimal_to_string. Qed.

Lemma to_string_length n : Zlen (to_string n) <= 20.
Proof.
  assert (Hl : forall fuel m acc, Zlen (to_string_loop fuel m acc) <= Z.of_nat fuel + Zlen acc).
  { induction fuel as [|fuel IH]; intros m acc; simpl; [lia|].
    destruct (m <? 10); [rewrite Zlen_cons; lia|]. specialize (IH (m / 10) ((48 + m mod 10) :: acc)).
    rewrite Zlen_cons in IH. lia. }
  apply (Hl 20%nat n []).
Qed.

(** The digits of a number are ASCII digits. *)
Lemma to_string_loop_digits fuel n acc :
  0 <= n -> Forall (fun d => 48 <= d <= 57) acc ->
  Forall (fun d => 48 <= d <= 57) (to_string_loop fuel n acc).
Proof.
  revert n acc. induction fuel as [|fuel IH]; intros n acc Hn Hacc; simpl; [done|].
  assert (Forall (fun d => 48 <= d <= 57) ((48 + n mod 10) :: acc)).
  { constructor; [|done]. pose proof (Z.mod_pos_bound n 10). lia. }
  destruct (n <? 10); [done|]. apply IH; [apply Z.div_pos; lia|done].
Qed.

Lemma to_string_digits n : 0 <= n -> Forall (fun d => 48 <= d <= 57) (to_string n).
Proof. intros Hn. by apply to_string_loop_digits. Qed.

(** ** Little-endian lemmas *)

Lemma le32_value x :
  Z.lor (Z.lor (u8 x) (Z.shiftl (u8 (Z.shiftr x 8)) 8))
        (Z.lor (Z.shiftl (u8 (Z.shiftr x 16)) 16) (Z.shiftl (u8 (Z.shiftr x 24)) 24)) = u32 x.
Proof.
  replace (Z.shiftl (u8 (Z.shiftr x 24)) 24) with (Z.shiftl (Z.shiftl (u8 (Z.shiftr x 24)) 8) 16)
    by (by rewrite Z.shiftl_shiftl).
  rewrite <- Z.shiftl_lor.
  pose proof (u8_range x). pose proof (u8_range (Z.shiftr x 8)).
  pose proof (u8_range (Z.shiftr x 16)). pose proof (u8_range (Z.shiftr x 24)). unfold is_byte in *.
  rewrite (lor_shiftl_add (u8 x)), (lor_shiftl_add (u8 (Z.shiftr x 16))) by lia.
  rewrite lor_shiftl_add by lia.
  unfold u8, u32. rewrite !Z.shiftr_div_pow2 by lia. Z.to_euclidean_division_equations. lia.
Qed.

Lemma i32_u32 x : - 2 ^ 31 <= x < 2 ^ 31 -> i32 (u32 x) = x.
Proof. intros H. rewrite <- (i32_small x H) at 2. unfold i32, u32. by rewrite Z.mod_mod by lia. Qed.
