(* ===== verification/HelperProto.v ===== *)
(** * HelperProto: the schema constants of [Proto/clipboard_helper.proto]

    The hand-maintained enumerations and field numbers of
    [windows/src/helper_proto.h] (the Linux copy is the same but for the
    FileMetadata numbers, which Windows keeps in [dispatch_codec.h]). *)

From S2P Require Import Prelude.

(** [enum class HelperMessageType : std::int32_t].  A C++ enumeration with a
    fixed underlying type holds any value of that type, so a number that names
    no enumerator is kept as [OtherMessage]. *)
Inductive HelperMessageType :=
| MtUnspecified
| SetClipboard
| AnnounceDelayed
| ProvideData
| GetClipboard
| Shutdown
| ClipboardChanged
| DataRequest
| ClipboardContent
| Error
| Ready
| FileChunkRequest
| FileChunkData
| FileTransferProgress
| OtherMessage (v : Z).

Definition message_type_value (t : HelperMessageType) : Z :=
  match t with
  | MtUnspecified => 0
  | SetClipboard => 1
  | AnnounceDelayed => 2
  | ProvideData => 3
  | GetClipboard => 4
  | Shutdown => 5
  | ClipboardChanged => 10
  | DataRequest => 11
  | ClipboardContent => 12
  | Error => 13
  | Ready => 14
  | FileChunkRequest => 15
  | FileChunkData => 16
  | FileTransferProgress => 17
  | OtherMessage v => v
  end.

(** [static_cast<HelperMessageType>] of an [int32_t]. *)
Definition message_type_of (v : Z) : HelperMessageType :=
  match v with
  | 0 => MtUnspecified
  | 1 => SetClipboard
  | 2 => AnnounceDelayed
  | 3 => ProvideData
  | 4 => GetClipboard
  | 5 => Shutdown
  | 10 => ClipboardChanged
  | 11 => DataRequest
  | 12 => ClipboardContent
  | 13 => Error
  | 14 => Ready
  | 15 => FileChunkRequest
  | 16 => FileChunkData
  | 17 => FileTransferProgress
  | v => OtherMessage v
  end.

(** [enum class ClipboardContentType : std::int32_t]. *)
Inductive ClipboardContentType :=
| CtUnspecified
| Text
| Image
| Files
| OtherContent (v : Z).

Definition content_type_value (t : ClipboardContentType) : Z :=
  match t with
  | CtUnspecified => 0
  | Text => 1
  | Image => 2
  | Files => 3
  | OtherContent v => v
  end.

Definition content_type_of (v : Z) : ClipboardContentType :=
  match v with
  | 0 => CtUnspecified
  | 1 => Text
  | 2 => Image
  | 3 => Files
  | v => OtherContent v
  end.

#[export] Instance HelperMessageType_eq_dec : EqDecision HelperMessageType.
Proof. solve_decision. Defined.
#[export] Instance ClipboardContentType_eq_dec : EqDecision ClipboardContentType.
Proof. solve_decision. Defined.

(** HelperMessage field numbers *)
Definition kFieldType : Z := 1.
Definition kFieldClipboardData : Z := 2.
Definition kFieldAnnouncement : Z := 3.
Definition kFieldProvideData : Z := 4.
Definition kFieldDataRequest : Z := 5.
Definition kFieldErrorMessage : Z := 6.
Definition kFieldTimestamp : Z := 7.
Definition kFieldFileChunkRequest : Z := 8.
Definition kFieldFileChunkData : Z := 9.

(** ClipboardData field numbers *)
Definition kCDFieldContentType : Z := 1.
Definition kCDFieldPayload : Z := 2.
Definition kCDFieldContentHash : Z := 3.
Definition kCDFieldFiles : Z := 4.
Definition kCDFieldTransferId : Z := 5.

(** HelperFileChunkRequest field numbers *)
Definition kFCReqFieldTransferId : Z := 1.
Definition kFCReqFieldFileId : Z := 2.
Definition kFCReqFieldOffset : Z := 3.
Definition kFCReqFieldSize : Z := 4.

(** HelperFileChunkData field numbers *)
Definition kFCDataFieldTransferId : Z := 1.
Definition kFCDataFieldFileId : Z := 2.
Definition kFCDataFieldOffset : Z := 3.
Definition kFCDataFieldData : Z := 4.
Definition kFCDataFieldIsLast : Z := 5.
Definition kFCDataFieldError : Z := 6.

(** ClipboardAnnouncement field numbers *)
Definition kAnnFieldContentType : Z := 1.
Definition kAnnFieldContentHash : Z := 2.
Definition kAnnFieldFiles : Z := 6.
Definition kAnnFieldTransferId : Z := 7.

(** ClipboardDataRequest field numbers *)
Definition kReqFieldContentHash : Z := 1.
Definition kReqFieldContentType : Z := 2.

(** HelperProvideData field numbers *)
Definition kPDFieldContentHash : Z := 1.
Definition kPDFieldData : Z := 2.

(** FileMetadata field numbers ([windows/src/dispatch_codec.h]) *)
Definition kFMFieldFileId : Z := 1.
Definition kFMFieldFilename : Z := 2.
Definition kFMFieldRelativePath : Z := 3.
Definition kFMFieldFileSize : Z := 4.
Definition kFMFieldIsDirectory : Z := 7.

Lemma message_type_of_value t :
  (forall v, t <> OtherMessage v) -> message_type_of (message_type_value t) = t.
Proof. destruct t; intros H; try done. by destruct (H v). Qed.

Lemma content_type_of_value t :
  (forall v, t <> OtherContent v) -> content_type_of (content_type_value t) = t.
Proof. destruct t; intros H; try done. by destruct (H v). Qed.

Lemma message_type_value_of v : message_type_value (message_type_of v) = v.
Proof. destruct v as [|p|p]; try done. do 5 (destruct p; try done). Qed.

Lemma content_type_value_of v : content_type_value (content_type_of v) = v.
Proof. destruct v as [|p|p]; try done. do 5 (destruct p; try done). Qed.
