(* ===== verification/ProtoWire.v ===== *)
(** * ProtoWire: protobuf wire-format primitives

    [proto_wire.h] / [proto_wire.cpp] (the Linux and Windows copies are the
    same text).  A [Writer] is its buffer [buf_]; a [Reader] is its unread
    suffix [data_ + pos_ .. data_ + size_), so [eof()] is emptiness and
    [remaining()] is the length. *)

From S2P Require Import Prelude.

Inductive WireType :=
| Varint
| Fixed64
| LengthDelim
| StartGroup
| EndGroup
| Fixed32
| OtherWire (v : Z).

#[export] Instance WireType_eq_dec : EqDecision WireType.
Proof. solve_decision. Defined.

Definition wire_value (w : WireType) : Z :=
  match w with
  | Varint => 0
  | Fixed64 => 1
  | LengthDelim => 2
  | StartGroup => 3
  | EndGroup => 4
  | Fixed32 => 5
  | OtherWire v => v
  end.

(** [static_cast<WireType>] of a 3-bit value. *)
Definition wire_of (v : Z) : WireType :=
  match v with
  | 0 => Varint
  | 1 => Fixed64
  | 2 => LengthDelim
  | 3 => StartGroup
  | 4 => EndGroup
  | 5 => Fixed32
  | v => OtherWire v
  end.

Definition MakeTag (field_number : Z) (wire : WireType) : Z :=
  Z.lor (u32 (Z.shiftl field_number 3)) (u32 (wire_value wire)).

(** ** Writer *)

Definition Writer : Type := list Z.

(** [while (value >= 0x80) ... value >>= 7]: ten rounds cover 64 bits. *)
Fixpoint WriteVarint_loop (fuel : nat) (value : Z) (buf : Writer) : Writer :=
  match fuel with
  | O => buf
  | S fuel' =>
      if value >=? 0x80
      then WriteVarint_loop fuel' (Z.shiftr value 7)
             (buf ++ [u8 (Z.lor (Z.land value 0x7F) 0x80)])
      else buf ++ [u8 value]
  end.
Definition WriteVarint (value : Z) (buf : Writer) : Writer := WriteVarint_loop 10 value buf.

Definition WriteTag (field_number : Z) (wire : WireType) (buf : Writer) : Writer :=
  WriteVarint (MakeTag field_number wire) buf.

Definition WriteUint32Field (field_number value : Z) (buf : Writer) : Writer :=
  if value =? 0 then buf
  else WriteVarint value (WriteTag field_number Varint buf).

(** A negative [int32_t] is sign-extended to 64 bits (a ten-byte varint). *)
Definition WriteInt32Field (field_number value : Z) (buf : Writer) : Writer :=
  if value =? 0 then buf
  else WriteVarint (u64 value) (WriteTag field_number Varint buf).

Definition WriteUint64Field (field_number value : Z) (buf : Writer) : Writer :=
  if value =? 0 then buf
  else WriteVarint value (WriteTag field_number Varint buf).

Definition WriteBoolField (field_number : Z) (value : bool) (buf : Writer) : Writer :=
  if negb value then buf
  else WriteVarint (if value then 1 else 0) (WriteTag field_number Varint buf).

Definition WriteEnumField (field_number value : Z) (buf : Writer) : Writer :=
  WriteInt32Field field_number value buf.

Definition WriteStringField (field_number : Z) (value : list Z) (buf : Writer) : Writer :=
  match value with
  | [] => buf
  | _ => WriteVarint (Zlen value) (WriteTag field_number LengthDelim buf) ++ value
  end.

Definition WriteBytesField (field_number : Z) (data : list Z) (buf : Writer) : Writer :=
  if Zlen data =? 0 then buf
  else WriteVarint (Zlen data) (WriteTag field_number LengthDelim buf) ++ data.

Definition WriteSubMessageField (field_number : Z) (sub : list Z) (buf : Writer) : Writer :=
  WriteVarint (Zlen sub) (WriteTag field_number LengthDelim buf) ++ sub.

(** ** Reader *)

Definition eof (r : list Z) : bool := match r with [] => true | _ => false end.
Definition remaining (r : list Z) : Z := Zlen r.

Fixpoint ReadVarint_loop (out_value shift : Z) (r : list Z) : option (Z * list Z) :=
  match r with
  | [] => None
  | b :: r' =>
      let out_value := Z.lor out_value (u64 (Z.shiftl (Z.land b 0x7F) shift)) in
      if Z.land b 0x80 =? 0 then Some (out_value, r')
      else let shift := shift + 7 in
           if shift >? 63 then None else ReadVarint_loop out_value shift r'
  end.
Definition ReadVarint : Parser Z := ReadVarint_loop 0 0.

Definition ReadTag : Parser (Z * WireType) :=
  tag ← ReadVarint;
  mret (u32 (Z.shiftr tag 3), wire_of (Z.land tag 0x07)).

(** [out_data]/[out_len] is the span handed out; [pos_ += out_len]. *)
Definition take_span (len : Z) : Parser (list Z) := fun r =>
  if len >? remaining r then None
  else Some (take (Z.to_nat len) r, drop (Z.to_nat len) r).
Definition ReadLengthDelim : Parser (list Z) := len ← ReadVarint; take_span len.

Definition skip_bytes (n : Z) : Parser unit := fun r =>
  if remaining r <? n then None else Some (tt, drop (Z.to_nat n) r).

Definition SkipField (wire : WireType) : Parser unit :=
  match wire with
  | Varint => _ ← ReadVarint; mret tt
  | Fixed64 => skip_bytes 8
  | LengthDelim => _ ← ReadLengthDelim; mret tt
  | Fixed32 => skip_bytes 4
  | _ => pfail
  end.

(** The [while (!r.eof())] loop every [Parse*] function is: one round reads a
    tag and its payload and updates [out]. *)
Fixpoint parse_loop {A} (round : A -> Parser A) (fuel : nat) (out : A) (r : list Z) : outcome A :=
  match fuel with
  | O => OutOfFuel
  | S fuel' =>
      if eof r then Done out
      else match round out r with
           | None => Malformed
           | Some (out', r') => parse_loop round fuel' out' r'
           end
  end.

(** One more unit of fuel than there are bytes: every round consumes at least
    the tag ([parse_all_terminates]). *)
Definition parse_all {A} (round : A -> Parser A) (out : A) (r : list Z) : outcome A :=
  parse_loop round (S (length r)) out r.

(** ** Framing of parsers

    What every parser built from the Reader methods guarantees: it hands on a
    suffix of its input, and bytes it has not looked at do not matter. *)
Class Framed {A} (p : Parser A) : Prop := {
  framed_suffix : forall r a r', p r = Some (a, r') -> exists used, r = used ++ r';
  framed_more : forall r a r' s, p r = Some (a, r') -> p (r ++ s) = Some (a, r' ++ s)
}.

(** ... and a parser that always consumes. *)
Class Consuming {A} (p : Parser A) : Prop :=
  consuming : forall r a r', p r = Some (a, r') -> (length r' < length r)%nat.

#[export] Instance framed_ret {A} (a : A) : Framed (mret a : Parser A).
Proof.
  split; unfold mret, Parser_ret; intros; simplify_eq.
  - by exists [].
  - done.
Qed.

#[export] Instance framed_bind {A B} (p : Parser A) (k : A -> Parser B) :
  Framed p -> (forall a, Framed (k a)) -> Framed (p ≫= k).
Proof.
  intros Hp Hk. split; unfold mbind, Parser_bind.
  - intros r b r' H. destruct (p r) as [[a r1]|] eqn:E; [|done].
    destruct (framed_suffix _ _ _ E) as [u1 ->].
    destruct (framed_suffix (p := k a) _ _ _ H) as [u2 ->].
    exists (u1 ++ u2). by rewrite app_assoc.
  - intros r b r' s H. destruct (p r) as [[a r1]|] eqn:E; [|done].
    rewrite (framed_more _ _ _ s E). by apply (framed_more (p := k a)).
Qed.

#[export] Instance framed_fail {A} : Framed (@pfail A).
Proof. by split. Qed.

#[export] Instance framed_if {A} (b : bool) (p q : Parser A) :
  Framed p -> Framed q -> Framed (if b then p else q).
Proof. by destruct b. Qed.

#[export] Instance consuming_bind {A B} (p : Parser A) (k : A -> Parser B) :
  Consuming p -> (forall a, Framed (k a)) -> Consuming (p ≫= k).
Proof.
  intros Hp Hk r b r'. unfold mbind, Parser_bind.
  destruct (p r) as [[a r1]|] eqn:E; [|done]. intros H.
  apply Hp in E. destruct (framed_suffix (p := k a) _ _ _ H) as [u ->].
  rewrite length_app in E. lia.
Qed.

Lemma ReadVarint_loop_suffix acc shift r a r' :
  ReadVarint_loop acc shift r = Some (a, r') -> exists b used, r = b :: used ++ r'.
Proof.
  revert acc shift. induction r as [|b r IH]; intros acc shift; simpl; [done|].
  case_tests; intros H; simplify_eq.
  - by exists b, [].
  - destruct (IH _ _ H) as (b' & u & ->). by exists b, (b' :: u).
Qed.

Lemma ReadVarint_loop_more acc shift r a r' s :
  ReadVarint_loop acc shift r = Some (a, r') ->
  ReadVarint_loop acc shift (r ++ s) = Some (a, r' ++ s).
Proof.
  revert acc shift. induction r as [|b r IH]; intros acc shift; simpl; [done|].
  case_tests; intros H; simplify_eq; auto.
Qed.

#[export] Instance framed_ReadVarint : Framed ReadVarint.
Proof.
  split; intros.
  - destruct (ReadVarint_loop_suffix _ _ _ _ _ H) as (b & u & ->). by exists (b :: u).
  - by apply ReadVarint_loop_more.
Qed.

#[export] Instance consuming_ReadVarint : Consuming ReadVarint.
Proof.
  intros r a r' H. destruct (ReadVarint_loop_suffix _ _ _ _ _ H) as (b & u & ->).
  simpl. rewrite length_app. lia.
Qed.

#[export] Instance framed_take_span len : Framed (take_span len).
Proof.
  split; unfold take_span, remaining; intros; destruct (len >? _) eqn:E; simplify_eq.
  - exists (take (Z.to_nat len) r). by rewrite take_drop.
  - rewrite Zlen_app. pose proof (Zlen_nonneg s).
    replace (len >? Zlen r + Zlen s) with false by (rewrite Z.gtb_ltb in *; zbool; symmetry; apply Z.ltb_ge; lia).
    rewrite Z.gtb_ltb in E. zbool. unfold Zlen in *.
    rewrite take_app_le, drop_app_le by lia. done.
Qed.

#[export] Instance framed_skip_bytes n : Framed (skip_bytes n).
Proof.
  split; unfold skip_bytes, remaining; intros; destruct (_ <? n) eqn:E; simplify_eq.
  - exists (take (Z.to_nat n) r). by rewrite take_drop.
  - rewrite Zlen_app. pose proof (Zlen_nonneg s). zbool.
    replace (Zlen r + Zlen s <? n) with false by (symmetry; apply Z.ltb_ge; lia).
    unfold Zlen in *. by rewrite drop_app_le by lia.
Qed.

#[export] Instance framed_ReadTag : Framed ReadTag := _.
#[export] Instance consuming_ReadTag : Consuming ReadTag := _.
#[export] Instance framed_ReadLengthDelim : Framed ReadLengthDelim := _.
#[export] Instance consuming_ReadLengthDelim : Consuming ReadLengthDelim := _.
#[export] Instance framed_SkipField wire : Framed (SkipField wire).
Proof. destruct wire; apply _. Qed.

(** The parsers are opaque to the class search from here on, so that instances
    are found by their names. *)
#[global] Typeclasses Opaque ReadVarint ReadTag ReadLengthDelim SkipField take_span skip_bytes pfail.

(** ** The parse loop *)

Section ParseLoop.
Context {A : Type} (round : A -> Parser A).
Context `{Hframed : forall out, Framed (round out)}.
Context `{Hcons : forall out, Consuming (round out)}.

Lemma parse_loop_fuel n m out r :
  (length r < n)%nat -> (length r < m)%nat ->
  parse_loop round n out r = parse_loop round m out r.
Proof.
  revert m out r. induction n as [|n IH]; intros [|m] out r Hn Hm; try lia.
  simpl. destruct (eof r); [done|].
  destruct (round out r) as [[out' r']|] eqn:E; [|done].
  apply Hcons in E. apply IH; lia.
Qed.

(** Enough fuel: the loop never runs out, whatever the bytes. *)
Lemma parse_all_fuel out r : parse_all round out r <> OutOfFuel.
Proof.
  unfold parse_all. generalize (Nat.lt_succ_diag_r (length r)).
  generalize (S (length r)). intros n. revert out r.
  induction n as [|n IH]; intros out r Hn; [lia|]. simpl.
  destruct (eof r); [done|].
  destruct (round out r) as [[out' r']|] eqn:E; [|done].
  apply Hcons in E. apply IH. lia.
Qed.

(** One turn of the loop. *)
Lemma parse_all_unfold out r :
  parse_all round out r =
  if eof r then Done out
  else match round out r with
       | None => Malformed
       | Some (out', r') => parse_all round out' r'
       end.
Proof.
  unfold parse_all at 1. simpl. destruct (eof r); [done|].
  destruct (round out r) as [[out' r']|] eqn:E; [|done].
  apply Hcons in E. unfold parse_all. apply parse_loop_fuel; lia.
Qed.

Lemma parse_all_nil out : parse_all round out [] = Done out.
Proof. done. Qed.

(** A round that succeeds on a prefix is one turn of the loop. *)
Lemma parse_all_round out r out' rest :
  round out r = Some (out', []) -> parse_all round out (r ++ rest) = parse_all round out' rest.
Proof.
  intros H. rewrite parse_all_unfold.
  pose proof (Hcons _ _ _ _ H) as Hlen. destruct r as [|b r]; [simpl in Hlen; lia|].
  simpl. rewrite app_comm_cons. by rewrite (framed_more _ _ _ rest H).
Qed.

End ParseLoop.

(** ** Round trips *)

Lemma WriteVarint_loop_app fuel v buf :
  WriteVarint_loop fuel v buf = buf ++ WriteVarint_loop fuel v [].
Proof.
  revert v buf. induction fuel as [|fuel IH]; intros v buf; simpl; [by rewrite app_nil_r|].
  destruct (v >=? 128); [|done].
  rewrite IH, (IH _ [_]). by rewrite <- app_assoc.
Qed.

Lemma WriteVarint_app v buf : WriteVarint v buf = buf ++ WriteVarint v [].
Proof. apply WriteVarint_loop_app. Qed.

Lemma WriteTag_app f w buf : WriteTag f w buf = buf ++ WriteTag f w [].
Proof. apply WriteVarint_app. Qed.

(** Every field writer appends to the buffer. *)
Lemma WriteUint64Field_app f v buf : WriteUint64Field f v buf = buf ++ WriteUint64Field f v [].
Proof.
  unfold WriteUint64Field. destruct (v =? 0); [by rewrite app_nil_r|].
  rewrite WriteVarint_app, (WriteVarint_app v (WriteTag _ _ _)), (WriteTag_app _ _ buf).
  by rewrite app_assoc.
Qed.
Lemma WriteEnumField_app f v buf : WriteEnumField f v buf = buf ++ WriteEnumField f v [].
Proof.
  unfold WriteEnumField, WriteInt32Field. destruct (v =? 0); [by rewrite app_nil_r|].
  rewrite WriteVarint_app, (WriteVarint_app _ (WriteTag _ _ _)), (WriteTag_app _ _ buf).
  by rewrite app_assoc.
Qed.
Lemma WriteBoolField_app f v buf : WriteBoolField f v buf = buf ++ WriteBoolField f v [].
Proof.
  unfold WriteBoolField. destruct v; simpl; [|by rewrite app_nil_r].
  rewrite WriteVarint_app, (WriteVarint_app _ (WriteTag _ _ _)), (WriteTag_app _ _ buf).
  by rewrite app_assoc.
Qed.
Lemma WriteSubMessageField_app f v buf :
  WriteSubMessageField f v buf = buf ++ WriteSubMessageField f v [].
Proof.
  unfold WriteSubMessageField.
  rewrite WriteVarint_app, (WriteVarint_app _ (WriteTag _ _ _)), (WriteTag_app _ _ buf).
  by rewrite !app_assoc.
Qed.
Lemma WriteStringField_sub f v buf :
  WriteStringField f v buf = match v with [] => buf | _ => WriteSubMessageField f v buf end.
Proof. by destruct v. Qed.
Lemma WriteBytesField_sub f v buf :
  WriteBytesField f v buf = match v with [] => buf | _ => WriteSubMessageField f v buf end.
Proof. by destruct v. Qed.
Lemma WriteStringField_app f v buf : WriteStringField f v buf = buf ++ WriteStringField f v [].
Proof.
  rewrite !WriteStringField_sub. destruct v; [by rewrite app_nil_r|]. apply WriteSubMessageField_app.
Qed.
Lemma WriteBytesField_app f v buf : WriteBytesField f v buf = buf ++ WriteBytesField f v [].
Proof.
  rewrite !WriteBytesField_sub. destruct v; [by rewrite app_nil_r|]. apply WriteSubMessageField_app.
Qed.

(** The bytes of a varint: seven bits and, but for the last, the top bit. *)
Lemma varint_more v :
  0 <= Z.land v 127 < 128 /\ Z.lor (Z.land v 127) 128 = Z.land v 127 + 1 * 2 ^ 7 /\
  Z.land (Z.land v 127 + 1 * 2 ^ 7) 127 = Z.land v 127 /\ Z.land (Z.land v 127 + 1 * 2 ^ 7) 128 = 128 /\
  v = Z.land v 127 + Z.shiftr v 7 * 2 ^ 7.
Proof.
  change 127 with (2 ^ 7 - 1). rewrite !land_ones_mod by lia.
  assert (Hlow : 0 <= v mod 2 ^ 7 < 2 ^ 7) by (apply Z.mod_pos_bound; lia).
  assert (Hb : Z.lor (v mod 2 ^ 7) 128 = v mod 2 ^ 7 + 1 * 2 ^ 7).
  { change 128 with (Z.shiftl 1 7). apply lor_shiftl_add; lia. }
  split_and!; [lia|lia|done| | |].
  - rewrite Z.mod_add by lia. apply Z.mod_mod. lia.
  - rewrite <- Hb, Z.land_lor_distr_l. rewrite <- land_ones_mod, <- Z.land_assoc by lia.
    change (Z.land (2 ^ 7 - 1) 128) with 0. by rewrite Z.land_0_r.
  - rewrite Z.shiftr_div_pow2 by lia. pose proof (Z.div_mod v (2 ^ 7)). lia.
Qed.

Lemma varint_last v : 0 <= v < 128 -> Z.land v 127 = v /\ Z.land v 128 = 0.
Proof.
  intros Hv. split.
  - change 127 with (2 ^ 7 - 1). by rewrite land_ones_mod, Z.mod_small by lia.
  - change 128 with (Z.shiftl 1 7). apply Z.bits_inj'. intros i Hi.
    rewrite Z.land_spec, Z.bits_0. destruct (decide (i < 7)).
    + rewrite Z.shiftl_spec_low by lia. apply andb_false_r.
    + rewrite <- (Z.mod_small v (2 ^ 7)) by lia. rewrite Z.mod_pow2_bits_high by lia. done.
Qed.

(** The varint reader inverts the varint writer at every shift. *)
Lemma varint_loop_roundtrip fuel v acc shift rest :
  0 <= v < 2 ^ (64 - shift) -> 0 <= shift <= 63 -> 0 <= acc < 2 ^ shift ->
  v < 2 ^ (7 * Z.of_nat fuel) -> (0 < fuel)%nat ->
  (shift <= 56 \/ v < 128) ->
  ReadVarint_loop acc shift (WriteVarint_loop fuel v [] ++ rest) = Some (acc + v * 2 ^ shift, rest).
Proof.
  revert v acc shift. induction fuel as [|fuel IH]; intros v acc shift Hv Hs Hacc Hf Hpos Hlast; [lia|].
  assert (Hs2 : 0 < 2 ^ shift) by (apply Z.pow_pos_nonneg; lia).
  assert (Hbnd : forall x, 0 <= x < 2 ^ (64 - shift) -> u64 (Z.shiftl x shift) = Z.shiftl x shift).
  { intros x Hx. apply u64_small. unfold is_u64. rewrite Z.shiftl_mul_pow2 by lia.
    assert (H64 : 2 ^ 64 = 2 ^ (64 - shift) * 2 ^ shift) by (rewrite <- Z.pow_add_r by lia; f_equal; lia). rewrite H64. nia. }
  simpl WriteVarint_loop. destruct (v >=? 128) eqn:E; rewrite Z.geb_leb in E; zbool.
  - destruct (varint_more v) as (Hlow & Hb & H7f & H80 & Hsplit).
    rewrite WriteVarint_loop_app. simpl app. cbn [ReadVarint_loop].
    rewrite Hb, u8_small by (unfold is_byte; lia). rewrite H7f, H80. cbn [Z.eqb].
    replace (shift + 7 >? 63) with false by (symmetry; rewrite Z.gtb_ltb; apply Z.ltb_ge; lia).
    assert (Hle : 2 ^ 7 <= 2 ^ (64 - shift)) by (apply Z.pow_le_mono_r; lia).
    rewrite Hbnd by lia. rewrite lor_shiftl_add by lia.
    assert (Hshr : 0 <= Z.shiftr v 7) by (apply Z.shiftr_nonneg; lia).
    assert (Hp1 : 2 ^ (64 - shift) = 2 ^ (64 - (shift + 7)) * 2 ^ 7) by (rewrite <- Z.pow_add_r by lia; f_equal; lia).
    assert (Hp2 : 2 ^ (shift + 7) = 2 ^ shift * 2 ^ 7) by (apply Z.pow_add_r; lia).
    assert (Hp3 : 2 ^ (7 * Z.of_nat (S fuel)) = 2 ^ (7 * Z.of_nat fuel) * 2 ^ 7) by (rewrite <- Z.pow_add_r by lia; f_equal; lia).
    rewrite IH.
    + f_equal. f_equal. rewrite Hp2. rewrite Hsplit at 3. ring.
    + rewrite Hp1 in Hv. nia.
    + lia.
    + rewrite Hp2. nia.
    + rewrite Hp3 in Hf. nia.
    + destruct fuel; [|lia]. simpl in Hf. lia.
    + destruct Hlast as [Hl|Hl]; [|lia]. destruct (decide (shift <= 49)); [lia|].
      right. assert (2 ^ (64 - shift) <= 2 ^ 14) by (apply Z.pow_le_mono_r; lia). lia.
  - destruct (varint_last v) as [H7f H80]; [lia|].
    simpl app. cbn [ReadVarint_loop]. rewrite u8_small by (unfold is_byte; lia). rewrite H7f, H80.
    simpl. rewrite Hbnd by lia. by rewrite lor_shiftl_add by lia.
Qed.

Lemma ReadVarint_WriteVarint v rest :
  is_u64 v -> ReadVarint (WriteVarint v [] ++ rest) = Some (v, rest).
Proof.
  intros Hv. unfold ReadVarint, WriteVarint. rewrite varint_loop_roundtrip.
  - f_equal. f_equal. lia.
  - unfold is_u64 in Hv. lia.
  - lia.
  - lia.
  - unfold is_u64 in Hv. change (7 * Z.of_nat 10) with 70. lia.
  - lia.
  - lia.
Qed.

Lemma parser_bind_some {A B} (p : Parser A) (k : A -> Parser B) r a r' :
  p r = Some (a, r') -> (p ≫= k) r = k a r'.
Proof. intros H. unfold mbind, Parser_bind. by rewrite H. Qed.

Lemma parser_bind_inv {A B} (p : Parser A) (k : A -> Parser B) r b r' :
  (p ≫= k) r = Some (b, r') -> exists a r1, p r = Some (a, r1) /\ k a r1 = Some (b, r').
Proof. unfold mbind, Parser_bind. destruct (p r) as [[a r1]|]; [eauto|done]. Qed.

(** Field numbers and wire types the writers are used with. *)
Definition tag_ok (f : Z) (w : WireType) : Prop :=
  0 <= f < 2 ^ 29 /\ wire_of (wire_value w) = w /\ 0 <= wire_value w < 8.

Lemma ReadTag_WriteTag f w rest :
  tag_ok f w -> ReadTag (WriteTag f w [] ++ rest) = Some ((f, w), rest).
Proof.
  intros (Hf & Hw & Hv). unfold ReadTag, WriteTag, MakeTag.
  rewrite (u32_small (wire_value w)), Z.lor_comm by (unfold is_u32; lia).
  rewrite (u32_small (Z.shiftl f 3)) by (unfold is_u32; rewrite Z.shiftl_mul_pow2; lia).
  rewrite lor_shiftl_add by lia.
  erewrite parser_bind_some by (apply ReadVarint_WriteVarint; unfold is_u64; lia).
  unfold mret, Parser_ret. f_equal. f_equal. f_equal.
  - rewrite Z.shiftr_div_pow2, Z.div_add, Z.div_small, Z.add_0_l by lia. apply u32_small. unfold is_u32. lia.
  - change 7 with (2 ^ 3 - 1). rewrite land_ones_mod, Z.mod_add, Z.mod_small by lia. done.
Qed.

Lemma ReadLengthDelim_written s rest :
  Zlen s < 2 ^ 64 -> ReadLengthDelim (WriteVarint (Zlen s) [] ++ s ++ rest) = Some (s, rest).
Proof.
  intros Hs. unfold ReadLengthDelim.
  erewrite parser_bind_some
    by (apply ReadVarint_WriteVarint; unfold is_u64; pose proof (Zlen_nonneg s); lia).
  unfold take_span, remaining. rewrite Zlen_app. pose proof (Zlen_nonneg rest).
  replace (Zlen s >? Zlen s + Zlen rest) with false
    by (symmetry; rewrite Z.gtb_ltb; apply Z.ltb_ge; lia).
  by autorewrite with clip.
Qed.

(** A round that starts with [ReadTag] on a written varint field. *)
Lemma round_varint {A} (k : Z * WireType -> Parser A) f v rest :
  tag_ok f Varint -> v <> 0 ->
  (ReadTag ≫= k) (WriteUint64Field f v [] ++ rest) = k (f, Varint) (WriteVarint v [] ++ rest).
Proof.
  intros Ht Hv. unfold WriteUint64Field. replace (v =? 0) with false by (symmetry; by apply Z.eqb_neq).
  rewrite WriteVarint_app, <- app_assoc. apply parser_bind_some. by apply ReadTag_WriteTag.
Qed.

(** ... and on a written length-delimited field. *)
Lemma round_len {A} (k : Z * WireType -> Parser A) f s rest :
  tag_ok f LengthDelim ->
  (ReadTag ≫= k) (WriteSubMessageField f s [] ++ rest) =
  k (f, LengthDelim) (WriteVarint (Zlen s) [] ++ s ++ rest).
Proof.
  intros Ht. unfold WriteSubMessageField.
  rewrite WriteVarint_app, <- !app_assoc. apply parser_bind_some. by apply ReadTag_WriteTag.
Qed.

Lemma ReadVarint_loop_range acc shift r v r' :
  0 <= shift -> 0 <= acc < 2 ^ 64 -> ReadVarint_loop acc shift r = Some (v, r') -> is_u64 v.
Proof.
  revert acc shift. induction r as [|b r IH]; intros acc shift Hs Hacc; simpl; [done|].
  set (x := u64 _). assert (Hx : is_u64 x) by apply u64_range.
  assert (Hor : 0 <= Z.lor acc x < 2 ^ 64).
  { unfold is_u64 in Hx. split; [apply Z.lor_nonneg; lia|].
    destruct (decide (Z.lor acc x = 0)) as [->|Hne]; [lia|].
    apply Z.log2_lt_pow2; [assert (0 <= Z.lor acc x) by (apply Z.lor_nonneg; lia); lia|].
    rewrite Z.log2_lor by lia. apply Z.max_lub_lt.
    - destruct (decide (acc = 0)) as [->|]; [done|]. apply Z.log2_lt_pow2; lia.
    - destruct (decide (x = 0)) as [->|]; [done|]. apply Z.log2_lt_pow2; lia. }
  destruct (Z.land b 128 =? 0); intros H; simplify_eq; [done|].
  destruct (shift + 7 >? 63); [done|]. eapply IH; [|exact Hor|done]. lia.
Qed.

Lemma ReadVarint_range r v r' : ReadVarint r = Some (v, r') -> is_u64 v.
Proof. apply ReadVarint_loop_range; lia. Qed.

Lemma take_span_split len r s r' :
  0 <= len -> take_span len r = Some (s, r') -> r = s ++ r' /\ Zlen s = len.
Proof.
  unfold take_span, remaining. intros Hlen. destruct (len >? Zlen r) eqn:E; [done|].
  rewrite Z.gtb_ltb in E. zbool. intros H. simplify_eq. split; [by rewrite take_drop|].
  unfold Zlen in *. rewrite length_take. lia.
Qed.

Lemma ReadLengthDelim_split r s r' :
  ReadLengthDelim r = Some (s, r') -> exists hdr, r = hdr ++ s ++ r' /\ hdr <> [].
Proof.
  unfold ReadLengthDelim. intros H. apply parser_bind_inv in H as (len & r1 & Hv & Ht).
  pose proof (ReadVarint_range _ _ _ Hv) as Hrange.
  apply take_span_split in Ht as [-> _]; [|unfold is_u64 in Hrange; lia].
  destruct (ReadVarint_loop_suffix _ _ _ _ _ Hv) as (b & u & ->). by exists (b :: u).
Qed.

(** ** Properties *)

(** A wire field as any protobuf encoder may emit it, known or not. *)
Inductive WireField :=
| VarintField (f v : Z)
| Fixed64Field (f : Z) (payload : list Z)
| LengthField (f : Z) (payload : list Z)
| Fixed32Field (f : Z) (payload : list Z).

Definition field_number (x : WireField) : Z :=
  match x with VarintField f _ | Fixed64Field f _ | LengthField f _ | Fixed32Field f _ => f end.

Definition encode_field (x : WireField) : list Z :=
  match x with
  | VarintField f v => WriteTag f Varint [] ++ WriteVarint v []
  | Fixed64Field f p => WriteTag f Fixed64 [] ++ p
  | LengthField f p => WriteTag f LengthDelim [] ++ WriteVarint (Zlen p) [] ++ p
  | Fixed32Field f p => WriteTag f Fixed32 [] ++ p
  end.

Definition field_ok (x : WireField) : Prop :=
  0 <= field_number x < 2 ^ 29 /\
  match x with
  | VarintField _ v => is_u64 v
  | Fixed64Field _ p => length p = 8%nat
  | LengthField _ p => Zlen p < 2 ^ 64
  | Fixed32Field _ p => length p = 4%nat
  end.

Definition field_wire (x : WireField) : WireType :=
  match x with
  | VarintField _ _ => Varint
  | Fixed64Field _ _ => Fixed64
  | LengthField _ _ => LengthDelim
  | Fixed32Field _ _ => Fixed32
  end.

Lemma SkipField_payload x :
  field_ok x ->
  forall rest, exists body,
    encode_field x ++ rest = WriteTag (field_number x) (field_wire x) [] ++ body /\
    SkipField (field_wire x) body = Some (tt, rest).
Proof.
  intros [Hf Hp] rest. destruct x as [f v|f p|f p|f p]; simpl in *; rewrite <- ?app_assoc;
    eexists; (split; [reflexivity|]).
  - unfold SkipField. erewrite parser_bind_some by (by apply ReadVarint_WriteVarint). done.
  - unfold SkipField, skip_bytes, remaining. unfold Zlen. rewrite length_app.
    replace (_ <? 8) with false by (symmetry; apply Z.ltb_ge; lia).
    rewrite drop_app_length' by lia. done.
  - unfold SkipField. erewrite parser_bind_some by (by apply ReadLengthDelim_written). done.
  - unfold SkipField, skip_bytes, remaining. unfold Zlen. rewrite length_app.
    replace (_ <? 4) with false by (symmetry; apply Z.ltb_ge; lia).
    rewrite drop_app_length' by lia. done.
Qed.

Lemma field_tag_ok x : field_ok x -> tag_ok (field_number x) (field_wire x).
Proof. intros [Hf _]. destruct x; repeat split; simpl in *; try lia; done. Qed.

Lemma WriteVarint_loop_bytes fuel v :
  0 <= v -> v < 2 ^ (7 * Z.of_nat fuel) -> (0 < fuel)%nat ->
  Forall is_byte (WriteVarint_loop fuel v []) /\
  (1 <= length (WriteVarint_loop fuel v []) <= fuel)%nat.
Proof.
  revert v. induction fuel as [|fuel IH]; intros v H0 Hv Hf; [lia|]. simpl.
  destruct (v >=? 128) eqn:E.
  - rewrite Z.geb_leb in E. zbool. rewrite WriteVarint_loop_app.
    assert (Hp : 2 ^ (7 * Z.of_nat (S fuel)) = 2 ^ (7 * Z.of_nat fuel) * 2 ^ 7)
      by (rewrite <- Z.pow_add_r by lia; f_equal; lia).
    destruct (IH (Z.shiftr v 7)) as [Hb Hl].
    + apply Z.shiftr_nonneg. lia.
    + rewrite Z.shiftr_div_pow2 by lia. apply Z.div_lt_upper_bound; lia.
    + destruct fuel; [|lia]. simpl in Hv. lia.
    + split; [constructor; [apply u8_range|done]|]. simpl. lia.
  - split; [constructor; [apply u8_range|done]|]. simpl. lia.
Qed.

(** A 64-bit value written by [Writer::WriteVarint] takes one to ten bytes and
    [Reader::ReadVarint] reads back exactly that value and stops exactly after
    it, whatever follows. *)
Theorem varint_roundtrip v rest :
  is_u64 v ->
  Forall is_byte (WriteVarint v []) /\
  (1 <= length (WriteVarint v []) <= 10)%nat /\
  ReadVarint (WriteVarint v [] ++ rest) = Some (v, rest).
Proof.
  intros Hv. unfold is_u64 in Hv. split_and!.
  - apply (WriteVarint_loop_bytes 10); simpl; lia.
  - apply (WriteVarint_loop_bytes 10); simpl; lia.
  - apply (WriteVarint_loop_bytes 10); simpl; lia.
  - by apply ReadVarint_WriteVarint.
Qed.

Lemma varint_roundtrip_witness :
  is_u64 (2 ^ 64 - 1) /\
  ReadVarint (WriteVarint (2 ^ 64 - 1) [] ++ [7]) = Some (2 ^ 64 - 1, [7]).
Proof.
  assert (H : is_u64 (2 ^ 64 - 1)) by (unfold is_u64; lia).
  split; [exact H|]. exact (proj2 (proj2 (varint_roundtrip (2 ^ 64 - 1) [7] H))).
Defined.

(** Memory safety of the Reader on arbitrary bytes: every span
    [ReadLengthDelim] hands out lies inside the buffer, between the length
    prefix it read and the bytes it leaves, and neither it nor [SkipField] can
    move the cursor past the end or leave it where it was. *)
Theorem reader_in_bounds r r' :
  (forall s, ReadLengthDelim r = Some (s, r') -> exists prefix, r = prefix ++ s ++ r' /\ prefix <> []) /\
  (forall w, SkipField w r = Some (tt, r') -> exists used, r = used ++ r' /\ used <> []) /\
  (forall v, ReadVarint r = Some (v, r') -> is_u64 v /\ exists used, r = used ++ r' /\ used <> []).
Proof.
  split_and!.
  - intros s H. by apply ReadLengthDelim_split.
  - intros w H. destruct w; try done.
    + apply parser_bind_inv in H as (v & r1 & Hv & Heq). unfold mret, Parser_ret in Heq. simplify_eq.
      destruct (ReadVarint_loop_suffix _ _ _ _ _ Hv) as (b & u & ->). by exists (b :: u).
    + unfold SkipField, skip_bytes in H. destruct (_ <? 8) eqn:E; [done|]. simplify_eq. zbool.
      exists (take (Z.to_nat 8) r). rewrite take_drop. split; [done|].
      destruct r; [done|]. by simpl.
    + apply parser_bind_inv in H as (s & r1 & Hs & Heq). unfold mret, Parser_ret in Heq. simplify_eq.
      apply ReadLengthDelim_split in Hs as (p & -> & Hp). exists (p ++ s).
      rewrite app_assoc. split; [done|]. by destruct p.
    + unfold SkipField, skip_bytes in H. destruct (_ <? 4) eqn:E; [done|]. simplify_eq. zbool.
      exists (take (Z.to_nat 4) r). rewrite take_drop. split; [done|].
      destruct r; [done|]. by simpl.
  - intros v H. split; [by eapply ReadVarint_range|].
    destruct (ReadVarint_loop_suffix _ _ _ _ _ H) as (b & u & ->). by exists (b :: u).
Qed.
