(* ===== verification/Framing.v ===== *)
(** * Framing: length-prefixed frames over a byte stream

    Both servers (Windows named pipe, Linux Unix socket) carry frames as a
    32-bit little-endian length and that many payload bytes, at most 16 MiB.
    This file holds what the two implementations share: the length prefix, the
    read-exactly and write-exactly loops over a transport that may deliver or
    accept any number of bytes per call, and the reference meaning of a byte
    stream as frames, with the theorems that connect them.  A transport call's
    answers come from a script; a loop that reaches the end of its script is
    still blocked in the call. *)

From S2P Require Import Prelude.

(** [SocketServer::kMaxFrameSize]; the pipe server's constant has the same
    value. *)
Definition kMaxFrameSize : Z := 16 * 1024 * 1024.

(** [socket_server.cpp]'s prefix; the pipe server copies the [uint32_t] itself,
    which is the same four bytes on its little-endian targets. *)
Definition WriteLengthLE (len : Z) : list Z :=
  [u8 (Z.land len 0xFF); u8 (Z.land (Z.shiftr len 8) 0xFF);
   u8 (Z.land (Z.shiftr len 16) 0xFF); u8 (Z.land (Z.shiftr len 24) 0xFF)].

Definition ReadLengthLE (b : list Z) : Z :=
  match b with
  | [b0; b1; b2; b3] => Z.lor (Z.lor (Z.lor b0 (Z.shiftl b1 8)) (Z.shiftl b2 16)) (Z.shiftl b3 24)
  | _ => 0
  end.

(** ** Transport loops *)

(** What one transport call comes to for the loop around it: [n] bytes, try
    again, or give up. *)
Inductive Round :=
| Got (n : Z)
| Again
| Failed.

Inductive ReadResult :=
| ReadOk (bytes rest : list Z)
| ReadFail
| ReadBlocked.

Section Loops.
Context {A : Type} (round : A -> Round).

(** A call asked for [remaining] bytes delivers at most those, from what is in
    the stream; no byte at all ends the loop with failure. *)
Fixpoint read_exact (script : list A) (remaining : Z) (stream acc : list Z) : ReadResult * list A :=
  if remaining <=? 0 then (ReadOk acc stream, script)
  else match script with
       | [] => (ReadBlocked, [])
       | a :: script' =>
           match round a with
           | Got n =>
               let got := Z.min n (Z.min remaining (Zlen stream)) in
               if got <=? 0 then (ReadFail, script')
               else read_exact script' (remaining - got) (drop (Z.to_nat got) stream)
                      (acc ++ take (Z.to_nat got) stream)
           | Again => read_exact script' remaining stream acc
           | Failed => (ReadFail, script')
           end
       end.

Inductive WriteResult :=
| WriteOk
| WriteFail
| WriteBlocked.

(** The result, the bytes that reached the transport and the script left. *)
Fixpoint write_exact (script : list A) (bytes wire : list Z) : WriteResult * list Z * list A :=
  match bytes with
  | [] => (WriteOk, wire, script)
  | _ =>
      match script with
      | [] => (WriteBlocked, wire, [])
      | a :: script' =>
          match round a with
          | Got n =>
              let wrote := Z.min n (Zlen bytes) in
              if wrote <=? 0 then (WriteFail, wire, script')
              else write_exact script' (drop (Z.to_nat wrote) bytes) (wire ++ take (Z.to_nat wrote) bytes)
          | Again => write_exact script' bytes wire
          | Failed => (WriteFail, wire, script')
          end
      end
  end.

(** [WriteFrame]'s loops over the prefix and the payload, from where they are:
    the result, the wire, and what is left of the two. *)
Definition write_on (script : list A) (header body wire : list Z) : WriteResult * list Z * list Z * list Z :=
  match write_exact script header wire with
  | (WriteOk, wire1, script1) =>
      match write_exact script1 body wire1 with
      | (r, wire2, _) => (r, wire2, [], drop (length wire2 - length wire1) body)
      end
  | (r, wire1, _) => (r, wire1, drop (length wire1 - length wire) header, body)
  end.

(** ** Frames *)

(** [ReadFrame]; [alloc_ok] answers the buffer's allocation. *)
Definition read_frame (alloc_ok : bool) (script : list A) (stream : list Z) : ReadResult * list A :=
  match read_exact script 4 stream [] with
  | (ReadOk header rest, script') =>
      let len := ReadLengthLE header in
      if len >? kMaxFrameSize then (ReadFail, script')
      else if negb alloc_ok then (ReadFail, script')
      else if len =? 0 then (ReadOk [] rest, script')
      else read_exact script' len rest []
  | r => r
  end.

(** [WriteFrame]. *)
Definition write_frame (script : list A) (payload wire : list Z) : WriteResult * list Z * list A :=
  if Zlen payload >? kMaxFrameSize then (WriteFail, wire, script)
  else
    match write_exact script (WriteLengthLE (u32 (Zlen payload))) wire with
    | (WriteOk, wire', script') =>
        if Zlen payload =? 0 then (WriteOk, wire', script') else write_exact script' payload wire'
    | r => r
    end.

(** [n] frames in a row. *)
Fixpoint read_frames (n : nat) (script : list A) (stream : list Z) : option (list (list Z) * list Z) :=
  match n with
  | O => Some ([], stream)
  | S n' =>
      match read_frame true script stream with
      | (ReadOk p rest, script') =>
          match read_frames n' script' rest with
          | Some (ps, rest') => Some (p :: ps, rest')
          | None => None
          end
      | _ => None
      end
  end.
End Loops.
Arguments write_exact {A} round script bytes wire.
Arguments write_on {A} round script header body wire.

(** ** The reference meaning of a stream *)

(** Little-endian order, in arithmetic: independent of the code's shifts. *)
Definition le_prefix (n : Z) : list Z :=
  [n mod 256; n / 256 mod 256; n / 65536 mod 256; n / 16777216 mod 256].
Definition le_value (b : list Z) : Z :=
  match b with
  | [b0; b1; b2; b3] => b0 + 256 * b1 + 65536 * b2 + 16777216 * b3
  | _ => 0
  end.

Definition frame_bytes (payload : list Z) : list Z := le_prefix (Zlen payload) ++ payload.

Inductive FrameSplit :=
| Complete (payload rest : list Z)
| Incomplete
| Oversize.

Definition split_frame (stream : list Z) : FrameSplit :=
  if Zlen stream <? 4 then Incomplete
  else
    let len := le_value (take 4 stream) in
    if len >? kMaxFrameSize then Oversize
    else if Zlen stream <? 4 + len then Incomplete
    else Complete (take (Z.to_nat len) (drop 4 stream)) (drop (Z.to_nat (4 + len)) stream).

Definition byte_string (l : list Z) : Prop := Forall is_byte l.

(** The code's prefix is that order. *)
Lemma WriteLengthLE_le n : WriteLengthLE n = le_prefix n.
Proof.
  unfold WriteLengthLE, le_prefix. change 0xFF with (2 ^ 8 - 1). rewrite !land_ones_mod by lia.
  rewrite !Z.shiftr_div_pow2 by lia. unfold u8. by rewrite !Z.mod_mod by lia.
Qed.

Lemma ReadLengthLE_le b : byte_string b -> ReadLengthLE b = le_value b.
Proof.
  intros Hb. unfold ReadLengthLE, le_value. destruct b as [|b0 [|b1 [|b2 [|b3 [|]]]]]; try done.
  repeat apply Forall_cons in Hb as [? Hb]. unfold is_byte in *.
  rewrite (lor_shiftl_add b0), (lor_shiftl_add (b0 + _)), lor_shiftl_add by lia. lia.
Qed.

Lemma frame_bytes_code p : frame_bytes p = WriteLengthLE (Zlen p) ++ p.
Proof. unfold frame_bytes. by rewrite WriteLengthLE_le. Qed.

Lemma byte_string_prefix n : byte_string (le_prefix n).
Proof.
  unfold le_prefix. repeat (apply Forall_cons_2; [unfold is_byte; apply Z.mod_pos_bound; lia|]). apply Forall_nil_2.
Qed.

Lemma ReadLengthLE_WriteLengthLE len : ReadLengthLE (WriteLengthLE len) = u32 len.
Proof.
  unfold ReadLengthLE, WriteLengthLE. change 0xFF with (2 ^ 8 - 1). rewrite !land_ones_mod by lia.
  unfold u8. rewrite !Z.mod_mod by lia. fold (u8 len) (u8 (Z.shiftr len 8)) (u8 (Z.shiftr len 16)) (u8 (Z.shiftr len 24)).
  rewrite <- le32_value. by rewrite <- !Z.lor_assoc.
Qed.

Lemma WriteLengthLE_length len : Zlen (WriteLengthLE len) = 4.
Proof. reflexivity. Qed.

Lemma ReadLengthLE_range b : byte_string b -> 0 <= ReadLengthLE b < 2 ^ 32.
Proof.
  intros Hb. unfold ReadLengthLE. destruct b as [|b0 [|b1 [|b2 [|b3 [|]]]]]; try lia.
  repeat apply Forall_cons in Hb as [? Hb]. unfold is_byte in *.
  rewrite (lor_shiftl_add b0), (lor_shiftl_add (b0 + _)), lor_shiftl_add by lia. lia.
Qed.

Lemma frame_bytes_length p : Zlen (frame_bytes p) = 4 + Zlen p.
Proof. unfold frame_bytes. by rewrite Zlen_app. Qed.

Lemma split_frame_bytes payload rest :
  Zlen payload <= kMaxFrameSize -> split_frame (frame_bytes payload ++ rest) = Complete payload rest.
Proof.
  intros Hl. unfold split_frame. rewrite frame_bytes_code, !Zlen_app, WriteLengthLE_length.
  pose proof (Zlen_nonneg payload). pose proof (Zlen_nonneg rest).
  replace (4 + Zlen payload + Zlen rest <? 4) with false by lia.
  rewrite <- app_assoc. change (take 4 (WriteLengthLE (Zlen payload) ++ payload ++ rest))
    with (WriteLengthLE (Zlen payload)).
  rewrite <- ReadLengthLE_le by (rewrite WriteLengthLE_le; apply byte_string_prefix).
  rewrite ReadLengthLE_WriteLengthLE, u32_small by (unfold is_u32, kMaxFrameSize in *; lia).
  cbv zeta. rewrite Z.gtb_ltb. replace (kMaxFrameSize <? Zlen payload) with false by lia.
  replace (4 + Zlen payload + Zlen rest <? 4 + Zlen payload) with false by lia.
  change (drop 4 (WriteLengthLE (Zlen payload) ++ payload ++ rest)) with (payload ++ rest).
  rewrite take_Zlen. f_equal. rewrite Z2Nat.inj_add by lia. rewrite <- drop_drop.
  change (drop (Z.to_nat 4) (WriteLengthLE (Zlen payload) ++ payload ++ rest)) with (payload ++ rest).
  apply drop_Zlen.
Qed.

(** The prefix of a length is determined by the four bytes read. *)
Lemma WriteLengthLE_ReadLengthLE b0 b1 b2 b3 :
  byte_string [b0; b1; b2; b3] -> WriteLengthLE (ReadLengthLE [b0; b1; b2; b3]) = [b0; b1; b2; b3].
Proof.
  intros Hb. repeat apply Forall_cons in Hb as [? Hb]. unfold is_byte in *. unfold ReadLengthLE, WriteLengthLE.
  rewrite (lor_shiftl_add b0), (lor_shiftl_add (b0 + _)), lor_shiftl_add by lia.
  change 0xFF with (2 ^ 8 - 1). rewrite !land_ones_mod by lia. rewrite !Z.shiftr_div_pow2 by lia.
  unfold u8. rewrite !Z.mod_mod by lia.
  f_equal; [Z.to_euclidean_division_equations; lia|].
  f_equal; [Z.to_euclidean_division_equations; lia|].
  f_equal; [Z.to_euclidean_division_equations; lia|].
  f_equal; Z.to_euclidean_division_equations; lia.
Qed.

Lemma split_frame_complete stream payload rest :
  byte_string stream -> split_frame stream = Complete payload rest ->
  stream = frame_bytes payload ++ rest /\ Zlen payload <= kMaxFrameSize.
Proof.
  intros Hb Hs. unfold split_frame in Hs. destruct (Zlen stream <? 4) eqn:E4; [done|].
  destruct stream as [|b0 [|b1 [|b2 [|b3 tl]]]]; try done.
  assert (Hh : byte_string [b0; b1; b2; b3]).
  { repeat apply Forall_cons in Hb as [? Hb].
    repeat (apply Forall_cons_2; [done|]). apply Forall_nil_2. }
  change (take 4 (b0 :: b1 :: b2 :: b3 :: tl)) with [b0; b1; b2; b3] in Hs.
  change (drop 4 (b0 :: b1 :: b2 :: b3 :: tl)) with tl in Hs. rewrite <- ReadLengthLE_le in Hs by done.
  pose proof (ReadLengthLE_range _ Hh) as Hr. pose proof (WriteLengthLE_ReadLengthLE _ _ _ _ Hh) as Hw.
  set (len := ReadLengthLE [b0; b1; b2; b3]) in *. cbv zeta in Hs. rewrite Z.gtb_ltb in Hs.
  destruct (kMaxFrameSize <? len) eqn:Ec; [done|].
  destruct (_ <? 4 + len) eqn:El; [done|]. zbool. injection Hs as <- <-.
  assert (Ht : Zlen (take (Z.to_nat len) tl) = len).
  { rewrite !Zlen_cons in El. unfold Zlen in *. rewrite length_take. lia. }
  split; [|lia]. rewrite frame_bytes_code, Ht, Hw. rewrite Z2Nat.inj_add by lia.
  change (b0 :: b1 :: b2 :: b3 :: tl) with ([b0; b1; b2; b3] ++ tl) at 2.
  rewrite <- drop_drop. change (drop (Z.to_nat 4) ([b0; b1; b2; b3] ++ tl)) with tl.
  rewrite <- app_assoc. by rewrite take_drop.
Qed.

(** ** Progress of a script *)

(** Delivering answers, with retries in between and no failure. *)
Definition makes_progress {A} (round : A -> Round) (script : list A) : Prop :=
  Forall (fun a => match round a with Got n => 0 < n | Again => True | Failed => False end) script.

(** How many answers of the script deliver. *)
Definition deliveries {A} (round : A -> Round) (script : list A) : Z :=
  Zlen (List.filter (fun a => match round a with Got _ => true | _ => false end) script).

Lemma deliveries_cons {A} (round : A -> Round) a script :
  deliveries round (a :: script) = (match round a with Got _ => 1 | _ => 0 end) + deliveries round script.
Proof.
  unfold deliveries. simpl. destruct (round a); rewrite ?Zlen_cons; lia.
Qed.

Section LoopFacts.
Context {A : Type} (round : A -> Round).

(** A finished read took exactly what it was asked for, from the front. *)
Lemma read_exact_ok script remaining stream acc bytes rest script' :
  0 <= remaining ->
  read_exact round script remaining stream acc = (ReadOk bytes rest, script') ->
  exists got, bytes = acc ++ got /\ stream = got ++ rest /\ Zlen got = remaining.
Proof.
  revert remaining stream acc. induction script as [|a script IH]; intros remaining stream acc Hr HR; simpl in HR.
  - destruct (remaining <=? 0) eqn:E; zbool; [|done]. simplify_eq. exists []. rewrite app_nil_r.
    split_and!; [done|done|rewrite Zlen_nil; lia].
  - destruct (remaining <=? 0) eqn:E; zbool.
    { simplify_eq. exists []. rewrite app_nil_r. split_and!; [done|done|rewrite Zlen_nil; lia]. }
    destruct (round a) as [n| |]; [|by apply IH|done].
    set (k := Z.min n (Z.min remaining (Zlen stream))) in *.
    destruct (k <=? 0) eqn:Ek; zbool; [done|].
    apply IH in HR as (got & -> & Hs & Hl); [|lia].
    exists (take (Z.to_nat k) stream ++ got). rewrite app_assoc. split_and!; [done| |].
    + rewrite <- app_assoc, <- Hs. by rewrite take_drop.
    + rewrite Zlen_app, Hl. unfold Zlen in *. rewrite length_take. lia.
Qed.

(** A script that keeps delivering ends the read, with retries left over
    unused. *)
Lemma read_exact_progress script remaining stream acc :
  0 <= remaining <= Zlen stream -> makes_progress round script -> remaining <= deliveries round script ->
  exists script',
    read_exact round script remaining stream acc =
      (ReadOk (acc ++ take (Z.to_nat remaining) stream) (drop (Z.to_nat remaining) stream), script') /\
    makes_progress round script' /\ deliveries round script - remaining <= deliveries round script'.
Proof.
  revert remaining stream acc. induction script as [|a script IH]; intros remaining stream acc Hr Hp Hd; simpl.
  - unfold deliveries in Hd. simpl in Hd. rewrite Zlen_nil in Hd. replace remaining with 0 by lia. simpl.
    rewrite app_nil_r. exists []. split_and!; [done|done|lia].
  - destruct (remaining <=? 0) eqn:E; zbool.
    { replace remaining with 0 by lia. simpl. rewrite app_nil_r. eexists. split_and!; [done|done|lia]. }
    rewrite deliveries_cons in *. apply Forall_cons in Hp as [Ha Hp]. destruct (round a) as [n| |]; [| |done].
    + set (k := Z.min n (Z.min remaining (Zlen stream))). replace (k <=? 0) with false by lia.
      destruct (IH (remaining - k) (drop (Z.to_nat k) stream) (acc ++ take (Z.to_nat k) stream))
        as (script' & -> & Hp' & Hd'); [|done|lia|].
      { unfold Zlen in *. rewrite length_drop. lia. }
      exists script'. split_and!; [|done|lia]. rewrite <- app_assoc, take_take_drop, drop_drop.
      repeat f_equal; lia.
    + destruct (IH remaining stream acc) as (script' & -> & Hp' & Hd'); [done|done|lia|].
      exists script'. split_and!; [done|done|lia].
Qed.

(** What reaches the wire is a prefix of the bytes, all of them on success. *)
Lemma write_exact_prefix script bytes wire r wire' script' :
  write_exact round script bytes wire = (r, wire', script') ->
  exists sent, wire' = wire ++ sent /\ sent `prefix_of` bytes /\ (r = WriteOk -> sent = bytes).
Proof.
  revert bytes wire. induction script as [|a script IH]; intros bytes wire HW; destruct bytes as [|b bytes];
    simpl in HW; simplify_eq.
  - exists []. rewrite app_nil_r. by split_and!.
  - exists []. rewrite app_nil_r. split_and!; [done|apply prefix_nil|done].
  - exists []. rewrite app_nil_r. by split_and!.
  - destruct (round a) as [n| |]; [|by apply IH|].
    + set (k := Z.min n (Zlen (b :: bytes))) in *. destruct (k <=? 0) eqn:Ek; zbool.
      { simplify_eq. exists []. rewrite app_nil_r. split_and!; [done|apply prefix_nil|done]. }
      apply IH in HW as (sent & -> & [tl Htl] & Hok).
      exists (take (Z.to_nat k) (b :: bytes) ++ sent). split_and!.
      * by rewrite app_assoc.
      * exists tl. rewrite <- app_assoc, <- Htl. by rewrite take_drop.
      * intros Hr. rewrite (Hok Hr). by rewrite take_drop.
    + simplify_eq. exists []. rewrite app_nil_r. split_and!; [done|apply prefix_nil|done].
Qed.

Lemma write_exact_progress script bytes wire :
  makes_progress round script -> Zlen bytes <= deliveries round script ->
  exists script', write_exact round script bytes wire = (WriteOk, wire ++ bytes, script') /\
    makes_progress round script' /\ deliveries round script - Zlen bytes <= deliveries round script'.
Proof.
  revert bytes wire. induction script as [|a script IH]; intros bytes wire Hp Hd.
  - unfold deliveries in Hd. simpl in Hd. rewrite Zlen_nil in Hd. destruct bytes; [|rewrite Zlen_cons in Hd;
      pose proof (Zlen_nonneg bytes); lia]. simpl. rewrite app_nil_r. exists []. by split_and!.
  - destruct bytes as [|b bytes]; simpl.
    { rewrite app_nil_r, Zlen_nil. eexists. split_and!; [done|done|lia]. }
    rewrite deliveries_cons in *. apply Forall_cons in Hp as [Ha Hp]. destruct (round a) as [n| |]; [| |done].
    + set (k := Z.min n (Zlen (b :: bytes))).
      assert (0 < k) by (unfold k; rewrite Zlen_cons; pose proof (Zlen_nonneg bytes); lia).
      replace (k <=? 0) with false by lia.
      assert (Hlen : Zlen (drop (Z.to_nat k) (b :: bytes)) = Zlen (b :: bytes) - k).
      { unfold k, Zlen. rewrite length_drop. lia. }
      destruct (IH (drop (Z.to_nat k) (b :: bytes)) (wire ++ take (Z.to_nat k) (b :: bytes)))
        as (script' & -> & Hp' & Hd'); [done|lia|].
      exists script'. split_and!; [|done|lia]. by rewrite <- app_assoc, take_drop.
    + destruct (IH (b :: bytes) wire) as (script' & -> & Hp' & Hd'); [done|lia|].
      exists script'. split_and!; [done|done|lia].
Qed.

(** Refinement: whatever a [ReadFrame] returns is the first frame of the
    stream. *)
Lemma read_frame_refines alloc script stream payload rest script' :
  byte_string stream ->
  read_frame round alloc script stream = (ReadOk payload rest, script') ->
  split_frame stream = Complete payload rest.
Proof.
  intros Hb HR. unfold read_frame in HR.
  destruct (read_exact round script 4 stream []) as [[header rest0| |] sc] eqn:E; try done.
  apply read_exact_ok in E as (got & Hh & Hs & Hl); [|lia]. simpl in Hh. subst header stream.
  apply Forall_app in Hb as [Hb1 Hb2].
  pose proof (ReadLengthLE_range got Hb1). rewrite Z.gtb_ltb in HR.
  unfold split_frame. rewrite Zlen_app, Hl. pose proof (Zlen_nonneg rest0).
  replace (4 + Zlen rest0 <? 4) with false by lia.
  assert (Ht : take 4 (got ++ rest0) = got).
  { apply take_app_length'. unfold Zlen in Hl. lia. }
  assert (Hdr : drop 4 (got ++ rest0) = rest0).
  { apply drop_app_length'. unfold Zlen in Hl. lia. }
  rewrite Ht, <- ReadLengthLE_le by done. cbv zeta. rewrite Z.gtb_ltb. set (len := ReadLengthLE got) in *.
  destruct (kMaxFrameSize <? len); [done|]. destruct (negb alloc); [done|].
  assert (Hfin : exists got2, payload = got2 /\ rest0 = got2 ++ rest /\ Zlen got2 = len).
  { destruct (len =? 0) eqn:E0; zbool.
    - simplify_eq. exists []. split_and!; [done|done|by rewrite Zlen_nil].
    - apply read_exact_ok in HR as (got2 & -> & -> & Hl2); [|lia]. by exists got2. }
  destruct Hfin as (got2 & -> & -> & Hl2). rewrite Zlen_app, Hl2.
  pose proof (Zlen_nonneg rest). replace (4 + (len + Zlen rest) <? 4 + len) with false by lia.
  rewrite Hdr. rewrite <- Hl2, take_Zlen. f_equal.
  rewrite Z2Nat.inj_add by (pose proof (Zlen_nonneg got2); lia). rewrite <- drop_drop.
  change (Z.to_nat 4) with 4%nat. rewrite Hdr. apply drop_Zlen.
Qed.

Lemma read_frame_progress script payload rest :
  Zlen payload <= kMaxFrameSize -> makes_progress round script ->
  4 + Zlen payload <= deliveries round script ->
  exists script',
    read_frame round true script (frame_bytes payload ++ rest) = (ReadOk payload rest, script') /\
    makes_progress round script' /\ deliveries round script - (4 + Zlen payload) <= deliveries round script'.
Proof.
  intros Hl Hp Hd. pose proof (Zlen_nonneg payload). pose proof (Zlen_nonneg rest). unfold read_frame.
  rewrite frame_bytes_code, <- app_assoc.
  destruct (read_exact_progress script 4 (WriteLengthLE (Zlen payload) ++ payload ++ rest) [])
    as (sc & -> & Hp1 & Hd1); [rewrite !Zlen_app, WriteLengthLE_length; lia|done|lia|].
  change (take (Z.to_nat 4) (WriteLengthLE (Zlen payload) ++ payload ++ rest)) with (WriteLengthLE (Zlen payload)).
  change (drop (Z.to_nat 4) (WriteLengthLE (Zlen payload) ++ payload ++ rest)) with (payload ++ rest).
  rewrite app_nil_l, ReadLengthLE_WriteLengthLE, u32_small by (unfold is_u32, kMaxFrameSize in *; lia).
  rewrite Z.gtb_ltb. replace (kMaxFrameSize <? Zlen payload) with false by lia. simpl.
  destruct (Zlen payload =? 0) eqn:E0; zbool.
  - exists sc. destruct payload; [|rewrite Zlen_cons in E0; pose proof (Zlen_nonneg payload); lia].
    split_and!; [done|done|rewrite Zlen_nil; lia].
  - destruct (read_exact_progress sc (Zlen payload) (payload ++ rest) []) as (sc2 & -> & Hp2 & Hd2);
      [rewrite Zlen_app; lia|done|lia|].
    exists sc2. rewrite take_Zlen, drop_Zlen. split_and!; [done|done|lia].
Qed.

Lemma write_frame_progress script payload wire :
  Zlen payload <= kMaxFrameSize -> makes_progress round script ->
  4 + Zlen payload <= deliveries round script ->
  exists script', write_frame round script payload wire = (WriteOk, wire ++ frame_bytes payload, script') /\
    makes_progress round script' /\ deliveries round script - (4 + Zlen payload) <= deliveries round script'.
Proof.
  intros Hl Hp Hd. pose proof (Zlen_nonneg payload). unfold write_frame. rewrite Z.gtb_ltb.
  replace (kMaxFrameSize <? Zlen payload) with false by lia.
  rewrite u32_small by (unfold is_u32, kMaxFrameSize in *; lia).
  destruct (write_exact_progress script (WriteLengthLE (Zlen payload)) wire) as (sc & -> & Hp1 & Hd1);
    [done|rewrite WriteLengthLE_length; lia|]. rewrite WriteLengthLE_length in Hd1.
  rewrite frame_bytes_code. destruct (Zlen payload =? 0) eqn:E0; zbool.
  - exists sc. destruct payload; [|rewrite Zlen_cons in E0; pose proof (Zlen_nonneg payload); lia].
    rewrite app_nil_r. split_and!; [done|done|lia].
  - destruct (write_exact_progress sc payload (wire ++ WriteLengthLE (Zlen payload))) as (sc2 & -> & Hp2 & Hd2);
      [done|lia|].
    exists sc2. rewrite <- app_assoc. split_and!; [done|done|lia].
Qed.

(** [ReadFrame] after its first four bytes: above the cap, or without memory,
    no further call; otherwise as many bytes as they say. *)
Lemma read_frame_spec alloc script header rest :
  byte_string header -> Zlen header = 4 ->
  read_frame round alloc script (header ++ rest) =
    match read_exact round script 4 (header ++ rest) [] with
    | (ReadOk _ _, script') =>
        if (kMaxFrameSize <? le_value header) || negb alloc then (ReadFail, script')
        else read_exact round script' (le_value header) rest []
    | r => r
    end.
Proof.
  intros Hb Hl. unfold read_frame.
  destruct (read_exact round script 4 (header ++ rest) []) as [[got rest0| |] sc] eqn:E; try done.
  apply read_exact_ok in E as (g & Hg & Hs & Hlg); [|lia]. cbn in Hg. subst g.
  apply app_inj_1 in Hs as [<- <-]; [|unfold Zlen in *; lia]. cbv zeta.
  rewrite Z.gtb_ltb, ReadLengthLE_le by done. destruct (kMaxFrameSize <? le_value header); [done|]. destruct alloc; [|done].
  cbn. destruct (le_value header =? 0) eqn:E0; [|done]. zbool. rewrite E0. by destruct sc.
Qed.

(** [WriteFrame] up to the cap: its length, then the payload. *)
Lemma write_frame_spec script payload wire :
  Zlen payload <= kMaxFrameSize ->
  write_frame round script payload wire =
    match write_exact round script (le_prefix (Zlen payload)) wire with
    | (WriteOk, wire', script') => write_exact round script' payload wire'
    | r => r
    end.
Proof.
  intros Hl. unfold write_frame. rewrite Z.gtb_ltb. replace (kMaxFrameSize <? Zlen payload) with false by lia.
  pose proof (Zlen_nonneg payload). rewrite u32_small by (unfold is_u32, kMaxFrameSize in *; lia). rewrite WriteLengthLE_le.
  destruct (write_exact round script _ wire) as [[[] wire'] sc]; try done.
  destruct (Zlen payload =? 0) eqn:E0; [|done]. zbool. destruct payload; [by destruct sc|]. unfold Zlen in E0. cbn in E0. lia.
Qed.

(** A write that is not finished leaves at most a prefix of its one frame. *)
Lemma write_frame_prefix script payload wire r wire' script' :
  write_frame round script payload wire = (r, wire', script') ->
  exists sent, wire' = wire ++ sent /\ sent `prefix_of` frame_bytes payload /\
               (r = WriteOk -> sent = frame_bytes payload /\ Zlen payload <= kMaxFrameSize) /\
               (kMaxFrameSize < Zlen payload -> sent = [] /\ r = WriteFail).
Proof.
  intros HW. unfold write_frame in HW. rewrite Z.gtb_ltb in HW. destruct (kMaxFrameSize <? Zlen payload) eqn:E; zbool.
  { simplify_eq. exists []. rewrite app_nil_r. split_and!; [done|apply prefix_nil|done|done]. }
  pose proof (Zlen_nonneg payload).
  rewrite u32_small in HW by (unfold is_u32, kMaxFrameSize in *; lia). rewrite frame_bytes_code.
  destruct (write_exact round script (WriteLengthLE (Zlen payload)) wire) as [[r1 wire1] sc] eqn:E1.
  apply write_exact_prefix in E1 as (sent & -> & [tl Htl] & Hok).
  destruct r1; simplify_eq.
  - rewrite (Hok eq_refl) in *. destruct (Zlen payload =? 0) eqn:E0; zbool; simplify_eq.
    + eexists. split; [done|]. destruct payload; [|rewrite Zlen_cons in E0; pose proof (Zlen_nonneg payload); lia].
      rewrite app_nil_r. split_and!; [done|done|lia].
    + apply write_exact_prefix in HW as (sent2 & -> & [tl2 Htl2] & Hok2).
      exists (WriteLengthLE (Zlen payload) ++ sent2). split_and!.
      * by rewrite app_assoc.
      * exists tl2. by rewrite <- app_assoc, <- Htl2.
      * intros Hr. by rewrite (Hok2 Hr).
      * lia.
  - eexists. split_and!; [done| |done|lia]. exists (tl ++ payload). by rewrite Htl, <- app_assoc.
  - eexists. split_and!; [done| |done|lia]. exists (tl ++ payload). by rewrite Htl, <- app_assoc.
Qed.

Lemma write_on_spec script header body wire r wire' header' body' :
  write_on round script header body wire = (r, wire', header', body') ->
  exists w, wire' = wire ++ w /\ w ++ header' ++ body' = header ++ body /\ (r = WriteOk -> header' ++ body' = []).
Proof.
  unfold write_on. destruct (write_exact round script header wire) as [[r1 wire1] script1] eqn:E1.
  apply write_exact_prefix in E1 as (w1 & -> & [k1 ->] & Hok1). 
  assert (Hd : forall (w l k : list Z), drop (length (w ++ l) - length w) (l ++ k) = k).
  { intros w l k. rewrite length_app, Nat.add_comm, Nat.add_sub. by rewrite drop_app_length. }
  destruct r1; [|intros [= <- <- <- <-]; exists w1; rewrite Hd, app_assoc; by split_and!..].
  destruct (write_exact round script1 body (wire ++ w1)) as [[r2 wire2] script2] eqn:E2.
  apply write_exact_prefix in E2 as (w2 & -> & [k2 ->] & Hok2). intros [= <- <- <- <-].
  assert (Hnil : forall w k : list Z, w = w ++ k -> k = []).
  { intros w k E. apply (f_equal length) in E. rewrite length_app in E. destruct k; [done|simpl in E; lia]. }
  specialize (Hnil _ _ (Hok1 eq_refl)) as Hk1. subst k1. exists (w1 ++ w2). rewrite Hd, app_assoc. split_and!; [done| |].
  - by rewrite app_nil_r, <- app_assoc.
  - intros ->. by apply (Hnil w2), Hok2.
Qed.

(** Where no call is retried, a writer that is still blocked after some answers
    has got on. *)
Lemma write_exact_gets_on a script bytes wire wire' script' :
  (forall b, round b <> Again) -> write_exact round (a :: script) bytes wire = (WriteBlocked, wire', script') ->
  (length wire < length wire')%nat.
Proof.
  intros Hna HW. destruct bytes as [|b bytes]; [done|]. cbn [write_exact] in HW.
  destruct (round a) as [n| |] eqn:Er; [|by destruct (Hna a)|done].
  destruct (Z.min n (Zlen (b :: bytes)) <=? 0) eqn:E; [done|]. zbool.
  apply write_exact_prefix in HW as (sent & -> & _ & _). rewrite !length_app, length_take.
  rewrite Zlen_cons in *. cbn [length]. lia.
Qed.

Lemma write_on_gets_on script header body wire wire' header' body' :
  (forall b, round b <> Again) -> script <> [] ->
  write_on round script header body wire = (WriteBlocked, wire', header', body') ->
  (length header' + length body' < length header + length body)%nat.
Proof.
  intros Hna Hs HW. pose proof (write_on_spec _ _ _ _ _ _ _ _ HW) as (w & -> & Hw & _).
  apply (f_equal length) in Hw. rewrite !length_app in Hw. unfold write_on in HW.
  destruct script as [|a script]; [done|].
  assert (length w <> 0%nat); [|lia]. intros E. destruct w; [|done]. rewrite app_nil_r in HW.
  destruct (write_exact round (a :: script) header wire) as [[[] wire1] script1] eqn:E1; simplify_eq.
  - pose proof E1 as E2. apply write_exact_prefix in E2 as (sent & -> & _ & Hok). rewrite (Hok eq_refl) in *.
    destruct header as [|b header].
    + cbn in E1. simplify_eq. destruct (write_exact round (a :: script) body (wire ++ [])) as [[[] ?] ?] eqn:E3; simplify_eq.
      apply write_exact_gets_on in E3; [|done]. rewrite app_nil_r in E3. lia.
    + destruct (write_exact round script1 body _) as [[[] wire2] ?] eqn:E3; simplify_eq.
      apply write_exact_prefix in E3 as (sent2 & E3 & _ & _). apply (f_equal length) in E3.
      rewrite !length_app in E3. cbn [length] in E3. lia.
  - apply write_exact_gets_on in E1; [|done]. lia.
Qed.

Lemma read_frames_progress ps script rest :
  Forall (fun p => Zlen p <= kMaxFrameSize) ps -> makes_progress round script ->
  Zlen (concat (map frame_bytes ps)) <= deliveries round script ->
  read_frames round (length ps) script (concat (map frame_bytes ps) ++ rest) = Some (ps, rest).
Proof.
  intros Hps. revert script. induction Hps as [|p ps Hp _ IH]; intros script Hpr Hd; [done|].
  change (concat (map frame_bytes (p :: ps))) with (frame_bytes p ++ concat (map frame_bytes ps)) in *.
  rewrite Zlen_app, frame_bytes_length in Hd. pose proof (Zlen_nonneg (concat (map frame_bytes ps))).
  rewrite <- app_assoc. cbn [length read_frames].
  destruct (read_frame_progress script p (concat (map frame_bytes ps) ++ rest)) as (sc & -> & Hp1 & Hd1);
    [done|done|lia|].
  by rewrite IH by (done || lia).
Qed.
End LoopFacts.
