(* ===== verification/SocketServer.v ===== *)
(** * SocketServer: the Linux helper's Unix-socket server

    [linux/src/socket_server.cpp].  The worker thread's session is a function
    of what the system calls answer and of what [stop_] is each time it is
    read; its result is the trace of what it did, and whether it has finished
    or is still blocked in a call.  The fields other threads see are in
    [SocketState]. *)

From S2P Require Import Prelude Framing.

(** ** System-call answers *)

(** [read] and [send]: a positive count, zero, EINTR, or another error. *)
Inductive SockAnswer :=
| SkBytes (n : Z)
| SkZero
| SkEintr
| SkError.

Definition read_round (a : SockAnswer) : Round :=
  match a with
  | SkBytes n => if n >? 0 then Got n else Failed
  | SkZero => Failed
  | SkEintr => Again
  | SkError => Failed
  end.

Definition send_round (a : SockAnswer) : Round :=
  match a with
  | SkBytes n => if n >? 0 then Got n else Failed
  | SkZero => Failed
  | SkEintr => Again
  | SkError => Failed
  end.

Definition ReadExact (script : list SockAnswer) (len : Z) (stream : list Z) : ReadResult * list SockAnswer :=
  read_exact read_round script len stream [].
Definition WriteExact (script : list SockAnswer) (bytes wire : list Z) : WriteResult * list Z * list SockAnswer :=
  write_exact send_round script bytes wire.
Definition ReadFrame (alloc_ok : bool) (script : list SockAnswer) (stream : list Z) : ReadResult * list SockAnswer :=
  read_frame read_round alloc_ok script stream.
Definition WriteFrame (script : list SockAnswer) (payload wire : list Z) : WriteResult * list Z * list SockAnswer :=
  write_frame send_round script payload wire.

(** ** State shared between threads *)

Record SocketState := {
  stop_ : bool;
  stopped_ : bool;
  listen_fd_ : Z;
  client_fd_ : Z
}.

Definition init_SocketState : SocketState :=
  {| stop_ := false; stopped_ := false; listen_fd_ := -1; client_fd_ := -1 |}.

(** [SendFrame]: under [client_mutex_]. *)
Definition SendFrame (s : SocketState) (script : list SockAnswer) (payload wire : list Z)
  : WriteResult * list Z * list SockAnswer :=
  if client_fd_ s <? 0 then (WriteFail, wire, script) else WriteFrame script payload wire.

(** ** [Start] *)

Inductive StartCall :=
| ScUnlink
| ScSocket
| ScUmask (mask : Z)
| ScRestoreUmask
| ScBind
| ScChmod (mode : Z)
| ScListen
| ScClose (fd : Z)
| ScSpawn.

Record StartEnv := {
  se_socket : Z;       (* the descriptor, negative on failure *)
  se_bind_ok : bool;
  se_listen_ok : bool
}.

Definition sizeof_sun_path : Z := 108.

Definition Start (env : StartEnv) (socket_path : list Z) (s : SocketState)
  : SocketState * bool * list StartCall :=
  let fd := se_socket env in
  if fd <? 0 then (s, false, [ScUnlink; ScSocket])
  else if Zlen socket_path >=? sizeof_sun_path then (s, false, [ScUnlink; ScSocket; ScClose fd])
  else
    let bound := [ScUnlink; ScSocket; ScUmask 0x3F; ScBind; ScRestoreUmask] in
    if negb (se_bind_ok env) then (s, false, bound ++ [ScClose fd])
    else
      let listening := bound ++ [ScChmod 0x180; ScListen] in
      if negb (se_listen_ok env) then (s, false, listening ++ [ScClose fd; ScUnlink])
      else ({| stop_ := stop_ s; stopped_ := stopped_ s; listen_fd_ := fd; client_fd_ := client_fd_ s |},
            true, listening ++ [ScSpawn]).

(** ** [Stop] *)

Inductive StopCall :=
| SpShutdown (fd : Z)
| SpClose (fd : Z)
| SpJoin
| SpUnlink.

Definition Stop (worker_joinable : bool) (socket_path : list Z) (s : SocketState) : SocketState * list StopCall :=
  let join := if worker_joinable then [SpJoin] else [] in
  if stop_ s then (s, join)
  else
    ({| stop_ := true; stopped_ := stopped_ s; listen_fd_ := -1; client_fd_ := client_fd_ s |},
     (if listen_fd_ s >=? 0 then [SpShutdown (listen_fd_ s); SpClose (listen_fd_ s)] else []) ++
     (if client_fd_ s >=? 0 then [SpShutdown (client_fd_ s)] else []) ++
     join ++ match socket_path with [] => [] | _ => [SpUnlink] end).

(** ** [WorkerLoop] *)

(** One round of the accept loop: [stop_] at its head, the call's answer, and
    [stop_] again after a failure. *)
Inductive AcceptAnswer :=
| AcFd (fd : Z)
| AcEintr
| AcError (stop_after : bool).
Record AcceptRound := {
  ar_stop : bool;
  ar_answer : AcceptAnswer
}.

(** One round of the client loop: [stop_] at its head, the answers to its reads
    and to the writes of its reply. *)
Record ClientRound := {
  cr_stop : bool;
  cr_alloc_ok : bool;
  cr_read : list SockAnswer;
  cr_write : list SockAnswer
}.

Inductive WorkerEvent :=
| EvConnected (fd : Z)
| EvGreeting
| EvFrame (payload : list Z)
| EvClientGone
| EvClose (fd : Z)
| EvDisconnect
| EvStopped.

(** The trace so far, the inbound bytes left, the outbound bytes, and whether
    the loop was left ([false]: blocked). *)
Record LoopEnd := {
  le_events : list WorkerEvent;
  le_stream : list Z;
  le_wire : list Z;
  le_left : bool
}.

Section Worker.
Context (handler : list Z -> list Z).

Fixpoint client_loop (rounds : list ClientRound) (stream wire : list Z) : LoopEnd :=
  match rounds with
  | [] => Build_LoopEnd [] stream wire false
  | r :: rounds' =>
      if cr_stop r then Build_LoopEnd [] stream wire true
      else match ReadFrame (cr_alloc_ok r) (cr_read r) stream with
           | (ReadBlocked, _) => Build_LoopEnd [] stream wire false
           | (ReadFail, _) => Build_LoopEnd [] stream wire true
           | (ReadOk frame rest, _) =>
               match handler frame with
               | [] =>
                   let e := client_loop rounds' rest wire in
                   Build_LoopEnd (EvFrame frame :: le_events e) (le_stream e) (le_wire e) (le_left e)
               | reply =>
                   match WriteFrame (cr_write r) reply wire with
                   | (WriteOk, wire', _) =>
                       let e := client_loop rounds' rest wire' in
                       Build_LoopEnd (EvFrame frame :: le_events e) (le_stream e) (le_wire e) (le_left e)
                   | (WriteFail, wire', _) => Build_LoopEnd [EvFrame frame] rest wire' true
                   | (WriteBlocked, wire', _) => Build_LoopEnd [EvFrame frame] rest wire' false
                   end
               end
           end
  end.

(** From the accepted descriptor to the final [break]: publish, greet, serve,
    retract, close.  The greeting's result is not looked at. *)
Definition client_session (fd : Z) (greet : list Z) (greet_script : list SockAnswer)
    (rounds : list ClientRound) (stream : list Z) : LoopEnd :=
  let '(blocked, wire) :=
    match greet with
    | [] => (false, [])
    | _ => match WriteFrame greet_script greet [] with
           | (WriteBlocked, wire, _) => (true, wire)
           | (_, wire, _) => (false, wire)
           end
    end in
  let start := EvConnected fd :: match greet with [] => [] | _ => [EvGreeting] end in
  if blocked : bool then Build_LoopEnd start stream wire false
  else
    let e := client_loop rounds stream wire in
    Build_LoopEnd (start ++ le_events e ++ (if le_left e then [EvClientGone; EvClose fd] else []))
                  (le_stream e) (le_wire e) (le_left e).

(** The accept loop: what it did, and [fire_disconnect] when it was left. *)
Fixpoint accept_loop (accepts : list AcceptRound) (greet : list Z) (greet_script : list SockAnswer)
    (rounds : list ClientRound) (stream : list Z) : LoopEnd * bool :=
  match accepts with
  | [] => (Build_LoopEnd [] stream [] false, true)
  | a :: accepts' =>
      if ar_stop a then (Build_LoopEnd [] stream [] true, true)
      else match ar_answer a with
           | AcEintr => accept_loop accepts' greet greet_script rounds stream
           | AcError stop_after => (Build_LoopEnd [] stream [] true, negb stop_after)
           | AcFd fd => (client_session fd greet greet_script rounds stream, true)
           end
  end.

Definition WorkerLoop (lfd : Z) (accepts : list AcceptRound) (greet : list Z) (greet_script : list SockAnswer)
    (rounds : list ClientRound) (stream : list Z) : LoopEnd :=
  if lfd <? 0 then Build_LoopEnd [EvDisconnect; EvStopped] stream [] true
  else
    let '(e, fire) := accept_loop accepts greet greet_script rounds stream in
    Build_LoopEnd
      (le_events e ++ (if le_left e then (if fire : bool then [EvDisconnect] else []) ++ [EvStopped] else []))
      (le_stream e) (le_wire e) (le_left e).
End Worker.

(** The payloads handled in a trace. *)
Fixpoint handled (es : list WorkerEvent) : list (list Z) :=
  match es with
  | [] => []
  | EvFrame p :: es' => p :: handled es'
  | _ :: es' => handled es'
  end.

(** [client_fd_] after a trace. *)
Definition client_fd_after (es : list WorkerEvent) (fd0 : Z) : Z :=
  foldl (fun fd e => match e with EvConnected fd' => fd' | EvClientGone => -1 | _ => fd end) fd0 es.

Lemma handled_app a b : handled (a ++ b) = handled a ++ handled b.
Proof. induction a as [|[] a IH]; simpl; rewrite ?IH; done. Qed.

(** ** Lemmas *)

Lemma client_loop_frames handler rounds stream wire :
  byte_string stream ->
  let e := client_loop handler rounds stream wire in
  stream = concat (map frame_bytes (handled (le_events e))) ++ le_stream e /\
  Forall (fun p => Zlen p <= kMaxFrameSize) (handled (le_events e)) /\
  Forall (fun ev => exists p, ev = EvFrame p) (le_events e).
Proof.
  cbv zeta. revert stream wire. induction rounds as [|r rounds IH]; intros stream wire Hb; simpl; [done|].
  destruct (cr_stop r); simpl; [done|].
  destruct (ReadFrame (cr_alloc_ok r) (cr_read r) stream) as [[p rest| |] sc] eqn:E; simpl; try done.
  apply read_frame_refines in E; [|done]. apply split_frame_complete in E as [-> Hl]; [|done].
  assert (Hb' : byte_string rest) by by apply Forall_app in Hb as [_ ?].
  assert (Hgo : forall w, let e := client_loop handler rounds rest w in
    frame_bytes p ++ rest = concat (map frame_bytes (p :: handled (le_events e))) ++ le_stream e /\
    Forall (fun p => Zlen p <= kMaxFrameSize) (p :: handled (le_events e)) /\
    Forall (fun ev => exists p, ev = EvFrame p) (EvFrame p :: le_events e)).
  { intros w. cbv zeta. destruct (IH rest w Hb') as (He & Hf & Hev). split_and!.
    - simpl. by rewrite <- app_assoc, <- He.
    - by constructor.
    - constructor; [by eexists|done]. }
  destruct (handler p) as [|c reply]; simpl; [apply Hgo|].
  destruct (WriteFrame (cr_write r) (c :: reply) wire) as [[[] wire'] sc'] eqn:EW; simpl.
  - apply Hgo.
  - rewrite app_nil_r. split_and!; [done|by repeat constructor|]. constructor; [by eexists|done].
  - rewrite app_nil_r. split_and!; [done|by repeat constructor|]. constructor; [by eexists|done].
Qed.

Lemma handled_frames es : Forall (fun ev => exists p, ev = EvFrame p) es ->
  forall fd, client_fd_after es fd = fd /\ EvDisconnect ∉ es /\ EvStopped ∉ es /\ (forall fd', EvClose fd' ∉ es).
Proof.
  induction 1 as [|ev es [p ->] _ IH]; intros fd; simpl; [split_and!; set_solver|].
  destruct (IH fd) as (H1 & H2 & H3 & H4). split_and!; [done|set_solver|set_solver|].
  intros fd'. specialize (H4 fd'). set_solver.
Qed.

(** The session of an accepted client. *)
Lemma session_frames handler fd greet gs rounds stream :
  byte_string stream ->
  let e := client_session handler fd greet gs rounds stream in
  stream = concat (map frame_bytes (handled (le_events e))) ++ le_stream e.
Proof.
  intros Hb. unfold client_session. destruct greet as [|c greet]; simpl.
  - rewrite handled_app. replace (handled (if _ : bool then _ else _)) with (@nil (list Z))
      by (by destruct (le_left _)). rewrite app_nil_r. by apply client_loop_frames.
  - destruct (WriteFrame gs (c :: greet) []) as [[[] wire] sc]; simpl; [| |done];
      rewrite handled_app; (replace (handled (if _ : bool then _ else _)) with (@nil (list Z))
        by (by destruct (le_left _))); rewrite app_nil_r; by apply client_loop_frames.
Qed.

Lemma session_shape fd start mid :
  start = [EvConnected fd] \/ start = [EvConnected fd; EvGreeting] ->
  Forall (fun ev => exists p, ev = EvFrame p) mid ->
  let es := start ++ mid ++ [EvClientGone; EvClose fd] in
  EvDisconnect ∉ es /\ EvStopped ∉ es /\ client_fd_after es (-1) = -1 /\
  (forall fd0, EvConnected fd0 ∈ es ->
     exists mid', es = EvConnected fd0 :: mid' ++ [EvClientGone; EvClose fd0] /\ forall fd', EvClose fd' ∉ mid').
Proof.
  intros Hst Hmid es. destruct (handled_frames _ Hmid fd) as (_ & Hd & Hs & Hc).
  assert (Hcon : forall f, EvConnected f ∉ mid).
  { intros f Hin. rewrite Forall_forall in Hmid. by destruct (Hmid _ Hin) as [? ?]. }
  split_and!.
  - unfold es. rewrite !not_elem_of_app. destruct Hst as [->| ->]; in_list.
  - unfold es. rewrite !not_elem_of_app. destruct Hst as [->| ->]; in_list.
  - unfold es, client_fd_after. rewrite !foldl_app. done.
  - intros fd0 Hin. assert (fd0 = fd) as ->.
    { unfold es in Hin. rewrite !elem_of_app in Hin. specialize (Hcon fd0). destruct Hst as [->| ->]; in_list. }
    destruct Hst as [->| ->].
    + exists mid. by split.
    + exists (EvGreeting :: mid). split; [done|]. intros fd'. specialize (Hc fd'). in_list.
Qed.

Lemma session_end handler fd greet gs rounds stream (accepts : list AcceptRound) :
  byte_string stream ->
  let e := client_session handler fd greet gs rounds stream in
  le_left e = true ->
  EvDisconnect ∉ le_events e /\ EvStopped ∉ le_events e /\ client_fd_after (le_events e) (-1) = -1 /\
  (true = false -> le_events e = [] /\ exists a : AcceptRound, a ∈ accepts /\ ar_answer a = AcError true) /\
  (forall fd0, EvConnected fd0 ∈ le_events e ->
     exists mid, le_events e = EvConnected fd0 :: mid ++ [EvClientGone; EvClose fd0] /\
                 forall fd', EvClose fd' ∉ mid).
Proof.
  intros Hb e Hleft. unfold e, client_session in *.
  set (wr := match greet with [] => (false, []) | _ => _ end) in *. destruct wr as [[] wire]; [done|].
  simpl in *. rewrite Hleft.
  destruct (session_shape fd (EvConnected fd :: match greet with [] => [] | _ => [EvGreeting] end)
              (le_events (client_loop handler rounds stream wire))) as (H1 & H2 & H3 & H4).
  - destruct greet; [by left|by right].
  - by apply client_loop_frames.
  - split_and!; try done.
Qed.

(** ** Properties *)

(** Frames survive the socket: whatever the sizes in which the kernel accepts
    and delivers bytes, and however often a call is interrupted, frames of at
    most 16 MiB written one after the other put exactly their length-prefixed
    bytes on the wire, and reading there gives back the same payloads, in order,
    and stops exactly after the last. *)
Theorem socket_frames_roundtrip p ps wscript rscript rest :
  Zlen p <= kMaxFrameSize -> Forall (fun q => Zlen q <= kMaxFrameSize) ps ->
  makes_progress send_round wscript -> 4 + Zlen p <= deliveries send_round wscript ->
  makes_progress read_round rscript ->
  Zlen (concat (map frame_bytes (p :: ps))) <= deliveries read_round rscript ->
  (exists sc, WriteFrame wscript p [] = (WriteOk, frame_bytes p, sc)) /\
  read_frames read_round (S (length ps)) rscript (frame_bytes p ++ concat (map frame_bytes ps) ++ rest) =
    Some (p :: ps, rest).
Proof.
  intros Hp Hps Hw Hwd Hr Hrd. split.
  - destruct (write_frame_progress send_round wscript p []) as (sc & HW & _); try done. by exists sc.
  - rewrite app_assoc. apply (read_frames_progress read_round (p :: ps)); [by constructor|done|done].
Qed.

Lemma socket_frames_roundtrip_witness :
  let wscript := SkEintr :: replicate 6 (SkBytes 1) in
  let rscript := SkBytes 3 :: SkEintr :: replicate 12 (SkBytes 2) in
  (exists sc, WriteFrame wscript [1; 2] [] = (WriteOk, frame_bytes [1; 2], sc)) /\
  read_frames read_round 2 rscript (frame_bytes [1; 2] ++ frame_bytes [] ++ [9]) = Some ([[1; 2]; []], [9]).
Proof.
  cbv zeta. apply (socket_frames_roundtrip [1; 2] [[]] _ _ [9]).
  - vm_compute. congruence.
  - repeat constructor. vm_compute. congruence.
  - repeat constructor.
  - vm_compute. congruence.
  - repeat constructor.
  - vm_compute. congruence.
Defined.

(** C12: The frame format on the wire, byte by byte.  On every stream of four
    bytes and more and for every sequence of kernel answers, [ReadFrame] reads
    these four bytes; when their little-endian value is above 16 MiB, or the
    buffer cannot be allocated, it fails with no further call, and otherwise
    it reads as many bytes as the value says; so a payload it returns is
    exactly what follows the four bytes on the stream, of that length, with
    the remainder untouched.  [WriteFrame] refuses a payload above 16 MiB
    without a call; otherwise it writes the length in the same four bytes and
    then the payload, and leaves a prefix of these when it does not finish. *)
Theorem socket_frame_boundaries alloc rscript wscript stream payload wire b0 b1 b2 b3 :
  byte_string (b0 :: b1 :: b2 :: b3 :: stream) ->
  let value := b0 + 256 * b1 + 65536 * b2 + 16777216 * b3 in
  let n := Zlen payload in
  let prefix := [n mod 256; n / 256 mod 256; n / 65536 mod 256; n / 16777216 mod 256] in
  ReadFrame alloc rscript (b0 :: b1 :: b2 :: b3 :: stream) =
    match ReadExact rscript 4 (b0 :: b1 :: b2 :: b3 :: stream) with
    | (ReadOk _ _, sc) => if (16777216 <? value) || negb alloc then (ReadFail, sc) else ReadExact sc value stream
    | r => r
    end /\
  (forall p rest sc, ReadFrame alloc rscript (b0 :: b1 :: b2 :: b3 :: stream) = (ReadOk p rest, sc) ->
     stream = p ++ rest /\ Zlen p = value /\ value <= 16777216) /\
  WriteFrame wscript payload wire =
    (if 16777216 <? n then (WriteFail, wire, wscript)
     else match WriteExact wscript prefix wire with
          | (WriteOk, wire', sc) => WriteExact sc payload wire'
          | r => r
          end) /\
  (forall r wire' sc, WriteFrame wscript payload wire = (r, wire', sc) ->
     exists sent, wire' = wire ++ sent /\ sent `prefix_of` prefix ++ payload /\
       (r = WriteOk -> Zlen sent = 4 + n /\ n <= 16777216)).
Proof.
  intros Hb value n prefix. assert (Hh : byte_string [b0; b1; b2; b3]).
  { repeat apply Forall_cons in Hb as [? Hb]. by repeat (apply Forall_cons_2; [done|]). }
  assert (Hc : kMaxFrameSize = 16777216) by done. split_and!.
  - exact (read_frame_spec read_round alloc rscript [b0; b1; b2; b3] stream Hh eq_refl).
  - intros p rest sc HR. apply read_frame_refines in HR; [|done].
    apply split_frame_complete in HR as [E Hl]; [|done]. unfold frame_bytes, le_prefix in E.
    injection E as E0 E1 E2 E3 ->. split; [done|]. assert (Zlen p = value); [|by subst value; lia].
    subst value. subst. pose proof (Zlen_nonneg p). rewrite Hc in Hl.
    Z.to_euclidean_division_equations; lia.
  - destruct (16777216 <? n) eqn:E; zbool; [|by apply write_frame_spec].
    unfold WriteFrame, write_frame. rewrite Z.gtb_ltb. by replace (kMaxFrameSize <? Zlen payload) with true by (subst n; lia).
  - intros r wire' sc HW. apply write_frame_prefix in HW as (sent & -> & Hp & Hok & Ho). exists sent.
    rewrite Hc in Ho, Hok. split_and!; [done|apply Hp|]. intros Er. destruct (Hok Er) as [-> Hl]. by rewrite frame_bytes_length.
Qed.

Lemma socket_frame_boundaries_witness :
  fst (ReadFrame true (replicate 9 (SkBytes 9)) [2; 0; 0; 0; 7; 8; 9]) = ReadOk [7; 8] [9] /\
  (forall p rest sc, ReadFrame true (replicate 9 (SkBytes 9)) [2; 0; 0; 0; 7; 8; 9] = (ReadOk p rest, sc) ->
     [7; 8; 9] = p ++ rest /\ Zlen p = 2 /\ 2 <= 16777216) /\
  ReadFrame true (replicate 9 (SkBytes 9)) [0; 0; 0; 2; 1; 2; 3] = (ReadFail, replicate 8 (SkBytes 9)).
Proof.
  split_and!; [vm_compute; reflexivity| |].
  - apply (socket_frame_boundaries true (replicate 9 (SkBytes 9)) [] [7; 8; 9] [] [] 2 0 0 0).
    repeat (apply Forall_cons_2; [split; vm_compute; congruence|]). apply Forall_nil_2.
  - refine (eq_trans (proj1 (socket_frame_boundaries true (replicate 9 (SkBytes 9)) [] [1; 2; 3] [] [] 0 0 0 2 _)) _).
    + repeat (apply Forall_cons_2; [split; vm_compute; congruence|]). apply Forall_nil_2.
    + vm_compute. reflexivity.
Defined.

(** The worker's session ends cleanly on every path: once it has finished, the
    frames it handled are a prefix of the inbound stream in order, the client
    descriptor is retracted before it is closed, exactly once, and
    [on_disconnect] has been called exactly once, last but for the stopped
    flag, unless [accept] failed after [Stop] had been called. *)
Theorem worker_session handler lfd accepts greet gs rounds stream :
  byte_string stream -> 0 <= lfd -> Forall (fun a => match ar_answer a with AcFd fd => 0 <= fd | _ => True end) accepts ->
  let e := WorkerLoop handler lfd accepts greet gs rounds stream in
  stream = concat (map frame_bytes (handled (le_events e))) ++ le_stream e /\
  (le_left e = true ->
     exists es fire, le_events e = es ++ (if fire : bool then [EvDisconnect] else []) ++ [EvStopped] /\
       EvDisconnect ∉ es /\ EvStopped ∉ es /\ client_fd_after es (-1) = -1 /\
       (fire = false -> es = [] /\ exists a, a ∈ accepts /\ ar_answer a = AcError true) /\
       (forall fd, EvConnected fd ∈ es -> exists mid, es = EvConnected fd :: mid ++ [EvClientGone; EvClose fd] /\
                                               forall fd', EvClose fd' ∉ mid)).
Proof.
  cbv zeta. intros Hb Hl Hfd. unfold WorkerLoop. replace (lfd <? 0) with false by lia.
  destruct (accept_loop handler accepts greet gs rounds stream) as [e fire] eqn:EA. simpl.
  assert (Hmain : stream = concat (map frame_bytes (handled (le_events e))) ++ le_stream e /\
    (le_left e = true ->
      EvDisconnect ∉ le_events e /\ EvStopped ∉ le_events e /\ client_fd_after (le_events e) (-1) = -1 /\
      (fire = false -> le_events e = [] /\ exists a, a ∈ accepts /\ ar_answer a = AcError true) /\
      (forall fd, EvConnected fd ∈ le_events e ->
         exists mid, le_events e = EvConnected fd :: mid ++ [EvClientGone; EvClose fd] /\
                     forall fd', EvClose fd' ∉ mid))).
  { revert e fire EA. induction accepts as [|a accepts IH]; intros e fire EA; simpl in EA; [by simplify_eq|].
    apply Forall_cons in Hfd as [Ha Hfd].
    destruct (ar_stop a); [simplify_eq; simpl; split; [done|intros _; split_and!; in_list]|].
    destruct (ar_answer a) as [fd| |stop_after] eqn:Ea.
    - simplify_eq. split; [by apply session_frames|intros Hleft; by apply session_end].
    - destruct (IH Hfd _ _ EA) as [H1 H2]. split; [done|]. intros Hleft.
      destruct (H2 Hleft) as (? & ? & ? & Hf & ?). split_and!; try done.
      intros Hfire. destruct (Hf Hfire) as (? & a' & ? & ?). split; [done|]. exists a'. split; [in_list|done].
    - simplify_eq. simpl. split; [done|]. intros _. split_and!; try in_list.
      intros Hs. split; [done|]. exists a. split; [in_list|]. destruct stop_after; [done|done]. }
  destruct Hmain as [Hs Hend]. split.
  - rewrite handled_app. destruct (le_left e); [|by rewrite app_nil_r].
    destruct fire; simpl; by rewrite app_nil_r.
  - intros Hleft. rewrite Hleft. exists (le_events e), fire. split; [done|]. by apply Hend.
Qed.

Lemma worker_session_witness :
  let e := WorkerLoop (fun _ => []) 3 [Build_AcceptRound false AcEintr; Build_AcceptRound false (AcFd 5)] [7]
             (replicate 5 (SkBytes 1))
             [Build_ClientRound false true [SkBytes 4; SkBytes 1] []; Build_ClientRound false true [SkZero] []]
             (frame_bytes [8]) in
  le_left e = true /\ le_events e =
    [EvConnected 5; EvGreeting; EvFrame [8]; EvClientGone; EvClose 5; EvDisconnect; EvStopped] /\
  frame_bytes [8] = concat (map frame_bytes (handled (le_events e))) ++ le_stream e.
Proof.
  cbv zeta. split; [reflexivity|]. split; [reflexivity|].
  apply (worker_session (fun _ => []) 3).
  - repeat (apply Forall_cons_2; [split; vm_compute; congruence|]). apply Forall_nil_2.
  - vm_compute. congruence.
  - apply Forall_cons_2; [exact I|]. apply Forall_cons_2; [simpl; lia|]. apply Forall_nil_2.
Defined.

(** Starting leaks nothing and exposes nothing: [Start] returns true exactly
    when every required call succeeded and then publishes the listening
    descriptor and spawns the worker once; on each failure after the socket was
    created the descriptor is closed exactly once and the state is untouched.
    The node is bound only under umask 0077, restored at once, and never for a
    path that does not fit [sun_path]. *)
Theorem start_all_or_nothing env path s s' ok calls :
  Start env path s = (s', ok, calls) ->
  (ok = true <-> 0 <= se_socket env /\ Zlen path < sizeof_sun_path /\ se_bind_ok env = true /\ se_listen_ok env = true) /\
  (ok = true -> listen_fd_ s' = se_socket env /\ ScSpawn ∈ calls /\ forall fd, ScClose fd ∉ calls) /\
  (ok = false -> s' = s /\ ScSpawn ∉ calls /\
     (0 <= se_socket env -> List.filter (fun c => match c with ScClose _ => true | _ => false end) calls = [ScClose (se_socket env)])) /\
  (ScBind ∈ calls -> Zlen path < sizeof_sun_path /\
     exists a b, calls = a ++ [ScUmask 0x3F; ScBind; ScRestoreUmask] ++ b /\ ScBind ∉ a /\ ScBind ∉ b).
Proof.
  unfold Start. cbv zeta. rewrite Z.geb_leb. intros HS.
  destruct (se_socket env <? 0) eqn:E1; zbool.
  { simplify_eq. split_and!; [split; [done|lia]|done|intros _; split_and!; [done|in_list|lia]|in_list]. }
  destruct (sizeof_sun_path <=? Zlen path) eqn:E2; zbool.
  { simplify_eq. split_and!; [split; [done|lia]|done|intros _; split_and!; [done|in_list|done]|in_list]. }
  assert (Hpath : forall b, [ScUnlink; ScSocket; ScUmask 63; ScBind; ScRestoreUmask] ++ b =
    [ScUnlink; ScSocket] ++ [ScUmask 63; ScBind; ScRestoreUmask] ++ b) by done.
  destruct (se_bind_ok env) eqn:E3; simpl in HS.
  2: { simplify_eq. split_and!; [split; [done|naive_solver]|done|intros _; split_and!; [done|in_list|done]|].
       intros _. split; [done|]. exists [ScUnlink; ScSocket], [ScClose (se_socket env)]. split_and!; [done|in_list|in_list]. }
  destruct (se_listen_ok env) eqn:E4; simpl in HS; simplify_eq.
  - split_and!; [split; [done|done]|intros _; split_and!; [done|in_list|in_list]|done|].
    intros _. split; [done|]. exists [ScUnlink; ScSocket], [ScChmod 0x180; ScListen; ScSpawn].
    split_and!; [done|in_list|in_list].
  - split_and!; [split; [done|naive_solver]|done|intros _; split_and!; [done|in_list|done]|].
    intros _. split; [done|]. exists [ScUnlink; ScSocket], [ScChmod 0x180; ScListen; ScClose (se_socket env); ScUnlink].
    split_and!; [done|in_list|in_list].
Qed.

Lemma start_all_or_nothing_witness :
  let env := {| se_socket := 7; se_bind_ok := true; se_listen_ok := false |} in
  snd (fst (Start env [47] init_SocketState)) = false /\
  List.filter (fun c => match c with ScClose _ => true | _ => false end) (snd (Start env [47] init_SocketState)) = [ScClose 7].
Proof.
  cbv zeta. split; [reflexivity|].
  apply (start_all_or_nothing {| se_socket := 7; se_bind_ok := true; se_listen_ok := false |} [47] init_SocketState
           _ _ _ eq_refl); [reflexivity|simpl; lia].
Defined.
