(* ===== verification/PipeServer.v ===== *)
(** * PipeServer: the Windows helper's named-pipe server

    [windows/src/pipe_server.cpp].  The overlapped I/O loops are functions of
    the answers of the calls they make.  The server itself runs several kinds
    of threads - the accept loop ([Run] and [ServeOneClient]), the writer
    ([WriterThreadMain]) and any callers of [SendFrame] and [Stop] - modelled
    as one transition system whose steps are the lock-protected regions, the
    atomic operations and the calls between them.  The writer's wait on
    [outbound_cv_] is split where another thread can come between: the
    predicate is evaluated under [outbound_mu_], the wait releases it, and a
    notification reaches only a writer that is already waiting.  A pipe is
    known by its handle value, which the system may give to a later pipe once
    it is closed.  Clients are numbered in the order they connect. *)

From S2P Require Import Prelude Framing.

(** ** Overlapped I/O *)

(** Which handle [WaitForMultipleObjects] reports: the operation's event, the
    stop event, or anything else. *)
Inductive WaitHandle := WhIo | WhStop | WhOther.
Inductive WaitResult := Io | Shutdown | WaitError.

(** The result, and whether the pending I/O is cancelled and awaited. *)
Definition WaitForOverlapped (w : WaitHandle) : WaitResult * bool :=
  match w with
  | WhIo => (Io, false)
  | WhStop => (Shutdown, true)
  | WhOther => (WaitError, false)
  end.

(** One round of either loop: no event object, completion within the call,
    ERROR_IO_PENDING followed by the wait and [GetOverlappedResult] ([None]
    when that fails), or another error. *)
Inductive PipeIo :=
| IoNoEvent
| IoSync (n : Z)
| IoPending (w : WaitHandle) (result : option Z)
| IoError.

Definition overlapped_round (a : PipeIo) : Round :=
  match a with
  | IoNoEvent => Failed
  | IoSync n => Got n
  | IoPending w result =>
      match (WaitForOverlapped w).1 with
      | Io => match result with Some n => Got n | None => Failed end
      | _ => Failed
      end
  | IoError => Failed
  end.

Definition ReadExactOverlapped (script : list PipeIo) (count : Z) (stream : list Z) : ReadResult * list PipeIo :=
  read_exact overlapped_round script count stream [].
Definition WriteExactOverlapped (script : list PipeIo) (buffer wire : list Z)
  : Framing.WriteResult * list Z * list PipeIo :=
  write_exact overlapped_round script buffer wire.

(** The payload vector is resized without an allocation check. *)
Definition ReadFrame (script : list PipeIo) (stream : list Z) : ReadResult * list PipeIo :=
  read_frame overlapped_round true script stream.
Definition WriteFrame (script : list PipeIo) (payload wire : list Z)
  : Framing.WriteResult * list Z * list PipeIo :=
  write_frame overlapped_round script payload wire.

(** [ConnectNamedPipe]'s answers. *)
Inductive ConnectAnswer :=
| CnNoEvent
| CnSync
| CnAlreadyConnected
| CnPending (w : WaitHandle)
| CnError.

Definition ConnectClient (a : ConnectAnswer) : bool :=
  match a with
  | CnNoEvent => false
  | CnSync => true
  | CnAlreadyConnected => true
  | CnPending w => match (WaitForOverlapped w).1 with Io => true | _ => false end
  | CnError => false
  end.

(** ** [CreatePipe] *)

Record NamedPipe := {
  np_open_mode : Z;
  np_pipe_mode : Z;
  np_max_instances : Z;
  np_out_buffer : Z;
  np_in_buffer : Z;
  np_default_timeout : Z;
  np_inherit : bool;
  np_sddl : option string      (* [None]: the default descriptor of the process *)
}.

(** [BuildPipeSecurityDescriptor]; [converted] answers
    [ConvertStringSecurityDescriptorToSecurityDescriptorW]. *)
Definition BuildPipeSecurityDescriptor (converted : bool) : option string :=
  if converted then Some "D:(D;;GA;;;NU)(A;;GRGW;;;SY)(A;;GRGWGX;;;OW)"%string else None.

Definition CreatePipe (converted : bool) : NamedPipe :=
  {| np_open_mode := Z.lor (Z.lor 0x3 0x80000) 0x40000000;   (* duplex, first instance, overlapped *)
     np_pipe_mode := Z.lor (Z.lor (Z.lor 0x0 0x0) 0x0) 0x8;  (* bytes, waiting, no remote client *)
     np_max_instances := 1;
     np_out_buffer := 64 * 1024;
     np_in_buffer := 64 * 1024;
     np_default_timeout := 5000;
     np_inherit := false;
     np_sddl := BuildPipeSecurityDescriptor converted |}.

(** ** The server's threads *)

(** The thread that calls [Run] and the destructor.  In [Run]: at the head of
    the accept loop, connected on handle [h], pushing the on-connect frame and
    notifying, in [ServeOneClient]'s loop, inside the handler, pushing its
    reply and notifying, leaving [ServeOneClient], retracting [active_pipe_],
    in [FlushFileBuffers]; then notifying and joining the writer. *)
Inductive AcceptPc :=
| AcIdle                                  (* before [Run] *)
| AcHead
| AcPublish (h : Z)
| AcGreet (h : Z)
| AcGreetPush (h : Z) (frame : list Z)
| AcGreetNotify (h : Z)
| AcEnterServe (h : Z)
| AcServe (h : Z)
| AcHandle (h : Z) (req : list Z)
| AcReplyPush (h : Z) (frame : list Z)
| AcReplyNotify (h : Z)
| AcClear (h : Z)
| AcDisconnect (h : Z)
| AcFlush (h : Z)
| AcWake
| AcJoin
| AcDone                                  (* [Run] has returned *)
| AcDtorJoin                              (* the destructor joins *)
| AcGone.                                 (* the object is destroyed *)

(** The writer: no thread, about to evaluate the predicate of its wait, holding
    [outbound_mu_] after it was false, waiting, holding a popped frame, writing
    it to handle [h] ([sent] went out, [header] and [body] are left), returned,
    joined. *)
Inductive WriterPc :=
| WrNone
| WrHead
| WrTested
| WrBlocked
| WrPopped (frame : list Z)
| WrWriting (h : Z) (frame : list Z) (sent : list (Z * list Z)) (header body : list Z)
| WrExited
| WrJoined.

(** What became of a frame that left the queue: no client, or the result of
    [WriteFrame] and the bytes each client got. *)
Inductive Fate :=
| Dropped
| Sent (ok : bool) (pieces : list (Z * list Z)).

Record PipeState := {
  p_handle : bool;                        (* stop_event_ exists *)
  p_event : bool;                         (* ... and is signalled *)
  p_stop : bool;
  p_active : option Z;                    (* active_pipe_ *)
  p_pipe : option (Z * Z);                (* the connected pipe: handle, client *)
  p_outbound : list (list Z);
  p_inbound : list Z;                     (* bytes of the client not read yet *)
  p_accept : AcceptPc;
  p_writer : WriterPc;
  p_stopping : nat;                       (* callers of Stop between the store and SetEvent *)
  p_notifying : nat;                      (* callers of Stop and EnqueueOutbound before the notification *)
  p_checked : list (Z * list Z);          (* threads in SendFrame that saw a client, with their frame *)
  p_admitted : list (Z * list Z);         (* ... and then saw stop_ unset *)
  p_next : Z;
  (* history *)
  p_enqueued : list (list Z);
  p_fates : list (list Z * Fate);
  p_wires : gmap Z (list Z);              (* bytes sent to each client *)
  p_peers : gmap Z (list Z);              (* bytes each client wrote *)
  p_requests : list (Z * list Z);         (* requests read, by client *)
  p_raced : bool;                         (* a Stop stored between the writer's test and its wait *)
  p_reused : bool;                        (* a new pipe got the handle the writer still holds *)
  p_dangling : bool                       (* a member function ran on the destroyed object *)
}.

#[export] Instance eta_PipeState : Eta PipeState := fun s =>
  {| p_handle := p_handle s; p_event := p_event s; p_stop := p_stop s; p_active := p_active s; p_pipe := p_pipe s;
     p_outbound := p_outbound s; p_inbound := p_inbound s; p_accept := p_accept s; p_writer := p_writer s;
     p_stopping := p_stopping s; p_notifying := p_notifying s; p_checked := p_checked s;
     p_admitted := p_admitted s; p_next := p_next s; p_enqueued := p_enqueued s; p_fates := p_fates s;
     p_wires := p_wires s; p_peers := p_peers s; p_requests := p_requests s; p_raced := p_raced s;
     p_reused := p_reused s; p_dangling := p_dangling s |}.

(** The constructor; [created] answers [CreateEventW]. *)
Definition PipeServer_ctor (created : bool) : PipeState :=
  {| p_handle := created; p_event := false; p_stop := false; p_active := None; p_pipe := None; p_outbound := [];
     p_inbound := []; p_accept := AcIdle; p_writer := WrNone; p_stopping := 0; p_notifying := 0; p_checked := [];
     p_admitted := []; p_next := 0; p_enqueued := []; p_fates := []; p_wires := ∅; p_peers := ∅; p_requests := [];
     p_raced := false; p_reused := false; p_dangling := false |}.

Definition wire_of (s : PipeState) (c : Z) : list Z := default [] (p_wires s !! c).
Definition peer_of (s : PipeState) (c : Z) : list Z := default [] (p_peers s !! c).

(** The client a handle value leads to now. *)
Definition client_at (h : Z) (s : PipeState) : option Z :=
  match p_pipe s with Some (h', c) => if h' =? h then Some c else None | None => None end.

Definition tested (w : WriterPc) : bool := match w with WrTested => true | _ => false end.
Definition holds (h : Z) (w : WriterPc) : bool := match w with WrWriting h' _ _ _ _ => h' =? h | _ => false end.
Definition destroyed (s : PipeState) : bool := match p_accept s with AcGone => true | _ => false end.

(** A member function is entered or resumed on some thread. *)
Definition touch (s : PipeState) : PipeState := s <| p_dangling := p_dangling s || destroyed s |>.

(** [stop_.store(true)]. *)
Definition store_stop (s : PipeState) : PipeState :=
  (s <| p_stop := true |>) <| p_raced := p_raced s || tested (p_writer s) |>.

(** A notification reaches the writer only while it waits. *)
Definition notified (w : WriterPc) : WriterPc := match w with WrBlocked => WrHead | _ => w end.
Definition notify (s : PipeState) : PipeState := s <| p_writer := notified (p_writer s) |>.

(** The locked region of [EnqueueOutbound], once the writer lets go of the mutex. *)
Definition push_outbound (frame : list Z) (s : PipeState) : option PipeState :=
  if tested (p_writer s) then None
  else Some ((s <| p_outbound := p_outbound s ++ [frame] |>) <| p_enqueued := p_enqueued s ++ [frame] |>).

Definition pop_outbound (frame : list Z) (rest : list (list Z)) (s : PipeState) : PipeState :=
  (s <| p_outbound := rest |>) <| p_writer := WrPopped frame |>.

(** The writer is done with [frame]. *)
Definition settle (frame : list Z) (fate : Fate) (s : PipeState) : PipeState :=
  (s <| p_writer := WrHead |>) <| p_fates := p_fates s ++ [(frame, fate)] |>.

Definition set_wire (c : Z) (wire : list Z) (s : PipeState) : PipeState := s <| p_wires := <[c := wire]> (p_wires s) |>.

(** A client has connected on handle [h]. *)
Definition new_client (h : Z) (s : PipeState) : PipeState :=
  ((((s <| p_pipe := Some (h, p_next s) |>) <| p_inbound := @nil Z |>) <| p_next := p_next s + 1 |>)
     <| p_accept := AcPublish h |>) <| p_reused := p_reused s || holds h (p_writer s) |>.

Definition client_wrote (c : Z) (bytes : list Z) (s : PipeState) : PipeState :=
  (s <| p_inbound := p_inbound s ++ bytes |>) <| p_peers := <[c := peer_of s c ++ bytes]> (p_peers s) |>.

Definition took (c : Z) (req rest : list Z) (s : PipeState) : PipeState :=
  (s <| p_inbound := rest |>) <| p_requests := p_requests s ++ [(c, req)] |>.

Definition goto (a : AcceptPc) (s : PipeState) : PipeState := s <| p_accept := a |>.
Definition publish (a : option Z) (s : PipeState) : PipeState := s <| p_active := a |>.

Inductive PipeLabel :=
| PlRun
| PlStop
| PlSetEvent
| PlNotify
| PlAccept (pipe : option Z) (a : ConnectAnswer)
| PlAcceptStep (greeting : list Z)
| PlPeer (bytes : list Z)
| PlServe (script : list PipeIo)
| PlHandled (reply : list Z)
| PlFlushed
| PlSendCheck (t : Z) (payload : list Z)
| PlSendAdmit (t : Z)
| PlSendPush (t : Z)
| PlTest
| PlBlock
| PlSpurious
| PlPop
| PlWriterExit
| PlRoute
| PlWrite (script : list PipeIo)
| PlJoined
| PlDestroy.

(** The stop event ends a wait only once it is signalled. *)
Definition answers_stop (a : PipeIo) : bool := match a with IoPending WhStop _ => true | _ => false end.
Definition answerable (script : list PipeIo) (s : PipeState) : bool := p_event s || negb (existsb answers_stop script).
Definition connectable (a : ConnectAnswer) (s : PipeState) : bool :=
  p_event s || match a with CnPending WhStop => false | _ => true end.

(** The accept loop's steps that need no answer; [greeting] is what the
    on-connect handler returns (the empty frame when there is none). *)
Definition accept_step (greeting : list Z) (s : PipeState) : option PipeState :=
  match p_accept s with
  | AcPublish h => Some (goto (AcGreet h) (publish (Some h) s))
  | AcGreet h =>
      match greeting with
      | [] => Some (goto (AcEnterServe h) s)
      | _ => if p_stop s then Some (goto (AcEnterServe h) s) else Some (goto (AcGreetPush h greeting) s)
      end
  | AcGreetPush h frame => goto (AcGreetNotify h) <$> push_outbound frame s
  | AcGreetNotify h => Some (goto (AcEnterServe h) (notify s))
  | AcEnterServe h => Some (goto (AcServe h) (publish (Some h) s))
  | AcReplyPush h frame => goto (AcReplyNotify h) <$> push_outbound frame s
  | AcReplyNotify h => Some (goto (AcServe h) (notify s))
  | AcClear h => Some (goto (AcDisconnect h) (publish None s))
  | AcDisconnect h => Some (goto (AcFlush h) (publish None s))
  | AcWake => Some (goto AcJoin (notify s))
  | _ => None
  end.

(** [WriteFrame] from where it is: every [WriteFile] goes to whatever the handle
    is at that moment. *)
Definition write_step (script : list PipeIo) (s : PipeState) : option PipeState :=
  match p_writer s with
  | WrWriting h f sent header body =>
      match client_at h s with
      | None => Some (settle f (Sent false sent) s)
      | Some c =>
          match script, write_on overlapped_round script header body (wire_of s c) with
          | [], _ => None
          | _, (r, wire, header', body') =>
              let sent' := sent ++ [(c, drop (length (wire_of s c)) wire)] in
              let s' := set_wire c wire s in
              Some match r with
                   | WriteOk => settle f (Sent true sent') s'
                   | WriteFail => settle f (Sent false sent') s'
                   | WriteBlocked => s' <| p_writer := WrWriting h f sent' header' body' |>
                   end
          end
      end
  | _ => None
  end.

(** [Stop] on any thread: the store, [SetEvent], the notification. *)
Definition stop_begin (s : PipeState) : PipeState := touch (store_stop s <| p_stopping := S (p_stopping s) |>).
Definition stop_event (s : PipeState) : option PipeState :=
  match p_stopping s with
  | O => None
  | S n => Some (touch (((s <| p_event := p_event s || p_handle s |>) <| p_stopping := n |>)
                          <| p_notifying := S (p_notifying s) |>))
  end.
Definition notify_one (s : PipeState) : option PipeState :=
  match p_notifying s with
  | O => None
  | S n => Some (touch (notify (s <| p_notifying := n |>)))
  end.

(** [Run] up to its loop, and the head of the loop: [CreatePipe] answers a
    handle or fails, then [ConnectClient]. *)
Definition run_begin (s : PipeState) : option PipeState :=
  match p_accept s with
  | AcIdle => Some (if p_handle s then goto AcHead (s <| p_writer := WrHead |>) else goto AcDone s)
  | _ => None
  end.
Definition accept_round (pipe : option Z) (a : ConnectAnswer) (s : PipeState) : option PipeState :=
  match p_accept s with
  | AcHead =>
      if p_stop s then Some (goto AcWake s)
      else match pipe with
           | None => Some s
           | Some h =>
               if negb (connectable a s) then None
               else if negb (ConnectClient a) then Some s
               else Some (new_client h s)
           end
  | _ => None
  end.

(** One round of [ServeOneClient] up to the handler, and from its reply on. *)
Definition serve_round (script : list PipeIo) (s : PipeState) : option PipeState :=
  match p_accept s with
  | AcServe h =>
      if p_stop s then Some (goto (AcClear h) s)
      else if negb (answerable script s) then None
      else match ReadFrame script (p_inbound s), client_at h s with
           | (ReadOk req rest, _), Some c => Some (goto (AcHandle h req) (took c req rest s))
           | (ReadOk _ _, _), None => None
           | (ReadFail, _), _ => Some (goto (AcClear h) s)
           | (ReadBlocked, _), _ => None
           end
  | _ => None
  end.
Definition serve_reply (reply : list Z) (s : PipeState) : option PipeState :=
  match p_accept s with
  | AcHandle h _ =>
      match reply with
      | [] => Some (goto (AcServe h) s)
      | _ => if p_stop s then Some (goto (AcServe h) s) else Some (goto (AcReplyPush h reply) s)
      end
  | _ => None
  end.

(** [SendFrame] and [EnqueueOutbound] on any thread: the test for a client, the
    test of [stop_], the push; the notification is [notify_one]. *)
Definition send_check (t : Z) (payload : list Z) (s : PipeState) : PipeState :=
  match p_active s with
  | None => touch s
  | Some _ => touch (s <| p_checked := p_checked s ++ [(t, payload)] |>)
  end.
Definition send_admit (t : Z) (s : PipeState) : option PipeState :=
  match take_key t (p_checked s) with
  | None => None
  | Some (f, rest) =>
      let s' := touch (s <| p_checked := rest |>) in
      Some (if p_stop s then s' else s' <| p_admitted := p_admitted s ++ [(t, f)] |>)
  end.
Definition send_push (t : Z) (s : PipeState) : option PipeState :=
  match take_key t (p_admitted s) with
  | None => None
  | Some (f, rest) => push_outbound f (touch ((s <| p_admitted := rest |>) <| p_notifying := S (p_notifying s) |>))
  end.

(** [WriterThreadMain]: the predicate of the wait, false or true, and the way
    out of the loop; the route of a popped frame. *)
Definition writer_test (s : PipeState) : option PipeState :=
  match p_writer s, p_outbound s with
  | WrHead, [] => if p_stop s then None else Some (s <| p_writer := WrTested |>)
  | _, _ => None
  end.
Definition writer_pop (s : PipeState) : option PipeState :=
  match p_writer s, p_outbound s with
  | WrHead, f :: rest => Some (pop_outbound f rest s)
  | _, _ => None
  end.
Definition writer_exit (s : PipeState) : option PipeState :=
  match p_writer s, p_outbound s with
  | WrHead, [] => if p_stop s then Some (s <| p_writer := WrExited |>) else None
  | _, _ => None
  end.
Definition writer_route (s : PipeState) : option PipeState :=
  match p_writer s with
  | WrPopped f =>
      match p_active s with
      | None => Some (settle f Dropped s)
      | Some h =>
          if Zlen f >? kMaxFrameSize then Some (settle f (Sent false []) s)
          else Some (s <| p_writer := WrWriting h f [] (WriteLengthLE (u32 (Zlen f))) f |>)
      end
  | _ => None
  end.

(** The destructor, from the thread of [Run], and either join returning. *)
Definition PipeServer_dtor (s : PipeState) : option PipeState :=
  match p_accept s, p_writer s with
  | AcIdle, WrNone | AcIdle, WrJoined | AcDone, WrNone | AcDone, WrJoined => Some (goto AcGone (s <| p_handle := false |>))
  | AcIdle, _ | AcDone, _ => Some (goto AcDtorJoin (notify (store_stop s) <| p_event := p_event s || p_handle s |>))
  | _, _ => None
  end.
Definition writer_joined (s : PipeState) : option PipeState :=
  match p_accept s, p_writer s with
  | AcJoin, WrExited => Some (goto AcDone (s <| p_writer := WrJoined |>))
  | AcDtorJoin, WrExited => Some (goto AcGone ((s <| p_writer := WrJoined |>) <| p_handle := false |>))
  | _, _ => None
  end.

(** One step; [reply] is what the request handler returns. *)
Definition pipe_exec (l : PipeLabel) (s : PipeState) : option PipeState :=
  match l with
  | PlRun => run_begin s
  | PlStop => Some (stop_begin s)
  | PlSetEvent => stop_event s
  | PlNotify => notify_one s
  | PlAccept pipe a => accept_round pipe a s
  | PlAcceptStep greeting => accept_step greeting s
  (* the connected client writes *)
  | PlPeer bytes =>
      match p_pipe s with
      | Some (_, c) => if bool_decide (byte_string bytes) then Some (client_wrote c bytes s) else None
      | None => None
      end
  | PlServe script => serve_round script s
  | PlHandled reply => serve_reply reply s
  (* Run: FlushFileBuffers returns, DisconnectNamedPipe, CloseHandle *)
  | PlFlushed =>
      match p_accept s with
      | AcFlush _ => Some (goto AcHead (s <| p_pipe := @None (Z * Z) |>))
      | _ => None
      end
  | PlSendCheck t payload => Some (send_check t payload s)
  | PlSendAdmit t => send_admit t s
  | PlSendPush t => send_push t s
  | PlTest => writer_test s
  | PlBlock => match p_writer s with WrTested => Some (s <| p_writer := WrBlocked |>) | _ => None end
  | PlSpurious => match p_writer s with WrBlocked => Some (s <| p_writer := WrHead |>) | _ => None end
  | PlPop => writer_pop s
  | PlWriterExit => writer_exit s
  | PlRoute => writer_route s
  | PlWrite script => if answerable script s then write_step script s else None
  | PlJoined => writer_joined s
  | PlDestroy => PipeServer_dtor s
  end.

Definition run_pipe : list PipeLabel -> PipeState -> option PipeState := run_exec pipe_exec.

(** ** A write that goes on *)

Lemma overlapped_not_again a : overlapped_round a <> Again.
Proof. destruct a as [| |w []|]; simpl; [done|done| |by destruct w|done]. by destruct w. Qed.

(** Nothing to write to, or some bytes more for one client; the frame is settled
    or closer to its end. *)
Lemma write_step_cases script s s' :
  write_step script s = Some s' ->
  exists h f sent header body, p_writer s = WrWriting h f sent header body /\
  ((client_at h s = None /\ s' = settle f (Sent false sent) s) \/
   exists c w header' body', client_at h s = Some c /\ w ++ header' ++ body' = header ++ body /\
     let s1 := set_wire c (wire_of s c ++ w) s in
     ((s' = settle f (Sent true (sent ++ [(c, w)])) s1 /\ header' ++ body' = []) \/
      s' = settle f (Sent false (sent ++ [(c, w)])) s1 \/
      (s' = s1 <| p_writer := WrWriting h f (sent ++ [(c, w)]) header' body' |> /\
       (length header' + length body' < length header + length body)%nat))).
Proof.
  unfold write_step. intros He. destruct (p_writer s) as [| | | | |h f sent header body| |] eqn:Ew; try done.
  exists h, f, sent, header, body. split; [done|]. destruct (client_at h s) as [c|] eqn:Ec; [right|left; by simplify_eq].
  destruct script as [|a script]; [done|].
  destruct (write_on overlapped_round (a :: script) header body (wire_of s c)) as [[[r wire] header'] body'] eqn:E.
  destruct (write_on_spec _ _ _ _ _ _ _ _ _ E) as (w & -> & Hw & Hok).
  exists c, w, header', body'. split; [done|]. split; [done|]. cbv zeta.
  cbv zeta in He. rewrite drop_app_length in He. injection He as <-. destruct r; [left|right; left|right; right]; [by auto|done|].
  split; [done|]. by eapply write_on_gets_on; [apply overlapped_not_again| |exact E].
Qed.

(** ** Order and integrity of what is sent *)

Definition in_writer (w : WriterPc) : list (list Z) :=
  match w with WrPopped f => [f] | WrWriting _ f _ _ _ => [f] | _ => [] end.
Definition writer_pieces (w : WriterPc) : list (Z * list Z) :=
  match w with WrWriting _ _ sent _ _ => sent | _ => [] end.
Definition fate_pieces (e : list Z * Fate) : list (Z * list Z) :=
  match e.2 with Dropped => [] | Sent _ pieces => pieces end.

(** All the pieces sent so far, and the bytes of them client [c] got. *)
Definition pieces_of (s : PipeState) : list (Z * list Z) :=
  concat (map fate_pieces (p_fates s)) ++ writer_pieces (p_writer s).
Definition bytes_for (c : Z) (pieces : list (Z * list Z)) : list Z :=
  concat (map snd (List.filter (fun p => p.1 =? c) pieces)).

Definition fate_ok (e : list Z * Fate) : Prop :=
  match e.2 with
  | Dropped => True
  | Sent ok pieces =>
      concat (map snd pieces) `prefix_of` frame_bytes e.1 /\
      (ok = true -> concat (map snd pieces) = frame_bytes e.1 /\ Zlen e.1 <= kMaxFrameSize)
  end.

Record pipe_inv (s : PipeState) : Prop := {
  pi_fifo : p_enqueued s = (p_fates s).*1 ++ in_writer (p_writer s) ++ p_outbound s;
  pi_wires : forall c, wire_of s c = bytes_for c (pieces_of s);
  pi_fates : Forall fate_ok (p_fates s);
  pi_writing : forall h f sent header body, p_writer s = WrWriting h f sent header body ->
    concat (map snd sent) ++ header ++ body = frame_bytes f /\ Zlen f <= kMaxFrameSize
}.

Lemma bytes_for_app c l l' : bytes_for c (l ++ l') = bytes_for c l ++ bytes_for c l'.
Proof. unfold bytes_for. by rewrite List.filter_app, map_app, concat_app. Qed.

Lemma bytes_for_one c c' w : bytes_for c [(c', w)] = if c' =? c then w else [].
Proof. unfold bytes_for. simpl. destruct (c' =? c); simpl; [by rewrite app_nil_r|done]. Qed.

Lemma wire_of_set c c' w s : wire_of (set_wire c w s) c' = if c =? c' then w else wire_of s c'.
Proof.
  unfold wire_of, set_wire. simpl. destruct (c =? c') eqn:E; zbool; [subst; by rewrite lookup_insert_eq|by rewrite lookup_insert_ne].
Qed.

Lemma pieces_settle f fate s :
  pieces_of (settle f fate s) = concat (map fate_pieces (p_fates s)) ++ fate_pieces (f, fate).
Proof. unfold pieces_of. simpl. by rewrite map_app, concat_app, app_nil_r; cbn [map concat]; rewrite app_nil_r. Qed.

(** Settling a frame whose pieces are those of the writer and maybe one more. *)
Lemma settle_inv s f fate more w wires :
  pipe_inv s -> in_writer (p_writer s) = [f] -> fate_pieces (f, fate) = writer_pieces (p_writer s) ++ more ->
  fate_ok (f, fate) -> (forall c, default [] (wires !! c) = wire_of s c ++ bytes_for c more) ->
  pipe_inv (settle f fate (s <| p_wires := wires |> <| p_writer := w |>)).
Proof.
  intros [H1 H2 H3 H4] Hw Hs Hf Hwires. split.
  - simpl. rewrite H1, fmap_app, Hw, <- app_assoc. done.
  - intros c. rewrite pieces_settle, Hs. unfold wire_of. simpl. rewrite Hwires, H2. unfold pieces_of.
    by rewrite !bytes_for_app, app_assoc.
  - simpl. apply Forall_app. split; [done|]. by constructor.
  - done.
Qed.

Lemma settle_plain_inv s f fate :
  pipe_inv s -> in_writer (p_writer s) = [f] -> fate_pieces (f, fate) = writer_pieces (p_writer s) ->
  fate_ok (f, fate) -> pipe_inv (settle f fate s).
Proof.
  intros Hi Hw Hp Hf. pose proof (settle_inv s f fate [] (p_writer s) (p_wires s) Hi Hw) as H.
  rewrite app_nil_r in H. apply H; [done|done|]. intros c. unfold bytes_for. simpl. by rewrite app_nil_r.
Qed.

Lemma write_step_inv script s s' : write_step script s = Some s' -> pipe_inv s -> pipe_inv s'.
Proof.
  intros He Hi. apply write_step_cases in He as (h & f & sent & header & body & Hw & Hc).
  pose proof (pi_writing _ Hi _ _ _ _ _ Hw) as [Hf Hl].
  destruct Hc as [[_ ->]|(c & w & header' & body' & Hat & Hb & Hc)].
  { apply settle_plain_inv; [done|by rewrite Hw|by rewrite Hw|]. split; [by exists (header ++ body)|done]. }
  assert (Hwires : forall c', default [] (<[c:=wire_of s c ++ w]> (p_wires s) !! c') = wire_of s c' ++ bytes_for c' [(c, w)]).
  { intros c'. rewrite bytes_for_one. pose proof (wire_of_set c c' (wire_of s c ++ w) s) as E. unfold wire_of at 1 in E.
    simpl in E. rewrite E. destruct (c =? c') eqn:E'; zbool; [by subst|by rewrite app_nil_r]. }
  assert (Hf' : concat (map snd (sent ++ [(c, w)])) ++ header' ++ body' = frame_bytes f).
  { rewrite map_app, concat_app. cbn [map concat snd]. rewrite app_nil_r, <- Hf, <- Hb. by rewrite <- !app_assoc. }
  destruct Hc as [[-> He]|[->|[-> _]]].
  - apply (settle_inv s f _ [(c, w)] (p_writer s)); [done|by rewrite Hw|by rewrite Hw| |done].
    unfold fate_ok. cbn [fst snd]. rewrite He, app_nil_r in Hf'. rewrite Hf'. by split_and!.
  - apply (settle_inv s f _ [(c, w)] (p_writer s)); [done|by rewrite Hw|by rewrite Hw| |done].
    unfold fate_ok. cbn [fst snd]. split; [by exists (header' ++ body')|done].
  - destruct Hi as [H1 H2 H3 H4]. rewrite Hw in H1. split; [done| |done|].
    + intros c'. unfold wire_of, pieces_of. simpl. rewrite Hwires, H2. unfold pieces_of. rewrite Hw.
      simpl. by rewrite !bytes_for_app, app_assoc.
    + simpl. intros. simplify_eq. done.
Qed.

Lemma in_writer_notified w : in_writer (notified w) = in_writer w.
Proof. by destruct w. Qed.
Lemma writer_pieces_notified w : writer_pieces (notified w) = writer_pieces w.
Proof. by destruct w. Qed.

(** A step that leaves the queue, the wires and the frame in the writer's hands
    alone, or adds a frame at the end of the queue. *)
Lemma pipe_inv_frame s s' new :
  pipe_inv s -> p_enqueued s' = p_enqueued s ++ new -> p_outbound s' = p_outbound s ++ new ->
  p_fates s' = p_fates s -> p_wires s' = p_wires s -> in_writer (p_writer s') = in_writer (p_writer s) ->
  writer_pieces (p_writer s') = writer_pieces (p_writer s) ->
  (forall h f sent header body, p_writer s' = WrWriting h f sent header body ->
     p_writer s = WrWriting h f sent header body \/
     (sent = [] /\ header = WriteLengthLE (u32 (Zlen f)) /\ body = f /\ Zlen f <= kMaxFrameSize)) ->
  pipe_inv s'.
Proof.
  intros [H1 H2 H3 H4] He Ho Hf Hw Hi Hp Hwr. split.
  - by rewrite He, Ho, Hf, Hi, H1, <- !app_assoc.
  - intros c. unfold wire_of, pieces_of in *. by rewrite Hw, Hf, Hp.
  - by rewrite Hf.
  - intros h f sent header body E. destruct (Hwr _ _ _ _ _ E) as [E'|(-> & -> & -> & Hl)]; [by eapply H4|].
    pose proof (Zlen_nonneg f). rewrite u32_small by (unfold is_u32, kMaxFrameSize in *; lia).
    by rewrite frame_bytes_code.
Qed.

Ltac pipe_frame_with new :=
  eapply (pipe_inv_frame _ _ new); [eassumption|..]; simpl; rewrite ?app_nil_r;
  rewrite ?in_writer_notified, ?writer_pieces_notified;
  repeat match goal with E : p_writer _ = _ |- _ => rewrite E in * end; simpl; try done;
  try (intros; left; by destruct (p_writer _)).
Ltac pipe_frame :=
  first [solve [pipe_frame_with (@nil (list Z))] | match goal with |- context [_ ++ [?f]] => solve [pipe_frame_with [f]] end].

Lemma push_outbound_spec f s s' :
  push_outbound f s = Some s' ->
  tested (p_writer s) = false /\ s' = (s <| p_outbound := p_outbound s ++ [f] |>) <| p_enqueued := p_enqueued s ++ [f] |>.
Proof. unfold push_outbound. destruct (tested _); [done|]. by intros [= <-]. Qed.

(** The writer runs exactly while [Run] does, and the destructor never has to
    join it. *)
Inductive Stage := Before | Running | Stopping | Returned | InDtor | Destroyed.
Definition stage (a : AcceptPc) : Stage :=
  match a with
  | AcIdle => Before
  | AcWake | AcJoin => Stopping
  | AcDone => Returned
  | AcDtorJoin => InDtor
  | AcGone => Destroyed
  | _ => Running
  end.
Definition live (w : WriterPc) : bool := match w with WrNone | WrJoined => false | _ => true end.
Definition life (st : Stage) (alive handle stop : bool) : bool :=
  match st with
  | Before | Returned | Destroyed => negb alive
  | Running => alive && handle
  | Stopping => alive && handle && stop
  | InDtor => false
  end.
Definition life_ok (s : PipeState) : Prop := life (stage (p_accept s)) (live (p_writer s)) (p_handle s) (p_stop s) = true.

Lemma live_notified w : live (notified w) = live w.
Proof. by destruct w. Qed.

Lemma write_step_frame script s s' :
  write_step script s = Some s' ->
  live (p_writer s) = true /\ live (p_writer s') = true /\ p_accept s' = p_accept s /\ p_handle s' = p_handle s /\
  p_stop s' = p_stop s /\ p_outbound s' = p_outbound s /\ p_enqueued s' = p_enqueued s /\ p_admitted s' = p_admitted s.
Proof.
  intros He. apply write_step_cases in He as (h & f & sent & header & body & -> & Hc).
  destruct Hc as [[_ ->]|(c & w & header' & body' & _ & _ & Hc)]; [done|].
  by destruct Hc as [[-> _]|[->|[-> _]]].
Qed.

(** The cases of a step. *)
(** The definitions of the steps. *)
Ltac pipe_unfold He :=
  unfold pipe_exec, accept_step, run_begin, stop_begin, stop_event, notify_one, accept_round, serve_round, serve_reply,
    send_check, send_admit, send_push, writer_test, writer_pop, writer_exit, writer_route, writer_joined, PipeServer_dtor in He.
Ltac pipe_cases He :=
  pipe_unfold He;
  repeat (case_match; simplify_eq; try done); simplify_eq;
  try match goal with H : goto _ <$> push_outbound _ _ = Some _ |- _ => apply fmap_Some in H as (? & H & ->) end;
  try match goal with H : push_outbound _ _ = Some _ |- _ => apply push_outbound_spec in H as [? ->] end.
Ltac use_pcs :=
  repeat match goal with E : p_writer _ = _ |- _ => rewrite E in * | E : p_accept _ = _ |- _ => rewrite E in * end.

Lemma pipe_exec_life l s s' : pipe_exec l s = Some s' -> life_ok s -> life_ok s'.
Proof.
  unfold life_ok. intros He Hi. destruct l; pipe_cases He; simpl in *;
    try match goal with H : write_step _ _ = Some _ |- _ => apply write_step_frame in H as (E & -> & -> & -> & -> & _); by rewrite E in Hi end;
    rewrite ?live_notified; use_pcs; simpl in *; rewrite ?andb_true_r; try done.
  - by destruct (stage _), (live _), (p_handle _).
  - match goal with E : p_stop s = true |- _ => by rewrite E, andb_true_r end.
Qed.

Lemma pipe_exec_inv l s s' : pipe_exec l s = Some s' -> life_ok s -> pipe_inv s -> pipe_inv s'.
Proof.
  intros He Hl Hi. unfold life_ok in Hl. destruct l; pipe_cases He; use_pcs; simpl in Hl; try done;
    try solve [pipe_frame | by eapply write_step_inv].
  - apply (pipe_inv_frame _ _ [] Hi); simpl; rewrite ?app_nil_r; try done; by destruct (p_writer s).
  - destruct Hi as [H1 H2 H3 H4]. unfold pieces_of, wire_of in *. match goal with E : p_outbound s = _ |- _ => rename E into Ho end. use_pcs.
    split; simpl; [by rewrite H1, Ho|done..].
  - apply settle_plain_inv; use_pcs; [done..|]. split; [apply prefix_nil|done].
  - zbool. rewrite Z.gtb_ltb in *. apply (pipe_inv_frame _ _ [] Hi); simpl; rewrite ?app_nil_r; use_pcs; try done.
    intros. simplify_eq. right. split_and!; try done. zbool. lia.
  - apply settle_plain_inv; by use_pcs.
Qed.

(** ** Routes *)

Definition handle_of (a : AcceptPc) : option Z :=
  match a with
  | AcPublish h | AcGreet h | AcGreetPush h _ | AcGreetNotify h | AcEnterServe h | AcServe h | AcHandle h _
  | AcReplyPush h _ | AcReplyNotify h | AcClear h | AcDisconnect h | AcFlush h => Some h
  | _ => None
  end.
Definition published (a : AcceptPc) : option Z := match a with AcPublish _ | AcFlush _ => None | _ => handle_of a end.

(** All the pieces of a frame went to one client. *)
Definition to_client (c : Z) (pieces : list (Z * list Z)) : Prop := Forall (fun p => p.1 = c) pieces.
Definition one_client (e : list Z * Fate) : Prop := exists c, to_client c (fate_pieces e).

Record route_inv (s : PipeState) : Prop := {
  ri_pipe : fst <$> p_pipe s = handle_of (p_accept s);
  ri_active : forall h, p_active s = Some h -> published (p_accept s) = Some h;
  ri_fates : p_reused s = false -> Forall one_client (p_fates s);
  ri_writing : p_reused s = false -> forall h f sent header body, p_writer s = WrWriting h f sent header body ->
    exists c, to_client c sent /\ (client_at h s = Some c \/ client_at h s = None)
}.

(** A step that moves no frame and no pipe. *)
Lemma route_frame s s' :
  route_inv s -> fst <$> p_pipe s' = handle_of (p_accept s') ->
  (forall h, p_active s' = Some h -> published (p_accept s') = Some h) ->
  (p_reused s' = false -> p_reused s = false) -> p_fates s' = p_fates s -> 
  (forall h f sent header body, p_reused s' = false -> p_writer s' = WrWriting h f sent header body ->
     sent = [] \/ (p_writer s = WrWriting h f sent header body /\
                   (client_at h s' = client_at h s \/ client_at h s' = None))) ->
  route_inv s'.
Proof.
  intros [H1 H2 H3 H4] Hp Ha Hr Hf Hw. split; [done|done|rewrite Hf; auto|].
  intros Hr' h f sent header body E. destruct (Hw _ _ _ _ _ Hr' E) as [->|[E' Hc]].
  - destruct (client_at h s') as [c|]; [exists c|exists 0]; split; [by constructor|by auto|by constructor|by auto].
  - destruct (H4 (Hr Hr') _ _ _ _ _ E') as (c & Hs & Hat). exists c. split; [done|]. destruct Hc as [->| ->]; auto.
Qed.

Lemma settle_route s f fate c :
  route_inv s -> to_client c (fate_pieces (f, fate)) -> route_inv (settle f fate s).
Proof.
  intros [H1 H2 H3 H4] Hc. split; [done|done| |done]. intros Hr. simpl in *. apply Forall_app.
  split; [by apply H3|]. constructor; [by exists c|done].
Qed.

Lemma settle_route_reused s f fate : route_inv s -> p_reused s = true -> route_inv (settle f fate s).
Proof. intros [H1 H2 H3 H4] Hr. split; simpl; [done|done|by rewrite Hr|by rewrite Hr]. Qed.

Lemma route_wire c w s : route_inv s -> route_inv (set_wire c w s).
Proof. intros [H1 H2 H3 H4]. by split. Qed.

Lemma write_step_route script s s' : write_step script s = Some s' -> route_inv s -> route_inv s'.
Proof.
  intros He Hi. apply write_step_cases in He as (h & f & sent & header & body & Hw & Hc).
  destruct (p_reused s) eqn:Er.
  { destruct Hc as [[_ ->]|(c & w & header' & body' & _ & _ & Hc)]; [by apply settle_route_reused|].
    destruct Hc as [[-> _]|[->|[-> _]]]; try (apply settle_route_reused; [by apply route_wire|done]).
    destruct Hi as [H1 H2 H3 H4]. split; simpl; [done|done|by rewrite Er|by rewrite Er]. }
  destruct (ri_writing _ Hi Er _ _ _ _ _ Hw) as (c0 & Hs & Hat).
  destruct Hc as [[_ ->]|(c & w & header' & body' & Hat' & _ & Hc)]; [by apply (settle_route _ _ _ c0)|].
  assert (c0 = c) as -> by (destruct Hat; congruence).
  assert (Hs' : to_client c (sent ++ [(c, w)])) by (apply Forall_app; split; [done|by constructor]).
  destruct Hc as [[-> _]|[->|[-> _]]]; [by apply (settle_route _ _ _ c), Hs'; apply route_wire..|].
  destruct Hi as [H1 H2 H3 H4]. split; [done|done|done|]. simpl. intros _ ???? ? [= <- <- <- <- <-].
  exists c. split; [done|]. by left.
Qed.

Lemma notified_writing w h f sent header body :
  notified w = WrWriting h f sent header body -> w = WrWriting h f sent header body.
Proof. by destruct w. Qed.

Lemma pipe_exec_route l s s' : pipe_exec l s = Some s' -> route_inv s -> route_inv s'.
Proof.
  intros He Hi. pose proof Hi as [H1 H2 H3 H4]. destruct l; pipe_cases He; use_pcs;
    try solve [apply (route_frame _ _ Hi); simpl; use_pcs; try done; intros; simplify_eq/=; auto;
               try match goal with E : notified _ = _ |- _ => apply notified_writing in E end; auto;
               try match goal with E : p_active s = Some ?h |- _ => specialize (H2 h E); simplify_eq/= end; auto
              | apply (settle_route _ _ _ 0); [done|constructor]
              | by eapply write_step_route].
  - apply (route_frame _ _ Hi); simpl; [done| | |done|].
    + intros h E. by apply H2 in E.
    + intros E. by apply orb_false_iff in E as [E _].
    + intros h f sent header body E Ew. right. split; [done|]. apply orb_false_iff in E as [_ E]. rewrite Ew in E.
      right. unfold client_at, new_client. simpl in *. rewrite Z.eqb_sym. by rewrite E.
  - apply (route_frame _ _ Hi); try done; [apply Hi|]. intros h f sent header body _ Ew. right. split; [done|]. by left.
Qed.

(** ** What the clients write *)

Definition requests_of (c : Z) (s : PipeState) : list (list Z) :=
  map snd (List.filter (fun p => p.1 =? c) (p_requests s)).

Record peer_inv (s : PipeState) : Prop := {
  pe_streams : forall c, exists rest : list Z, peer_of s c = concat (map frame_bytes (requests_of c s)) ++ rest /\
    forall h, p_pipe s = Some (h, c) -> rest = p_inbound s;
  pe_bytes : byte_string (p_inbound s);
  pe_next : forall c, p_next s <= c -> peer_of s c = [] /\ requests_of c s = [];
  pe_pipe : forall h c, p_pipe s = Some (h, c) -> c < p_next s
}.

Lemma requests_of_took c c' req rest s :
  requests_of c' (took c req rest s) = requests_of c' s ++ (if c =? c' then [req] else []).
Proof. unfold requests_of, took. simpl. rewrite List.filter_app, map_app. simpl. by destruct (c =? c'). Qed.

Lemma peer_frame s s' :
  peer_inv s -> (p_pipe s' = p_pipe s \/ p_pipe s' = None) -> p_inbound s' = p_inbound s -> p_peers s' = p_peers s ->
  p_requests s' = p_requests s -> p_next s' = p_next s -> peer_inv s'.
Proof.
  intros [H1 H2 H3 H4] Hp Hi Hpe Hr Hn. unfold peer_of, requests_of in *.
  split; unfold peer_of, requests_of; rewrite ?Hi, ?Hpe, ?Hr, ?Hn; [|done|done|].
  - intros c. destruct (H1 c) as (rest & E & Hrest). exists rest. split; [done|]. intros h E'.
    destruct Hp as [Hp|Hp]; rewrite Hp in E'; [eauto|done].
  - intros h c E'. destruct Hp as [Hp|Hp]; rewrite Hp in E'; [eauto|done].
Qed.

Lemma new_client_peer h s : peer_inv s -> peer_inv (new_client h s).
Proof.
  intros [H1 H2 H3 H4]. split; simpl.
  - intros c. destruct (H1 c) as (rest & E & _). destruct (decide (c = p_next s)) as [->|Hne].
    + exists []. destruct (H3 (p_next s)) as [E1 E2]; [lia|]. unfold peer_of, requests_of in *. simpl.
      by rewrite E1, E2.
    + exists rest. split; [done|]. intros h' [= <- <-]. done.
  - constructor.
  - intros c Hc. apply H3. lia.
  - intros h' c [= <- <-]. lia.
Qed.

Lemma peer_writes h c bytes s :
  peer_inv s -> p_pipe s = Some (h, c) -> byte_string bytes ->
  peer_inv (client_wrote c bytes s).
Proof.
  intros [H1 H2 H3 H4] Hp Hb. pose proof (H4 _ _ Hp) as Hc. split; simpl.
  - intros c'. unfold peer_of at 1. simpl. destruct (decide (c' = c)) as [->|Hne].
    + rewrite lookup_insert_eq. destruct (H1 c) as (rest & E & Hrest). exists (rest ++ bytes). simpl.
      rewrite E, <- app_assoc. split; [done|]. intros h' E'. by rewrite (Hrest _ E').
    + rewrite lookup_insert_ne by done. destruct (H1 c') as (rest & E & Hrest). exists rest. split; [done|].
      intros h' E'. congruence.
  - by apply Forall_app.
  - intros c' Hc'. unfold peer_of. simpl. rewrite lookup_insert_ne by lia. by apply H3.
  - done.
Qed.

Lemma took_peer script h c req rest sc s :
  peer_inv s -> ReadFrame script (p_inbound s) = (ReadOk req rest, sc) -> p_pipe s = Some (h, c) ->
  peer_inv (took c req rest s) /\ Zlen req <= kMaxFrameSize.
Proof.
  intros [H1 H2 H3 H4] HR Hp. apply read_frame_refines in HR; [|done].
  destruct (split_frame_complete _ _ _ H2 HR) as [E Hl]. split; [|done]. split.
  - intros c'. rewrite requests_of_took. destruct (H1 c') as (rest' & E' & Hrest). destruct (c =? c') eqn:Ec; zbool.
    + subst c'. exists rest. split; [|done]. rewrite map_app, concat_app. cbn [map concat]. rewrite app_nil_r, <- app_assoc, <- E.
      by rewrite <- (Hrest _ Hp).
    + rewrite app_nil_r. exists rest'. split; [done|]. simpl. intros h' E''. congruence.
  - simpl. rewrite E in H2. by apply Forall_app in H2 as [_ H2].
  - intros c' Hc'. rewrite requests_of_took. destruct (H3 c' Hc') as [E1 ->]; change (peer_of (took c req rest s) c') with (peer_of s c'); rewrite E1. pose proof (H4 _ _ Hp).
    by replace (c =? c') with false by (cbn in Hc'; lia).
  - done.
Qed.

Lemma client_at_pipe h s c : client_at h s = Some c -> p_pipe s = Some (h, c).
Proof. unfold client_at. destruct (p_pipe s) as [[h' c']|]; [|done]. destruct (h' =? h) eqn:E; [|done]. zbool. by intros [= ->]; subst. Qed.

Lemma write_step_pipe script s s' :
  write_step script s = Some s' ->
  p_pipe s' = p_pipe s /\ p_inbound s' = p_inbound s /\ p_peers s' = p_peers s /\ p_requests s' = p_requests s /\
  p_next s' = p_next s.
Proof.
  intros He. apply write_step_cases in He as (h & f & sent & header & body & _ & Hc).
  destruct Hc as [[_ ->]|(c & w & header' & body' & _ & _ & Hc)]; [done|].
  by destruct Hc as [[-> _]|[->|[-> _]]].
Qed.

Lemma pipe_exec_peer l s s' : pipe_exec l s = Some s' -> peer_inv s -> peer_inv s'.
Proof.
  intros He Hi. destruct l; pipe_cases He;
    try solve [apply (peer_frame _ _ Hi); simpl; auto | by apply new_client_peer
              | eapply peer_writes; [done|eauto|by eapply bool_decide_eq_true_1]
              | match goal with E : write_step _ _ = Some _ |- _ => apply write_step_pipe in E as (? & ? & ? & ? & ?) end;
                apply (peer_frame _ _ Hi); auto
              | match goal with E : client_at _ _ = Some _ |- _ => apply client_at_pipe in E end;
                eapply (peer_frame (took _ _ _ s)); [by eapply took_peer|by auto..]].
Qed.


(** ** Notifications *)

(** The accept loop is about to notify after a push. *)
Definition accept_notifies (a : AcceptPc) : bool :=
  match a with AcGreetNotify _ | AcReplyNotify _ => true | _ => false end.

Record sync_inv (s : PipeState) : Prop := {
  sy_queue : p_writer s = WrBlocked -> p_outbound s <> [] -> (0 < p_notifying s)%nat \/ accept_notifies (p_accept s) = true;
  sy_tested : p_writer s = WrTested -> p_outbound s = [] /\ (p_stop s = true -> p_raced s = true);
  sy_stop : p_writer s = WrBlocked -> p_stop s = true -> p_raced s = false -> (0 < p_stopping s + p_notifying s)%nat;
  sy_event : p_stop s = true -> p_handle s = true -> p_event s = true \/ (0 < p_stopping s)%nat
}.

Lemma notified_waits w : notified w <> WrBlocked.
Proof. by destruct w. Qed.
Lemma notified_tests w : notified w = WrTested -> w = WrTested.
Proof. by destruct w. Qed.

Lemma write_step_sync script s s' :
  write_step script s = Some s' ->
  p_writer s' <> WrBlocked /\ p_writer s' <> WrTested /\ p_stop s' = p_stop s /\ p_handle s' = p_handle s /\
  p_event s' = p_event s /\ p_stopping s' = p_stopping s.
Proof.
  intros He. apply write_step_cases in He as (h & f & sent & header & body & _ & Hc).
  destruct Hc as [[_ ->]|(c & w & header' & body' & _ & _ & Hc)]; [done|].
  by destruct Hc as [[-> _]|[->|[-> _]]].
Qed.

Lemma pipe_exec_sync l s s' : pipe_exec l s = Some s' -> sync_inv s -> sync_inv s'.
Proof.
  intros He Hi. pose proof Hi as [H1 H2 H3 H4]. destruct l; pipe_cases He; use_pcs;
    try match goal with E : write_step _ _ = Some _ |- _ =>
      apply write_step_sync in E as (E1 & E2 & E3 & E4 & E5 & E6); split; rewrite ?E3, ?E4, ?E5, ?E6; [done|done|done|done] end.
  all: split; simpl; use_pcs; try done; intros; auto.
  all: try match goal with E : notified _ = WrBlocked |- _ => by apply notified_waits in E end.
  all: try match goal with E : notified _ = WrTested |- _ => apply notified_tests in E end.
  all: try match goal with E : p_writer ?x = WrTested |- _ => rewrite E in *; destruct (H2 eq_refl) end.
  all: try match goal with E : p_writer ?x = WrBlocked |- _ => rewrite E in * end.
  all: simpl in *; rewrite ?orb_true_r; first [lia | congruence | tauto | idtac].
  all: try match goal with |- context [p_event ?x] =>
    destruct (p_event x), (p_handle x); simpl in *; first [tauto|congruence|naive_solver lia] end.
  all: try destruct (H2 eq_refl); try (split; [done|]); intros; first [congruence|naive_solver congruence].
Qed.

(** ** All of it *)

Record server_inv (s : PipeState) : Prop := {
  si_life : life_ok s;
  si_pipe : pipe_inv s;
  si_route : route_inv s;
  si_peer : peer_inv s;
  si_sync : sync_inv s
}.

Lemma ctor_inv created : server_inv (PipeServer_ctor created).
Proof.
  split; [done|by split| | |].
  - by split; simpl.
  - split; simpl; try done; [|constructor]. intros c. exists []. by split.
  - by split.
Qed.

Lemma pipe_exec_server l s s' : pipe_exec l s = Some s' -> server_inv s -> server_inv s'.
Proof.
  intros He [H1 H2 H3 H4 H5]. split;
    [by eapply pipe_exec_life|by eapply pipe_exec_inv|by eapply pipe_exec_route|by eapply pipe_exec_peer|by eapply pipe_exec_sync].
Qed.

Lemma run_pipe_server ls s s' : run_pipe ls s = Some s' -> server_inv s -> server_inv s'.
Proof.
  apply (run_exec_invariant pipe_exec server_inv (fun _ => True)); [intros; by eapply pipe_exec_server|].
  by apply Forall_true.
Qed.

Lemma reachable_server created ls s : run_pipe ls (PipeServer_ctor created) = Some s -> server_inv s.
Proof. intros Hr. by apply (run_pipe_server _ _ _ Hr), ctor_inv. Qed.

(** ** Stopping *)

(** The frames whose sender has passed the [stop_] test and not yet pushed. *)
Definition accept_push (a : AcceptPc) : list (list Z) :=
  match a with AcGreetPush _ f => [f] | AcReplyPush _ f => [f] | _ => [] end.
Definition pending_pushes (s : PipeState) : list (list Z) := map snd (p_admitted s) ++ accept_push (p_accept s).

(** What the writer still has to do, in steps. *)
Definition writer_todo (w : WriterPc) : nat :=
  match w with
  | WrTested => 3
  | WrBlocked => 2
  | WrHead => 1
  | WrPopped f => 7 + length f
  | WrWriting _ _ _ header body => 2 + length header + length body
  | _ => 0
  end.
Definition writer_work (s : PipeState) : nat :=
  (sum_list (map (fun f : list Z => 7 + length f) (p_outbound s)) + writer_todo (p_writer s))%nat.

Definition writer_label (l : PipeLabel) : bool :=
  match l with PlTest | PlBlock | PlSpurious | PlPop | PlWriterExit | PlRoute | PlWrite _ => true | _ => false end.

(** Once [stop_] is set nothing new is admitted: a step only moves admitted
    frames into the queue. *)
Definition moves_pushes (s s' : PipeState) : Prop :=
  p_stop s' = true /\
  exists new, p_enqueued s' = p_enqueued s ++ new /\ new ++ pending_pushes s' ⊆+ pending_pushes s.

Lemma moves_pushes_refl s : p_stop s = true -> moves_pushes s s.
Proof. intros Hs. split; [done|]. exists []. by rewrite app_nil_r. Qed.

Lemma moves_pushes_trans s1 s2 s3 : moves_pushes s1 s2 -> moves_pushes s2 s3 -> moves_pushes s1 s3.
Proof.
  intros (_ & n1 & E1 & P1) (Hs & n2 & E2 & P2). split; [done|]. exists (n1 ++ n2). rewrite E2, E1, app_assoc.
  split; [done|]. rewrite <- app_assoc. etrans; [|exact P1]. by apply submseteq_skips_l.
Qed.

Lemma stopped_step l s s' : pipe_exec l s = Some s' -> p_stop s = true -> moves_pushes s s'.
Proof.
  intros He Hs. unfold moves_pushes, pending_pushes. destruct l; pipe_cases He;
    try match goal with E : write_step _ _ = Some _ |- _ => apply write_step_frame in E as (_ & _ & E1 & _ & E3 & _ & E5 & E6) end.
  all: simpl; use_pcs; try (split; [congruence|]).
  all: first [ exists []; rewrite app_nil_r; split; [congruence|]; simpl; repeat case_match; simplify_eq; done
             | eexists [_]; split; [done|]; simpl; use_pcs; rewrite ?app_nil_r;
               first [done|by rewrite (Permutation_app_comm (map snd (p_admitted s)))
                     |match goal with E : take_key _ _ = Some _ |- _ => apply take_key_perm in E as ->; done end]
             | exists []; by rewrite ?E1, E5, E6, app_nil_r ].
Qed.

Lemma stopped_run ls s s' : run_pipe ls s = Some s' -> p_stop s = true -> moves_pushes s s'.
Proof.
  unfold run_pipe. intros Hr Hs. revert s Hs Hr. induction ls as [|l ls IH]; intros s Hs Hr; simpl in Hr.
  - simplify_eq. by apply moves_pushes_refl.
  - destruct (pipe_exec l s) as [s1|] eqn:E; [|done]. pose proof (stopped_step l s s1 E Hs) as H1.
    eapply moves_pushes_trans; [exact H1|]. apply IH; [apply H1|done].
Qed.

Lemma writer_step_decreases l s s' :
  pipe_exec l s = Some s' -> writer_label l = true -> p_stop s = true -> (writer_work s' < writer_work s)%nat.
Proof.
  intros He Hl Hs. unfold writer_work.
  destruct l; simpl in Hl; try done; pipe_cases He; simpl; use_pcs; simpl; try lia.
  match goal with E : write_step _ _ = Some _ |- _ => apply write_step_cases in E as (h & f & sent & header & body & -> & Hc) end.
  destruct Hc as [[_ ->]|(c & w & header' & body' & _ & _ & Hc)]; [simpl; lia|].
  destruct Hc as [[-> _]|[->|[-> ?]]]; simpl; lia.
Qed.

(** The stop event releases a pending write, whatever it writes to. *)
Lemma stop_releases_write s :
  (exists h f sent header body, p_writer s = WrWriting h f sent header body) -> p_event s = true ->
  exists s', pipe_exec (PlWrite [IoPending WhStop None]) s = Some s'.
Proof.
  intros (h & f & sent & header & body & Ew) He. simpl. unfold answerable. rewrite He. simpl. unfold write_step.
  rewrite Ew. destruct (client_at h s); [|by eexists].
  destruct (write_on _ _ _ _ _) as [[[[] ?] ?] ?]; by eexists.
Qed.

(** A writer that is not blocked can go on, once the event is signalled. *)
Lemma writer_enabled s :
  p_stop s = true -> p_event s = true -> live (p_writer s) = true -> p_writer s <> WrExited -> p_writer s <> WrBlocked ->
  exists l s', writer_label l = true /\ pipe_exec l s = Some s'.
Proof.
  intros Hs He Hl Hx Hb. destruct (p_writer s) as [| | | |f|h f sent header body| |] eqn:E; try done.
  - destruct (p_outbound s) as [|f rest] eqn:Eo; [exists PlWriterExit|exists PlPop]; simpl; unfold writer_exit, writer_pop;
      rewrite E, Eo, ?Hs; by eexists.
  - exists PlBlock. simpl. rewrite E. by eexists.
  - exists PlRoute. simpl. unfold writer_route. rewrite E. destruct (p_active s); [destruct (_ >? _)|]; by eexists.
  - destruct (stop_releases_write s) as [s' Hw]; [by eauto 10|done|]. by exists (PlWrite [IoPending WhStop None]), s'.
Qed.

(** ** Properties *)

(** C10: One writer, one order: in every reachable state of the server the frames
    that left the queue, then the one in the writer's hands, then the queue are
    exactly the frames that were enqueued, in that order; the bytes each client
    has been sent are, in the same order, what the writer sent of those frames;
    a frame whose write succeeded went out whole, length prefix first, and any
    other left a prefix of itself; and all of a frame went to one client,
    unless a new pipe was given the handle value the writer was still writing
    to. *)
Theorem outbound_fifo created ls s :
  run_pipe ls (PipeServer_ctor created) = Some s ->
  p_enqueued s = (p_fates s).*1 ++ in_writer (p_writer s) ++ p_outbound s /\
  (forall c, wire_of s c = bytes_for c (pieces_of s)) /\
  Forall fate_ok (p_fates s) /\
  (p_reused s = false -> Forall one_client (p_fates s)).
Proof.
  intros Hr. destruct (reachable_server _ _ _ Hr) as [_ [H1 H2 H3 _] [_ _ H4 _] _ _]. by split_and!.
Qed.

(** Client 0 on handle 7 is greeted with [7]; [8; 9] is pushed meanwhile. *)
Definition greeted : list PipeLabel :=
  [PlRun; PlTest; PlBlock; PlAccept (Some 7) CnSync; PlAcceptStep []; PlAcceptStep [7]; PlSendCheck 0 [8; 9]; PlSendAdmit 0;
   PlSendPush 0; PlAcceptStep []; PlNotify; PlAcceptStep []; PlAcceptStep []].

Lemma outbound_fifo_witness :
  exists s,
    run_pipe (greeted ++ [PlPop; PlRoute; PlWrite [IoSync 1]; PlWrite (replicate 5 (IoSync 1)); PlPop; PlRoute;
              PlWrite [IoPending WhIo (Some 2); IoError]]) (PipeServer_ctor true) = Some s /\
    wire_of s 0 = frame_bytes [8; 9] ++ [1; 0] /\
    wire_of s 0 = bytes_for 0 (pieces_of s).
Proof.
  eexists. split; [vm_compute; reflexivity|]. split; [reflexivity|].
  refine (proj1 (proj2 (outbound_fifo true
    (greeted ++ [PlPop; PlRoute; PlWrite [IoSync 1]; PlWrite (replicate 5 (IoSync 1)); PlPop; PlRoute;
              PlWrite [IoPending WhIo (Some 2); IoError]]) _ _)) 0).
  vm_compute. reflexivity.
Defined.

(** C22: What [Stop] does to the queue and its writer, in every run after it has
    stored [stop_].  The only frames still enqueued are those whose sender had
    already passed the test.  While the writer lives the event that releases a
    pending write is signalled or about to be; once it is, a writer that is
    not blocked in its condition wait has a step, and each of its steps brings
    it closer to returning.  A writer blocked in that wait has a notification
    coming if [Stop] did not store between its test and its wait; if it did,
    nothing is promised ([stop_can_lose_wakeup]).  The writer returns only
    when every frame enqueued so far has been written, failed or been
    dropped. *)
Theorem stop_drains created ls0 s ls s' :
  run_pipe ls0 (PipeServer_ctor created) = Some s -> p_stop s = true -> run_pipe ls s = Some s' ->
  moves_pushes s s' /\
  (live (p_writer s') = true -> p_event s' = true \/ (0 < p_stopping s')%nat) /\
  (p_event s' = true -> live (p_writer s') = true -> p_writer s' <> WrExited -> p_writer s' <> WrBlocked ->
     exists l s'', writer_label l = true /\ pipe_exec l s' = Some s'') /\
  (p_writer s' = WrBlocked -> p_raced s' = false -> (0 < p_stopping s' + p_notifying s')%nat) /\
  (forall l s'', writer_label l = true -> pipe_exec l s' = Some s'' -> (writer_work s'' < writer_work s')%nat) /\
  (forall s'', pipe_exec PlWriterExit s' = Some s'' -> (p_fates s'').*1 = p_enqueued s'').
Proof.
  intros Hr0 Hs Hr. pose proof (stopped_run _ _ _ Hr Hs) as Hm. pose proof (proj1 Hm) as Hs'.
  assert (Hi : server_inv s') by (by eapply run_pipe_server, reachable_server).
  destruct (si_sync _ Hi) as [_ _ Hst He]. split_and!; [done| | |by auto| |].
  - intros Hl. apply He; [done|]. pose proof (si_life _ Hi) as Hlife. unfold life_ok in Hlife. rewrite Hl in Hlife.
    destruct (stage (p_accept s')), (p_handle s'); done.
  - intros. by apply writer_enabled.
  - intros. by eapply writer_step_decreases.
  - intros s'' E. pose proof (pi_fifo _ (si_pipe _ (pipe_exec_server _ _ _ E Hi))) as Hf.
    pipe_cases E. simpl in *. use_pcs. by rewrite Hf, app_nil_r.
Qed.

Lemma stop_drains_witness :
  exists s s',
    run_pipe (greeted ++ [PlStop]) (PipeServer_ctor true) = Some s /\
    run_pipe [PlSetEvent; PlPop; PlRoute; PlWrite [IoPending WhStop None]] s = Some s' /\
    p_enqueued s' = [[8; 9]; [7]] /\
    exists l s'', writer_label l = true /\ pipe_exec l s' = Some s''.
Proof.
  eexists _, _. split; [vm_compute; reflexivity|]. split; [vm_compute; reflexivity|]. split; [reflexivity|].
  refine (proj1 (proj2 (proj2 (stop_drains true (greeted ++ [PlStop]) _
    [PlSetEvent; PlPop; PlRoute; PlWrite [IoPending WhStop None]] _ _ _ _))) _ _ _ _);
    first [vm_compute; reflexivity|vm_compute; congruence].
Defined.

(** Pushing never loses a wake-up, since it takes the mutex the writer holds
    between its test and its wait: a waiting writer with a queue has a
    notification coming. *)
Theorem push_keeps_wakeups created ls s :
  run_pipe ls (PipeServer_ctor created) = Some s -> p_writer s = WrBlocked -> p_outbound s <> [] ->
  (0 < p_notifying s)%nat \/ accept_notifies (p_accept s) = true.
Proof. intros Hr. apply (si_sync _ (reachable_server _ _ _ Hr)). Qed.

(** C40: [Stop] can: its store and both notifications, its own and the one of [Run],
    fall between the writer's test and its wait; nothing but another [Stop] or a
    spurious wake-up then ever wakes the writer, and [Run] never returns. *)
Theorem stop_can_lose_wakeup :
  exists ls s,
    run_pipe ls (PipeServer_ctor true) = Some s /\ p_stop s = true /\
    forall ls' s', Forall (fun l => l <> PlStop /\ l <> PlSpurious) ls' -> run_pipe ls' s = Some s' ->
      p_accept s' = AcJoin /\ p_writer s' = WrBlocked.
Proof.
  exists [PlRun; PlTest; PlStop; PlSetEvent; PlNotify; PlAccept None CnError; PlAcceptStep []; PlBlock].
  eexists. split; [vm_compute; reflexivity|]. split; [reflexivity|]. intros ls' s' Hls Hr.
  set (I := fun s => p_accept s = AcJoin /\ p_writer s = WrBlocked /\ p_stopping s = O /\ p_notifying s = O /\
                     p_checked s = [] /\ p_admitted s = [] /\ p_active s = None).
  assert (HI : I s'); [|unfold I in HI; tauto].
  refine (run_exec_invariant pipe_exec I _ _ ls' _ s' Hls Hr _); [|by unfold I].
  unfold I. intros l s1 s2 [Hl1 Hl2] He (E1 & E2 & E3 & E4 & E5 & E6 & E7). clear Hr.
  destruct l; try done; pipe_unfold He; unfold write_step in He; rewrite ?E1, ?E2, ?E3, ?E4, ?E5, ?E6, ?E7 in He;
    repeat (case_match; simplify_eq; try done); simplify_eq; done.
Qed.

(** A frame can be torn between two clients: the first goes away after the
    length prefix, its pipe is closed, the next pipe gets the same handle value
    and its client the payload. *)
Theorem torn_across_clients :
  exists ls s,
    run_pipe ls (PipeServer_ctor true) = Some s /\
    wire_of s 0 = WriteLengthLE 2 /\ wire_of s 1 = [5; 6] /\ p_fates s = [([5; 6], Sent true [(0, WriteLengthLE 2); (1, [5; 6])])].
Proof.
  eexists [PlRun; PlAccept (Some 7) CnSync; PlAcceptStep []; PlAcceptStep []; PlAcceptStep []; PlSendCheck 0 [5; 6];
           PlSendAdmit 0; PlSendPush 0; PlPop; PlRoute; PlWrite [IoSync 4]; PlServe [IoError]; PlAcceptStep [];
           PlAcceptStep []; PlFlushed; PlAccept (Some 7) CnSync; PlWrite [IoSync 2]], _.
  split; [vm_compute; reflexivity|]. by split_and!.
Qed.

(** The handshake is not always the first frame: a frame still queued when one
    client goes away is sent to the next client, ahead of that client's own
    on-connect frame, since the queue outlives the client and the new pipe is
    published before the on-connect frame is enqueued. *)
Theorem stale_frame_precedes_ready :
  exists ls s, run_pipe ls (PipeServer_ctor true) = Some s /\ wire_of s 1 = frame_bytes [5] ++ frame_bytes [18; 0].
Proof.
  eexists [PlRun; PlAccept (Some 7) CnSync; PlAcceptStep []; PlAcceptStep []; PlAcceptStep []; PlSendCheck 0 [5];
           PlSendAdmit 0; PlSendPush 0; PlServe [IoError]; PlAcceptStep []; PlAcceptStep []; PlFlushed;
           PlAccept (Some 9) CnSync; PlAcceptStep []; PlPop; PlRoute; PlWrite (replicate 5 (IoSync 1));
           PlAcceptStep [18; 0]; PlAcceptStep []; PlPop; PlRoute; PlWrite (replicate 6 (IoSync 1))], _.
  split; [vm_compute; reflexivity|]. vm_compute. reflexivity.
Qed.
