(* ===== verification/Win32.v ===== *)
(** * Win32: result codes, tick counts and waits

    What the Windows components use of the Win32 vocabulary: [HRESULT] codes,
    the 32-bit tick count arithmetic of the two waiting loops of
    [windows/src/dispatch.cpp], and the answers of a wait. *)

From S2P Require Import Prelude.

(** ** HRESULT *)

Definition S_OK : Z := 0.
Definition S_FALSE : Z := 1.
Definition E_NOTIMPL : Z := 0x80004001.
Definition E_NOINTERFACE : Z := 0x80004002.
Definition E_POINTER : Z := 0x80004003.
Definition E_ABORT : Z := 0x80004004.
Definition E_FAIL : Z := 0x80004005.
Definition E_OUTOFMEMORY : Z := 0x8007000E.
Definition E_INVALIDARG : Z := 0x80070057.
Definition STG_E_INVALIDFUNCTION : Z := 0x80030001.
Definition STG_E_ACCESSDENIED : Z := 0x80030005.
Definition STG_E_INVALIDPOINTER : Z := 0x80030009.
Definition STG_E_REVERTED : Z := 0x80030102.
Definition OLE_E_ADVISENOTSUPPORTED : Z := 0x80040003.
Definition DV_E_FORMATETC : Z := 0x80040064.
Definition DV_E_LINDEX : Z := 0x80040068.
Definition DV_E_TYMED : Z := 0x80040069.
Definition DATA_S_SAMEFORMATETC : Z := 0x00040130.

(** [FAILED(hr)]: the severity bit. *)
Definition FAILED (hr : Z) : bool := Z.testbit hr 31.

(** ** Time budgets of the two waiting loops *)

Definition kRenderTimeoutMs : Z := 120 * 1000.
Definition kChunkTimeoutMs : Z := 30 * 1000.

(** [elapsed = ::GetTickCount() - start] on 32-bit tick counts, and the timeout
    handed to [MsgWaitForMultipleObjects], [None] when the budget is spent. *)
Definition tick_elapsed (start now : Z) : Z := u32 (now - start).
Definition wait_budget (limit start now : Z) : option Z :=
  let elapsed := tick_elapsed start now in
  if elapsed >=? limit then None else Some (limit - elapsed).

(** What [MsgWaitForMultipleObjects] reports for its one handle. *)
Inductive WaitAnswer :=
| WaObject       (* WAIT_OBJECT_0 *)
| WaMessages     (* WAIT_OBJECT_0 + 1 *)
| WaTimeout      (* WAIT_TIMEOUT *)
| WaFailed.      (* anything else *)

Lemma wait_budget_left limit start now :
  tick_elapsed start now < limit -> wait_budget limit start now <> None.
Proof. intros H. unfold wait_budget. rewrite Z.geb_leb. case_tests; zbool; [lia|done]. Qed.

(** ** Properties *)

(** The two waiting loops of the STA thread never wait past their deadline:
    the timeout handed to the wait is positive, at most the limit, and ends
    exactly when [limit] milliseconds have elapsed since the start, also when
    the 32-bit tick count wraps; once they have elapsed there is no further
    wait. *)
Theorem wait_budget_deadline limit start now :
  0 < limit < 2 ^ 32 ->
  match wait_budget limit start now with
  | Some r => 0 < r <= limit /\ tick_elapsed start (u32 (now + r)) = limit
  | None => limit <= tick_elapsed start now
  end.
Proof.
  intros Hl. unfold wait_budget. rewrite Z.geb_leb.
  pose proof (u32_range (now - start)) as Hr. unfold tick_elapsed, is_u32 in *.
  destruct (limit <=? u32 (now - start)) eqn:E; zbool; [done|]. split; [lia|].
  unfold u32 in *. rewrite Zminus_mod_idemp_l.
  replace (now + (limit - (now - start) mod 2 ^ 32) - start)
    with (limit + (now - start) - (now - start) mod 2 ^ 32) by lia.
  rewrite Zminus_mod_idemp_r.
  replace (limit + (now - start) - (now - start)) with limit by lia. apply Z.mod_small. lia.
Qed.

Lemma wait_budget_deadline_witness :
  0 < kRenderTimeoutMs < 2 ^ 32 /\ wait_budget kRenderTimeoutMs 4294967290 5 = Some 119989 /\
  tick_elapsed 4294967290 (u32 (5 + 119989)) = kRenderTimeoutMs.
Proof.
  split; [split; reflexivity|]. split; [reflexivity|].
  exact (proj2 (wait_budget_deadline kRenderTimeoutMs 4294967290 5 ltac:(split; reflexivity))).
Defined.

