(* ===== verification/WinCodec.v ===== *)
(** * WinCodec: HelperMessage encoders and decoders of the Windows helper

    [windows/src/dispatch_codec.h], [dispatch_codec.cpp] and the string
    conversions of [string_utils.cpp].  The clock argument of the encoders is
    the value [clock()] returns.  A pointer-and-length pair into the inbound
    buffer is the span it denotes, [None] for a null pointer. *)

From S2P Require Import Prelude HelperProto ProtoWire.

(** ** The Win32 calls the codec makes *)

(** [MultiByteToWideChar(CP_UTF8)] and [WideCharToMultiByte(CP_UTF8)] on a whole
    non-empty string (the empty list when the call returns a length <= 0), and
    the (low, high) size words [GetFileAttributesExW] reports, [None] when it
    fails. *)
Class Win32Strings := {
  MultiByteToWideChar : list Z -> list Z;
  WideCharToMultiByte : list Z -> list Z;
  GetFileAttributesExW : list Z -> option (Z * Z)
}.

(** What the documentation of the two conversions promises for the strings a
    caller regards as well formed: converting and converting back is the
    identity and a well-formed non-empty string does not become empty. *)
Class Win32StringLaws `{Win32Strings} (wf : list Z -> Prop) := {
  wide_narrow_wide : forall w, wf w -> MultiByteToWideChar (WideCharToMultiByte w) = w;
  narrow_nonempty : forall w, wf w -> w <> [] -> WideCharToMultiByte w <> []
}.

(** Windows conversions restricted to ASCII, where UTF-8 and UTF-16 units
    coincide: the concrete instance the witnesses evaluate.  No file exists. *)
Definition ascii_strings : Win32Strings :=
  {| MultiByteToWideChar := fun s => s; WideCharToMultiByte := fun w => w;
     GetFileAttributesExW := fun _ => None |}.

Lemma ascii_string_laws : @Win32StringLaws ascii_strings (fun _ => True).
Proof. by split. Qed.

(** ** Parsed structs *)

Record ParsedHelperMessage := {
  hm_type : HelperMessageType;
  clipboard_data_ptr : option (list Z);
  announcement_ptr : option (list Z);
  provide_data_ptr : option (list Z);
  file_chunk_request_ptr : option (list Z);
  file_chunk_data_ptr : option (list Z)
}.
Definition empty_ParsedHelperMessage : ParsedHelperMessage :=
  {| hm_type := MtUnspecified; clipboard_data_ptr := None; announcement_ptr := None;
     provide_data_ptr := None; file_chunk_request_ptr := None; file_chunk_data_ptr := None |}.

Record ParsedClipboardData := {
  cd_content_type : ClipboardContentType;
  cd_payload_ptr : option (list Z);
  cd_files : list (list Z)
}.
Definition empty_ParsedClipboardData : ParsedClipboardData :=
  {| cd_content_type := CtUnspecified; cd_payload_ptr := None; cd_files := [] |}.

Record ParsedAnnouncement := {
  ann_content_type : ClipboardContentType;
  ann_content_hash : list Z;
  ann_files : list (list Z);
  ann_transfer_id : list Z
}.
Definition empty_ParsedAnnouncement : ParsedAnnouncement :=
  {| ann_content_type := CtUnspecified; ann_content_hash := []; ann_files := []; ann_transfer_id := [] |}.

Record ParsedProvideData := {
  pd_content_hash : list Z;
  pd_data : list Z
}.
Definition empty_ParsedProvideData : ParsedProvideData :=
  {| pd_content_hash := []; pd_data := [] |}.

Record ParsedFileChunkRequest := {
  fcr_transfer_id : list Z;
  fcr_file_id : list Z;
  fcr_offset : Z;
  fcr_size : Z
}.
Definition empty_ParsedFileChunkRequest : ParsedFileChunkRequest :=
  {| fcr_transfer_id := []; fcr_file_id := []; fcr_offset := 0; fcr_size := 0 |}.

Record ParsedFileChunkData := {
  fcd_transfer_id : list Z;
  fcd_file_id : list Z;
  fcd_offset : Z;
  fcd_data : list Z;
  fcd_is_last : bool;
  fcd_error : list Z
}.
Definition empty_ParsedFileChunkData : ParsedFileChunkData :=
  {| fcd_transfer_id := []; fcd_file_id := []; fcd_offset := 0; fcd_data := [];
     fcd_is_last := false; fcd_error := [] |}.

(** [virtual_file_spec.h] *)
Record VirtualFileSpec := {
  vfs_name : list Z;
  vfs_size : Z;
  vfs_file_id : list Z;
  vfs_is_directory : bool
}.

(** [clipboard_ops.h] *)
Record VirtualFileEntry := {
  vfe_name : list Z;
  vfe_size : Z;
  vfe_lindex : Z
}.

(** The data half of [ClipboardSnapshot] (its [virtual_data_object] pointer is
    not encoded). *)
Record ClipboardSnapshot := {
  snap_content_type : ClipboardContentType;
  snap_text : list Z;
  snap_image_png : list Z;
  snap_file_paths : list (list Z);
  snap_virtual_files : list VirtualFileEntry
}.
Definition empty_ClipboardSnapshot : ClipboardSnapshot :=
  {| snap_content_type := CtUnspecified; snap_text := []; snap_image_png := [];
     snap_file_paths := []; snap_virtual_files := [] |}.

(** ** Encoders *)

Definition EncodeReady (clock : Z) : list Z :=
  let w := WriteEnumField kFieldType (message_type_value Ready) [] in
  WriteUint64Field kFieldTimestamp clock w.

Definition EncodeError (message : list Z) (clock : Z) : list Z :=
  let w := WriteEnumField kFieldType (message_type_value Error) [] in
  let w := match message with [] => w | _ => WriteStringField kFieldErrorMessage message w end in
  WriteUint64Field kFieldTimestamp clock w.

Section Encoders.
Context `{Win32Strings}.

Definition Utf8ToWide (s : list Z) : list Z :=
  match s with [] => [] | _ => MultiByteToWideChar s end.

Definition WideToUtf8 (w : list Z) : list Z :=
  match w with [] => [] | _ => WideCharToMultiByte w end.

(** [full_path.substr(find_last_of(L"\\/") + 1)], the whole path when there is
    no separator. *)
Definition is_separator (c : Z) : bool := (c =? 92) || (c =? 47).
Fixpoint basename_of (path : list Z) : list Z :=
  match path with
  | [] => []
  | c :: rest =>
      if existsb is_separator rest then basename_of rest
      else if is_separator c then rest else path
  end.

Definition EncodeFileMetadata (index : Z) (full_path : list Z) : list Z :=
  let id_str := to_string index in
  let utf8_full := WideToUtf8 full_path in
  let utf8_base := WideToUtf8 (basename_of full_path) in
  let file_size := match GetFileAttributesExW (c_str full_path) with
                   | Some (low, high) => Z.lor (Z.shiftl high 32) low
                   | None => 0
                   end in
  let w := WriteStringField kFMFieldFileId id_str [] in
  let w := WriteStringField kFMFieldFilename utf8_base w in
  let w := WriteStringField kFMFieldRelativePath utf8_full w in
  WriteUint64Field kFMFieldFileSize file_size w.

Definition EncodeVirtualFileMetadata (index : Z) (entry : VirtualFileEntry) : list Z :=
  let id_str := to_string index in
  let utf8_name := WideToUtf8 (vfe_name entry) in
  let w := WriteStringField kFMFieldFileId id_str [] in
  let w := WriteStringField kFMFieldFilename utf8_name w in
  WriteUint64Field kFMFieldFileSize (vfe_size entry) w.

(** [for (i = 0; i < items.size(); ++i) w.WriteSubMessageField(files, enc(i, items[i]))] *)
Fixpoint write_files {A} (enc : Z -> A -> list Z) (i : Z) (items : list A) (w : Writer) : Writer :=
  match items with
  | [] => w
  | x :: rest =>
      write_files enc (i + 1) rest (WriteSubMessageField kCDFieldFiles (enc (u32 i) x) w)
  end.

Definition EncodeClipboardData (snap : ClipboardSnapshot) : list Z :=
  let w := WriteEnumField kCDFieldContentType (content_type_value (snap_content_type snap)) [] in
  match snap_content_type snap with
  | Text => WriteBytesField kCDFieldPayload (WideToUtf8 (snap_text snap)) w
  | Image => WriteBytesField kCDFieldPayload (snap_image_png snap) w
  | Files =>
      let w := write_files EncodeFileMetadata 0 (snap_file_paths snap) w in
      write_files EncodeVirtualFileMetadata 0 (snap_virtual_files snap) w
  | CtUnspecified => w
  | OtherContent _ => w
  end.
End Encoders.

Definition EncodeClipboardEnvelope (outer : HelperMessageType) (clipboard_data : list Z) (clock : Z) : list Z :=
  let w := WriteEnumField kFieldType (message_type_value outer) [] in
  let w := WriteSubMessageField kFieldClipboardData clipboard_data w in
  WriteUint64Field kFieldTimestamp clock w.

Definition EncodeDataRequest (content_hash : list Z) (content_type : ClipboardContentType) (clock : Z) : list Z :=
  let inner := WriteStringField kReqFieldContentHash content_hash [] in
  let inner := WriteEnumField kReqFieldContentType (content_type_value content_type) inner in
  let w := WriteEnumField kFieldType (message_type_value DataRequest) [] in
  let w := WriteSubMessageField kFieldDataRequest inner w in
  WriteUint64Field kFieldTimestamp clock w.

Definition EncodeFileChunkRequestOutbound (transfer_id file_id : list Z) (offset size clock : Z) : list Z :=
  let inner := WriteStringField kFCReqFieldTransferId transfer_id [] in
  let inner := WriteStringField kFCReqFieldFileId file_id inner in
  let inner := WriteUint64Field kFCReqFieldOffset offset inner in
  let inner := WriteUint64Field kFCReqFieldSize size inner in
  let w := WriteEnumField kFieldType (message_type_value FileChunkRequest) [] in
  let w := WriteSubMessageField kFieldFileChunkRequest inner w in
  WriteUint64Field kFieldTimestamp clock w.

Definition EncodeFileChunkData (transfer_id file_id : list Z) (offset : Z) (data : list Z)
    (is_last : bool) (error_msg : list Z) (clock : Z) : list Z :=
  let inner := WriteStringField kFCDataFieldTransferId transfer_id [] in
  let inner := WriteStringField kFCDataFieldFileId file_id inner in
  let inner := WriteUint64Field kFCDataFieldOffset offset inner in
  let inner := WriteBytesField kFCDataFieldData data inner in
  let inner := WriteBoolField kFCDataFieldIsLast is_last inner in
  let inner := match error_msg with [] => inner | _ => WriteStringField kFCDataFieldError error_msg inner end in
  let out := WriteEnumField kFieldType (message_type_value FileChunkData) [] in
  let out := WriteSubMessageField kFieldFileChunkData inner out in
  WriteUint64Field kFieldTimestamp clock out.

(** ** The peer's side of the protocol

    The requests a peer builds with the field writers of [proto_wire]. *)

Definition request_frame (t : HelperMessageType) (f : Z) (sub : list Z) (clock : Z) : list Z :=
  WriteUint64Field kFieldTimestamp clock
    (WriteSubMessageField f sub (WriteEnumField kFieldType (message_type_value t) [])).
Definition clipboard_sub (ty : ClipboardContentType) (payload : list Z) : list Z :=
  WriteBytesField kCDFieldPayload payload (WriteEnumField kCDFieldContentType (content_type_value ty) []).
Definition announcement_sub (ty : ClipboardContentType) (hash : list Z) : list Z :=
  WriteStringField kAnnFieldContentHash hash (WriteEnumField kAnnFieldContentType (content_type_value ty) []).
Definition provide_sub (hash data : list Z) : list Z :=
  WriteBytesField kPDFieldData data (WriteStringField kPDFieldContentHash hash []).

(** ** Decoders

    Each [Parse*] is the loop [parse_all] over its round; the rounds keep the
    order of the C++ tests. *)

Definition is_wire (w w' : WireType) : bool := bool_decide (w = w').

Definition ParseHelperMessage_round (out : ParsedHelperMessage) : Parser ParsedHelperMessage :=
  tag ← ReadTag;
  let (field, wire) := tag : Z * WireType in
  let 'Build_ParsedHelperMessage ty cd an pd rq dt := out in
  if (field =? kFieldType) && is_wire wire Varint then
    v ← ReadVarint; mret (Build_ParsedHelperMessage (message_type_of (i32 v)) cd an pd rq dt)
  else if (field =? kFieldClipboardData) && is_wire wire LengthDelim then
    s ← ReadLengthDelim; mret (Build_ParsedHelperMessage ty (Some s) an pd rq dt)
  else if (field =? kFieldAnnouncement) && is_wire wire LengthDelim then
    s ← ReadLengthDelim; mret (Build_ParsedHelperMessage ty cd (Some s) pd rq dt)
  else if (field =? kFieldProvideData) && is_wire wire LengthDelim then
    s ← ReadLengthDelim; mret (Build_ParsedHelperMessage ty cd an (Some s) rq dt)
  else if (field =? kFieldFileChunkRequest) && is_wire wire LengthDelim then
    s ← ReadLengthDelim; mret (Build_ParsedHelperMessage ty cd an pd (Some s) dt)
  else if (field =? kFieldFileChunkData) && is_wire wire LengthDelim then
    s ← ReadLengthDelim; mret (Build_ParsedHelperMessage ty cd an pd rq (Some s))
  else (_ ← SkipField wire; mret out).

Definition ParseHelperMessage (input : list Z) : outcome ParsedHelperMessage :=
  parse_all ParseHelperMessage_round empty_ParsedHelperMessage input.

Definition ParseClipboardData_round (out : ParsedClipboardData) : Parser ParsedClipboardData :=
  tag ← ReadTag;
  let (field, wire) := tag : Z * WireType in
  let 'Build_ParsedClipboardData ty payload files := out in
  if (field =? kCDFieldContentType) && is_wire wire Varint then
    v ← ReadVarint; mret (Build_ParsedClipboardData (content_type_of (i32 v)) payload files)
  else if (field =? kCDFieldPayload) && is_wire wire LengthDelim then
    s ← ReadLengthDelim; mret (Build_ParsedClipboardData ty (Some s) files)
  else if (field =? kCDFieldFiles) && is_wire wire LengthDelim then
    s ← ReadLengthDelim; mret (Build_ParsedClipboardData ty payload (files ++ [s]))
  else (_ ← SkipField wire; mret out).

Definition ParseClipboardData (data : list Z) : outcome ParsedClipboardData :=
  parse_all ParseClipboardData_round empty_ParsedClipboardData data.

Definition ParseAnnouncement_round (out : ParsedAnnouncement) : Parser ParsedAnnouncement :=
  tag ← ReadTag;
  let (field, wire) := tag : Z * WireType in
  let 'Build_ParsedAnnouncement ty hash files tid := out in
  if (field =? kAnnFieldContentType) && is_wire wire Varint then
    v ← ReadVarint; mret (Build_ParsedAnnouncement (content_type_of (i32 v)) hash files tid)
  else if (field =? kAnnFieldContentHash) && is_wire wire LengthDelim then
    s ← ReadLengthDelim; mret (Build_ParsedAnnouncement ty s files tid)
  else if (field =? kAnnFieldFiles) && is_wire wire LengthDelim then
    s ← ReadLengthDelim; mret (Build_ParsedAnnouncement ty hash (files ++ [s]) tid)
  else if (field =? kAnnFieldTransferId) && is_wire wire LengthDelim then
    s ← ReadLengthDelim; mret (Build_ParsedAnnouncement ty hash files s)
  else (_ ← SkipField wire; mret out).

Definition ParseAnnouncement (data : list Z) : outcome ParsedAnnouncement :=
  parse_all ParseAnnouncement_round empty_ParsedAnnouncement data.

(** The locals of [ParseFileMetadataForVirtualFile]. *)
Record FileMetadataLocals := {
  fm_file_id : list Z;
  fm_filename : list Z;
  fm_relative_path : list Z;
  fm_file_size : Z;
  fm_is_directory : bool
}.
Definition empty_FileMetadataLocals : FileMetadataLocals :=
  {| fm_file_id := []; fm_filename := []; fm_relative_path := []; fm_file_size := 0; fm_is_directory := false |}.

Definition ParseFileMetadataForVirtualFile_round (out : FileMetadataLocals) : Parser FileMetadataLocals :=
  tag ← ReadTag;
  let (field, wire) := tag : Z * WireType in
  let 'Build_FileMetadataLocals id name rel size dir := out in
  if (field =? kFMFieldFileId) && is_wire wire LengthDelim then
    s ← ReadLengthDelim; mret (Build_FileMetadataLocals s name rel size dir)
  else if (field =? kFMFieldFilename) && is_wire wire LengthDelim then
    s ← ReadLengthDelim; mret (Build_FileMetadataLocals id s rel size dir)
  else if (field =? kFMFieldRelativePath) && is_wire wire LengthDelim then
    s ← ReadLengthDelim; mret (Build_FileMetadataLocals id name s size dir)
  else if (field =? kFMFieldFileSize) && is_wire wire Varint then
    v ← ReadVarint; mret (Build_FileMetadataLocals id name rel v dir)
  else if (field =? kFMFieldIsDirectory) && is_wire wire Varint then
    v ← ReadVarint; mret (Build_FileMetadataLocals id name rel size (negb (v =? 0)))
  else (_ ← SkipField wire; mret out).

Definition ParseFileMetadataForVirtualFile `{Win32Strings} (data : list Z) : outcome VirtualFileSpec :=
  match parse_all ParseFileMetadataForVirtualFile_round empty_FileMetadataLocals data with
  | Done l =>
      match fm_file_id l with
      | [] => Malformed
      | _ =>
          let display := match fm_relative_path l with [] => fm_filename l | rel => rel end in
          match display with
          | [] => Malformed
          | _ => Done {| vfs_name := Utf8ToWide display; vfs_size := fm_file_size l;
                         vfs_file_id := fm_file_id l; vfs_is_directory := fm_is_directory l |}
          end
      end
  | Malformed => Malformed
  | OutOfFuel => OutOfFuel
  end.

Definition ParseProvideData_round (out : ParsedProvideData) : Parser ParsedProvideData :=
  tag ← ReadTag;
  let (field, wire) := tag : Z * WireType in
  let 'Build_ParsedProvideData hash data := out in
  if (field =? kPDFieldContentHash) && is_wire wire LengthDelim then
    s ← ReadLengthDelim; mret (Build_ParsedProvideData s data)
  else if (field =? kPDFieldData) && is_wire wire LengthDelim then
    s ← ReadLengthDelim; mret (Build_ParsedProvideData hash s)
  else (_ ← SkipField wire; mret out).

Definition ParseProvideData (data : list Z) : outcome ParsedProvideData :=
  parse_all ParseProvideData_round empty_ParsedProvideData data.

(** The [switch (field)] decoders test the field first and skip a known field
    of the wrong wire type. *)
Definition expect {A} (wire want : WireType) (out : A) (p : Parser A) : Parser A :=
  if negb (is_wire wire want) then (_ ← SkipField wire; mret out) else p.

Definition ParseFileChunkRequest_round (out : ParsedFileChunkRequest) : Parser ParsedFileChunkRequest :=
  tag ← ReadTag;
  let (field, wire) := tag : Z * WireType in
  let 'Build_ParsedFileChunkRequest tid fid offset size := out in
  if field =? kFCReqFieldTransferId then
    expect wire LengthDelim out (s ← ReadLengthDelim; mret (Build_ParsedFileChunkRequest s fid offset size))
  else if field =? kFCReqFieldFileId then
    expect wire LengthDelim out (s ← ReadLengthDelim; mret (Build_ParsedFileChunkRequest tid s offset size))
  else if field =? kFCReqFieldOffset then
    expect wire Varint out (v ← ReadVarint; mret (Build_ParsedFileChunkRequest tid fid v size))
  else if field =? kFCReqFieldSize then
    expect wire Varint out (v ← ReadVarint; mret (Build_ParsedFileChunkRequest tid fid offset (u32 v)))
  else (_ ← SkipField wire; mret out).

Definition ParseFileChunkRequest (data : list Z) : outcome ParsedFileChunkRequest :=
  parse_all ParseFileChunkRequest_round empty_ParsedFileChunkRequest data.

Definition ParseFileChunkData_round (out : ParsedFileChunkData) : Parser ParsedFileChunkData :=
  tag ← ReadTag;
  let (field, wire) := tag : Z * WireType in
  let 'Build_ParsedFileChunkData tid fid offset data last err := out in
  if field =? kFCDataFieldTransferId then
    expect wire LengthDelim out (s ← ReadLengthDelim; mret (Build_ParsedFileChunkData s fid offset data last err))
  else if field =? kFCDataFieldFileId then
    expect wire LengthDelim out (s ← ReadLengthDelim; mret (Build_ParsedFileChunkData tid s offset data last err))
  else if field =? kFCDataFieldOffset then
    expect wire Varint out (v ← ReadVarint; mret (Build_ParsedFileChunkData tid fid v data last err))
  else if field =? kFCDataFieldData then
    expect wire LengthDelim out (s ← ReadLengthDelim; mret (Build_ParsedFileChunkData tid fid offset s last err))
  else if field =? kFCDataFieldIsLast then
    expect wire Varint out (v ← ReadVarint; mret (Build_ParsedFileChunkData tid fid offset data (negb (v =? 0)) err))
  else if field =? kFCDataFieldError then
    expect wire LengthDelim out (s ← ReadLengthDelim; mret (Build_ParsedFileChunkData tid fid offset data last s))
  else (_ ← SkipField wire; mret out).

Definition ParseFileChunkData (data : list Z) : outcome ParsedFileChunkData :=
  parse_all ParseFileChunkData_round empty_ParsedFileChunkData data.

(** [ExtractRelativePath] returns from inside its loop at the first match. *)
Definition ExtractRelativePath_round : Parser (option (list Z)) :=
  tag ← ReadTag;
  let (field, wire) := tag : Z * WireType in
  if (field =? kFMFieldRelativePath) && is_wire wire LengthDelim then
    s ← ReadLengthDelim; mret (Some s)
  else (_ ← SkipField wire; mret None).

Fixpoint ExtractRelativePath_loop (fuel : nat) (r : list Z) : outcome (list Z) :=
  match fuel with
  | O => OutOfFuel
  | S fuel' =>
      if eof r then Malformed
      else match ExtractRelativePath_round r with
           | None => Malformed
           | Some (Some out, _) => Done out
           | Some (None, r') => ExtractRelativePath_loop fuel' r'
           end
  end.
Definition ExtractRelativePath (data : list Z) : outcome (list Z) :=
  ExtractRelativePath_loop (S (length data)) data.

(** ** Framing instances: every round consumes, none looks past its field *)

Ltac solve_round_class :=
  match goal with
  | out : _ |- _ => destruct out
  end;
  first [apply consuming_bind | apply framed_bind]; [apply _ |];
  intros [field wire]; unfold expect; repeat case_match; apply _.

#[export] Instance framed_hm out : Framed (ParseHelperMessage_round out).
Proof. solve_round_class. Qed.
#[export] Instance consuming_hm out : Consuming (ParseHelperMessage_round out).
Proof. solve_round_class. Qed.
#[export] Instance framed_cd out : Framed (ParseClipboardData_round out).
Proof. solve_round_class. Qed.
#[export] Instance consuming_cd out : Consuming (ParseClipboardData_round out).
Proof. solve_round_class. Qed.
#[export] Instance framed_ann out : Framed (ParseAnnouncement_round out).
Proof. solve_round_class. Qed.
#[export] Instance consuming_ann out : Consuming (ParseAnnouncement_round out).
Proof. solve_round_class. Qed.
#[export] Instance framed_fm out : Framed (ParseFileMetadataForVirtualFile_round out).
Proof. solve_round_class. Qed.
#[export] Instance consuming_fm out : Consuming (ParseFileMetadataForVirtualFile_round out).
Proof. solve_round_class. Qed.
#[export] Instance framed_pd out : Framed (ParseProvideData_round out).
Proof. solve_round_class. Qed.
#[export] Instance consuming_pd out : Consuming (ParseProvideData_round out).
Proof. solve_round_class. Qed.
#[export] Instance framed_fcr out : Framed (ParseFileChunkRequest_round out).
Proof. solve_round_class. Qed.
#[export] Instance consuming_fcr out : Consuming (ParseFileChunkRequest_round out).
Proof. solve_round_class. Qed.
#[export] Instance framed_fcd out : Framed (ParseFileChunkData_round out).
Proof. solve_round_class. Qed.
#[export] Instance consuming_fcd out : Consuming (ParseFileChunkData_round out).
Proof. solve_round_class. Qed.
#[export] Instance framed_erp : Framed ExtractRelativePath_round.
Proof. apply framed_bind; [apply _|]. intros [field wire]. case_match; apply _. Qed.
#[export] Instance consuming_erp : Consuming ExtractRelativePath_round.
Proof. apply consuming_bind; [apply _|]. intros [field wire]. case_match; apply _. Qed.

Lemma ExtractRelativePath_fuel data : ExtractRelativePath data <> OutOfFuel.
Proof.
  unfold ExtractRelativePath. generalize (Nat.lt_succ_diag_r (length data)).
  generalize (S (length data)). intros n. revert data.
  induction n as [|n IH]; intros r Hn; [lia|]. simpl. destruct (eof r); [done|].
  destruct (ExtractRelativePath_round r) as [[[s|] r']|] eqn:E; [done| |done].
  apply consuming_erp in E. apply IH. lia.
Qed.

Lemma ParseFileMetadataForVirtualFile_fuel `{Win32Strings} data :
  ParseFileMetadataForVirtualFile data <> OutOfFuel.
Proof.
  unfold ParseFileMetadataForVirtualFile.
  pose proof (parse_all_fuel ParseFileMetadataForVirtualFile_round empty_FileMetadataLocals data).
  repeat case_match; done.
Qed.

(** ** Field lemmas *)

Section Fields.
Context {A : Type} (round : A -> Parser A).
Context `{Hf : forall out, Framed (round out)} `{Hc : forall out, Consuming (round out)}.

(** A length-delimited field handled by the continuation [k] of [ReadTag]. *)
Lemma parse_len_field (k : Z * WireType -> Parser A) out out' f s rest :
  round out = (ReadTag ≫= k) -> tag_ok f LengthDelim ->
  (forall r, k (f, LengthDelim) (WriteVarint (Zlen s) [] ++ s ++ r) = Some (out', r)) ->
  parse_all round out (WriteSubMessageField f s [] ++ rest) = parse_all round out' rest.
Proof.
  intros Hr Ht Hk. apply (parse_all_round round). rewrite Hr.
  rewrite <- (app_nil_r (WriteSubMessageField f s [])), round_len by done. apply Hk.
Qed.

(** The same for a string writer, which writes nothing for an empty value. *)
Lemma parse_string_field (k : Z * WireType -> Parser A) out out' f s rest :
  round out = (ReadTag ≫= k) -> tag_ok f LengthDelim ->
  (s = [] -> out = out') ->
  (forall r, k (f, LengthDelim) (WriteVarint (Zlen s) [] ++ s ++ r) = Some (out', r)) ->
  parse_all round out (WriteStringField f s [] ++ rest) = parse_all round out' rest.
Proof.
  intros Hr Ht Hnil Hk. rewrite WriteStringField_sub. destruct s as [|c s].
  - simpl. by rewrite Hnil.
  - by apply parse_len_field with k.
Qed.

Lemma parse_bytes_field (k : Z * WireType -> Parser A) out out' f s rest :
  round out = (ReadTag ≫= k) -> tag_ok f LengthDelim ->
  (s = [] -> out = out') ->
  (forall r, k (f, LengthDelim) (WriteVarint (Zlen s) [] ++ s ++ r) = Some (out', r)) ->
  parse_all round out (WriteBytesField f s [] ++ rest) = parse_all round out' rest.
Proof.
  intros Hr Ht Hnil Hk. rewrite WriteBytesField_sub. destruct s as [|c s].
  - simpl. by rewrite Hnil.
  - by apply parse_len_field with k.
Qed.

Lemma parse_varint_field (k : Z * WireType -> Parser A) out out' f v rest :
  round out = (ReadTag ≫= k) -> tag_ok f Varint ->
  (v = 0 -> out = out') ->
  (forall r, k (f, Varint) (WriteVarint v [] ++ r) = Some (out', r)) ->
  parse_all round out (WriteUint64Field f v [] ++ rest) = parse_all round out' rest.
Proof.
  intros Hr Ht Hnil Hk. destruct (decide (v = 0)) as [->|Hv].
  - simpl. by rewrite Hnil.
  - apply (parse_all_round round). rewrite Hr.
    rewrite <- (app_nil_r (WriteUint64Field f v [])), round_varint by done. apply Hk.
Qed.

(** A field the parser does not know is skipped (proto3 forward
    compatibility). *)
Lemma parse_skip_field (k : Z * WireType -> Parser A) out x rest :
  round out = (ReadTag ≫= k) -> field_ok x ->
  k (field_number x, field_wire x) = (_ ← SkipField (field_wire x); mret out) ->
  parse_all round out (encode_field x ++ rest) = parse_all round out rest.
Proof.
  intros Hr Hx Hk. apply (parse_all_round round). rewrite Hr.
  destruct (SkipField_payload x Hx []) as (body & Heq & Hskip).
  rewrite app_nil_r in Heq. rewrite Heq.
  erewrite parser_bind_some by (apply ReadTag_WriteTag; by apply field_tag_ok).
  rewrite Hk. by erewrite parser_bind_some by exact Hskip.
Qed.
End Fields.

Lemma WriteUint64Field_encode f v : v <> 0 -> WriteUint64Field f v [] = encode_field (VarintField f v).
Proof.
  intros Hv. unfold WriteUint64Field. replace (v =? 0) with false by (symmetry; by apply Z.eqb_neq).
  apply WriteVarint_app.
Qed.

Lemma WriteEnumField_uint f v : is_u64 v -> WriteEnumField f v [] = WriteUint64Field f v [].
Proof. intros Hv. unfold WriteEnumField, WriteInt32Field, WriteUint64Field. by rewrite u64_small. Qed.

(** Discharge the side conditions of a field lemma for a concrete field of a
    concrete round. *)
Ltac tag_ok_tac := repeat split; vm_compute; congruence.
Ltac closed_or_hyp := first [assumption | split; vm_compute; congruence].
Ltac default_tac := let E := fresh in intros E; first [discriminate E | rewrite E; reflexivity].
Ltac len_cont :=
  intros; refine (parser_bind_some ReadLengthDelim _ _ _ _ (ReadLengthDelim_written _ _ _)); assumption.
Ltac varint_cont :=
  intros; refine (parser_bind_some ReadVarint _ _ _ _ (ReadVarint_WriteVarint _ _ _)); closed_or_hyp.
Ltac known_field :=
  first
    [ erewrite (parse_string_field _); [| reflexivity | tag_ok_tac | | len_cont]; [| default_tac]
    | erewrite (parse_bytes_field _); [| reflexivity | tag_ok_tac | | len_cont]; [| default_tac]
    | erewrite (parse_varint_field _); [| reflexivity | tag_ok_tac | | varint_cont]; [| default_tac]
    | erewrite (parse_len_field _); [| reflexivity | tag_ok_tac | len_cont] ].

(** Put an encoder's output in the form [field ++ field ++ ... ++ rest]. *)
Ltac split_fields :=
  repeat match goal with
         | |- context [WriteStringField ?f ?s ?b] => 
             lazymatch b with [] => fail | _ => rewrite (WriteStringField_app f s b) end
         | |- context [WriteBytesField ?f ?s ?b] =>
             lazymatch b with [] => fail | _ => rewrite (WriteBytesField_app f s b) end
         | |- context [WriteUint64Field ?f ?s ?b] =>
             lazymatch b with [] => fail | _ => rewrite (WriteUint64Field_app f s b) end
         | |- context [WriteEnumField ?f ?s ?b] =>
             lazymatch b with [] => fail | _ => rewrite (WriteEnumField_app f s b) end
         | |- context [WriteBoolField ?f ?s ?b] =>
             lazymatch b with [] => fail | _ => rewrite (WriteBoolField_app f s b) end
         | |- context [WriteSubMessageField ?f ?s ?b] =>
             lazymatch b with [] => fail | _ => rewrite (WriteSubMessageField_app f s b) end
         end;
  rewrite <- ?app_assoc.

Lemma parse_timestamp out clock :
  is_u64 clock ->
  parse_all ParseHelperMessage_round out (WriteUint64Field kFieldTimestamp clock []) = Done out.
Proof.
  intros Hc. destruct (decide (clock = 0)) as [->|Hne]; [done|].
  rewrite WriteUint64Field_encode by done.
  rewrite <- (app_nil_r (encode_field _)).
  erewrite (parse_skip_field ParseHelperMessage_round);
    [done | by destruct out | split; [simpl; split; vm_compute; congruence|done] | by destruct out].
Qed.

Lemma WriteBoolField_uint f b : WriteBoolField f b [] = WriteUint64Field f (if b then 1 else 0) [].
Proof. by destruct b. Qed.

Section Envelope.
Context (clock : Z) (Hclock : is_u64 clock).

Lemma envelope_file_chunk_request sub :
  Zlen sub < 2 ^ 64 ->
  ParseHelperMessage
    (WriteUint64Field kFieldTimestamp clock
      (WriteSubMessageField kFieldFileChunkRequest sub
        (WriteEnumField kFieldType (message_type_value FileChunkRequest) []))) =
  Done (Build_ParsedHelperMessage FileChunkRequest None None None (Some sub) None).
Proof using Hclock.
  intros Hs. unfold ParseHelperMessage, empty_ParsedHelperMessage. split_fields.
  rewrite WriteEnumField_uint by closed_or_hyp. do 2 known_field. by rewrite parse_timestamp.
Qed.

Lemma envelope_file_chunk_data sub :
  Zlen sub < 2 ^ 64 ->
  ParseHelperMessage
    (WriteUint64Field kFieldTimestamp clock
      (WriteSubMessageField kFieldFileChunkData sub
        (WriteEnumField kFieldType (message_type_value FileChunkData) []))) =
  Done (Build_ParsedHelperMessage FileChunkData None None None None (Some sub)).
Proof using Hclock.
  intros Hs. unfold ParseHelperMessage, empty_ParsedHelperMessage. split_fields.
  rewrite WriteEnumField_uint by closed_or_hyp. do 2 known_field. by rewrite parse_timestamp.
Qed.

Lemma envelope_clipboard t sub :
  t = ClipboardChanged \/ t = ClipboardContent \/ t = SetClipboard ->
  Zlen sub < 2 ^ 64 ->
  ParseHelperMessage (EncodeClipboardEnvelope t sub clock) =
  Done (Build_ParsedHelperMessage t (Some sub) None None None None).
Proof using Hclock.
  intros Ht Hs. unfold EncodeClipboardEnvelope, ParseHelperMessage, empty_ParsedHelperMessage.
  split_fields. destruct Ht as [->|[->| ->]];
    (rewrite WriteEnumField_uint by closed_or_hyp; do 2 known_field; by rewrite parse_timestamp).
Qed.
End Envelope.

(** ** Sizes of encodings *)

(** Strings far longer than any frame; keeps every length prefix in range. *)
Definition small (s : list Z) : Prop := Zlen s < 2 ^ 32.

Lemma WriteVarint_size v : is_u64 v -> Zlen (WriteVarint v []) <= 10.
Proof.
  intros Hv. unfold is_u64 in Hv. unfold Zlen.
  destruct (WriteVarint_loop_bytes 10 v) as [_ Hl]; [lia|simpl; lia|lia|].
  unfold WriteVarint. lia.
Qed.
Lemma WriteTag_size f w : tag_ok f w -> Zlen (WriteTag f w []) <= 10.
Proof.
  intros (Hf & _ & Hw). apply WriteVarint_size. unfold MakeTag.
  rewrite (u32_small (wire_value w)), Z.lor_comm by (unfold is_u32; lia).
  rewrite (u32_small (Z.shiftl f 3)) by (unfold is_u32; rewrite Z.shiftl_mul_pow2; lia).
  rewrite lor_shiftl_add by lia. unfold is_u64. lia.
Qed.
Lemma len_field_size f s : tag_ok f LengthDelim -> small s -> Zlen (WriteSubMessageField f s []) <= 20 + Zlen s.
Proof.
  unfold small. intros Ht Hs. unfold WriteSubMessageField. rewrite WriteVarint_app, !Zlen_app.
  pose proof (WriteTag_size _ _ Ht). pose proof (Zlen_nonneg s).
  assert (Zlen (WriteVarint (Zlen s) []) <= 10) by (apply WriteVarint_size; unfold is_u64; lia). lia.
Qed.
Lemma string_field_size f s : tag_ok f LengthDelim -> small s -> Zlen (WriteStringField f s []) <= 20 + Zlen s.
Proof.
  intros Ht Hs. rewrite WriteStringField_sub. destruct s; [|by apply len_field_size].
  rewrite Zlen_nil. lia.
Qed.
Lemma bytes_field_size f s : tag_ok f LengthDelim -> small s -> Zlen (WriteBytesField f s []) <= 20 + Zlen s.
Proof.
  intros Ht Hs. rewrite WriteBytesField_sub. destruct s; [|by apply len_field_size].
  rewrite Zlen_nil. lia.
Qed.
Lemma varint_field_size f v : tag_ok f Varint -> is_u64 v -> Zlen (WriteUint64Field f v []) <= 20.
Proof.
  intros Ht Hv. unfold WriteUint64Field. destruct (v =? 0); [rewrite Zlen_nil; lia|].
  rewrite WriteVarint_app, Zlen_app. pose proof (WriteTag_size _ _ Ht).
  pose proof (WriteVarint_size v Hv). lia.
Qed.

Ltac size_tac :=
  repeat match goal with
         | |- context [WriteStringField ?f ?s []] =>
             pose proof (string_field_size f s ltac:(tag_ok_tac) ltac:(assumption));
             generalize dependent (WriteStringField f s []); intros
         | |- context [WriteBytesField ?f ?s []] =>
             pose proof (bytes_field_size f s ltac:(tag_ok_tac) ltac:(assumption));
             generalize dependent (WriteBytesField f s []); intros
         | |- context [WriteUint64Field ?f ?s []] =>
             pose proof (varint_field_size f s ltac:(tag_ok_tac) ltac:(closed_or_hyp));
             generalize dependent (WriteUint64Field f s []); intros
         end;
  unfold small in *; rewrite ?Zlen_app, ?Zlen_nil; lia.

Lemma small_u64 s : small s -> Zlen s < 2 ^ 64.
Proof. unfold small. lia. Qed.

(** The two frames a virtual-file read exchanges. *)
Lemma file_chunk_data_decodes tid fid offset data is_last err clock :
  small tid -> small fid -> small data -> small err -> is_u64 offset -> is_u64 clock ->
  exists inner,
    ParseHelperMessage (EncodeFileChunkData tid fid offset data is_last err clock) =
      Done (Build_ParsedHelperMessage FileChunkData None None None None (Some inner)) /\
    ParseFileChunkData inner = Done (Build_ParsedFileChunkData tid fid offset data is_last err).
Proof.
  intros Htid Hfid Hdata Herr Hoff Hclock. unfold EncodeFileChunkData.
  assert (Hmatch : forall b, match err with [] => b | _ => WriteStringField kFCDataFieldError err b end
                             = WriteStringField kFCDataFieldError err b) by (by destruct err).
  rewrite Hmatch. eexists. split.
  - apply envelope_file_chunk_data; [done|]. split_fields. rewrite WriteBoolField_uint.
    assert (is_u64 (if is_last then 1 else 0)) by (destruct is_last; unfold is_u64; lia). size_tac.
  - unfold ParseFileChunkData, empty_ParsedFileChunkData. split_fields.
    rewrite <- (app_nil_r (WriteStringField kFCDataFieldError err [])).
    pose proof (small_u64 _ Htid). pose proof (small_u64 _ Hfid).
    pose proof (small_u64 _ Hdata). pose proof (small_u64 _ Herr).
    do 4 known_field. rewrite WriteBoolField_uint.
    destruct is_last; [known_field|rewrite app_nil_l]; by known_field.
Qed.

Lemma file_chunk_request_decodes tid fid offset size clock :
  small tid -> small fid -> is_u64 offset -> is_u32 size -> is_u64 clock ->
  exists inner,
    ParseHelperMessage (EncodeFileChunkRequestOutbound tid fid offset size clock) =
      Done (Build_ParsedHelperMessage FileChunkRequest None None None (Some inner) None) /\
    ParseFileChunkRequest inner = Done (Build_ParsedFileChunkRequest tid fid offset size).
Proof.
  intros Htid Hfid Hoff Hsize Hclock. unfold EncodeFileChunkRequestOutbound.
  assert (Hsize64 : is_u64 size) by (unfold is_u32, is_u64 in *; lia). eexists. split.
  - apply envelope_file_chunk_request; [done|]. split_fields. size_tac.
  - unfold ParseFileChunkRequest, empty_ParsedFileChunkRequest. split_fields.
    rewrite <- (app_nil_r (WriteUint64Field kFCReqFieldSize size [])).
    pose proof (small_u64 _ Htid). pose proof (small_u64 _ Hfid).
    do 4 known_field.
    rewrite parse_all_nil. by rewrite u32_small.
Qed.

(** ** Clipboard content *)

(** The FileMetadata messages [write_files] writes. *)
Fixpoint encoded_files {A} (enc : Z -> A -> list Z) (i : Z) (items : list A) : list (list Z) :=
  match items with
  | [] => []
  | x :: rest => enc (u32 i) x :: encoded_files enc (i + 1) rest
  end.

Lemma write_files_app {A} (enc : Z -> A -> list Z) i items w :
  write_files enc i items w =
    w ++ concat (map (fun m => WriteSubMessageField kCDFieldFiles m []) (encoded_files enc i items)).
Proof.
  revert i w. induction items as [|x items IH]; intros i w; simpl; [by rewrite app_nil_r|].
  by rewrite IH, WriteSubMessageField_app, <- app_assoc.
Qed.

Lemma parse_files ms out rest :
  Forall (fun m => Zlen m < 2 ^ 64) ms ->
  parse_all ParseClipboardData_round out
    (concat (map (fun m => WriteSubMessageField kCDFieldFiles m []) ms) ++ rest) =
  parse_all ParseClipboardData_round
    (Build_ParsedClipboardData (cd_content_type out) (cd_payload_ptr out) (cd_files out ++ ms)) rest.
Proof.
  intros Hms. revert out. induction Hms as [|m ms Hm _ IH]; intros [ty payload files].
  - simpl. by rewrite app_nil_r.
  - simpl concat. rewrite <- app_assoc. erewrite (parse_len_field _); [|reflexivity|tag_ok_tac|len_cont].
    rewrite IH. simpl. by rewrite <- app_assoc.
Qed.

(** The spans of the bytes a snapshot encodes to, as [ParseClipboardData] finds
    them. *)
Definition snapshot_parsed `{Win32Strings} (snap : ClipboardSnapshot) : ParsedClipboardData :=
  let some_bytes s := match s with [] => None | _ => Some s end in
  match snap_content_type snap with
  | Text => Build_ParsedClipboardData Text (some_bytes (WideToUtf8 (snap_text snap))) []
  | Image => Build_ParsedClipboardData Image (some_bytes (snap_image_png snap)) []
  | Files => Build_ParsedClipboardData Files None
               (encoded_files EncodeFileMetadata 0 (snap_file_paths snap) ++
                encoded_files EncodeVirtualFileMetadata 0 (snap_virtual_files snap))
  | t => Build_ParsedClipboardData t None []
  end.

Lemma content_type_field rest :
  forall t, t = Text \/ t = Image \/ t = Files ->
  parse_all ParseClipboardData_round empty_ParsedClipboardData
    (WriteEnumField kCDFieldContentType (content_type_value t) [] ++ rest) =
  parse_all ParseClipboardData_round (Build_ParsedClipboardData t None []) rest.
Proof.
  unfold empty_ParsedClipboardData.
  intros t [->|[->| ->]]; rewrite WriteEnumField_uint by closed_or_hyp; by known_field.
Qed.

(** A message is at least as long as any field in it. *)
Lemma sub_field_contains f s : Zlen s <= Zlen (WriteSubMessageField f s []).
Proof.
  unfold WriteSubMessageField. rewrite WriteVarint_app, !Zlen_app.
  pose proof (Zlen_nonneg (WriteTag f LengthDelim [])). pose proof (Zlen_nonneg (WriteVarint (Zlen s) [])). lia.
Qed.

Lemma string_field_contains f s : Zlen s <= Zlen (WriteStringField f s []).
Proof. rewrite WriteStringField_sub. destruct s; [done|apply sub_field_contains]. Qed.

Lemma bytes_field_contains f s : Zlen s <= Zlen (WriteBytesField f s []).
Proof. rewrite WriteBytesField_sub. destruct s; [done|apply sub_field_contains]. Qed.

Lemma files_field_contains ms m :
  m ∈ ms -> Zlen m <= Zlen (concat (map (fun m => WriteSubMessageField kCDFieldFiles m []) ms)).
Proof.
  induction ms as [|x ms IH]; [by intros ?%elem_of_nil|]. simpl. rewrite Zlen_app, elem_of_cons.
  pose proof (sub_field_contains kCDFieldFiles x).
  pose proof (Zlen_nonneg (concat (map (fun m => WriteSubMessageField kCDFieldFiles m []) ms))).
  intros [->|Hm]; [lia|]. specialize (IH Hm). pose proof (Zlen_nonneg x). lia.
Qed.

(** What [EncodeClipboardData] writes is what [ParseClipboardData] reads. *)
Lemma clipboard_data_decodes `{Win32Strings} snap :
  snap_content_type snap = Text \/ snap_content_type snap = Image \/ snap_content_type snap = Files ->
  Zlen (EncodeClipboardData snap) < 2 ^ 64 ->
  ParseClipboardData (EncodeClipboardData snap) = Done (snapshot_parsed snap).
Proof.
  intros Ht Hsize. unfold ParseClipboardData, EncodeClipboardData, snapshot_parsed in *.
  destruct (snap_content_type snap) eqn:Et; [by naive_solver| | | |by naive_solver].
  - rewrite WriteBytesField_app, Zlen_app in Hsize.
    pose proof (bytes_field_contains kCDFieldPayload (WideToUtf8 (snap_text snap))).
    pose proof (Zlen_nonneg (WriteEnumField kCDFieldContentType (content_type_value Text) [])).
    assert (Zlen (WideToUtf8 (snap_text snap)) < 2 ^ 64) by lia.
    rewrite WriteBytesField_app, content_type_field by auto.
    rewrite <- (app_nil_r (WriteBytesField kCDFieldPayload _ [])).
    destruct (WideToUtf8 (snap_text snap)) as [|b u]; [done|]. rewrite WriteBytesField_sub. by known_field.
  - rewrite WriteBytesField_app, Zlen_app in Hsize.
    pose proof (bytes_field_contains kCDFieldPayload (snap_image_png snap)).
    pose proof (Zlen_nonneg (WriteEnumField kCDFieldContentType (content_type_value Image) [])).
    assert (Zlen (snap_image_png snap) < 2 ^ 64) by lia.
    rewrite WriteBytesField_app, content_type_field by auto.
    rewrite <- (app_nil_r (WriteBytesField kCDFieldPayload _ [])).
    destruct (snap_image_png snap) as [|b u]; [done|]. rewrite WriteBytesField_sub. by known_field.
  - rewrite !write_files_app, <- app_assoc, <- concat_app, <- map_app in *. rewrite Zlen_app in Hsize.
    set (ms := encoded_files EncodeFileMetadata 0 _ ++ _) in *.
    rewrite content_type_field by auto. rewrite <- (app_nil_r (concat _)), parse_files; [done|].
    apply Forall_forall. intros m Hm. pose proof (files_field_contains ms m Hm).
    pose proof (Zlen_nonneg (WriteEnumField kCDFieldContentType (content_type_value Files) [])). lia.
Qed.

Lemma erp_unfold n r :
  ExtractRelativePath_loop (S n) r =
    if eof r then Malformed
    else match ExtractRelativePath_round r with
         | None => Malformed
         | Some (Some out, _) => Done out
         | Some (None, r') => ExtractRelativePath_loop n r'
         end.
Proof. done. Qed.

Lemma erp_enough n m r :
  (length r < n)%nat -> (length r < m)%nat -> ExtractRelativePath_loop n r = ExtractRelativePath_loop m r.
Proof.
  revert m r. induction n as [|n IH]; intros [|m] r Hn Hm; [lia|lia|lia|]. simpl.
  destruct (eof r); [done|]. destruct (ExtractRelativePath_round r) as [[[out|] r']|] eqn:E; [done| |done].
  apply consuming_erp in E. apply IH; lia.
Qed.

(** A field in front of the relative path is skipped. *)
Lemma erp_skip x r :
  field_ok x -> (field_number x =? kFMFieldRelativePath) = false ->
  ExtractRelativePath (encode_field x ++ r) = ExtractRelativePath r.
Proof.
  intros Hx Hn. destruct (SkipField_payload x Hx r) as (body & Heq & Hskip).
  assert (Hr : ExtractRelativePath_round (encode_field x ++ r) = Some (None, r)).
  { unfold ExtractRelativePath_round. rewrite Heq.
    erewrite parser_bind_some by (apply ReadTag_WriteTag; by apply field_tag_ok).
    cbv beta iota. rewrite Hn. cbv beta iota delta [andb]. by erewrite parser_bind_some by exact Hskip. }
  pose proof (consuming_erp _ _ _ Hr) as Hlen. unfold ExtractRelativePath.
  rewrite (erp_unfold _ (encode_field x ++ r)). destruct (eof (encode_field x ++ r)) eqn:E.
  - destruct (encode_field x ++ r); [simpl in Hlen; lia|done].
  - rewrite Hr. apply erp_enough; lia.
Qed.

Lemma WriteSubMessageField_encode f s : WriteSubMessageField f s [] = encode_field (LengthField f s).
Proof. unfold WriteSubMessageField. by rewrite WriteVarint_app, <- app_assoc. Qed.

Lemma erp_skip_string f s r :
  0 <= f < 2 ^ 29 -> (f =? kFMFieldRelativePath) = false -> Zlen s < 2 ^ 64 ->
  ExtractRelativePath (WriteStringField f s [] ++ r) = ExtractRelativePath r.
Proof.
  intros Hf Hn Hs. rewrite WriteStringField_sub. destruct s as [|c s]; [done|].
  rewrite WriteSubMessageField_encode. by apply erp_skip.
Qed.

Lemma erp_hit s r :
  s <> [] -> Zlen s < 2 ^ 64 -> ExtractRelativePath (WriteStringField kFMFieldRelativePath s [] ++ r) = Done s.
Proof.
  intros Hne Hs. rewrite WriteStringField_sub. destruct s as [|c s]; [done|].
  assert (Hr : ExtractRelativePath_round (WriteSubMessageField kFMFieldRelativePath (c :: s) [] ++ r) = Some (Some (c :: s), r)).
  { unfold ExtractRelativePath_round. rewrite round_len by tag_ok_tac.
    exact (parser_bind_some ReadLengthDelim (fun s' => mret (Some s')) _ _ _ (ReadLengthDelim_written (c :: s) r Hs)). }
  pose proof (consuming_erp _ _ _ Hr) as Hlen. unfold ExtractRelativePath.
  rewrite erp_unfold. destruct (eof _) eqn:E; [|by rewrite Hr].
  destruct (WriteSubMessageField kFMFieldRelativePath (c :: s) [] ++ r); [simpl in Hlen; lia|done].
Qed.

(** The relative path of an encoded file is found whatever the other fields. *)
Lemma relative_path_found `{Win32Strings} i path :
  WideToUtf8 path <> [] -> Zlen (EncodeFileMetadata i path) < 2 ^ 64 ->
  ExtractRelativePath (EncodeFileMetadata i path) = Done (WideToUtf8 path).
Proof.
  unfold EncodeFileMetadata. split_fields. intros Hne Hsize.
  pose proof (string_field_contains kFMFieldFilename (WideToUtf8 (basename_of path))).
  pose proof (string_field_contains kFMFieldRelativePath (WideToUtf8 path)).
  rewrite !Zlen_app in Hsize. pose proof (to_string_length i).
  pose proof (Zlen_nonneg (WriteStringField kFMFieldFileId (to_string i) [])).
  pose proof (Zlen_nonneg (WriteStringField kFMFieldFilename (WideToUtf8 (basename_of path)) [])).
  pose proof (Zlen_nonneg (WriteStringField kFMFieldRelativePath (WideToUtf8 path) [])).
  match type of Hsize with context [Zlen (WriteUint64Field ?f ?v [])] =>
    pose proof (Zlen_nonneg (WriteUint64Field f v [])) end.
  rewrite erp_skip_string; [|split; vm_compute; congruence|reflexivity|lia].
  rewrite erp_skip_string; [|split; vm_compute; congruence|reflexivity|lia].
  apply erp_hit; [done|lia].
Qed.

(** ** Properties *)

(** C39: no decoder of the helper can loop or over-run on any input: with fuel for
    one round more than there are bytes, every [Parse*] answers. *)
Theorem decoders_terminate `{Win32Strings} data :
  ParseHelperMessage data <> OutOfFuel /\
  ParseClipboardData data <> OutOfFuel /\
  ParseAnnouncement data <> OutOfFuel /\
  ParseFileMetadataForVirtualFile data <> OutOfFuel /\
  ParseProvideData data <> OutOfFuel /\
  ParseFileChunkRequest data <> OutOfFuel /\
  ParseFileChunkData data <> OutOfFuel /\
  ExtractRelativePath data <> OutOfFuel.
Proof.
  split_and!; try (apply parse_all_fuel; apply _).
  - apply ParseFileMetadataForVirtualFile_fuel.
  - apply ExtractRelativePath_fuel.
Qed.

(** The two frames a file transfer exchanges decode to exactly what was
    encoded: a FILE_CHUNK_DATA to its envelope type, ids, 64-bit offset, payload
    bytes, last-chunk flag and error string, a FILE_CHUNK_REQUEST to its ids,
    offset and 32-bit size. *)
Theorem file_chunk_frames_roundtrip tid fid offset data is_last err size clock :
  small tid -> small fid -> small data -> small err -> is_u64 offset -> is_u32 size -> is_u64 clock ->
  (exists inner,
     ParseHelperMessage (EncodeFileChunkData tid fid offset data is_last err clock) =
       Done (Build_ParsedHelperMessage FileChunkData None None None None (Some inner)) /\
     ParseFileChunkData inner = Done (Build_ParsedFileChunkData tid fid offset data is_last err)) /\
  (exists inner,
     ParseHelperMessage (EncodeFileChunkRequestOutbound tid fid offset size clock) =
       Done (Build_ParsedHelperMessage FileChunkRequest None None None (Some inner) None) /\
     ParseFileChunkRequest inner = Done (Build_ParsedFileChunkRequest tid fid offset size)).
Proof. intros. split; [by apply file_chunk_data_decodes|by apply file_chunk_request_decodes]. Qed.

Lemma file_chunk_frames_roundtrip_witness :
  exists inner,
    ParseHelperMessage (EncodeFileChunkRequestOutbound (str "t1") (str "0") (2 ^ 40) 65536 5) =
      Done (Build_ParsedHelperMessage FileChunkRequest None None None (Some inner) None) /\
    ParseFileChunkRequest inner = Done (Build_ParsedFileChunkRequest (str "t1") (str "0") (2 ^ 40) 65536).
Proof.
  refine (proj2 (file_chunk_frames_roundtrip (str "t1") (str "0") (2 ^ 40) [1; 2; 255] true [] 65536 5 _ _ _ _ _ _ _));
    [reflexivity | reflexivity | reflexivity | reflexivity | | | ]; unfold is_u64, is_u32; lia.
Defined.
