(* ===== verification/DelayedRender.v ===== *)
(** * DelayedRender: delayed text and image rendering on Windows

    The render state of [Dispatcher] in [windows/src/dispatch.cpp] and its four
    handlers: the locked part of [HandleAnnounceDelayed], [HandleProvideData],
    [CancelPendingRender] and [OnRenderFormat].  The pipe thread runs the first
    three, the STA thread the last, which waits with a message pump and so can
    be re-entered: the STA's activations form a stack whose top one runs.  The
    atomic actions are the regions the code runs under [render_mu_] and the
    calls between them; [exec] runs one action and is executable. *)

From S2P Require Import Prelude HelperProto ProtoWire Win32 WinCodec.

(** ** State *)

(** [render_event_] is [None] for a null handle and otherwise the signalled
    state of the manual-reset event. *)
Record RenderState := {
  pending_hash : list Z;
  pending_type : ClipboardContentType;
  pending_response : list Z;
  cached_response : list Z;
  cached_valid : bool;
  render_event : option bool
}.

(** The members as the constructor leaves them; [event_created] says whether
    [CreateEventW] succeeded. *)
Definition init_RenderState (event_created : bool) : RenderState :=
  {| pending_hash := []; pending_type := CtUnspecified; pending_response := [];
     cached_response := []; cached_valid := false;
     render_event := if event_created then Some false else None |}.

Definition set_event (e : option bool) : option bool := option_map (fun _ => true) e.
Definition reset_event (e : option bool) : option bool := option_map (fun _ => false) e.

(** ** Handlers of the pipe thread *)

Definition announce_render (ann : ParsedAnnouncement) (s : RenderState) : RenderState :=
  {| pending_hash := ann_content_hash ann;
     pending_type := ann_content_type ann;
     pending_response := [];
     cached_response := [];
     cached_valid := false;
     render_event := reset_event (render_event s) |}.

Definition provide_parsed (pd : ParsedProvideData) (s : RenderState) : RenderState :=
  if bytes_eqb (pending_hash s) [] then s
  else if negb (bytes_eqb (pd_content_hash pd) (pending_hash s)) then s
  else {| pending_hash := pending_hash s; pending_type := pending_type s;
          pending_response := pd_data pd;
          cached_response := cached_response s; cached_valid := cached_valid s;
          render_event := set_event (render_event s) |}.

Definition HandleProvideData (sub_payload : list Z) (s : RenderState) : RenderState :=
  match ParseProvideData sub_payload with
  | Done pd => provide_parsed pd s
  | _ => s
  end.

Definition CancelPendingRender (s : RenderState) : RenderState :=
  {| pending_hash := pending_hash s; pending_type := pending_type s;
     pending_response := pending_response s; cached_response := cached_response s;
     cached_valid := cached_valid s; render_event := set_event (render_event s) |}.

(** ** [OnRenderFormat] *)

Definition CF_DIB : Z := 8.
Definition CF_UNICODETEXT : Z := 13.
Definition CF_DIBV5 : Z := 17.

Definition requested_type (format : Z) : option ClipboardContentType :=
  if format =? CF_UNICODETEXT then Some Text
  else if (format =? CF_DIBV5) || (format =? CF_DIB) then Some Image
  else None.

(** Why a render left the slot empty: the early returns of the function. *)
Inductive RenderAbort :=
| UnsupportedFormat
| NoAnnouncement
| TypeMismatch
| NoCachedData
| SendFailed
| NoEvent
| RenderTimedOut
| QuitObserved
| SupersededInWait
| WaitFailed
| SupersededAfterWake
| NoResponseInFlight.

(** Where an activation stands: before [SendFrame], at the head of the wait
    loop, inside the message pump, or woken and about to take the lock. *)
Inductive RenderPc := AtSend | AtWait (start : Z) | AtPump (start : Z) | AtWake.

Record RenderFrame := {
  rf_format : Z;
  rf_requested : ClipboardContentType;
  rf_hash : list Z;
  rf_pc : RenderPc
}.

(** The clipboard call the final [switch] makes. *)
Inductive RenderCall :=
| RenderTextDuringWmRenderFormat (wide : list Z)
| RenderImageDuringWmRenderFormat (format : Z) (png : list Z).

(** What an activation does that others can see. *)
Inductive RenderOutput :=
| OSendFrame (frame : list Z)
| ORender (hash : list Z) (call : RenderCall)
| OAbort (why : RenderAbort).

Section Handlers.
Context `{Win32Strings}.

Definition render_call (requested : ClipboardContentType) (format : Z) (response : list Z) : option RenderCall :=
  match requested with
  | Text => Some (RenderTextDuringWmRenderFormat (Utf8ToWide response))
  | Image => Some (RenderImageDuringWmRenderFormat format response)
  | _ => None
  end.

Definition finish_render (hash : list Z) (requested : ClipboardContentType) (format : Z)
    (response : list Z) : list RenderOutput :=
  match render_call requested format response with
  | Some c => [ORender hash c]
  | None => []
  end.

(** [response = std::move(pending_response_); cached_response_ = response;
    cached_valid_ = true]: a moved-from vector is empty. *)
Definition adopt_pending (s : RenderState) : RenderState :=
  {| pending_hash := pending_hash s; pending_type := pending_type s;
     pending_response := []; cached_response := pending_response s;
     cached_valid := true; render_event := render_event s |}.

(** The entry of the function up to the end of the first locked region: a frame
    when it goes on to ask the parent, outputs otherwise. *)
Definition render_enter (format : Z) (cache_only : bool) (s : RenderState)
  : RenderState * option RenderFrame * list RenderOutput :=
  match requested_type format with
  | None => (s, None, [OAbort UnsupportedFormat])
  | Some requested =>
      let hash := pending_hash s in
      if bytes_eqb hash [] then (s, None, [OAbort NoAnnouncement])
      else if negb (bool_decide (pending_type s = requested)) then (s, None, [OAbort TypeMismatch])
      else if cached_valid s then
        (s, None, finish_render hash requested format (cached_response s))
      else if negb (bytes_eqb (pending_response s) []) then
        (adopt_pending s, None, finish_render hash requested format (pending_response s))
      else if cache_only then (s, None, [OAbort NoCachedData])
      else (s, Some {| rf_format := format; rf_requested := requested; rf_hash := hash; rf_pc := AtSend |}, [])
  end.

Definition at_pc (f : RenderFrame) (pc : RenderPc) : RenderFrame :=
  {| rf_format := rf_format f; rf_requested := rf_requested f; rf_hash := rf_hash f; rf_pc := pc |}.

(** [SendFrame(EncodeDataRequest(hash, requested))] answered [sent], then the
    null-event test and the start of the wait at tick [now]. *)
Definition render_send (f : RenderFrame) (clock : Z) (sent : bool) (now : Z) (s : RenderState)
  : option RenderFrame * list RenderOutput :=
  let out := OSendFrame (EncodeDataRequest (rf_hash f) (rf_requested f) clock) in
  if negb sent then (None, [out; OAbort SendFailed])
  else match render_event s with
       | None => (None, [out; OAbort NoEvent])
       | Some _ => (Some (at_pc f (AtWait now)), [out])
       end.

(** One round of [while (true)] up to the wait's answer. *)
Definition render_wait (f : RenderFrame) (start now : Z) (answer : WaitAnswer)
  : option RenderFrame * list RenderOutput :=
  match wait_budget kRenderTimeoutMs start now with
  | None => (None, [OAbort RenderTimedOut])
  | Some _ =>
      match answer with
      | WaObject => (Some (at_pc f AtWake), [])
      | WaMessages => (Some (at_pc f (AtPump start)), [])
      | WaTimeout => (None, [OAbort RenderTimedOut])
      | WaFailed => (None, [OAbort WaitFailed])
      end
  end.

(** After the pump: [got_quit], then the re-check under the lock. *)
Definition render_pumped (f : RenderFrame) (start : Z) (got_quit : bool) (s : RenderState)
  : option RenderFrame * list RenderOutput :=
  if got_quit then (None, [OAbort QuitObserved])
  else if negb (bytes_eqb (pending_hash s) (rf_hash f)) then (None, [OAbort SupersededInWait])
  else if cached_valid s then
    (None, finish_render (rf_hash f) (rf_requested f) (rf_format f) (cached_response s))
  else (Some (at_pc f (AtWait start)), []).

(** The locked region after the loop. *)
Definition render_wake (f : RenderFrame) (s : RenderState) : RenderState * list RenderOutput :=
  if negb (bytes_eqb (pending_hash s) (rf_hash f)) then (s, [OAbort SupersededAfterWake])
  else if negb (bytes_eqb (pending_response s) []) then
    (adopt_pending s, finish_render (rf_hash f) (rf_requested f) (rf_format f) (pending_response s))
  else if cached_valid s then
    (s, finish_render (rf_hash f) (rf_requested f) (rf_format f) (cached_response s))
  else (s, [OAbort NoResponseInFlight]).

(** ** The two threads *)

(** The STA's stack of activations, innermost first. *)
Record RenderSys := {
  rs_state : RenderState;
  rs_stack : list RenderFrame
}.

Inductive RenderLabel :=
| LAnnounce (ann : ParsedAnnouncement)
| LProvide (pd : ParsedProvideData)
| LCancel
| LEnter (format : Z) (cache_only : bool)
| LSend (clock : Z) (sent : bool) (now : Z)
| LWait (now : Z) (answer : WaitAnswer)
| LPumped (got_quit : bool)
| LWake.

Definition push (f : option RenderFrame) (fs : list RenderFrame) : list RenderFrame :=
  match f with Some f => f :: fs | None => fs end.

(** A window message is dispatched by the outer loop or by the pump of the
    innermost activation. *)
Definition pumping (fs : list RenderFrame) : bool :=
  match fs with
  | [] => true
  | f :: _ => match rf_pc f with AtPump _ => true | _ => false end
  end.

Definition exec (l : RenderLabel) (y : RenderSys) : option (RenderSys * list RenderOutput) :=
  let s := rs_state y in
  match l with
  | LAnnounce ann => Some (Build_RenderSys (announce_render ann s) (rs_stack y), [])
  | LProvide pd => Some (Build_RenderSys (provide_parsed pd s) (rs_stack y), [])
  | LCancel => Some (Build_RenderSys (CancelPendingRender s) (rs_stack y), [])
  | LEnter format cache_only =>
      if pumping (rs_stack y) then
        let '(s', f, out) := render_enter format cache_only s in
        Some (Build_RenderSys s' (push f (rs_stack y)), out)
      else None
  | LSend clock sent now =>
      match rs_stack y with
      | f :: fs =>
          match rf_pc f with
          | AtSend => let '(f', out) := render_send f clock sent now s in
                      Some (Build_RenderSys s (push f' fs), out)
          | _ => None
          end
      | [] => None
      end
  | LWait now answer =>
      match rs_stack y with
      | f :: fs =>
          match rf_pc f, answer, render_event s with
          | AtWait _, WaObject, Some false => None  (* the event is not signalled *)
          | AtWait start, _, _ => let '(f', out) := render_wait f start now answer in
                                  Some (Build_RenderSys s (push f' fs), out)
          | _, _, _ => None
          end
      | [] => None
      end
  | LPumped got_quit =>
      match rs_stack y with
      | f :: fs =>
          match rf_pc f with
          | AtPump start => let '(f', out) := render_pumped f start got_quit s in
                            Some (Build_RenderSys s (push f' fs), out)
          | _ => None
          end
      | [] => None
      end
  | LWake =>
      match rs_stack y with
      | f :: fs =>
          match rf_pc f with
          | AtWake => let '(s', out) := render_wake f s in Some (Build_RenderSys s' fs, out)
          | _ => None
          end
      | [] => None
      end
  end.

Definition render_step (y : RenderSys) (e : RenderLabel * list RenderOutput) (y' : RenderSys) : Prop :=
  exec e.1 y = Some (y', e.2).

(** A whole schedule at once. *)
Fixpoint run_render (ls : list RenderLabel) (y : RenderSys) : option (RenderSys * list RenderOutput) :=
  match ls with
  | [] => Some (y, [])
  | l :: ls' =>
      match exec l y with
      | Some (y', out) =>
          match run_render ls' y' with
          | Some (y'', out') => Some (y'', out ++ out')
          | None => None
          end
      | None => None
      end
  end.

End Handlers.

(** ** What a schedule has announced and provided *)

Definition current_hash (ls : list RenderLabel) : list Z :=
  foldl (fun h l => match l with LAnnounce ann => ann_content_hash ann | _ => h end) [] ls.

Definition not_announce (l : RenderLabel) : Prop := match l with LAnnounce _ => False | _ => True end.

(** [d] came in a PROVIDE_DATA for hash [h] after the announcement now in
    force, which announced [h]. *)
Definition provided (ls : list RenderLabel) (h d : list Z) : Prop :=
  exists a pd b,
    ls = a ++ LProvide pd :: b /\ Forall not_announce b /\
    pd_content_hash pd = h /\ pd_data pd = d /\ current_hash a = h.

(** Some announcement carried hash [h] with content type [t]. *)
Definition announced (ls : list RenderLabel) (h : list Z) (t : ClipboardContentType) : Prop :=
  exists ann, LAnnounce ann ∈ ls /\ ann_content_hash ann = h /\ ann_content_type ann = t.

Lemma current_hash_snoc ls l :
  current_hash (ls ++ [l]) = match l with LAnnounce ann => ann_content_hash ann | _ => current_hash ls end.
Proof. unfold current_hash. by rewrite foldl_app. Qed.

Lemma provided_snoc ls l h d : not_announce l -> provided ls h d -> provided (ls ++ [l]) h d.
Proof.
  intros Hl (a & pd & b & -> & Hb & Hh & Hd & Hc). exists a, pd, (b ++ [l]).
  split_and!; try done.
  - by rewrite <- app_assoc.
  - apply Forall_app. split; [done|by constructor].
Qed.

Lemma announced_snoc ls l h t : announced ls h t -> announced (ls ++ [l]) h t.
Proof. intros (ann & Hin & ?). exists ann. split; [set_solver|done]. Qed.

Lemma current_hash_no_announce a b : Forall not_announce b -> current_hash (a ++ b) = current_hash a.
Proof.
  intros Hb. unfold current_hash. rewrite foldl_app. generalize (foldl (fun h l =>
    match l with LAnnounce ann => ann_content_hash ann | _ => h end) [] a) as h.
  induction Hb as [|l b Hl _ IH]; intros h; simpl; [done|]. by destruct l.
Qed.

Lemma provided_current ls h d : provided ls h d -> current_hash ls = h.
Proof.
  intros (a & pd & b & -> & Hb & _ & _ & Hc).
  rewrite current_hash_no_announce; [done|]. by constructor.
Qed.

(** ** The invariant of a schedule *)

Record render_inv (ls : list RenderLabel) (y : RenderSys) : Prop := {
  ri_hash : pending_hash (rs_state y) = current_hash ls;
  ri_type : pending_hash (rs_state y) <> [] ->
            announced ls (pending_hash (rs_state y)) (pending_type (rs_state y));
  ri_pending : pending_response (rs_state y) <> [] ->
               provided ls (pending_hash (rs_state y)) (pending_response (rs_state y));
  ri_cached : cached_valid (rs_state y) = true ->
              provided ls (pending_hash (rs_state y)) (cached_response (rs_state y)) /\
              cached_response (rs_state y) <> [];
  ri_frames : Forall (fun f => rf_hash f <> [] /\ announced ls (rf_hash f) (rf_requested f)) (rs_stack y)
}.

(** An output is justified when its bytes were provided for its hash. *)
Definition justified (ls : list RenderLabel) `{Win32Strings} (o : RenderOutput) : Prop :=
  match o with
  | ORender h c =>
      h <> [] /\ exists t fmt d, announced ls h t /\ provided ls h d /\ d <> [] /\
                                 render_call t fmt d = Some c
  | _ => True
  end.

Lemma init_render_inv ev : render_inv [] (Build_RenderSys (init_RenderState ev) []).
Proof. by split; simpl; try done; apply Forall_nil_2. Qed.

Section RenderInvariant.
Context `{Win32Strings}.

Lemma finish_justified ls h t fmt d :
  h <> [] -> announced ls h t -> provided ls h d -> d <> [] ->
  Forall (justified ls) (finish_render h t fmt d).
Proof.
  intros Hh Ha Hp Hd. unfold finish_render. destruct (render_call t fmt d) eqn:E; [|done].
  constructor; [|done]. split; [done|]. by exists t, fmt, d.
Qed.

(** Actions other than an announcement keep what the schedule established. *)
Lemma render_inv_snoc ls l y :
  not_announce l -> render_inv ls y -> render_inv (ls ++ [l]) y.
Proof.
  intros Hl [H1 H2 H3 H4 H5]. split.
  - rewrite current_hash_snoc. by destruct l.
  - intros Hne. by apply announced_snoc, H2.
  - intros Hne. by apply provided_snoc, H3.
  - intros Hv. destruct (H4 Hv). split; [by apply provided_snoc|done].
  - eapply Forall_impl; [exact H5|]. intros f [? ?]. split; [done|by apply announced_snoc].
Qed.

Lemma render_inv_stack ls s fs fs' :
  render_inv ls (Build_RenderSys s fs) ->
  Forall (fun f => rf_hash f <> [] /\ announced ls (rf_hash f) (rf_requested f)) fs' ->
  render_inv ls (Build_RenderSys s fs').
Proof. intros [H1 H2 H3 H4 H5] Hfs. by split. Qed.

Lemma render_inv_adopt ls s fs :
  render_inv ls (Build_RenderSys s fs) -> pending_response s <> [] ->
  render_inv ls (Build_RenderSys (adopt_pending s) fs).
Proof. intros [H1 H2 H3 H4 H5] Hne. split; simpl in *; naive_solver. Qed.

Lemma render_inv_tail ls s f fs :
  render_inv ls (Build_RenderSys s (f :: fs)) -> render_inv ls (Build_RenderSys s fs).
Proof. intros Hi. eapply render_inv_stack; [done|]. by apply ri_frames, Forall_cons in Hi as [_ ?]. Qed.

Lemma bytes_eqb_sound a b : negb (bytes_eqb a b) = false -> a = b.
Proof. rewrite negb_false_iff. apply bytes_eqb_eq. Qed.
Lemma bytes_eqb_nonempty a : negb (bytes_eqb a []) = true -> a <> [].
Proof. rewrite negb_true_iff. apply bytes_eqb_neq. Qed.

Ltac bytes_tests :=
  repeat match goal with
         | E : negb (bytes_eqb _ _) = false |- _ => apply bytes_eqb_sound in E
         | E : negb (bytes_eqb _ []) = true |- _ => apply bytes_eqb_nonempty in E
         | E : bytes_eqb _ _ = false |- _ => apply bytes_eqb_neq in E
         | E : negb (bool_decide _) = false |- _ => apply negb_false_iff, bool_decide_eq_true in E
         end.

(** An early return: the state is unchanged and nothing is rendered. *)
Ltac aborted := simplify_eq; split; [assumption | repeat first [apply Forall_nil_2 | apply Forall_cons_2; [exact I|]]].

(** Announcements and replies. *)
Lemma announce_inv ls ann s fs :
  render_inv ls (Build_RenderSys s fs) ->
  render_inv (ls ++ [LAnnounce ann]) (Build_RenderSys (announce_render ann s) fs).
Proof.
  intros [H1 H2 H3 H4 H5]. split; simpl in *; try done.
  - by rewrite current_hash_snoc.
  - intros _. exists ann. split; [set_solver|done].
  - eapply Forall_impl; [exact H5|]. intros f [? ?]. split; [done|by apply announced_snoc].
Qed.

Lemma provide_inv ls pd s fs :
  render_inv ls (Build_RenderSys s fs) ->
  render_inv (ls ++ [LProvide pd]) (Build_RenderSys (provide_parsed pd s) fs).
Proof.
  intros Hi. unfold provide_parsed. case_tests; bytes_tests; try by apply render_inv_snoc.
  apply (render_inv_snoc _ (LProvide pd)) in Hi as [H1 H2 H3 H4 H5]; [|done].
  split; simpl in *; try done. intros _. exists ls, pd, []. split_and!; try done.
  rewrite current_hash_snoc in H1. congruence.
Qed.

Lemma enter_inv ls format cache_only s fs s' f out :
  render_inv ls (Build_RenderSys s fs) -> render_enter format cache_only s = (s', f, out) ->
  render_inv ls (Build_RenderSys s' (push f fs)) /\ Forall (justified ls) out.
Proof.
  intros Hi He. pose proof Hi as [H1 H2 H3 H4 H5]. unfold render_enter in He. simpl in *.
  destruct (requested_type format) as [t|]; [|by aborted].
  destruct (bytes_eqb (pending_hash s) []) eqn:E1; [by aborted|].
  destruct (negb (bool_decide _)) eqn:E2; [by aborted|]. bytes_tests. subst t.
  destruct (cached_valid s) eqn:E3.
  { simplify_eq. split; [done|]. destruct (H4 eq_refl). by apply finish_justified; auto. }
  destruct (negb (bytes_eqb (pending_response s) [])) eqn:E4; bytes_tests.
  { simplify_eq. split; [by apply render_inv_adopt|]. by apply finish_justified; auto. }
  destruct cache_only; simplify_eq.
  - by aborted.
  - split; [|by constructor]. eapply render_inv_stack; [done|].
    constructor; [|done]. split; [done|]. simpl. by apply H2.
Qed.

Lemma wake_inv ls f fs s s' out :
  render_inv ls (Build_RenderSys s (f :: fs)) -> render_wake f s = (s', out) ->
  render_inv ls (Build_RenderSys s' fs) /\ Forall (justified ls) out.
Proof.
  intros Hi Hw. pose proof (render_inv_tail _ _ _ _ Hi) as Ht.
  destruct Hi as [H1 H2 H3 H4 H5]. simpl in *. apply Forall_cons in H5 as [[Hf1 Hf2] _].
  unfold render_wake in Hw. destruct (negb (bytes_eqb _ (rf_hash f))) eqn:E1.
  { by aborted. }
  bytes_tests. destruct (negb (bytes_eqb (pending_response s) [])) eqn:E2; bytes_tests.
  { simplify_eq. split; [by apply render_inv_adopt|]. rewrite <- E1 in *. by apply finish_justified; auto. }
  destruct (cached_valid s) eqn:E3; simplify_eq; (split; [done|]); [|by repeat constructor].
  destruct (H4 eq_refl). rewrite <- E1 in *. by apply finish_justified.
Qed.

Lemma pumped_inv ls f fs s start q f' out :
  render_inv ls (Build_RenderSys s (f :: fs)) -> render_pumped f start q s = (f', out) ->
  render_inv ls (Build_RenderSys s (push f' fs)) /\ Forall (justified ls) out.
Proof.
  intros Hi Hw. pose proof (render_inv_tail _ _ _ _ Hi) as Ht. pose proof Hi as [H1 H2 H3 H4 H5].
  simpl in *. apply Forall_cons in H5 as [[Hf1 Hf2] Hfs]. unfold render_pumped in Hw.
  destruct q; [by aborted|].
  destruct (negb (bytes_eqb _ (rf_hash f))) eqn:E1; [by aborted|].
  bytes_tests. destruct (cached_valid s) eqn:E3; simplify_eq.
  - split; [done|]. destruct (H4 eq_refl). rewrite <- E1 in *. by apply finish_justified.
  - split; [|done]. eapply render_inv_stack; [done|]. by repeat constructor.
Qed.

(** Neither the send nor the wait touches the shared state; the frame they may
    keep is the one they got. *)
Lemma same_frame_inv ls f fs s pc f' :
  render_inv ls (Build_RenderSys s (f :: fs)) -> f' = None \/ f' = Some (at_pc f pc) ->
  render_inv ls (Build_RenderSys s (push f' fs)).
Proof.
  intros Hi [->| ->]; [by eapply render_inv_tail|].
  eapply render_inv_stack; [done|]. apply ri_frames, Forall_cons in Hi as [? ?]. by constructor.
Qed.

Ltac same_frame :=
  first [ eapply (same_frame_inv _ _ _ _ AtSend None); [eassumption | by left]
        | eapply same_frame_inv; [eassumption | by right] ].

Lemma exec_inv ls l y y' out :
  render_inv ls y -> exec l y = Some (y', out) ->
  render_inv (ls ++ [l]) y' /\ Forall (justified (ls ++ [l])) out.
Proof.
  intros Hi He. destruct y as [s fs].
  destruct l as [ann|pd| |format co|clock sent now|now a|q|]; simpl in He.
  - simplify_eq. split; [by apply announce_inv|done].
  - simplify_eq. split; [by apply provide_inv|done].
  - simplify_eq. split; [|done]. apply render_inv_snoc; [done|]. by destruct Hi.
  - destruct (pumping fs); [|done]. destruct (render_enter _ _ _) as [[s' f] out'] eqn:E. simplify_eq.
    by eapply enter_inv; [apply render_inv_snoc|].
  - destruct fs as [|f fs]; [done|]. destruct (rf_pc f); try done.
    unfold render_send in He. split.
    + apply render_inv_snoc; [done|]. repeat case_match; simplify_eq; same_frame.
    + repeat case_match; simplify_eq; by repeat constructor.
  - destruct fs as [|f fs]; [done|]. destruct (rf_pc f) as [|start| |]; try done.
    destruct (render_wait f start now a) as [f' out'] eqn:E.
    assert (y' = Build_RenderSys s (push f' fs) /\ out = out') as [-> ->]
      by (destruct a, (render_event s) as [[]|]; by simplify_eq).
    unfold render_wait in E. split.
    + apply render_inv_snoc; [done|]. repeat case_match; simplify_eq; same_frame.
    + repeat case_match; simplify_eq; by repeat constructor.
  - destruct fs as [|f fs]; [done|]. destruct (rf_pc f) as [| |start|]; try done.
    destruct (render_pumped f start q s) as [f' out'] eqn:E. simplify_eq.
    by eapply pumped_inv; [apply render_inv_snoc|].
  - destruct fs as [|f fs]; [done|]. destruct (rf_pc f); try done.
    destruct (render_wake f s) as [s' out'] eqn:E. simplify_eq.
    by eapply wake_inv; [apply render_inv_snoc|].
Qed.

Lemma steps_render_inv ev tr y :
  steps render_step (Build_RenderSys (init_RenderState ev) []) tr y -> render_inv tr.*1 y.
Proof.
  intros Hs. change (tr.*1) with (([] ++ tr).*1).
  refine (steps_trace_invariant render_step (fun tr y => render_inv tr.*1 y) _ _ _ _ [] Hs _).
  - intros tr0 y0 [l out] y1 Hstep Hi. rewrite fmap_app. by eapply exec_inv.
  - apply init_render_inv.
Qed.
End RenderInvariant.

Lemma run_render_steps `{Win32Strings} ls y y' out :
  run_render ls y = Some (y', out) -> exists tr, steps render_step y tr y' /\ tr.*1 = ls.
Proof.
  revert y out. induction ls as [|l ls IH]; intros y out Hr; simpl in Hr.
  - simplify_eq. exists []. split; [constructor|done].
  - destruct (exec l y) as [[y1 o]|] eqn:E; [|done].
    destruct (run_render ls y1) as [[y2 o']|] eqn:E2; [|done]. simplify_eq.
    destruct (IH _ _ E2) as (tr & Hs & <-). exists ((l, o) :: tr). split; [|done].
    by econstructor.
Qed.

(** Unfold a schedule as far as its data allows. *)
Ltac render_cbn := cbn -[bytes_eqb requested_type wait_budget EncodeDataRequest].

(** ** Properties *)

(** No stale paste: whatever the interleaving of announcements, replies,
    cancellations and (nested) render requests, bytes put on the clipboard are
    those of a non-empty PROVIDE_DATA for the hash of the announcement in
    force, received after that announcement, and rendered under a content type
    that hash was announced with. *)
Theorem no_stale_render `{Win32Strings} ev ls l y y' out0 out h c :
  run_render ls (Build_RenderSys (init_RenderState ev) []) = Some (y, out0) ->
  exec l y = Some (y', out) ->
  ORender h c ∈ out ->
  h <> [] /\ current_hash (ls ++ [l]) = h /\
  exists t fmt d, announced (ls ++ [l]) h t /\ provided (ls ++ [l]) h d /\ d <> [] /\
                  render_call t fmt d = Some c.
Proof.
  intros Hr He Hin. apply run_render_steps in Hr as (tr & Hs & <-).
  apply steps_render_inv in Hs. apply (exec_inv _ _ _ _ _ Hs) in He as [_ Hout].
  rewrite Forall_forall in Hout. destruct (Hout _ Hin) as (Hh & t & fmt & d & Ha & Hp & Hd & Hc).
  split_and!; [done|by eapply provided_current|by exists t, fmt, d].
Qed.

Definition announce_of (h : list Z) (t : ClipboardContentType) : RenderLabel :=
  LAnnounce {| ann_content_type := t; ann_content_hash := h; ann_files := []; ann_transfer_id := [] |}.
Definition provide_of (h d : list Z) : RenderLabel :=
  LProvide {| pd_content_hash := h; pd_data := d |}.

(** Two announcements; the late reply for the first is dropped, the reply for
    the second is rendered. *)
Lemma no_stale_render_witness :
  exists y y' out0,
    let ls := [announce_of (str "h1") Text; LEnter CF_UNICODETEXT false; LSend 7 true 100;
               announce_of (str "h2") Text; provide_of (str "h1") (str "old");
               LWait 150 WaMessages; LEnter CF_UNICODETEXT false; LSend 8 true 160;
               provide_of (str "h2") (str "new"); LWait 170 WaObject] in
    @run_render ascii_strings ls (Build_RenderSys (init_RenderState true) []) = Some (y, out0) /\
    @exec ascii_strings LWake y = Some (y', [ORender (str "h2") (RenderTextDuringWmRenderFormat (str "new"))]) /\
    current_hash (ls ++ [LWake]) = str "h2".
Proof.
  do 3 eexists. cbv zeta. split; [vm_compute; reflexivity|].
  split; [vm_compute; reflexivity|].
  refine (proj1 (proj2 (@no_stale_render ascii_strings true _ LWake _ _ _ _ (str "h2")
            (RenderTextDuringWmRenderFormat (str "new")) _ _ _)));
    [vm_compute; reflexivity | vm_compute; reflexivity | apply list_elem_of_here].
Defined.

(** C31: A delayed paste completes: after an announcement, a render request sends
    one DATA_REQUEST for the announced hash and type, waits, and on the reply
    renders exactly the bytes provided; a second format of the same content is
    then rendered from the cache, also by WM_RENDERALLFORMATS, without asking
    again. *)
Theorem delayed_paste_complete `{Win32Strings} s h t fmt fmt2 co d clock t0 t1 :
  render_event s <> None -> h <> [] -> d <> [] ->
  requested_type fmt = Some t -> requested_type fmt2 = Some t ->
  tick_elapsed t0 t1 < kRenderTimeoutMs ->
  exists y',
    run_render [announce_of h t; LEnter fmt false; LSend clock true t0; provide_of h d;
                LWait t1 WaObject; LWake; LEnter fmt2 co] (Build_RenderSys s []) =
    Some (y', OSendFrame (EncodeDataRequest h t clock) ::
              finish_render h t fmt d ++ finish_render h t fmt2 d) /\
    Forall (fun o => exists c, o = ORender h c) (finish_render h t fmt d ++ finish_render h t fmt2 d) /\
    length (finish_render h t fmt d ++ finish_render h t fmt2 d) = 2%nat.
Proof.
  intros Hev Hh Hd Ht Ht2 Hbudget.
  pose proof (wait_budget_left _ _ _ Hbudget) as Hb.
  assert (Hhe : bytes_eqb h [] = false) by by apply bytes_eqb_neq.
  assert (Hde : bytes_eqb d [] = false) by by apply bytes_eqb_neq.
  destruct s as [ph pt pr cr cv [e|]]; [|done]. clear Hev.
  eexists. split; [|split].
  - render_cbn.
    unfold render_enter. render_cbn.
    rewrite Ht, Hhe. render_cbn.
    rewrite bool_decide_eq_true_2 by done.
    change (bytes_eqb [] []) with true. render_cbn.
    unfold provide_parsed. render_cbn.
    rewrite Hhe, (bytes_eqb_refl h). render_cbn.
    unfold render_wait. destruct (wait_budget kRenderTimeoutMs t0 t1); [|done].
    render_cbn.
    unfold render_wake. render_cbn.
    rewrite (bytes_eqb_refl h), Hde. render_cbn.
    rewrite Ht2, Hhe. render_cbn.
    rewrite bool_decide_eq_true_2 by done. cbn. by rewrite app_nil_r.
  - apply Forall_app; split; unfold finish_render; destruct (render_call _ _ _); repeat constructor; eauto.
  - unfold requested_type in Ht. repeat case_match; simplify_eq; done.
Qed.

Lemma delayed_paste_complete_witness :
  exists y',
    @run_render ascii_strings
      [announce_of (str "h1") Image; LEnter CF_DIBV5 false; LSend 7 true 4294967290; provide_of (str "h1") [1; 2];
       LWait 5 WaObject; LWake; LEnter CF_DIB true] (Build_RenderSys (init_RenderState true) []) =
    Some (y', [OSendFrame (EncodeDataRequest (str "h1") Image 7);
               ORender (str "h1") (RenderImageDuringWmRenderFormat CF_DIBV5 [1; 2]);
               ORender (str "h1") (RenderImageDuringWmRenderFormat CF_DIB [1; 2])]).
Proof.
  destruct (@delayed_paste_complete ascii_strings (init_RenderState true) (str "h1") Image CF_DIBV5 CF_DIB true
              [1; 2] 7 4294967290 5) as (y' & H & _);
    [done | done | done | reflexivity | reflexivity | reflexivity | ].
  exists y'. exact H.
Defined.

(** One render request that asks, is woken at once and gives up. *)
Definition render_round (fmt clock t0 t1 : Z) : list RenderLabel :=
  [LEnter fmt false; LSend clock true t0; LWait t1 WaObject; LWake].

(** An empty PROVIDE_DATA leaves the manual-reset event signalled with nothing
    to render: from then on every render request of this announcement asks the
    parent again, is woken before the parent can answer, renders nothing and
    leaves the state as it found it. *)
Theorem empty_reply_wedges_renders `{Win32Strings} s pd t fmt clock t0 t1 :
  pending_hash s <> [] -> pd_content_hash pd = pending_hash s -> pd_data pd = [] ->
  pending_type s = t -> requested_type fmt = Some t -> cached_valid s = false ->
  render_event s <> None -> tick_elapsed t0 t1 < kRenderTimeoutMs ->
  let s' := provide_parsed pd s in
  run_render (render_round fmt clock t0 t1) (Build_RenderSys s' []) =
  Some (Build_RenderSys s' [],
        [OSendFrame (EncodeDataRequest (pending_hash s) t clock); OAbort NoResponseInFlight]).
Proof.
  intros Hh Hpd Hd Ht Hf Hc Hev Hbudget.
  destruct s as [h pt pr cr cv [e|]]; [|done]. simpl in Hh, Hpd, Ht, Hc, Hev. subst pt cv.
  pose proof (wait_budget_left _ _ _ Hbudget) as Hb.
  apply bytes_eqb_neq in Hh. unfold provide_parsed.
  render_cbn. rewrite Hh, Hpd, bytes_eqb_refl, Hd.
  render_cbn.
  unfold render_enter. render_cbn.
  rewrite Hf, Hh, bool_decide_eq_true_2 by done. change (bytes_eqb [] []) with true.
  render_cbn.
  unfold render_wait. destruct (wait_budget kRenderTimeoutMs t0 t1); [|done].
  cbn -[bytes_eqb EncodeDataRequest]. unfold render_wake. cbn -[bytes_eqb EncodeDataRequest].
  by rewrite bytes_eqb_refl.
Qed.

Lemma empty_reply_wedges_renders_witness :
  let s := rs_state (Build_RenderSys (announce_render
             {| ann_content_type := Text; ann_content_hash := str "h"; ann_files := []; ann_transfer_id := [] |}
             (init_RenderState true)) []) in
  let s' := provide_parsed {| pd_content_hash := str "h"; pd_data := [] |} s in
  @run_render ascii_strings (render_round CF_UNICODETEXT 1 0 1) (Build_RenderSys s' []) =
  Some (Build_RenderSys s' [], [OSendFrame (EncodeDataRequest (str "h") Text 1); OAbort NoResponseInFlight]).
Proof.
  intros s. apply (@empty_reply_wedges_renders ascii_strings s {| pd_content_hash := str "h"; pd_data := [] |} Text);
    first [reflexivity | done].
Defined.
