(* ===== verification/RenderEnds.v ===== *)
(** * RenderEnds: a render request comes to an end

    Liveness of [OnRenderFormat] of [DelayedRender], nested activations
    included: unless messages keep arriving before its deadline, an activation
    ends in boundedly many steps, and each one has exactly one outcome. *)

From S2P Require Import Prelude HelperProto Win32 WinCodec DelayedRender.

Section Renders.
Context `{Win32Strings}.

(** ** The steps already due *)

(** A step of the innermost activation that does not start another round of
    the wait loop: a wait answered with messages does, before the deadline. *)
Definition render_due (l : RenderLabel) (y : RenderSys) : bool :=
  match l, rs_stack y with
  | LSend _ _ _, _ | LPumped _, _ | LWake, _ => true
  | LWait now WaMessages, f :: _ =>
      match rf_pc f with
      | AtWait start => match wait_budget kRenderTimeoutMs start now with Some _ => false | None => true end
      | _ => false
      end
  | LWait _ _, _ => true
  | _, _ => false
  end.
Definition activation_todo (f : RenderFrame) : nat :=
  match rf_pc f with AtSend => 4 | AtPump _ => 3 | AtWait _ => 2 | AtWake => 1 end.
Definition render_todo (y : RenderSys) : nat := sum_list_with activation_todo (rs_stack y).

(** ** Outcomes *)

Definition is_outcome (o : RenderOutput) : bool := match o with OSendFrame _ => false | _ => true end.
Definition outcomes (out : list RenderOutput) : nat := length (List.filter is_outcome out).
Definition is_enter (l : RenderLabel) : bool := match l with LEnter _ _ => true | _ => false end.
Definition entered (ls : list RenderLabel) : nat := length (List.filter is_enter ls).

Definition renderable (f : RenderFrame) : Prop := rf_requested f = Text \/ rf_requested f = Image.

Lemma finish_outcome hash t fmt d : t = Text \/ t = Image -> outcomes (finish_render hash t fmt d) = 1%nat.
Proof. by intros [-> | ->]. Qed.

Lemma requested_renderable fmt t : requested_type fmt = Some t -> t = Text \/ t = Image.
Proof. unfold requested_type. intros E. repeat case_match; simplify_eq; auto. Qed.

(** An activation that goes on has had no outcome; one that ends has one. *)
Definition ends_once (f' : option RenderFrame) (out : list RenderOutput) : Prop :=
  match f' with Some f' => renderable f' /\ outcomes out = O | None => outcomes out = 1%nat end.

Lemma enter_once fmt co s s' f out : render_enter fmt co s = (s', f, out) -> ends_once f out.
Proof.
  unfold render_enter. destruct (requested_type fmt) as [t|] eqn:Er; [|by intros; simplify_eq].
  pose proof (requested_renderable _ _ Er) as Ht. intros E. repeat case_match; simplify_eq; cbn; try done; try by apply finish_outcome.
Qed.
Lemma send_once f clock sent now s f' out : renderable f -> render_send f clock sent now s = (f', out) -> ends_once f' out.
Proof. unfold render_send. intros Hf E. repeat case_match; simplify_eq; by cbn. Qed.
Lemma wait_once f start now a f' out : renderable f -> render_wait f start now a = (f', out) -> ends_once f' out.
Proof. unfold render_wait. intros Hf E. repeat case_match; simplify_eq; by cbn. Qed.
Lemma pumped_once f start q s f' out : renderable f -> render_pumped f start q s = (f', out) -> ends_once f' out.
Proof. unfold render_pumped. intros Hf E. repeat case_match; simplify_eq; cbn; try done. by apply finish_outcome. Qed.
Lemma wake_once f s s' out : renderable f -> render_wake f s = (s', out) -> outcomes out = 1%nat.
Proof. unfold render_wake. intros Hf E. repeat case_match; simplify_eq; cbn; try done; by apply finish_outcome. Qed.

(** The stack after a step of its top, and the outcomes of the step. *)
Lemma stack_once fs f' out n :
  ends_once f' out -> Forall renderable fs -> n = S (length fs) ->
  Forall renderable (push f' fs) /\ (outcomes out + length (push f' fs))%nat = n.
Proof. destruct f' as [f'|]; cbn; [intros [? ->]|intros ->]; intros Hfs ->; (split; [by try constructor|lia]). Qed.

Lemma exec_once l y y' out :
  exec l y = Some (y', out) -> Forall renderable (rs_stack y) ->
  Forall renderable (rs_stack y') /\ (outcomes out + length (rs_stack y') = entered [l] + length (rs_stack y))%nat.
Proof.
  destruct y as [s fs]. intros E Hf. cbn in Hf. destruct l as [ann|pd| |format co|clock sent now|now a|q|]; cbn [exec rs_stack rs_state] in E;
    try (simplify_eq; by split).
  - destruct (pumping fs); [|done]. destruct (render_enter format co s) as [[s' f] o] eqn:Ee. simplify_eq. cbn [rs_stack].
    apply stack_once; [by eapply enter_once|done|]. cbn. done.
  - destruct fs as [|f fs]; [done|]. apply Forall_cons in Hf as [Hf Hfs]. destruct (rf_pc f); try done.
    destruct (render_send f clock sent now s) as [f' o] eqn:Ee. simplify_eq. cbn [rs_stack]. apply stack_once; [by eapply send_once|done|done].
  - destruct fs as [|f fs]; [done|]. apply Forall_cons in Hf as [Hf Hfs]. destruct (rf_pc f) as [|start| |]; try done.
    destruct (render_wait f start now a) as [f' o] eqn:Ee.
    assert (y' = Build_RenderSys s (push f' fs) /\ out = o) as [-> ->] by (destruct a, (render_event s) as [[]|]; by simplify_eq).
    cbn [rs_stack]. apply stack_once; [by eapply wait_once|done|done].
  - destruct fs as [|f fs]; [done|]. apply Forall_cons in Hf as [Hf Hfs]. destruct (rf_pc f) as [| |start|]; try done.
    destruct (render_pumped f start q s) as [f' o] eqn:Ee. simplify_eq. cbn [rs_stack]. apply stack_once; [by eapply pumped_once|done|done].
  - destruct fs as [|f fs]; [done|]. apply Forall_cons in Hf as [Hf Hfs]. destruct (rf_pc f); try done.
    destruct (render_wake f s) as [s' o] eqn:Ee. simplify_eq. cbn [rs_stack].
    apply (stack_once fs None); [by eapply wake_once|done|done].
Qed.

Lemma outcomes_app a b : outcomes (a ++ b) = (outcomes a + outcomes b)%nat.
Proof. unfold outcomes. by rewrite List.filter_app, length_app. Qed.

Lemma run_once ls y y' out :
  run_render ls y = Some (y', out) -> Forall renderable (rs_stack y) ->
  Forall renderable (rs_stack y') /\ (outcomes out + length (rs_stack y') = entered ls + length (rs_stack y))%nat.
Proof.
  revert y out. induction ls as [|l ls IH]; intros y out E Hf; cbn [run_render] in E; [by simplify_eq|].
  destruct (exec l y) as [[y1 o]|] eqn:E1; [|done]. destruct (run_render ls y1) as [[y2 o']|] eqn:E2; [|done]. simplify_eq.
  destruct (exec_once _ _ _ _ E1 Hf) as [Hf1 H1]. destruct (IH _ _ E2 Hf1) as [Hf2 H2]. split; [done|].
  rewrite outcomes_app. change (l :: ls) with ([l] ++ ls). unfold entered in *. rewrite List.filter_app, length_app. lia.
Qed.

(** ** Progress *)

Lemma push_todo f f' fs : match f' with Some f' => activation_todo f' < activation_todo f | None => True end%nat ->
  (sum_list_with activation_todo (push f' fs) < sum_list_with activation_todo (f :: fs))%nat.
Proof. destruct f' as [f'|]; cbn; [lia|]. intros _. unfold activation_todo at 2. destruct (rf_pc f); lia. Qed.

Lemma render_due_todo l y y' out : render_due l y = true -> exec l y = Some (y', out) -> (render_todo y' < render_todo y)%nat.
Proof.
  destruct y as [s fs]. unfold render_todo. intros Hl E.
  destruct l as [ann|pd| |format co|clock sent now|now a|q|]; try done; cbn [exec rs_stack rs_state] in *; (destruct fs as [|f fs]; [done|]).
  - destruct (rf_pc f) eqn:Ep; try done. unfold render_send in E. repeat case_match; simplify_eq; apply push_todo; try done;
      unfold activation_todo; rewrite Ep; cbn; lia.
  - destruct (rf_pc f) as [|start| |] eqn:Ep; try done. unfold render_due in Hl. cbn in Hl.
    destruct (render_wait f start now a) as [f' o] eqn:Ee.
    assert (y' = Build_RenderSys s (push f' fs)) as -> by (destruct a, (render_event s) as [[]|]; by simplify_eq).
    unfold render_wait in Ee. rewrite Ep in Hl. destruct (wait_budget _ _ _); [|by simplify_eq; apply push_todo].
    destruct a; simplify_eq; apply push_todo; try done. unfold activation_todo. rewrite Ep. cbn. lia.
  - destruct (rf_pc f) as [| |start|] eqn:Ep; try done. unfold render_pumped in E. repeat case_match; simplify_eq; apply push_todo; try done;
      unfold activation_todo; rewrite Ep; cbn; lia.
  - destruct (rf_pc f) eqn:Ep; try done. destruct (render_wake f s) as [s' o]. simplify_eq. by apply (push_todo f None).
Qed.

Lemma render_due_exists y : rs_stack y <> [] -> exists l, render_due l y = true /\ is_Some (exec l y).
Proof.
  destruct y as [s [|f fs]]; [done|]. intros _. destruct (rf_pc f) as [|start|start|] eqn:Ep.
  - exists (LSend 0 false 0). split; [done|]. cbn [exec rs_stack rs_state]. rewrite Ep. destruct (render_send _ _ _ _ _). by eexists.
  - exists (LWait start WaTimeout). split; [done|]. cbn [exec rs_stack rs_state]. rewrite Ep. destruct (render_wait _ _ _ _). by eexists.
  - exists (LPumped true). split; [done|]. cbn. rewrite Ep. by eexists.
  - exists LWake. split; [done|]. cbn. rewrite Ep. destruct (render_wake f s). by eexists.
Qed.

(** The machinery without its outputs. *)
Definition render_exec (l : RenderLabel) (y : RenderSys) : option RenderSys := option_map fst (exec l y).

#[export] Instance renders_rest : ComesToRest render_exec.
Proof.
  refine {| rest_due := fun l y => render_due l y = true; rest_todo := render_todo; rest_kept := fun _ => True;
            rest_at := fun y => rs_stack y = [] |}.
  - intros l y y' Hl E _. split; [done|]. unfold render_exec in E. destruct (exec l y) as [[y1 o]|] eqn:E1; [|done].
    injection E as <-. by eapply render_due_todo.
  - intros y _ Hn. destruct (render_due_exists y Hn) as (l & Hl & [[y1 o] E]). exists l. split; [done|].
    unfold render_exec. by rewrite E.
Defined.

Lemma run_render_exec ls y y' out : run_render ls y = Some (y', out) -> run_exec render_exec ls y = Some y'.
Proof.
  revert y out. induction ls as [|l ls IH]; intros y out E; cbn [run_render run_exec] in *; [by simplify_eq|].
  unfold render_exec at 1. destruct (exec l y) as [[y1 o]|]; [|done]. cbn [option_map fst].
  destruct (run_render ls y1) as [[y2 o2]|] eqn:E2; [|done]. simplify_eq. by eapply IH.
Qed.

(** C16: Renders end.  From every state the render machinery can be in, with any
    number of activations nested in each other's message pumps, the steps that
    do not dispatch a further message before its deadline are at most
    [render_todo] many; when none is left every activation has returned to
    Windows; and in every schedule each render request has exactly one outcome,
    a rendered format or one of the early returns, none while it is active. *)
Theorem renders_end ev ls y out ls' y' out' :
  run_render ls (Build_RenderSys (init_RenderState ev) []) = Some (y, out) ->
  due_all render_exec ls' y -> run_render ls' y = Some (y', out') ->
  (length ls' <= render_todo y)%nat /\
  ((forall l, render_due l y' = true -> exec l y' = None) -> rs_stack y' = []) /\
  (outcomes (out ++ out') + length (rs_stack y') = entered (ls ++ ls'))%nat.
Proof.
  intros E Hl E'. destruct (comes_to_rest render_exec ls' y y') as [Hn Hrest]; [done|done|by eapply run_render_exec|].
  split_and!; [done| |].
  - intros Hstuck. apply Hrest. intros l Hd. unfold render_exec. by rewrite Hstuck.
  - destruct (run_once _ _ _ _ E) as [Hf H1]; [done|]. destruct (run_once _ _ _ _ E' Hf) as [_ H2].
    cbn in H1. rewrite outcomes_app. unfold entered in *. rewrite List.filter_app, length_app. lia.
Qed.
End Renders.

(** Two activations, the outer one pumping; the inner one times out, the outer
    one finds its announcement superseded. *)
Definition nested_run : list RenderLabel :=
  [announce_of (str "h1") Text; LEnter CF_UNICODETEXT false; LSend 7 true 100; LWait 150 WaMessages;
   announce_of (str "h2") Text; LEnter CF_UNICODETEXT false; LSend 8 true 160].
Definition nested_end : list RenderLabel := [LWait 120160 WaMessages; LPumped false].

Lemma renders_end_witness :
  exists y y' out out',
    @run_render ascii_strings nested_run (Build_RenderSys (init_RenderState true) []) = Some (y, out) /\
    @run_render ascii_strings nested_end y = Some (y', out') /\
    rs_stack y' = [] /\ (length nested_end <= render_todo y)%nat /\ out' = [OAbort RenderTimedOut; OAbort SupersededInWait].
Proof.
  do 4 eexists. split; [vm_compute; reflexivity|]. split; [vm_compute; reflexivity|]. split; [reflexivity|]. split; [|reflexivity].
  eapply (@renders_end ascii_strings true nested_run); [vm_compute; reflexivity|vm_compute; by split_and!|vm_compute; reflexivity].
Defined.
