(* ===== verification/StaWorker.v ===== *)
(** * StaWorker: the STA thread and its work queue

    [windows/src/work_queue.cpp] and [sta_worker.cpp].  A task is a number; the
    tasks handed to [Push] are numbered by their callers.  The thread, the
    callers of [PostTask], [Start] and [Stop] are one transition system: the
    steps are the lock-protected regions, the messages the thread takes and
    the beginning and end of each task.  Message loops inside a task or a
    handler (OLE calls, the waits of [dispatch.cpp]) nest, so the thread's
    activities are a stack. *)

From S2P Require Import Prelude.

(** ** WorkQueue *)

Section WorkQueue.
(** A task runs in a world that holds the queue, so that it may push; [true]
    when it threw. *)
Context {T W : Type} (get_queue : W -> list T) (put_queue : list T -> W -> W).
Context (invoke : T -> W -> W * bool).

Definition Push (task : T) (w : W) : W := put_queue (get_queue w ++ [task]) w.

Record DrainStats := { executed : Z; exceptions : Z }.

Fixpoint drain_loop (snapshot : list T) (stats : DrainStats) (w : W) : DrainStats * W :=
  match snapshot with
  | [] => (stats, w)
  | fn :: rest =>
      let (w, threw) := invoke fn w in
      drain_loop rest
        {| executed := executed stats + 1;
           exceptions := if threw : bool then exceptions stats + 1 else exceptions stats |} w
  end.
Definition Drain (w : W) : DrainStats * W :=
  drain_loop (get_queue w) {| executed := 0; exceptions := 0 |} (put_queue [] w).

Definition DropAll (w : W) : W := put_queue [] w.
Definition Size (w : W) : Z := Zlen (get_queue w).
End WorkQueue.

(** ** StaWorker *)

(** Where [ThreadMain] is: no thread, not yet begun, initialising, in
    [PumpMessages], out of it, past [hwnd_atom_.store(nullptr)], returned. *)
Inductive StaPc := ThNone | ThBorn | ThInit | ThPump | ThQuit | ThCleared | ThExited.

(** Messages posted to the thread. *)
Inductive Msg := MsgWork | MsgQuit.

#[export] Instance Msg_eq_dec : EqDecision Msg.
Proof. solve_decision. Defined.

(** An activity of the thread: [DrainWorkQueue] with the task it is running and
    those left in its snapshot, or another message handler. *)
Inductive Frame :=
| FDrain (running : option Z) (rest : list Z)
| FHandler.

Record StaWorker := {
  thread_ : StaPc;
  thread_id_ : bool;
  hwnd_atom_ : bool;
  init_done_ : bool;
  init_ok_ : bool;
  stopping_ : bool;
  queue_ : list Z;
  posted_ : list Msg;        (* the thread's message queue *)
  quit_flag_ : bool;         (* PostQuitMessage's *)
  unposted_ : Z;             (* callers of PostTask between Push and PostMessage *)
  frames_ : list Frame;      (* innermost first *)
  (* history *)
  pushed_ : list Z;
  started_ : list Z;
  finished_ : list Z;
  dropped_ : list Z
}.
Definition init_StaWorker : StaWorker :=
  {| thread_ := ThNone; thread_id_ := false; hwnd_atom_ := false; init_done_ := false; init_ok_ := false;
     stopping_ := false; queue_ := []; posted_ := []; quit_flag_ := false; unposted_ := 0; frames_ := [];
     pushed_ := []; started_ := []; finished_ := []; dropped_ := [] |}.

(** Answers of [OleInitialize], [RegisterClassW] (a failure with
    ERROR_CLASS_ALREADY_EXISTS is no failure) and [CreateWindowExW]. *)
Record InitAnswers := { ole_ok : bool; class_ok : bool; class_exists : bool; window_ok : bool }.
Definition init_succeeds (a : InitAnswers) : bool := ole_ok a && (class_ok a || class_exists a) && window_ok a.

Definition on_thread (pc : StaPc) (tid hwnd done ok : bool) (s : StaWorker) : StaWorker :=
  {| thread_ := pc; thread_id_ := tid; hwnd_atom_ := hwnd; init_done_ := done; init_ok_ := ok;
     stopping_ := stopping_ s; queue_ := queue_ s; posted_ := posted_ s; quit_flag_ := quit_flag_ s;
     unposted_ := unposted_ s; frames_ := frames_ s;
     pushed_ := pushed_ s; started_ := started_ s; finished_ := finished_ s; dropped_ := dropped_ s |}.
Definition with_frames (fs : list Frame) (s : StaWorker) : StaWorker :=
  {| thread_ := thread_ s; thread_id_ := thread_id_ s; hwnd_atom_ := hwnd_atom_ s; init_done_ := init_done_ s;
     init_ok_ := init_ok_ s; stopping_ := stopping_ s; queue_ := queue_ s; posted_ := posted_ s;
     quit_flag_ := quit_flag_ s; unposted_ := unposted_ s; frames_ := fs;
     pushed_ := pushed_ s; started_ := started_ s; finished_ := finished_ s; dropped_ := dropped_ s |}.
Definition with_messages (stopping : bool) (ms : list Msg) (flag : bool) (unposted : Z) (s : StaWorker) : StaWorker :=
  {| thread_ := thread_ s; thread_id_ := thread_id_ s; hwnd_atom_ := hwnd_atom_ s; init_done_ := init_done_ s;
     init_ok_ := init_ok_ s; stopping_ := stopping; queue_ := queue_ s; posted_ := ms;
     quit_flag_ := flag; unposted_ := unposted; frames_ := frames_ s;
     pushed_ := pushed_ s; started_ := started_ s; finished_ := finished_ s; dropped_ := dropped_ s |}.

(** The locked region of [Push]. *)
Definition push_task (t : Z) (s : StaWorker) : StaWorker :=
  {| thread_ := thread_ s; thread_id_ := thread_id_ s; hwnd_atom_ := hwnd_atom_ s; init_done_ := init_done_ s;
     init_ok_ := init_ok_ s; stopping_ := stopping_ s; queue_ := queue_ s ++ [t]; posted_ := posted_ s;
     quit_flag_ := quit_flag_ s; unposted_ := unposted_ s + 1; frames_ := frames_ s;
     pushed_ := pushed_ s ++ [t]; started_ := started_ s; finished_ := finished_ s; dropped_ := dropped_ s |}.

(** [WndProc] on WM_LEVIATHAN_WORK: the swap of [Drain]. *)
Definition enter_drain (ms : list Msg) (s : StaWorker) : StaWorker :=
  {| thread_ := thread_ s; thread_id_ := thread_id_ s; hwnd_atom_ := hwnd_atom_ s; init_done_ := init_done_ s;
     init_ok_ := init_ok_ s; stopping_ := stopping_ s; queue_ := []; posted_ := ms;
     quit_flag_ := quit_flag_ s; unposted_ := unposted_ s; frames_ := FDrain None (queue_ s) :: frames_ s;
     pushed_ := pushed_ s; started_ := started_ s; finished_ := finished_ s; dropped_ := dropped_ s |}.

Definition begin_task (t : Z) (rest : list Z) (fs : list Frame) (s : StaWorker) : StaWorker :=
  {| thread_ := thread_ s; thread_id_ := thread_id_ s; hwnd_atom_ := hwnd_atom_ s; init_done_ := init_done_ s;
     init_ok_ := init_ok_ s; stopping_ := stopping_ s; queue_ := queue_ s; posted_ := posted_ s;
     quit_flag_ := quit_flag_ s; unposted_ := unposted_ s; frames_ := FDrain (Some t) rest :: fs;
     pushed_ := pushed_ s; started_ := started_ s ++ [t]; finished_ := finished_ s; dropped_ := dropped_ s |}.
Definition end_task (t : Z) (rest : list Z) (fs : list Frame) (s : StaWorker) : StaWorker :=
  {| thread_ := thread_ s; thread_id_ := thread_id_ s; hwnd_atom_ := hwnd_atom_ s; init_done_ := init_done_ s;
     init_ok_ := init_ok_ s; stopping_ := stopping_ s; queue_ := queue_ s; posted_ := posted_ s;
     quit_flag_ := quit_flag_ s; unposted_ := unposted_ s; frames_ := FDrain None rest :: fs;
     pushed_ := pushed_ s; started_ := started_ s; finished_ := finished_ s ++ [t]; dropped_ := dropped_ s |}.

(** [DropAll] and the rest of [ThreadMain]; the window's messages go with it. *)
Definition exit_thread (s : StaWorker) : StaWorker :=
  {| thread_ := ThExited; thread_id_ := thread_id_ s; hwnd_atom_ := hwnd_atom_ s; init_done_ := init_done_ s;
     init_ok_ := init_ok_ s; stopping_ := stopping_ s; queue_ := []; posted_ := [];
     quit_flag_ := false; unposted_ := unposted_ s; frames_ := frames_ s;
     pushed_ := pushed_ s; started_ := started_ s; finished_ := finished_ s; dropped_ := dropped_ s ++ queue_ s |}.

(** [Start] up to the new thread, [ThreadMain]'s first store and its
    initialisation, the two halves of [PostTask] ([posted]: [PostMessageW]
    succeeds), [Stop] up to [join] ([posted]: [PostThreadMessageW] succeeds) and after it, the main loop taking a
    message, another message being dispatched (by the main loop or a nested
    one), a nested loop taking a message of ours, the beginning and end of a
    task, the return of a handler, the two steps of the tear-down. *)
Inductive StaLabel :=
| SlStart
| SlThreadId
| SlInit (a : InitAnswers)
| SlPush (t : Z)
| SlPost (posted : bool)
| SlStop (posted : bool)
| SlJoin
| SlGet
| SlOther
| SlNested
| SlBegin
| SlEnd
| SlReturn
| SlClear
| SlDrop.

(** A message loop runs inside the innermost activity. *)
Definition busy (fs : list Frame) : bool :=
  match fs with FHandler :: _ => true | FDrain (Some _) _ :: _ => true | _ => false end.
Definition idle (fs : list Frame) : bool := match fs with [] => true | _ => false end.

Definition leave_pump (ms : list Msg) (flag : bool) (s : StaWorker) : StaWorker :=
  on_thread ThQuit (thread_id_ s) (hwnd_atom_ s) (init_done_ s) (init_ok_ s)
    (with_messages (stopping_ s) ms flag (unposted_ s) s).

Definition sta_exec (l : StaLabel) (s : StaWorker) : option StaWorker :=
  match l with
  | SlStart =>
      match thread_ s with
      | ThNone => Some (on_thread ThBorn (thread_id_ s) (hwnd_atom_ s) (init_done_ s) (init_ok_ s) s)
      | _ => Some s
      end
  | SlThreadId =>
      match thread_ s with
      | ThBorn => Some (on_thread ThInit true (hwnd_atom_ s) (init_done_ s) (init_ok_ s) s)
      | _ => None
      end
  | SlInit a =>
      match thread_ s with
      | ThInit => if init_succeeds a then Some (on_thread ThPump (thread_id_ s) true true true s)
                  else Some (on_thread ThExited (thread_id_ s) (hwnd_atom_ s) true false
                               (with_messages (stopping_ s) [] false (unposted_ s) s))
      | _ => None
      end
  | SlPush t => Some (push_task t s)
  | SlPost posted =>
      if unposted_ s <=? 0 then None
      else Some (with_messages (stopping_ s)
                   (if hwnd_atom_ s && posted then posted_ s ++ [MsgWork] else posted_ s)
                   (quit_flag_ s) (unposted_ s - 1) s)
  | SlStop posted =>
      match thread_ s with
      | ThNone => Some s
      | ThExited => Some (with_messages true (posted_ s) (quit_flag_ s) (unposted_ s) s)
      | _ => Some (with_messages true
                     (if thread_id_ s && posted then posted_ s ++ [MsgQuit] else posted_ s)
                     (quit_flag_ s) (unposted_ s) s)
      end
  | SlJoin =>
      match thread_ s with
      | ThExited => Some (on_thread ThNone false false (init_done_ s) (init_ok_ s) s)
      | _ => None
      end
  | SlGet =>
      match thread_ s with
      | ThPump =>
          if negb (idle (frames_ s)) then None
          else match posted_ s with
               | MsgWork :: ms => Some (enter_drain ms s)
               | MsgQuit :: ms => Some (leave_pump ms (quit_flag_ s) s)
               | [] => if quit_flag_ s then Some (leave_pump [] false s) else None
               end
      | _ => None
      end
  | SlOther =>
      match thread_ s with
      | ThPump => if idle (frames_ s) || busy (frames_ s) then Some (with_frames (FHandler :: frames_ s) s) else None
      | _ => None
      end
  | SlNested =>
      if negb (busy (frames_ s)) then None
      else match posted_ s with
           | MsgWork :: ms => Some (enter_drain ms s)
           | MsgQuit :: ms => Some (with_messages (stopping_ s) ms true (unposted_ s) s)
           | [] => None
           end
  | SlBegin =>
      match frames_ s with
      | FDrain None (t :: rest) :: fs => Some (begin_task t rest fs s)
      | _ => None
      end
  | SlEnd =>
      match frames_ s with
      | FDrain (Some t) rest :: fs => Some (end_task t rest fs s)
      | _ => None
      end
  | SlReturn =>
      match frames_ s with
      | FDrain None [] :: fs => Some (with_frames fs s)
      | FHandler :: fs => Some (with_frames fs s)
      | _ => None
      end
  | SlClear =>
      match thread_ s with
      | ThQuit => Some (on_thread ThCleared (thread_id_ s) false (init_done_ s) (init_ok_ s) s)
      | _ => None
      end
  | SlDrop =>
      match thread_ s with
      | ThCleared => Some (exit_thread s)
      | _ => None
      end
  end.

Fixpoint run_sta (ls : list StaLabel) (s : StaWorker) : option StaWorker :=
  match ls with
  | [] => Some s
  | l :: ls' => match sta_exec l s with Some s' => run_sta ls' s' | None => None end
  end.

(** What [Start] returns once it stops waiting. *)
Definition Start_result (s : StaWorker) : option bool := if init_done_ s then Some (init_ok_ s) else None.

(** A worker whose first [Start] has succeeded. *)
Definition started_StaWorker : StaWorker :=
  on_thread ThPump true true true true init_StaWorker.

(** ** Tasks are neither lost nor run twice *)

Definition running (f : Frame) : list Z := match f with FDrain (Some t) _ => [t] | _ => [] end.
Definition waiting (f : Frame) : list Z := match f with FDrain _ rest => rest | FHandler => [] end.

(** Tasks the thread has taken and not finished. *)
Definition taken (fs : list Frame) : list Z := concat (map (fun f => running f ++ waiting f) fs).

Record sta_inv (s : StaWorker) : Prop := {
  inv_accounted : pushed_ s ≡ₚ queue_ s ++ taken (frames_ s) ++ finished_ s ++ dropped_ s;
  inv_started : started_ s ≡ₚ concat (map running (frames_ s)) ++ finished_ s;
  inv_frames : frames_ s <> [] -> thread_ s = ThPump;
  inv_unposted : 0 <= unposted_ s
}.

#[global] Arguments taken : simpl never.

Lemma taken_cons f fs : taken (f :: fs) = running f ++ waiting f ++ taken fs.
Proof. unfold taken. simpl. by rewrite <- app_assoc. Qed.

(** Case analysis of a step: unfold it and solve each branch. *)
Ltac sta_step H :=
  unfold sta_exec in H;
  repeat match type of H with
         | context [match ?x with _ => _ end] => destruct x eqn:?; try discriminate H
         end;
  injection H as <-.

Lemma taken_app_count x f fs :
  count_occ Z.eq_dec (taken (f :: fs)) x =
  (count_occ Z.eq_dec (running f) x + count_occ Z.eq_dec (waiting f) x + count_occ Z.eq_dec (taken fs) x)%nat.
Proof. rewrite taken_cons, !count_occ_app. lia. Qed.

(** Permutations by counting each task. *)
Ltac count_tac :=
  rewrite (Permutation_count_occ Z.eq_dec) in *;
  let x := fresh "x" in intros x;
  repeat match goal with H : forall _ : Z, _ = _ |- _ => specialize (H x) end;
  repeat (progress (rewrite ?count_occ_app, ?taken_app_count in *; cbn [running waiting count_occ map concat app] in *));
  repeat match goal with |- context [if Z.eq_dec ?a ?b then _ else _] => destruct (Z.eq_dec a b) end; lia.

Lemma sta_inv_step l s s' : sta_exec l s = Some s' -> sta_inv s -> sta_inv s'.
Proof.
  intros H [Ha Hs Hf Hu]. destruct l; sta_step H; subst; zbool;
    (split; cbn in *;
     [ try assumption; repeat match goal with E : frames_ _ = _ |- _ => rewrite E in * end; count_tac
     | try assumption; repeat match goal with E : frames_ _ = _ |- _ => rewrite E in * end; try assumption; count_tac
     | first [ assumption | intros Hn; first [ congruence | specialize (Hf Hn); congruence ]
             | intros Hn; destruct (frames_ s); [done|discriminate]
             | intros _; apply Hf; intros E; rewrite E in *; discriminate ]
     | lia ]).
Qed.

Lemma run_sta_invariant (I : StaWorker -> Prop) :
  (forall l s s', sta_exec l s = Some s' -> I s -> I s') ->
  forall ls s s', run_sta ls s = Some s' -> I s -> I s'.
Proof.
  intros Hstep ls. induction ls as [|l ls IH]; intros s s' H HI; simpl in H; [by simplify_eq|].
  destruct (sta_exec l s) as [s1|] eqn:E; [|done]. eauto.
Qed.

Lemma sta_inv_reachable ls s : run_sta ls init_StaWorker = Some s -> sta_inv s.
Proof. intros H. apply (run_sta_invariant sta_inv sta_inv_step _ _ _ H). by split. Qed.
(** ** The thread makes progress *)

(** Steps the thread takes by itself (a task or handler ends, a posted message
    is taken), callers completing [PostTask] included. *)
Definition own_step (l : StaLabel) : bool :=
  match l with
  | SlPost _ | SlGet | SlNested | SlBegin | SlEnd | SlReturn | SlClear | SlDrop => true
  | _ => false
  end.

Definition phase (pc : StaPc) : Z :=
  match pc with ThPump => 3 | ThQuit => 2 | ThCleared => 1 | _ => 0 end.
Definition frame_weight (f : Frame) : Z :=
  match f with
  | FDrain r rest => 1 + (if r then 1 else 0) + 2 * Zlen rest
  | FHandler => 1
  end.
Fixpoint frames_weight (fs : list Frame) : Z :=
  match fs with [] => 0 | f :: fs' => frame_weight f + frames_weight fs' end.

(** What is left to do. *)
Definition work_left (s : StaWorker) : Z :=
  phase (thread_ s) + 2 * Zlen (queue_ s) + frames_weight (frames_ s) + 2 * Zlen (posted_ s) +
  (if quit_flag_ s then 1 else 0) + 3 * unposted_ s.

Lemma frames_weight_nonneg fs : 0 <= frames_weight fs.
Proof.
  induction fs as [|f fs IH]; simpl; [lia|]. destruct f as [[t|] rest|]; simpl; try pose proof (Zlen_nonneg rest); lia.
Qed.
Lemma work_left_nonneg s : 0 <= unposted_ s -> 0 <= work_left s.
Proof.
  intros Hu. unfold work_left. pose proof (frames_weight_nonneg (frames_ s)).
  pose proof (Zlen_nonneg (queue_ s)). pose proof (Zlen_nonneg (posted_ s)).
  assert (0 <= phase (thread_ s)) by (destruct (thread_ s); simpl; lia). destruct (quit_flag_ s); lia.
Qed.

Lemma own_step_progress l s s' :
  own_step l = true -> 0 <= unposted_ s -> sta_exec l s = Some s' -> work_left s' < work_left s.
Proof.
  intros Hl Hu H. destruct l; try discriminate Hl; sta_step H; subst; unfold work_left; cbn;
    repeat match goal with E : _ _ = _ |- _ => rewrite E end;
    autorewrite with clip; cbn -[Z.mul Z.add]; autorewrite with clip;
    pose proof (Zlen_nonneg (queue_ s)); pose proof (Zlen_nonneg (posted_ s)); zbool;
    repeat case_match; lia.
Qed.

Definition quiescent (s : StaWorker) : Prop := forall l, own_step l = true -> sta_exec l s = None.

Lemma quiescent_frames s : quiescent s -> frames_ s = [].
Proof.
  intros Hq. pose proof (Hq SlBegin eq_refl) as H1. pose proof (Hq SlEnd eq_refl) as H2.
  pose proof (Hq SlReturn eq_refl) as H3. cbn in *.
  by destruct (frames_ s) as [|[[t|] [|t' rest]|] fs].
Qed.

Lemma quiescent_unposted s : quiescent s -> 0 <= unposted_ s -> unposted_ s = 0.
Proof.
  intros Hq Hu. pose proof (Hq (SlPost true) eq_refl) as H1. cbn in H1.
  destruct (unposted_ s <=? 0) eqn:E; [zbool; lia|done].
Qed.

Definition quitting (s : StaWorker) : bool := quit_flag_ s || bool_decide (MsgQuit ∈ posted_ s).

(** The worker is not started again. *)
Definition once (l : StaLabel) : bool := match l with SlStart => false | _ => true end.

(** After the first successful [Start] nothing is dropped before the thread
    ends. *)
Record once_inv (s : StaWorker) : Prop := {
  once_phase : thread_ s <> ThBorn /\ thread_ s <> ThInit;
  once_dropped : thread_ s = ThPump \/ thread_ s = ThQuit \/ thread_ s = ThCleared -> dropped_ s = []
}.

Lemma once_inv_step l s s' : once l = true -> sta_exec l s = Some s' -> once_inv s -> once_inv s'.
Proof.
  intros Hl H [[Hp1 Hp2] Hd]. destruct l; try discriminate Hl; sta_step H; subst; (split; cbn in *;
    [ split; congruence
    | intros Hpc; first [ by apply Hd | apply Hd; intuition congruence | intuition congruence ] ]).
Qed.

(** *** Posts that reach the window *)

(** Of each post of a run, whether it reaches the window: there is one, and
    [PostMessageW] succeeds. *)
Definition reaches (l : StaLabel) (s : StaWorker) : list bool :=
  match l with SlPost posted => [hwnd_atom_ s && posted] | _ => [] end.
Fixpoint posts (ls : list StaLabel) (s : StaWorker) : list bool :=
  match ls with
  | [] => []
  | l :: ls' => reaches l s ++ match sta_exec l s with Some s' => posts ls' s' | None => [] end
  end.

(** Since [t] was pushed no post has reached the window. *)
Definition unwoken (ls : list StaLabel) (t : Z) : Prop :=
  exists before s after, ls = before ++ SlPush t :: after /\ run_sta before init_StaWorker = Some s /\
    true ∉ posts after (push_task t s).

Lemma run_sta_app ls ls' s : run_sta (ls ++ ls') s = (s1 ← run_sta ls s; run_sta ls' s1).
Proof.
  revert s. induction ls as [|l ls IH]; intros s; simpl; [done|]. destruct (sta_exec l s); [apply IH|done].
Qed.

Lemma posts_snoc ls l s s1 : run_sta ls s = Some s1 -> posts (ls ++ [l]) s = posts ls s ++ reaches l s1.
Proof.
  revert s. induction ls as [|x ls IH]; intros s H; simpl in *.
  - simplify_eq. destruct (sta_exec l s1); by rewrite app_nil_r.
  - destruct (sta_exec x s) as [s2|]; [|done]. by rewrite IH, app_assoc.
Qed.

Lemma unwoken_snoc ls l s t :
  run_sta ls init_StaWorker = Some s -> unwoken ls t -> true ∉ reaches l s -> unwoken (ls ++ [l]) t.
Proof.
  intros H (before & s1 & after & -> & H1 & Hp) Hl. exists before, s1, (after ++ [l]).
  rewrite <- app_assoc. split_and!; [done|done|]. rewrite run_sta_app, H1 in H. cbn in H.
  rewrite (posts_snoc _ _ _ _ H), elem_of_app. tauto.
Qed.

Lemma unwoken_push ls s t : run_sta ls init_StaWorker = Some s -> unwoken (ls ++ [SlPush t]) t.
Proof. intros H. exists ls, s, []. split_and!; [done|done|apply not_elem_of_nil]. Qed.

(** A task in the queue has a message posted, or no post since its push has
    reached the window; and when every post reaches it, a message is posted or
    about to be. *)
Record wake_inv (ls : list StaLabel) (s : StaWorker) : Prop := {
  wake_window : hwnd_atom_ s = true <-> thread_ s = ThPump \/ thread_ s = ThQuit;
  wake_none : thread_ s <> ThPump -> thread_ s <> ThQuit -> thread_ s <> ThCleared -> MsgWork ∉ posted_ s;
  wake_message : forall t, t ∈ queue_ s -> MsgWork ∈ posted_ s \/ unwoken ls t;
  wake_all : queue_ s <> [] -> MsgWork ∈ posted_ s \/ 0 < unposted_ s \/ false ∈ posts ls init_StaWorker
}.

(** Steps that post nothing, push nothing and take no work message. *)
Lemma wake_quiet ls l s s' :
  run_sta ls init_StaWorker = Some s -> wake_inv ls s -> reaches l s = [] ->
  queue_ s' = queue_ s -> unposted_ s' = unposted_ s -> (MsgWork ∈ posted_ s' <-> MsgWork ∈ posted_ s) ->
  (hwnd_atom_ s' = true <-> thread_ s' = ThPump \/ thread_ s' = ThQuit) ->
  (thread_ s' <> ThPump -> thread_ s' <> ThQuit -> thread_ s' <> ThCleared -> MsgWork ∉ posted_ s) ->
  wake_inv (ls ++ [l]) s'.
Proof.
  intros H [_ _ Hm Ha] Hr Hq Hu Hp Hw Hn. split; [done|by rewrite Hp|..].
  - intros t Ht. rewrite Hq in Ht. rewrite Hp. destruct (Hm t Ht); [by left|right].
    eapply unwoken_snoc; [done|done|]. rewrite Hr. apply not_elem_of_nil.
  - intros Hne. rewrite Hq in Hne. rewrite Hp, Hu, (posts_snoc _ _ _ _ H), elem_of_app. destruct (Ha Hne) as [|[|]]; tauto.
Qed.

Lemma wake_empty ls l s' :
  queue_ s' = [] -> (hwnd_atom_ s' = true <-> thread_ s' = ThPump \/ thread_ s' = ThQuit) ->
  (thread_ s' <> ThPump -> thread_ s' <> ThQuit -> thread_ s' <> ThCleared -> MsgWork ∉ posted_ s') ->
  wake_inv (ls ++ [l]) s'.
Proof.
  intros Hq Hw Hn. split; [done|done| |by rewrite Hq]. intros t Ht. rewrite Hq in Ht. by apply elem_of_nil in Ht.
Qed.

Lemma mem_work_quit ms : MsgWork ∈ MsgQuit :: ms <-> MsgWork ∈ ms.
Proof. rewrite elem_of_cons. intuition congruence. Qed.
Lemma mem_work_snoc ms : MsgWork ∈ ms ++ [MsgQuit] <-> MsgWork ∈ ms.
Proof. rewrite elem_of_app, list_elem_of_singleton. intuition congruence. Qed.
#[local] Hint Rewrite mem_work_quit mem_work_snoc : clip.

Lemma wake_post ls posted s :
  run_sta ls init_StaWorker = Some s -> wake_inv ls s ->
  wake_inv (ls ++ [SlPost posted])
    (with_messages (stopping_ s) (if hwnd_atom_ s && posted then posted_ s ++ [MsgWork] else posted_ s)
       (quit_flag_ s) (unposted_ s - 1) s).
Proof.
  intros H [Hw Hn Hm Ha]. destruct (hwnd_atom_ s && posted) eqn:Er.
  - assert (Hin : MsgWork ∈ posted_ s ++ [MsgWork]) by (apply elem_of_app; right; apply list_elem_of_here).
    split; cbn; [done| |by left|by left]. intros H1 H2 _. apply andb_prop in Er as [Er _]. apply Hw in Er. tauto.
  - split; cbn; [done|done|..].
    + intros t Ht. destruct (Hm t Ht); [by left|right]. eapply unwoken_snoc; [done|done|]. cbn. rewrite Er.
      by intros ?%list_elem_of_singleton.
    + intros Hne. right. right. rewrite (posts_snoc _ _ _ _ H), elem_of_app. right. cbn. rewrite Er. apply list_elem_of_here.
Qed.

Lemma wake_push ls t s :
  run_sta ls init_StaWorker = Some s -> 0 <= unposted_ s -> wake_inv ls s -> wake_inv (ls ++ [SlPush t]) (push_task t s).
Proof.
  intros H Hu [Hw Hn Hm Ha]. split; cbn; [done|done|..].
  - intros t' [Ht| ->%list_elem_of_singleton]%elem_of_app; [|right; by eapply unwoken_push].
    destruct (Hm t' Ht); [by left|right]. eapply unwoken_snoc; [done|done|apply not_elem_of_nil].
  - intros _. right. left. lia.
Qed.

(** What is left of a [wake_quiet]: the message queue as it was, and the window
    and the phase together. *)
Ltac wake_quiet_side :=
  cbn in *;
  repeat match goal with
         | E : posted_ _ = _ |- _ => rewrite E in *
         | E : thread_ _ = _ |- _ => rewrite E in *
         end;
  rewrite ?mem_work_quit, ?mem_work_snoc in *; try done; try (by intuition congruence).

Lemma wake_inv_step ls l s s' :
  run_sta ls init_StaWorker = Some s -> sta_exec l s = Some s' -> sta_inv s -> wake_inv ls s -> wake_inv (ls ++ [l]) s'.
Proof.
  intros Hr H Hi Hk. pose proof (wake_window _ _ Hk) as Hw. pose proof (wake_none _ _ Hk) as Hn.
  pose proof (inv_frames _ Hi) as Hf.
  destruct l; try (cbn in H; injection H as <-; apply wake_push; [done|apply Hi|done]);
    try (cbn in H; destruct (_ <=? 0); [done|]; injection H as <-; by apply wake_post).
  all: sta_step H; subst.
  all: try (by apply wake_empty; cbn; [done|rewrite ?Hw; intuition congruence|intros; apply not_elem_of_nil]).
  all: try (by apply wake_empty; cbn; [done|rewrite ?Hw; intuition congruence|congruence]).
  all: try (apply (wake_quiet ls _ s); [exact Hr|exact Hk|reflexivity|reflexivity|reflexivity|wake_quiet_side..]).
  - split; [intros Hin; by apply elem_of_nil in Hin|]. intros Hin. exfalso. by apply Hn.
  - assert (Hpc : thread_ s = ThPump) by (apply Hf; intros E; by rewrite E in *).
    apply wake_empty; cbn; [done|rewrite ?Hw; tauto|congruence].
Qed.

(** *** Runs of the thread's own steps *)

Lemma own_steps_bounded ls s s' :
  forallb own_step ls = true -> sta_inv s -> run_sta ls s = Some s' -> Zlen ls + work_left s' <= work_left s.
Proof.
  revert s. induction ls as [|l ls IH]; intros s Hl Hi H; simpl in *; [simplify_eq; rewrite Zlen_nil; lia|].
  apply andb_prop in Hl as [Hl Hls].
  destruct (sta_exec l s) as [s1|] eqn:E; [|done].
  pose proof (own_step_progress _ _ _ Hl (inv_unposted _ Hi) E).
  specialize (IH s1 Hls (sta_inv_step _ _ _ E Hi) H). rewrite Zlen_cons. lia.
Qed.

(** The thread's own steps neither push nor make it quit by itself. *)
Record toward (quit : bool) (pushed : list Z) (s : StaWorker) : Prop := {
  toward_pushed : pushed_ s = pushed;
  toward_pump : thread_ s = ThPump -> quitting s = quit;
  toward_stay : quit = false -> thread_ s = ThPump;
  toward_exit : thread_ s = ThPump \/ thread_ s = ThQuit \/ thread_ s = ThCleared \/
                thread_ s = ThExited /\ queue_ s = []
}.

Lemma quit_mem_cons m ms : bool_decide (MsgQuit ∈ m :: ms) = bool_decide (m = MsgQuit) || bool_decide (MsgQuit ∈ ms).
Proof.
  destruct m; cbn; [apply bool_decide_ext; rewrite elem_of_cons; intuition congruence|].
  apply bool_decide_eq_true. by left.
Qed.
Lemma quit_mem_snoc ms : bool_decide (MsgQuit ∈ ms ++ [MsgWork]) = bool_decide (MsgQuit ∈ ms).
Proof. apply bool_decide_ext. rewrite elem_of_app, list_elem_of_singleton. intuition congruence. Qed.

Lemma toward_step quit pushed l s s' :
  own_step l = true -> sta_exec l s = Some s' -> toward quit pushed s -> toward quit pushed s'.
Proof.
  intros Hl H [Hp Hq Hs He]. unfold quitting in Hq. destruct l; try discriminate Hl; sta_step H; subst;
    rewrite ?quit_mem_cons in Hq; cbn in Hq; rewrite ?orb_true_r in Hq;
    (split; cbn in *;
     [ reflexivity
     | unfold quitting; cbn; rewrite ?quit_mem_snoc; first [assumption | intros ?; exfalso; congruence | idtac]
     | first [assumption | intros ->; exfalso; intuition congruence | intros Hquit; specialize (Hs Hquit); congruence | idtac]
     | first [assumption | tauto | intuition congruence ] ]).
  all: by intros _; apply Hq.
Qed.

Lemma toward_run quit pushed ls s s' :
  forallb own_step ls = true -> run_sta ls s = Some s' -> toward quit pushed s -> toward quit pushed s'.
Proof.
  revert s. induction ls as [|l ls IH]; intros s Hl H Ht; simpl in *; [by simplify_eq|].
  apply andb_prop in Hl as [Hl Hls]. destruct (sta_exec l s) as [s1|] eqn:E; [|done].
  apply (IH s1); [done|done|]. by eapply toward_step.
Qed.

(** Nothing is dropped while the thread stays. *)
Lemma own_steps_drop_late l s s' :
  own_step l = true -> sta_exec l s = Some s' -> thread_ s' = ThPump -> thread_ s = ThPump /\ dropped_ s' = dropped_ s.
Proof. intros Hl H Hpc. destruct l; try discriminate Hl; sta_step H; subst; cbn in *; try done; congruence. Qed.

Lemma own_run_drops_late ls s s' :
  forallb own_step ls = true -> run_sta ls s = Some s' -> thread_ s' = ThPump -> thread_ s = ThPump /\ dropped_ s' = dropped_ s.
Proof.
  revert s. induction ls as [|l ls IH]; intros s Hl H Hpc; simpl in *; [by simplify_eq|].
  apply andb_prop in Hl as [Hl Hls]. destruct (sta_exec l s) as [s1|] eqn:E; [|done].
  destruct (IH s1 Hls H Hpc) as [Hpc1 ->]. by eapply own_steps_drop_late.
Qed.

(** A state where nothing is left to do for the thread. *)
Lemma quiescent_outcome ls quit pushed s :
  quiescent s -> sta_inv s -> wake_inv ls s -> toward quit pushed s ->
  frames_ s = [] /\
  if quit then thread_ s = ThExited /\ pushed_ s ≡ₚ finished_ s ++ dropped_ s
  else thread_ s = ThPump /\ pushed_ s ≡ₚ finished_ s ++ dropped_ s ++ queue_ s /\
       (forall t, t ∈ queue_ s -> unwoken ls t) /\ (false ∉ posts ls init_StaWorker -> queue_ s = []).
Proof.
  intros Hq [Ha _ _ Hu] [_ _ Hm Hall] [_ Htp Hts Hte].
  pose proof (quiescent_frames _ Hq) as Hf. pose proof (quiescent_unposted _ Hq Hu) as Hu0.
  split; [done|]. rewrite Hf in Ha. cbn in Ha.
  assert (Hpump : thread_ s = ThPump -> posted_ s = [] /\ quit_flag_ s = false).
  { intros Hpc. pose proof (Hq SlGet eq_refl) as H. cbn in H. rewrite Hpc, Hf in H. cbn in H.
    destruct (posted_ s) as [|[|] ms]; [|done|done]. by destruct (quit_flag_ s). }
  assert (Hnq : thread_ s <> ThQuit /\ thread_ s <> ThCleared).
  { pose proof (Hq SlClear eq_refl) as H1. pose proof (Hq SlDrop eq_refl) as H2. cbn in H1, H2.
    by destruct (thread_ s). }
  destruct quit.
  - destruct Hte as [Hpc|[H|[H|[H Hqueue]]]]; [|tauto|tauto|split; [done|by rewrite Ha, Hqueue]].
    destruct (Hpump Hpc) as [Hposted Hflag]. specialize (Htp Hpc). unfold quitting in Htp. by rewrite Hposted, Hflag in Htp.
  - specialize (Hts eq_refl). destruct (Hpump Hts) as [Hposted _]. rewrite Hposted in *.
    assert (Hno : MsgWork ∉ []) by apply not_elem_of_nil. split_and!; [done| | |].
    + etrans; [exact Ha|]. etrans; [apply Permutation_app_comm|]. change (taken [] ++ ?l) with l. by rewrite <- app_assoc.
    + intros t Ht. by destruct (Hm t Ht).
    + intros Hno2. destruct (queue_ s); [done|]. destruct Hall as [?|[?|?]]; [done|done|lia|done].
Qed.

(** ** Order *)

Definition no_nesting (l : StaLabel) : bool := match l with SlNested => false | _ => true end.

Definition in_order (s : StaWorker) : Prop :=
  pushed_ s = started_ s ++ concat (map waiting (frames_ s)) ++ dropped_ s ++ queue_ s.

Lemma in_order_step l s s' :
  once l && no_nesting l = true -> sta_exec l s = Some s' -> once_inv s -> in_order s -> in_order s'.
Proof.
  unfold in_order. intros Hl H [_ Hdr] Ho. apply andb_prop in Hl as [Hal Hnn].
  destruct l; try discriminate Hal; try discriminate Hnn; sta_step H; subst; cbn in *;
    try assumption;
    try (destruct (frames_ s); [|discriminate]); try rewrite Ho; rewrite ?Hdr by auto; cbn;
    rewrite ?app_nil_r, <- ?app_assoc; cbn; rewrite ?app_nil_r; done.
Qed.

(** ** Properties *)

(** C24: every task handed to [RunSync] is accounted for in every reachable
    state, through any number of starts and stops and however message loops
    nest: it is queued, or held by the thread, or finished, or dropped, in
    exactly one of these ways and once - so it never runs twice and is never
    both run and dropped; and while the worker has been started once and no
    loop nests, tasks begin in exactly the order in which they were pushed,
    the dropped ones being the last. *)
Theorem sta_tasks_exactly_once ls s :
  run_sta ls init_StaWorker = Some s ->
  pushed_ s ≡ₚ queue_ s ++ taken (frames_ s) ++ finished_ s ++ dropped_ s /\
  started_ s ≡ₚ concat (map running (frames_ s)) ++ finished_ s /\
  forall ls' s', forallb (fun l => once l && no_nesting l) ls' = true ->
    run_sta ls' started_StaWorker = Some s' ->
    pushed_ s' = started_ s' ++ concat (map waiting (frames_ s')) ++ dropped_ s' ++ queue_ s'.
Proof.
  intros H. destruct (sta_inv_reachable _ _ H) as [Ha Hs _ _]. split_and!; [done|done|]. clear.
  intros ls s' Hal H. change (in_order s').
  assert (Hinv : in_order started_StaWorker /\ once_inv started_StaWorker) by (by split).
  revert Hinv H. generalize started_StaWorker. induction ls as [|l ls IH]; intros s [Ho Hi] H; simpl in *;
    [by simplify_eq|].
  apply andb_prop in Hal as [Hl Hal]. destruct (sta_exec l s) as [s1|] eqn:E; [|done].
  apply (IH Hal s1); [|done]. split; [by eapply in_order_step | eapply once_inv_step; try done; by destruct (once l)].
Qed.

Lemma wake_reachable ls s : run_sta ls init_StaWorker = Some s -> wake_inv ls s.
Proof.
  revert s. induction ls as [|l ls IH] using rev_ind; intros s H; simpl in *.
  - simplify_eq. split; cbn; [intuition congruence|intros; apply not_elem_of_nil| |done]. intros t Ht. by apply elem_of_nil in Ht.
  - rewrite run_sta_app in H. destruct (run_sta ls init_StaWorker) as [s1|] eqn:E; [|done]. cbn in H.
    destruct (sta_exec l s1) as [s2|] eqn:E2; [|done]. injection H as <-.
    eapply wake_inv_step; [exact E|exact E2|by eapply sta_inv_reachable|by apply IH].
Qed.

(** C13: What the worker serves, whatever was started, stopped and posted
    before and whether or not [PostMessageW], whose result [PostTask] ignores,
    succeeds.  From every state in which the thread pumps, its own steps
    (message loops nested in tasks, and callers completing [PostTask],
    included) are at most [work_left] many.  When none is left the thread is
    out of every drain and handler and: if a quit message was pending, it has
    exited and every task pushed so far has been run or its promise broken by
    [DropAll]; otherwise it still pumps, nothing more was dropped, and every
    task has been run but those after whose push no post has reached the
    window, which wait in the queue - none, when every post so far has. *)
Theorem sta_tasks_served ls s ls' s' :
  run_sta ls init_StaWorker = Some s -> thread_ s = ThPump ->
  forallb own_step ls' = true -> run_sta ls' s = Some s' ->
  Zlen ls' <= work_left s /\
  (quiescent s' ->
   frames_ s' = [] /\ pushed_ s' = pushed_ s /\
   if quitting s then thread_ s' = ThExited /\ pushed_ s' ≡ₚ finished_ s' ++ dropped_ s'
   else thread_ s' = ThPump /\ dropped_ s' = dropped_ s /\
        pushed_ s' ≡ₚ finished_ s' ++ dropped_ s' ++ queue_ s' /\
        (forall t, t ∈ queue_ s' -> unwoken (ls ++ ls') t) /\
        (false ∉ posts (ls ++ ls') init_StaWorker -> queue_ s' = [])).
Proof.
  intros H Hpc Hl Hrun.
  assert (Hboth : run_sta (ls ++ ls') init_StaWorker = Some s') by (by rewrite run_sta_app, H).
  pose proof (sta_inv_reachable _ _ H) as Hi. pose proof (sta_inv_reachable _ _ Hboth) as Hi'.
  pose proof (own_steps_bounded _ _ _ Hl Hi Hrun). pose proof (work_left_nonneg _ (inv_unposted _ Hi')).
  split; [lia|]. intros Hq.
  assert (Ht : toward (quitting s) (pushed_ s) s) by (split; auto).
  pose proof (toward_run _ _ _ _ _ Hl Hrun Ht) as Ht'.
  destruct (quiescent_outcome _ _ _ _ Hq Hi' (wake_reachable _ _ Hboth) Ht') as [Hf Hout].
  split_and!; [done|apply (toward_pushed _ _ _ Ht')|]. destruct (quitting s); [done|]. destruct Hout as (Hpc' & Hout).
  split_and!; [done|by eapply own_run_drops_late|apply Hout..].
Qed.

Lemma exited_keeps t l s s' :
  l <> SlStart -> sta_exec l s = Some s' ->
  (thread_ s = ThExited \/ thread_ s = ThNone) /\ frames_ s = [] /\ t ∈ queue_ s ->
  (thread_ s' = ThExited \/ thread_ s' = ThNone) /\ frames_ s' = [] /\ t ∈ queue_ s'.
Proof.
  intros Hl H (Hpc & Hf & Ht). destruct l; try done; sta_step H; subst; cbn in *; try intuition congruence;
    try discriminate.
  - split_and!; [done|done|]. apply elem_of_app. by left.
  - rewrite Hf in *. discriminate.
Qed.

(** A task pushed after [DropAll] - [RunSync] racing [Stop] - is stuck:
    whatever happens short of another [Start], it stays in the queue, is not
    run and its promise is not broken, so the caller's [future.get()] never
    returns. *)
Theorem sta_late_task_wedges ls s t ls' s' :
  run_sta ls init_StaWorker = Some s -> thread_ s = ThExited \/ thread_ s = ThNone -> frames_ s = [] ->
  Forall (fun l => l <> SlStart) ls' -> run_sta (SlPush t :: ls') s = Some s' -> NoDup (pushed_ s') ->
  t ∈ queue_ s' /\ t ∉ started_ s' /\ t ∉ finished_ s' /\ t ∉ dropped_ s'.
Proof.
  intros H Hpc Hf Hls Hrun Hnd. cbn in Hrun.
  assert (Hi : sta_inv s') by (eapply (sta_inv_reachable (ls ++ SlPush t :: ls')); rewrite run_sta_app, H; exact Hrun).
  assert (Hk : (thread_ s' = ThExited \/ thread_ s' = ThNone) /\ frames_ s' = [] /\ t ∈ queue_ s').
  { assert (Hk : (thread_ (push_task t s) = ThExited \/ thread_ (push_task t s) = ThNone) /\
                 frames_ (push_task t s) = [] /\ t ∈ queue_ (push_task t s)).
    { split_and!; [done|done|]. apply elem_of_app. right. by left. }
    revert Hk Hrun. generalize (push_task t s) as s0. clear H Hi Hnd. induction Hls as [|l ls' Hl _ IH]; intros s0 Hk Hrun;
      simpl in Hrun; [by simplify_eq|].
    destruct (sta_exec l s0) as [s1|] eqn:E; [|done]. apply (IH s1); [|done]. by eapply exited_keeps. }
  destruct Hk as (_ & Hf' & Ht). destruct Hi as [Ha Hst _ _]. rewrite Hf' in Ha, Hst. cbn in Ha, Hst.
  rewrite Ha in Hnd. apply NoDup_app in Hnd as (_ & Hdisj & _). specialize (Hdisj t Ht).
  rewrite !elem_of_app in Hdisj. split_and!; [done|rewrite Hst; tauto|tauto|tauto].
Qed.

(** *** Witnesses *)

Definition all_ok : InitAnswers := {| ole_ok := true; class_ok := true; class_exists := false; window_ok := true |}.

(** Two tasks, the second one pushed while the first runs and served by a
    nested loop. *)
Definition nested_run : list StaLabel :=
  [SlStart; SlThreadId; SlInit all_ok; SlPush 1; SlPost true; SlGet; SlBegin; SlPush 2; SlPost true; SlNested; SlBegin].

Lemma sta_tasks_exactly_once_witness :
  exists s, run_sta nested_run init_StaWorker = Some s /\
    pushed_ s ≡ₚ queue_ s ++ taken (frames_ s) ++ finished_ s ++ dropped_ s /\ frames_ s <> [].
Proof.
  destruct (run_sta nested_run init_StaWorker) as [s|] eqn:E; [|discriminate E].
  exists s. split; [reflexivity|]. split; [apply (sta_tasks_exactly_once _ _ E)|].
  vm_compute in E. injection E as <-. discriminate.
Defined.

(** Of two tasks the second is posted in vain; a third push wakes it too. *)
Definition missed_run : list StaLabel :=
  [SlStart; SlThreadId; SlInit all_ok; SlPush 1; SlPost true; SlPush 2; SlGet; SlPush 3; SlPost false; SlPost false].

Lemma sta_tasks_served_witness :
  exists s s', run_sta missed_run init_StaWorker = Some s /\
    run_sta [SlBegin; SlEnd; SlBegin; SlEnd; SlReturn] s = Some s' /\
    5 <= work_left s /\ queue_ s' = [3] /\ finished_ s' = [1; 2] /\
    (forall t, t ∈ queue_ s' -> unwoken (missed_run ++ [SlBegin; SlEnd; SlBegin; SlEnd; SlReturn]) t).
Proof.
  destruct (run_sta missed_run init_StaWorker) as [s|] eqn:E; [|discriminate E].
  pose proof E as E0. vm_compute in E0.
  destruct (run_sta [SlBegin; SlEnd; SlBegin; SlEnd; SlReturn] s) as [s'|] eqn:E'; [|injection E0 as <-; discriminate E'].
  exists s, s'. split; [reflexivity|]. split; [exact E'|].
  destruct (sta_tasks_served missed_run s [SlBegin; SlEnd; SlBegin; SlEnd; SlReturn] s') as [Hn Hq];
    [exact E|by injection E0 as <-|reflexivity|exact E'|].
  split; [exact Hn|]. injection E0 as <-. vm_compute in E'. injection E' as <-. split; [reflexivity|]. split; [reflexivity|].
  apply Hq. intros l Hl. destruct l; try discriminate Hl; reflexivity.
Defined.

(** A task whose post fails waits for the next one: the caller's
    [future.get()] with it. *)
Lemma failed_post_strands :
  exists s, run_sta [SlStart; SlThreadId; SlInit all_ok; SlPush 1; SlPost false] init_StaWorker = Some s /\
    quiescent s /\ thread_ s = ThPump /\ queue_ s = [1] /\ started_ s = [] /\
    option_map finished_ (run_sta [SlPush 2; SlPost true; SlGet; SlBegin; SlEnd; SlBegin; SlEnd] s) = Some [1; 2].
Proof.
  eexists. split; [vm_compute; reflexivity|]. split; [intros [] Hl; try discriminate Hl; reflexivity|]. by vm_compute.
Qed.

(** [Stop] ends the thread; then a request calls [RunSync]. *)
Definition stop_run : list StaLabel := [SlStart; SlThreadId; SlInit all_ok; SlStop true; SlGet; SlClear; SlDrop].

Definition stopped_sta : StaWorker :=
  Eval vm_compute in default init_StaWorker (run_sta stop_run init_StaWorker).
Definition late_sta : StaWorker :=
  Eval vm_compute in default init_StaWorker (run_sta [SlPush 7; SlPost true; SlJoin] stopped_sta).

Lemma sta_late_task_wedges_witness :
  run_sta stop_run init_StaWorker = Some stopped_sta /\
  run_sta [SlPush 7; SlPost true; SlJoin] stopped_sta = Some late_sta /\
  7 ∈ queue_ late_sta /\ 7 ∉ started_ late_sta /\ 7 ∉ finished_ late_sta /\ 7 ∉ dropped_ late_sta.
Proof.
  split; [vm_compute; reflexivity|]. split; [vm_compute; reflexivity|].
  apply (sta_late_task_wedges stop_run stopped_sta 7 [SlPost true; SlJoin] late_sta).
  - vm_compute. reflexivity.
  - left. reflexivity.
  - reflexivity.
  - by repeat constructor.
  - vm_compute. reflexivity.
  - apply NoDup_singleton.
Defined.

(** A second [Start] does not wait: [init_done_] is still set from the first
    one, so it reports success before the new thread has a window. *)
Example restart_reports_stale_result :
  match run_sta (stop_run ++ [SlJoin; SlStart]) init_StaWorker with
  | Some s => Start_result s = Some true /\ thread_ s = ThBorn /\ hwnd_atom_ s = false
  | None => False
  end.
Proof. vm_compute. by split_and!. Qed.
