(* ===== verification/ChunkProvider.v ===== *)
(** * ChunkProvider: in-flight FILE_CHUNK_REQUESTs on Windows

    [DispatcherChunkProvider] of [windows/src/dispatch.cpp]: [FetchChunk] on the
    STA thread (re-entered through its message pump, so its activations form a
    stack), [DeliverChunk] on the pipe thread and [CancelAll] on either.  The
    shared [PendingChunk] objects live in a store of their own because the
    queue, the fetching frame and a delivery hold the same one.  [SetEvent] is
    called after the lock is released, so the events still to be set are part
    of the state. *)

From S2P Require Import Prelude HelperProto ProtoWire Win32 WinCodec.

(** ** State *)

(** [event] is [None] once closed, else the signalled state of the auto-reset
    event. *)
Record PendingChunk := {
  pc_event : option bool;
  pc_data : list Z;
  pc_is_last : bool;
  pc_error : list Z;
  pc_received : bool;
  pc_cancelled : bool
}.

Definition fresh_PendingChunk : PendingChunk :=
  {| pc_event := Some false; pc_data := []; pc_is_last := false; pc_error := [];
     pc_received := false; pc_cancelled := false |}.

(** [slots] is the heap of [PendingChunk] objects, [pending] the map of queues
    and [to_set] the [SetEvent] calls not yet made. *)
Record Provider := {
  slots : gmap Z PendingChunk;
  next_slot : Z;
  pending : gmap (list Z) (list Z);
  to_set : list Z
}.

Definition init_Provider : Provider :=
  {| slots := ∅; next_slot := 0; pending := ∅; to_set := [] |}.

Definition MakeKey (transfer_id file_id : list Z) (offset : Z) : list Z :=
  transfer_id ++ [124] ++ file_id ++ [124] ++ to_string offset.

(** [q.erase] of the first entry equal to [slot]. *)
Fixpoint erase_first (slot : Z) (q : list Z) : list Z :=
  match q with
  | [] => []
  | x :: q' => if x =? slot then q' else x :: erase_first slot q'
  end.

Definition EraseFromQueueLocked (key : list Z) (slot : Z) (m : gmap (list Z) (list Z)) : gmap (list Z) (list Z) :=
  match m !! key with
  | None => m
  | Some q =>
      match erase_first slot q with
      | [] => delete key m
      | q' => <[key := q']> m
      end
  end.

Definition close_event (sl : PendingChunk) : PendingChunk :=
  {| pc_event := None; pc_data := pc_data sl; pc_is_last := pc_is_last sl; pc_error := pc_error sl;
     pc_received := pc_received sl; pc_cancelled := pc_cancelled sl |}.
Definition signal_event (sl : PendingChunk) : PendingChunk :=
  {| pc_event := option_map (fun _ => true) (pc_event sl); pc_data := pc_data sl;
     pc_is_last := pc_is_last sl; pc_error := pc_error sl;
     pc_received := pc_received sl; pc_cancelled := pc_cancelled sl |}.
(** A satisfied wait resets an auto-reset event. *)
Definition consume_event (sl : PendingChunk) : PendingChunk :=
  {| pc_event := option_map (fun _ => false) (pc_event sl); pc_data := pc_data sl;
     pc_is_last := pc_is_last sl; pc_error := pc_error sl;
     pc_received := pc_received sl; pc_cancelled := pc_cancelled sl |}.
Definition stage_reply (data : list Z) (is_last : bool) (error : list Z) (sl : PendingChunk) : PendingChunk :=
  {| pc_event := pc_event sl; pc_data := data; pc_is_last := is_last; pc_error := error;
     pc_received := true; pc_cancelled := pc_cancelled sl |}.
Definition flag_cancelled (sl : PendingChunk) : PendingChunk :=
  {| pc_event := pc_event sl; pc_data := pc_data sl; pc_is_last := pc_is_last sl; pc_error := pc_error sl;
     pc_received := pc_received sl; pc_cancelled := true |}.

(** ** [FetchChunk] *)

Inductive FetchPc :=
| FAtSend
| FAtWait (start : Z)
| FAtPump (start : Z)
| FAtDetach (got_quit : bool).

Record FetchFrame := {
  ff_slot : Z;
  ff_key : list Z;
  ff_transfer_id : list Z;
  ff_file_id : list Z;
  ff_offset : Z;
  ff_size : Z;
  ff_pc : FetchPc
}.
Definition fetch_at (f : FetchFrame) (pc : FetchPc) : FetchFrame :=
  {| ff_slot := ff_slot f; ff_key := ff_key f; ff_transfer_id := ff_transfer_id f;
     ff_file_id := ff_file_id f; ff_offset := ff_offset f; ff_size := ff_size f; ff_pc := pc |}.

(** What the caller of [FetchChunk] sees: the result code and the two out
    parameters, cleared at entry. *)
Record FetchResult := {
  fr_hr : Z;
  fr_data : list Z;
  fr_is_last : bool
}.
Definition fetch_error (hr : Z) : FetchResult := {| fr_hr := hr; fr_data := []; fr_is_last := false |}.

(** The end of the function, from the detached slot's fields. *)
Definition fetch_result (got_quit : bool) (sl : PendingChunk) : FetchResult :=
  if got_quit then fetch_error E_ABORT
  else if pc_cancelled sl && negb (pc_received sl) then fetch_error STG_E_REVERTED
  else if negb (pc_received sl) then fetch_error E_FAIL
  else match pc_error sl with
       | [] => {| fr_hr := S_OK; fr_data := pc_data sl; fr_is_last := pc_is_last sl |}
       | _ => fetch_error E_FAIL
       end.

Inductive FetchOutput :=
| FSendFrame (frame : list Z)
| FReturn (f : option FetchFrame) (res : FetchResult).

(** Entry: argument checks, slot creation ([event_created] answers
    [CreateEventW]) and staging under the lock. *)
Definition fetch_enter (pipe_present : bool) (transfer_id file_id : list Z) (offset size : Z)
    (event_created : bool) (p : Provider) : Provider * option FetchFrame * list FetchOutput :=
  if negb pipe_present then (p, None, [FReturn None (fetch_error E_FAIL)])
  else if bytes_eqb transfer_id [] || bytes_eqb file_id [] then
    (p, None, [FReturn None (fetch_error E_INVALIDARG)])
  else
    let key := MakeKey transfer_id file_id offset in
    if negb event_created then (p, None, [FReturn None (fetch_error E_FAIL)])
    else
      let slot := next_slot p in
      let q := default [] (pending p !! key) in
      ({| slots := <[slot := fresh_PendingChunk]> (slots p); next_slot := slot + 1;
          pending := <[key := q ++ [slot]]> (pending p); to_set := to_set p |},
       Some {| ff_slot := slot; ff_key := key; ff_transfer_id := transfer_id; ff_file_id := file_id;
               ff_offset := offset; ff_size := size; ff_pc := FAtSend |}, []).

Definition alter_slot (g : PendingChunk -> PendingChunk) (slot : Z) (p : Provider) : Provider :=
  {| slots := alter g slot (slots p); next_slot := next_slot p; pending := pending p; to_set := to_set p |}.

(** Removal of this frame's slot from its queue and closing of its event, which
    both ways out of the function do. *)
Definition detach (f : FetchFrame) (p : Provider) : Provider :=
  {| slots := alter close_event (ff_slot f) (slots p); next_slot := next_slot p;
     pending := EraseFromQueueLocked (ff_key f) (ff_slot f) (pending p); to_set := to_set p |}.

Definition fetch_send (f : FetchFrame) (clock : Z) (sent : bool) (now : Z) (p : Provider)
  : Provider * option FetchFrame * list FetchOutput :=
  let frame := EncodeFileChunkRequestOutbound (ff_transfer_id f) (ff_file_id f) (ff_offset f) (ff_size f) clock in
  if negb sent then (detach f p, None, [FSendFrame frame; FReturn (Some f) (fetch_error E_FAIL)])
  else (p, Some (fetch_at f (FAtWait now)), [FSendFrame frame]).

Definition fetch_wait (f : FetchFrame) (start now : Z) (answer : WaitAnswer) (p : Provider)
  : Provider * FetchFrame :=
  match wait_budget kChunkTimeoutMs start now with
  | None => (p, fetch_at f (FAtDetach false))
  | Some _ =>
      match answer with
      | WaObject => (alter_slot consume_event (ff_slot f) p, fetch_at f (FAtDetach false))
      | WaMessages => (p, fetch_at f (FAtPump start))
      | WaTimeout | WaFailed => (p, fetch_at f (FAtDetach false))
      end
  end.

Definition fetch_pumped (f : FetchFrame) (start : Z) (got_quit : bool) (sl : PendingChunk) : FetchFrame :=
  if got_quit then fetch_at f (FAtDetach true)
  else if pc_cancelled sl || pc_received sl then fetch_at f (FAtDetach false)
  else fetch_at f (FAtWait start).

(** ** [DeliverChunk] and [CancelAll] *)

Definition DeliverChunk (transfer_id file_id : list Z) (offset : Z) (data : list Z) (is_last : bool)
    (error : list Z) (p : Provider) : Provider :=
  let key := MakeKey transfer_id file_id offset in
  match pending p !! key with
  | None | Some [] => p
  | Some (slot :: _) =>
      {| slots := alter (stage_reply data is_last error) slot (slots p); next_slot := next_slot p;
         pending := pending p; to_set := to_set p ++ [slot] |}
  end.

(** The slots every queue of the map holds. *)
Definition queued (m : gmap (list Z) (list Z)) : list Z := concat (map_to_list m).*2.

Definition CancelAll (p : Provider) : Provider :=
  let ids := queued (pending p) in
  {| slots := foldr (alter flag_cancelled) (slots p) ids; next_slot := next_slot p;
     pending := pending p; to_set := to_set p ++ ids |}.

(** The destructor closes the events that are still queued. *)
Definition DispatcherChunkProvider_dtor (p : Provider) : Provider :=
  {| slots := foldr (alter close_event) (slots p) (queued (pending p)); next_slot := next_slot p; pending := ∅; to_set := to_set p |}.

(** A [SetEvent] made after its lock was released; nothing happens to an event
    that has been closed meanwhile. *)
Definition SetEvent (slot : Z) (p : Provider) : Provider :=
  {| slots := alter signal_event slot (slots p); next_slot := next_slot p;
     pending := pending p; to_set := erase_first slot (to_set p) |}.

(** ** The threads *)

Record ProviderSys := {
  ps_provider : Provider;
  ps_stack : list FetchFrame
}.
Definition init_ProviderSys : ProviderSys := {| ps_provider := init_Provider; ps_stack := [] |}.

Inductive FetchLabel :=
| FLFetch (pipe_present : bool) (transfer_id file_id : list Z) (offset size : Z) (event_created : bool)
| FLSend (clock : Z) (sent : bool) (now : Z)
| FLWait (now : Z) (answer : WaitAnswer)
| FLPumped (got_quit : bool)
| FLDetach
| FLDeliver (transfer_id file_id : list Z) (offset : Z) (data : list Z) (is_last : bool) (error : list Z)
| FLCancelAll
| FLSetEvent (slot : Z).

Definition fpush (f : option FetchFrame) (fs : list FetchFrame) : list FetchFrame :=
  match f with Some f => f :: fs | None => fs end.

Definition fpumping (fs : list FetchFrame) : bool :=
  match fs with
  | [] => true
  | f :: _ => match ff_pc f with FAtPump _ => true | _ => false end
  end.

Definition fetch_exec (l : FetchLabel) (y : ProviderSys) : option (ProviderSys * list FetchOutput) :=
  let p := ps_provider y in
  match l with
  | FLFetch pipe_present tid fid offset size event_created =>
      if fpumping (ps_stack y) then
        let '(p', f, out) := fetch_enter pipe_present tid fid offset size event_created p in
        Some (Build_ProviderSys p' (fpush f (ps_stack y)), out)
      else None
  | FLSend clock sent now =>
      match ps_stack y with
      | f :: fs =>
          match ff_pc f with
          | FAtSend => let '(p', f', out) := fetch_send f clock sent now p in
                       Some (Build_ProviderSys p' (fpush f' fs), out)
          | _ => None
          end
      | [] => None
      end
  | FLWait now answer =>
      match ps_stack y with
      | f :: fs =>
          match ff_pc f, answer, slots p !! ff_slot f ≫= pc_event with
          | FAtWait _, WaObject, Some false => None  (* not signalled *)
          | FAtWait start, _, _ => let '(p', f') := fetch_wait f start now answer p in
                                   Some (Build_ProviderSys p' (f' :: fs), [])
          | _, _, _ => None
          end
      | [] => None
      end
  | FLPumped got_quit =>
      match ps_stack y with
      | f :: fs =>
          match ff_pc f, slots p !! ff_slot f with
          | FAtPump start, Some sl => Some (Build_ProviderSys p (fetch_pumped f start got_quit sl :: fs), [])
          | _, _ => None
          end
      | [] => None
      end
  | FLDetach =>
      match ps_stack y with
      | f :: fs =>
          match ff_pc f, slots p !! ff_slot f with
          | FAtDetach got_quit, Some sl =>
              Some (Build_ProviderSys (detach f p) fs, [FReturn (Some f) (fetch_result got_quit sl)])
          | _, _ => None
          end
      | [] => None
      end
  | FLDeliver tid fid offset data is_last error =>
      Some (Build_ProviderSys (DeliverChunk tid fid offset data is_last error p) (ps_stack y), [])
  | FLCancelAll => Some (Build_ProviderSys (CancelAll p) (ps_stack y), [])
  | FLSetEvent slot =>
      if bool_decide (slot ∈ to_set p) then Some (Build_ProviderSys (SetEvent slot p) (ps_stack y), [])
      else None
  end.

Fixpoint run_fetch (ls : list FetchLabel) (y : ProviderSys) : option (ProviderSys * list FetchOutput) :=
  match ls with
  | [] => Some (y, [])
  | l :: ls' =>
      match fetch_exec l y with
      | Some (y', out) =>
          match run_fetch ls' y' with
          | Some (y'', out') => Some (y'', out ++ out')
          | None => None
          end
      | None => None
      end
  end.

Definition fetch_step (y : ProviderSys) (e : FetchLabel * list FetchOutput) (y' : ProviderSys) : Prop :=
  fetch_exec e.1 y = Some (y', e.2).

Lemma run_fetch_steps ls y y' out :
  run_fetch ls y = Some (y', out) -> exists tr, steps fetch_step y tr y' /\ tr.*1 = ls.
Proof.
  revert y out. induction ls as [|l ls IH]; intros y out Hr; simpl in Hr.
  - simplify_eq. exists []. split; [constructor|done].
  - destruct (fetch_exec l y) as [[y1 o]|] eqn:E; [|done].
    destruct (run_fetch ls y1) as [[y2 o']|] eqn:E2; [|done]. simplify_eq.
    destruct (IH _ _ E2) as (tr & Hs & <-). exists ((l, o) :: tr). split; [|done].
    by econstructor.
Qed.

(** ** Queues *)

Lemma erase_first_elem slot q x : NoDup q -> x ∈ erase_first slot q <-> x ∈ q /\ x <> slot.
Proof.
  induction q as [|y q IH]; intros Hnd; simpl; [set_solver|].
  apply NoDup_cons in Hnd as [Hy Hnd]. destruct (y =? slot) eqn:E; zbool.
  - subst. split; [|set_solver]. intros Hx. split; [set_solver|]. by intros ->.
  - rewrite !elem_of_cons, IH by done. naive_solver.
Qed.

Lemma erase_first_sublist slot q : erase_first slot q `sublist_of` q.
Proof.
  induction q as [|y q IH]; simpl; [done|]. destruct (y =? slot).
  - by apply sublist_cons.
  - by apply sublist_skip.
Qed.

Lemma erase_first_NoDup slot q : NoDup q -> NoDup (erase_first slot q).
Proof. intros H. eapply sublist_NoDup; [done|apply erase_first_sublist]. Qed.

(** [to_set] loses at most the entry asked for. *)
Lemma erase_first_other slot q x : x <> slot -> x ∈ q -> x ∈ erase_first slot q.
Proof.
  intros Hx. induction q as [|y q IH]; simpl; [done|]. destruct (y =? slot) eqn:E; zbool; set_solver.
Qed.

(** The map of queues holds exactly the (key, slot) pairs of the activations,
    each once, and no empty queue. *)
Record queues_ok (m : gmap (list Z) (list Z)) (ks : list (list Z * Z)) : Prop := {
  qo_elem : forall k s, s ∈ default [] (m !! k) <-> (k, s) ∈ ks;
  qo_nonempty : forall k, m !! k <> Some [];
  qo_nodup : forall k, NoDup (default [] (m !! k));
  qo_slots : NoDup ks.*2
}.

Lemma queues_ok_enter m ks k s :
  queues_ok m ks -> (forall k', (k', s) ∉ ks) ->
  queues_ok (<[k := default [] (m !! k) ++ [s]]> m) ((k, s) :: ks).
Proof.
  intros [H1 H2 H3 H4] Hs. split.
  - intros k' s'. destruct (decide (k' = k)) as [->|Hne].
    + rewrite lookup_insert_eq. simpl. rewrite elem_of_app, H1. set_solver.
    + rewrite lookup_insert_ne by done. rewrite H1. set_solver.
  - intros k'. destruct (decide (k' = k)) as [->|Hne].
    + rewrite lookup_insert_eq. intros [=E]. by apply app_nil in E as [_ ?].
    + by rewrite lookup_insert_ne.
  - intros k'. destruct (decide (k' = k)) as [->|Hne].
    + rewrite lookup_insert_eq. simpl. apply NoDup_app. split; [done|]. split; [|apply NoDup_singleton].
      intros x Hx. apply H1 in Hx. intros ->%list_elem_of_singleton. by apply (Hs k).
    + by rewrite lookup_insert_ne.
  - simpl. constructor; [|done]. intros ([k' s'] & -> & Hin)%list_elem_of_fmap. by apply (Hs k').
Qed.

Lemma EraseFromQueueLocked_lookup key slot m k :
  m !! key <> Some [] ->
  default [] (EraseFromQueueLocked key slot m !! k) =
    (if bool_decide (k = key) then erase_first slot (default [] (m !! key)) else default [] (m !! k)) /\
  (m !! k <> Some [] -> EraseFromQueueLocked key slot m !! k <> Some []).
Proof.
  intros Hne. unfold EraseFromQueueLocked. destruct (m !! key) as [q|] eqn:E.
  - destruct (erase_first slot q) as [|x q'] eqn:E2; case_bool_decide; subst; simpl;
      rewrite ?lookup_delete_eq, ?lookup_insert_eq, ?lookup_delete_ne, ?lookup_insert_ne by done;
      try done; by rewrite ?E2.
  - case_bool_decide; subst; [by rewrite E|done].
Qed.

Lemma queues_ok_leave m ks k s :
  queues_ok m ((k, s) :: ks) -> queues_ok (EraseFromQueueLocked k s m) ks.
Proof.
  intros [H1 H2 H3 H4]. pose proof (fun k' => EraseFromQueueLocked_lookup k s m k' (H2 k)) as He.
  assert (Hs : forall k', (k', s) ∉ ks).
  { intros k' Hin. simpl in H4. apply NoDup_cons in H4 as [Hn _]. apply Hn.
    apply list_elem_of_fmap. by exists (k', s). }
  split.
  - intros k' s'. rewrite (proj1 (He k')). case_bool_decide as Hk.
    + subst. rewrite erase_first_elem by done. rewrite H1. split; [set_solver|].
      intros Hin. split; [set_solver|]. intros ->. by apply (Hs k).
    + rewrite H1. set_solver.
  - intros k'. by apply He.
  - intros k'. rewrite (proj1 (He k')). case_bool_decide; [|done]. by apply erase_first_NoDup.
  - simpl in H4. by apply NoDup_cons in H4 as [_ ?].
Qed.

Lemma queued_elem m s : s ∈ queued m <-> exists k q, m !! k = Some q /\ s ∈ q.
Proof.
  unfold queued. rewrite list_elem_of_In, in_concat. setoid_rewrite <- list_elem_of_In.
  setoid_rewrite list_elem_of_fmap. split.
  - intros (q & ([k q'] & -> & Hin) & Hs). exists k, q'. by rewrite <- elem_of_map_to_list.
  - intros (k & q & Hk & Hs). exists q. split; [|done]. exists (k, q). by rewrite elem_of_map_to_list.
Qed.

Lemma queued_keys m ks s : queues_ok m ks -> s ∈ queued m <-> s ∈ ks.*2.
Proof.
  intros [H1 H2 H3 H4]. rewrite queued_elem, list_elem_of_fmap. split.
  - intros (k & q & Hk & Hs). exists (k, s). split; [done|]. apply H1. by rewrite Hk.
  - intros ([k s'] & -> & Hin). apply H1 in Hin as Hin'. destruct (m !! k) as [q|] eqn:E; simpl in Hin'.
    + by exists k, q.
    + set_solver.
Qed.

(** ** The invariant *)

(** [sl] holds what some FILE_CHUNK_DATA of the schedule carried under [key]. *)
Definition reply_for (ls : list FetchLabel) (key : list Z) (sl : PendingChunk) : Prop :=
  exists tid fid offset,
    FLDeliver tid fid offset (pc_data sl) (pc_is_last sl) (pc_error sl) ∈ ls /\
    MakeKey tid fid offset = key.

(** A frame that still may sleep is awake once there is something for it. *)
Definition awake (f : FetchFrame) (sl : PendingChunk) (to_set : list Z) : Prop :=
  match ff_pc f with
  | FAtDetach _ => True
  | _ => pc_received sl || pc_cancelled sl = true -> pc_event sl = Some true \/ ff_slot f ∈ to_set
  end.

Record frame_ok (ls : list FetchLabel) (p : Provider) (f : FetchFrame) : Prop := {
  fo_slot : exists sl, slots p !! ff_slot f = Some sl /\ is_Some (pc_event sl) /\
                       awake f sl (to_set p) /\ (pc_received sl = true -> reply_for ls (ff_key f) sl);
  fo_key : ff_key f = MakeKey (ff_transfer_id f) (ff_file_id f) (ff_offset f);
  fo_fresh : ff_slot f < next_slot p
}.

Definition frame_keys (fs : list FetchFrame) : list (list Z * Z) := (fun f => (ff_key f, ff_slot f)) <$> fs.

Record fetch_inv (ls : list FetchLabel) (y : ProviderSys) : Prop := {
  fi_queues : queues_ok (pending (ps_provider y)) (frame_keys (ps_stack y));
  fi_frames : Forall (frame_ok ls (ps_provider y)) (ps_stack y)
}.

Lemma init_fetch_inv : fetch_inv [] init_ProviderSys.
Proof.
  split; simpl; [|done]. split; simpl; [intros k s|intros k|intros k|apply NoDup_nil_2];
    rewrite lookup_empty; simpl; [set_solver|done|apply NoDup_nil_2].
Qed.

Lemma reply_for_snoc ls l key sl : reply_for ls key sl -> reply_for (ls ++ [l]) key sl.
Proof. intros (tid & fid & off & Hin & Hk). exists tid, fid, off. split; [set_solver|done]. Qed.

(** A frame keeps its guarantees when its slot is changed by [g] and [to_set]
    by the action, provided the changed slot still has them. *)
Lemma frame_ok_change ls l p p' f :
  frame_ok ls p f -> next_slot p <= next_slot p' ->
  (forall sl, slots p !! ff_slot f = Some sl ->
     is_Some (pc_event sl) -> awake f sl (to_set p) -> (pc_received sl = true -> reply_for ls (ff_key f) sl) ->
     exists sl', slots p' !! ff_slot f = Some sl' /\ is_Some (pc_event sl') /\
       awake f sl' (to_set p') /\ (pc_received sl' = true -> reply_for (ls ++ [l]) (ff_key f) sl')) ->
  frame_ok (ls ++ [l]) p' f.
Proof.
  intros [(sl & Hsl & Hev & Haw & Hrep) Hkey Hfresh] Hle Hg. split; [|done|lia].
  by apply Hg with sl.
Qed.

(** The slot of [f] untouched and no [SetEvent] forgotten. *)
Lemma frame_ok_same ls l p p' f :
  frame_ok ls p f -> next_slot p <= next_slot p' ->
  slots p' !! ff_slot f = slots p !! ff_slot f ->
  (ff_slot f ∈ to_set p -> ff_slot f ∈ to_set p') ->
  frame_ok (ls ++ [l]) p' f.
Proof.
  intros Hf Hle Hs Ht. apply (frame_ok_change ls l p p' f Hf Hle).
  intros sl Hsl Hev Haw Hrep. exists sl. rewrite Hs. split_and!; try done.
  - unfold awake in *. destruct (ff_pc f); naive_solver.
  - intros Hr. by apply reply_for_snoc, Hrep.
Qed.

(** Moving a frame to another point of the code. *)
Lemma frame_ok_at ls p f pc :
  frame_ok ls p f ->
  (match pc with FAtDetach _ => True | _ => match ff_pc f with FAtDetach _ => False | _ => True end end) ->
  frame_ok ls p (fetch_at f pc).
Proof.
  intros [(sl & Hsl & Hev & Haw & Hrep) Hkey Hfresh] Hpc. split; simpl; try done.
  exists sl. split_and!; try done. unfold awake in *. simpl. destruct pc; try done;
    destruct (ff_pc f); try done.
Qed.

(** Frames other than the top one do not share its slot. *)
Lemma tail_slots f fs : NoDup (frame_keys (f :: fs)).*2 -> Forall (fun g => ff_slot g <> ff_slot f) fs.
Proof.
  unfold frame_keys. simpl. intros [Hn _]%NoDup_cons. rewrite Forall_forall. intros g Hg Heq.
  apply Hn. rewrite <- list_fmap_compose. apply list_elem_of_fmap. exists g. by split.
Qed.

Lemma fetch_inv_snoc ls l y : fetch_inv ls y -> fetch_inv (ls ++ [l]) y.
Proof.
  intros [Hq Hf]. split; [done|]. eapply Forall_impl; [exact Hf|]. intros f Hok.
  by apply (frame_ok_same ls l _ _ f Hok).
Qed.

Lemma fetch_inv_at ls p f fs pc :
  fetch_inv ls (Build_ProviderSys p (f :: fs)) ->
  (match pc with FAtDetach _ => True | _ => match ff_pc f with FAtDetach _ => False | _ => True end end) ->
  fetch_inv ls (Build_ProviderSys p (fetch_at f pc :: fs)).
Proof.
  intros [Hq Hf] Hpc. split; [done|]. simpl in *. apply Forall_cons in Hf as [? ?].
  constructor; [|done]. by apply frame_ok_at.
Qed.

Lemma enter_fetch_inv ls l pp tid fid off sz ev p fs p' f out :
  fetch_inv ls (Build_ProviderSys p fs) -> fetch_enter pp tid fid off sz ev p = (p', f, out) ->
  fetch_inv (ls ++ [l]) (Build_ProviderSys p' (fpush f fs)).
Proof.
  intros Hi He. unfold fetch_enter in He. cbv zeta in He.
  destruct (negb pp); [simplify_eq; by apply fetch_inv_snoc|].
  destruct (bytes_eqb tid [] || bytes_eqb fid [])%bool; [simplify_eq; by apply fetch_inv_snoc|].
  destruct (negb ev); [simplify_eq; by apply fetch_inv_snoc|].
  simplify_eq. destruct Hi as [Hq Hf]. simpl in *. split; simpl.
  - apply queues_ok_enter; [done|]. intros k (g & [=-> Hs] & Hg)%list_elem_of_fmap.
    rewrite Forall_forall in Hf. apply Hf, fo_fresh in Hg. lia.
  - constructor.
    + split; simpl; [|done|lia]. exists fresh_PendingChunk. rewrite lookup_insert_eq. by split_and!.
    + eapply Forall_impl; [exact Hf|]. intros g Hg. pose proof (fo_fresh _ _ _ Hg).
      apply (frame_ok_same ls l p); simpl; try done; [lia|]. apply lookup_insert_ne. lia.
Qed.

Lemma detach_fetch_inv ls l p f fs :
  fetch_inv ls (Build_ProviderSys p (f :: fs)) -> fetch_inv (ls ++ [l]) (Build_ProviderSys (detach f p) fs).
Proof.
  intros [Hq Hf]. simpl in *. split; simpl; [by apply queues_ok_leave|].
  pose proof (tail_slots _ _ (qo_slots _ _ Hq)) as Ht. apply Forall_cons in Hf as [_ Hf].
  rewrite Forall_forall in *. intros g Hg. apply (frame_ok_same ls l p); simpl; auto; try done.
  apply lookup_alter_ne. symmetry. by apply Ht.
Qed.

Lemma wait_fetch_inv ls l p f fs start now a p' f' :
  fetch_inv ls (Build_ProviderSys p (f :: fs)) -> ff_pc f = FAtWait start ->
  fetch_wait f start now a p = (p', f') ->
  fetch_inv (ls ++ [l]) (Build_ProviderSys p' (f' :: fs)).
Proof.
  intros Hi Hpc Hw. unfold fetch_wait in Hw.
  assert (Hpc' : match ff_pc f with FAtDetach _ => False | _ => True end) by by rewrite Hpc.
  destruct (wait_budget _ _ _), a; simplify_eq; try (by apply fetch_inv_snoc, fetch_inv_at).
  pose proof Hi as [Hq Hf]. simpl in *. split; simpl; [done|].
  pose proof (tail_slots _ _ (qo_slots _ _ Hq)) as Ht. apply Forall_cons in Hf as [Hf1 Hf].
  constructor.
  - apply (frame_ok_at _ _ _ (FAtDetach false)) in Hf1; [|done].
    apply (frame_ok_change ls l p); [done|simpl; lia|]. simpl. intros sl Hsl Hev Haw Hrep.
    exists (consume_event sl). rewrite lookup_alter_eq, Hsl. split_and!; try done.
    + destruct Hev as [b Hb]. simpl. by rewrite Hb.
    + intros Hr. by apply reply_for_snoc, Hrep.
  - rewrite Forall_forall in *. intros g Hg. apply (frame_ok_same ls l p); simpl; auto; try done.
    apply lookup_alter_ne. symmetry. by apply Ht.
Qed.

Lemma pumped_fetch_inv ls l p f fs start q sl :
  fetch_inv ls (Build_ProviderSys p (f :: fs)) -> ff_pc f = FAtPump start ->
  fetch_inv (ls ++ [l]) (Build_ProviderSys p (fetch_pumped f start q sl :: fs)).
Proof.
  intros Hi Hpc. unfold fetch_pumped. case_tests;
    (apply fetch_inv_snoc, fetch_inv_at; [done|]); by rewrite ?Hpc.
Qed.

Lemma deliver_fetch_inv ls tid fid off d last err p fs :
  fetch_inv ls (Build_ProviderSys p fs) ->
  fetch_inv (ls ++ [FLDeliver tid fid off d last err])
            (Build_ProviderSys (DeliverChunk tid fid off d last err p) fs).
Proof.
  intros Hi. unfold DeliverChunk. destruct (pending p !! MakeKey tid fid off) as [[|slot q]|] eqn:Ek;
    try by apply fetch_inv_snoc.
  destruct Hi as [Hq Hf]. simpl in *. split; simpl; [done|].
  assert (Hkey : forall g, g ∈ fs -> ff_slot g = slot -> ff_key g = MakeKey tid fid off).
  { intros g Hg Hs. assert (Hin : (MakeKey tid fid off, slot) ∈ frame_keys fs).
    { apply (qo_elem _ _ Hq). rewrite Ek. simpl. set_solver. }
    apply list_elem_of_fmap in Hin as (g' & [=Hk Hs'] & Hg').
    apply list_elem_of_lookup in Hg as [i Hi], Hg' as [j Hj].
    assert (i = j) as ->; [|congruence].
    apply (NoDup_lookup _ i j (ff_slot g) (qo_slots _ _ Hq)); unfold frame_keys;
      rewrite !list_lookup_fmap; [rewrite Hi|rewrite Hj]; simpl; congruence. }
  rewrite Forall_forall in *. intros g Hg. apply (frame_ok_change ls _ p); [auto|simpl; lia|].
  intros sl Hsl Hev Haw Hrep. simpl. destruct (decide (ff_slot g = slot)) as [Heq|Hne].
  - exists (stage_reply d last err sl). rewrite Heq in *. rewrite lookup_alter_eq, Hsl. split_and!; try done.
    + unfold awake. rewrite Heq. destruct (ff_pc g); try done; intros _; right; set_solver.
    + intros _. exists tid, fid, off. simpl. split; [set_solver|]. symmetry. by apply Hkey.
  - exists sl. rewrite lookup_alter_ne by done. split_and!; try done.
    + unfold awake in *. destruct (ff_pc g); set_solver.
    + intros Hr. by apply reply_for_snoc, Hrep.
Qed.

Lemma foldr_flag_lookup (m : gmap Z PendingChunk) ids s sl :
  m !! s = Some sl ->
  exists sl', foldr (alter flag_cancelled) m ids !! s = Some sl' /\
    pc_event sl' = pc_event sl /\ pc_received sl' = pc_received sl /\ pc_data sl' = pc_data sl /\
    pc_is_last sl' = pc_is_last sl /\ pc_error sl' = pc_error sl /\
    (s ∈ ids -> pc_cancelled sl' = true) /\ (s ∉ ids -> sl' = sl).
Proof.
  intros Hs. induction ids as [|i ids IH]; simpl.
  - exists sl. split_and!; try done. set_solver.
  - destruct IH as (sl' & Hl & ? & ? & ? & ? & ? & Hin & Hout).
    destruct (decide (i = s)) as [->|Hne].
    + exists (flag_cancelled sl'). rewrite lookup_alter_eq, Hl. split_and!; try done. set_solver.
    + exists sl'. rewrite lookup_alter_ne by done. split_and!; try done; set_solver.
Qed.

Lemma cancel_fetch_inv ls p fs :
  fetch_inv ls (Build_ProviderSys p fs) ->
  fetch_inv (ls ++ [FLCancelAll]) (Build_ProviderSys (CancelAll p) fs).
Proof.
  intros [Hq Hf]. simpl in *. split; simpl; [done|]. rewrite Forall_forall in *. intros g Hg.
  apply (frame_ok_change ls _ p); [auto|simpl; lia|]. intros sl Hsl Hev Haw Hrep. simpl.
  destruct (foldr_flag_lookup _ (queued (pending p)) _ _ Hsl) as (sl' & Hl & He & Hr & Hd & Hla & Her & Hin & Hout).
  exists sl'. split_and!; [done|by rewrite He| |].
  - unfold awake. assert (ff_slot g ∈ queued (pending p)).
    { eapply queued_keys; [done|]. unfold frame_keys. rewrite <- list_fmap_compose.
      apply list_elem_of_fmap. by exists g. }
    destruct (ff_pc g); try done; intros _; right; apply elem_of_app; by right.
  - intros Hrec. rewrite Hr in Hrec. destruct (Hrep Hrec) as (tid & fid & off & Hin' & Hk).
    exists tid, fid, off. rewrite Hd, Hla, Her. split; [set_solver|done].
Qed.

Lemma set_event_fetch_inv ls slot p fs :
  fetch_inv ls (Build_ProviderSys p fs) ->
  fetch_inv (ls ++ [FLSetEvent slot]) (Build_ProviderSys (SetEvent slot p) fs).
Proof.
  intros [Hq Hf]. simpl in *. split; simpl; [done|]. rewrite Forall_forall in *. intros g Hg.
  apply (frame_ok_change ls _ p); [auto|simpl; lia|]. intros sl Hsl Hev Haw Hrep. simpl.
  destruct (decide (ff_slot g = slot)) as [<-|Hne].
  - exists (signal_event sl). rewrite lookup_alter_eq, Hsl. destruct Hev as [b Hb]. split_and!; try done.
    + simpl. by rewrite Hb.
    + unfold awake. simpl. rewrite Hb. destruct (ff_pc g); try done; intros _; by left.
    + intros Hr. by apply reply_for_snoc, Hrep.
  - exists sl. rewrite lookup_alter_ne by done. split_and!; try done.
    + unfold awake in *. destruct (ff_pc g); try done; intros Hr; (destruct (Haw Hr) as [?|?];
        [by left|right; by apply erase_first_other]).
    + intros Hr. by apply reply_for_snoc, Hrep.
Qed.

Lemma fetch_exec_inv ls l y y' out :
  fetch_inv ls y -> fetch_exec l y = Some (y', out) -> fetch_inv (ls ++ [l]) y'.
Proof.
  intros Hi He. destruct y as [p fs].
  destruct l as [pp tid fid off sz ev|clock sent now|now a|q| |tid fid off d last err| |slot]; simpl in He.
  - destruct (fpumping fs); [|done]. destruct (fetch_enter _ _ _ _ _ _ _) as [[p' f] o] eqn:E. simplify_eq.
    by eapply enter_fetch_inv.
  - destruct fs as [|f fs]; [done|]. destruct (ff_pc f) eqn:Hpc; try done. unfold fetch_send in He.
    destruct sent; simpl in He; simplify_eq; simpl; [|by apply detach_fetch_inv].
    apply fetch_inv_snoc, fetch_inv_at; [done|]. by rewrite Hpc.
  - destruct fs as [|f fs]; [done|]. destruct (ff_pc f) as [|start| |] eqn:Hpc; try done.
    destruct (fetch_wait f start now a p) as [p' f'] eqn:E.
    assert (y' = Build_ProviderSys p' (f' :: fs)) as ->
      by (destruct a, (slots p !! ff_slot f ≫= pc_event) as [[]|]; by simplify_eq).
    by eapply wait_fetch_inv.
  - destruct fs as [|f fs]; [done|]. destruct (ff_pc f) eqn:Hpc; try done.
    destruct (slots p !! ff_slot f); [|done]. simplify_eq. by apply pumped_fetch_inv.
  - destruct fs as [|f fs]; [done|]. destruct (ff_pc f); try done.
    destruct (slots p !! ff_slot f); [|done]. simplify_eq. by apply detach_fetch_inv.
  - simplify_eq. by apply deliver_fetch_inv.
  - simplify_eq. by apply cancel_fetch_inv.
  - case_bool_decide; [|done]. simplify_eq. by apply set_event_fetch_inv.
Qed.

Lemma run_fetch_inv ls y out : run_fetch ls init_ProviderSys = Some (y, out) -> fetch_inv ls y.
Proof.
  intros (tr & Hs & <-)%run_fetch_steps. change (tr.*1) with (([] ++ tr).*1).
  refine (steps_trace_invariant fetch_step (fun tr y => fetch_inv tr.*1 y) _ _ _ _ [] Hs _).
  - intros tr0 y0 [l out0] y1 Hstep Hi. rewrite fmap_app. by eapply fetch_exec_inv.
  - apply init_fetch_inv.
Qed.

(** ** Keys *)

(** Splitting a key at its separators. *)
Lemma app_sep_inj (a a' b b' : list Z) :
  124 ∉ a -> 124 ∉ a' -> a ++ 124 :: b = a' ++ 124 :: b' -> a = a' /\ b = b'.
Proof.
  revert a'. induction a as [|x a IH]; intros [|x' a'] Ha Ha' E; simpl in E; simplify_eq.
  - done.
  - set_solver.
  - set_solver.
  - destruct (IH a') as [-> ->]; [set_solver|set_solver|done|done].
Qed.

Lemma to_string_no_sep n : 0 <= n -> 124 ∉ to_string n.
Proof.
  intros Hn Hin. pose proof (to_string_digits n Hn) as Hd. rewrite Forall_forall in Hd.
  specialize (Hd _ Hin). lia.
Qed.

Lemma MakeKey_inj tid fid off tid' fid' off' :
  124 ∉ tid -> 124 ∉ fid -> 124 ∉ tid' -> 124 ∉ fid' -> is_u64 off -> is_u64 off' ->
  MakeKey tid fid off = MakeKey tid' fid' off' -> tid = tid' /\ fid = fid' /\ off = off'.
Proof.
  intros Ht Hf Ht' Hf' Ho Ho' E. unfold MakeKey in E. simpl in E.
  apply app_sep_inj in E as [-> E]; [|done|done].
  apply app_sep_inj in E as [-> E]; [|done|done].
  split_and!; [done|done|]. by apply to_string_inj.
Qed.

(** ** What a fetch returns *)

(** A fetch ends in an error or with what a reply under its own key carried. *)
Definition own_reply (ls : list FetchLabel) (f : FetchFrame) (res : FetchResult) : Prop :=
  exists tid fid off,
    (FLDeliver tid fid off (fr_data res) (fr_is_last res) []) ∈ ls /\
    MakeKey tid fid off = MakeKey (ff_transfer_id f) (ff_file_id f) (ff_offset f).

Lemma fetch_result_cases q sl :
  FAILED (fr_hr (fetch_result q sl)) = true \/
  (fetch_result q sl = {| fr_hr := S_OK; fr_data := pc_data sl; fr_is_last := pc_is_last sl |} /\
   pc_received sl = true /\ pc_error sl = []).
Proof.
  unfold fetch_result. destruct q; [by left|]. destruct (pc_cancelled sl && negb (pc_received sl))%bool; [by left|].
  destruct (pc_received sl); [|by left]. destruct (pc_error sl) eqn:E; [right|by left]. done.
Qed.

Lemma detach_reply ls f fs q sl p :
  fetch_inv ls (Build_ProviderSys p (f :: fs)) -> slots p !! ff_slot f = Some sl ->
  FAILED (fr_hr (fetch_result q sl)) = true \/ (fr_hr (fetch_result q sl) = S_OK /\ own_reply ls f (fetch_result q sl)).
Proof.
  intros [_ Hf] Hsl. simpl in Hf. apply Forall_cons in Hf as [[(sl' & Hsl' & _ & _ & Hrep) Hkey _] _].
  rewrite Hsl in Hsl'. injection Hsl' as <-. destruct (fetch_result_cases q sl) as [?|(-> & Hr & He)]; [by left|right].
  split; [done|]. destruct (Hrep Hr) as (tid & fid & off & Hin & Hk). rewrite He in Hin. exists tid, fid, off. split; [done|congruence].
Qed.

(** ** Properties *)

(** C11: A chunk reaches the read that asked for it: in every interleaving of
    (nested) fetches, replies, cancellations and wake-ups, a fetch that
    succeeds returns the bytes and last-chunk flag of an error-free
    FILE_CHUNK_DATA received for its own correlation key, which is the reply to
    its own transfer id, file id and offset whenever ids contain no
    separator. *)
Theorem fetch_returns_own_chunk ls y out0 f res y' :
  run_fetch ls init_ProviderSys = Some (y, out0) ->
  fetch_exec FLDetach y = Some (y', [FReturn (Some f) res]) ->
  fr_hr res = S_OK ->
  exists tid fid off,
    (FLDeliver tid fid off (fr_data res) (fr_is_last res) []) ∈ ls /\
    MakeKey tid fid off = MakeKey (ff_transfer_id f) (ff_file_id f) (ff_offset f) /\
    (124 ∉ tid -> 124 ∉ fid -> 124 ∉ ff_transfer_id f -> 124 ∉ ff_file_id f ->
     is_u64 off -> is_u64 (ff_offset f) ->
     tid = ff_transfer_id f /\ fid = ff_file_id f /\ off = ff_offset f).
Proof.
  intros Hr He Hhr. apply run_fetch_inv in Hr. destruct y as [p fs]. simpl in He.
  destruct fs as [|g fs]; [done|]. destruct (ff_pc g) as [| | |q]; try done.
  destruct (slots p !! ff_slot g) as [sl|] eqn:Esl; [|done]. simplify_eq.
  destruct (detach_reply _ _ _ q _ _ Hr Esl) as [Hx|[_ (tid & fid & off & Hin & Hk)]]; [by rewrite Hhr in Hx|].
  exists tid, fid, off. split_and!; [done..|]. intros. by apply MakeKey_inj.
Qed.

(** Two files fetched at once, the replies out of order. *)
Lemma fetch_returns_own_chunk_witness :
  exists y out0 f y',
    let ls := [FLFetch true (str "t") (str "0") 0 4 true; FLSend 1 true 10; FLWait 11 WaMessages;
               FLFetch true (str "t") (str "1") 8 4 true; FLSend 1 true 12;
               FLDeliver (str "t") (str "0") 0 [1; 2] false []; FLDeliver (str "t") (str "1") 8 [3] true [];
               FLSetEvent 1; FLWait 13 WaObject] in
    run_fetch ls init_ProviderSys = Some (y, out0) /\
    fetch_exec FLDetach y = Some (y', [FReturn (Some f) (Build_FetchResult S_OK [3] true)]) /\
    ff_file_id f = str "1" /\
    exists tid fid off,
      (FLDeliver tid fid off [3] true []) ∈ ls /\
      MakeKey tid fid off = MakeKey (ff_transfer_id f) (ff_file_id f) (ff_offset f).
Proof.
  do 4 eexists. cbv zeta. split; [vm_compute; reflexivity|]. split; [vm_compute; reflexivity|].
  split; [reflexivity|].
  edestruct (fetch_returns_own_chunk
    [FLFetch true (str "t") (str "0") 0 4 true; FLSend 1 true 10; FLWait 11 WaMessages;
     FLFetch true (str "t") (str "1") 8 4 true; FLSend 1 true 12;
     FLDeliver (str "t") (str "0") 0 [1; 2] false []; FLDeliver (str "t") (str "1") 8 [3] true [];
     FLSetEvent 1; FLWait 13 WaObject]) as (tid & fid & off & Hin & Hk & _);
    [vm_compute; reflexivity | vm_compute; reflexivity | reflexivity |].
  exists tid, fid, off. split; [exact Hin|exact Hk].
Defined.

(** ** Event handles *)

(** The events still open belong to fetches in progress. *)
Definition open_owned (y : ProviderSys) : Prop :=
  forall slot sl, slots (ps_provider y) !! slot = Some sl -> pc_event sl <> None -> slot ∈ ff_slot <$> ps_stack y.

Lemma open_alter g slot p fs :
  (forall sl, pc_event sl = None -> pc_event (g sl) = None) ->
  open_owned (Build_ProviderSys p fs) -> open_owned (Build_ProviderSys (alter_slot g slot p) fs).
Proof.
  intros Hg Ho s sl Hs He. cbn in *. destruct (decide (slot = s)) as [->|Hn]; [|rewrite lookup_alter_ne in Hs by done; by eapply Ho].
  rewrite lookup_alter_eq in Hs. destruct (slots p !! s) as [sl0|] eqn:E; [|done]. cbn in Hs. injection Hs as <-.
  apply (Ho s sl0 E). intros Hn. by apply He, Hg.
Qed.

Lemma open_detach f p fs : open_owned (Build_ProviderSys p (f :: fs)) -> open_owned (Build_ProviderSys (detach f p) fs).
Proof.
  intros Ho s sl Hs He. cbn in *. destruct (decide (ff_slot f = s)) as [<-|Hn].
  - rewrite lookup_alter_eq in Hs. destruct (slots p !! ff_slot f); [|done]. cbn in Hs. by injection Hs as <-.
  - rewrite lookup_alter_ne in Hs by done. specialize (Ho s sl Hs He). cbn in Ho. set_solver.
Qed.

Lemma open_same p p' fs fs' :
  slots p' = slots p -> ff_slot <$> fs' = ff_slot <$> fs -> open_owned (Build_ProviderSys p fs) -> open_owned (Build_ProviderSys p' fs').
Proof. intros E1 E2 Ho s sl. cbn. rewrite E1, E2. apply Ho. Qed.

Lemma open_foldr g ids p fs :
  (forall sl, pc_event sl = None -> pc_event (g sl) = None) ->
  open_owned (Build_ProviderSys p fs) ->
  open_owned (Build_ProviderSys {| slots := foldr (alter g) (slots p) ids; next_slot := next_slot p; pending := pending p; to_set := to_set p |} fs).
Proof.
  intros Hg Ho. induction ids as [|i ids IH]; [by apply (open_same p _ fs)|]. by apply (open_alter g i) in IH.
Qed.

Lemma open_enter pp tid fid off sz ev p fs p' f out :
  fetch_enter pp tid fid off sz ev p = (p', f, out) -> open_owned (Build_ProviderSys p fs) -> open_owned (Build_ProviderSys p' (fpush f fs)).
Proof.
  unfold fetch_enter. repeat case_match; intros E Ho; simplify_eq; try done. intros s sl Hs He. cbn in *.
  destruct (decide (next_slot p = s)) as [->|Hn]; [left|]. rewrite lookup_insert_ne in Hs by done. right. by eapply Ho.
Qed.

Lemma open_events_step l y y' out : fetch_exec l y = Some (y', out) -> open_owned y -> open_owned y'.
Proof.
  destruct y as [p st]. intros E Ho. destruct l; cbn in E.
  - destruct (fpumping st); [|done]. destruct (fetch_enter _ _ _ _ _ _ _) as [[p' f] o] eqn:Ee. simplify_eq. eapply open_enter; [exact Ee|done].
  - destruct st as [|f fs]; [done|]. destruct (ff_pc f); try done. unfold fetch_send in E. destruct sent; cbn in E; simplify_eq;
      [by (eapply open_same; [| |exact Ho])|by apply open_detach].
  - destruct st as [|f fs]; [done|]. unfold fetch_wait in E. repeat case_match; simplify_eq; try (by (eapply open_same; [| |exact Ho]));
      (apply (open_alter consume_event); [by intros ? Hn; cbn; rewrite Hn|by (eapply open_same; [| |exact Ho])]).
  - destruct st as [|f fs]; [done|]. unfold fetch_pumped in E. repeat case_match; simplify_eq; by (eapply open_same; [| |exact Ho]).
  - destruct st as [|f fs]; [done|]. destruct (ff_pc f); try done. destruct (slots p !! ff_slot f); simplify_eq. by apply open_detach.
  - simplify_eq. unfold DeliverChunk. repeat case_match; try done.
    apply (open_same (alter_slot (stage_reply data is_last error) z p) _ st st); [done|done|]. by apply open_alter.
  - simplify_eq. apply (open_same {| slots := foldr (alter flag_cancelled) (slots p) (queued (pending p)); next_slot := next_slot p;
      pending := pending p; to_set := to_set p |} _ st st); [done|done|]. by apply open_foldr.
  - destruct (bool_decide _); simplify_eq. apply (open_same (alter_slot signal_event slot p) _ st st); [done|done|].
    apply open_alter; [by intros ? Hn; cbn; rewrite Hn|done].
Qed.

Lemma open_reachable ls y out : run_fetch ls init_ProviderSys = Some (y, out) -> open_owned y.
Proof.
  assert (H : forall ls y0 y out, open_owned y0 -> run_fetch ls y0 = Some (y, out) -> open_owned y).
  { clear. intros ls. induction ls as [|l ls IH]; intros y0 y out Ho E; cbn in E; [by simplify_eq|].
    destruct (fetch_exec l y0) as [[y1 o]|] eqn:E1; [|done]. destruct (run_fetch ls y1) as [[y2 o']|] eqn:E2; [|done].
    simplify_eq. eapply IH; [|done]. by eapply open_events_step. }
  apply H. intros s sl Hs. by cbn in Hs.
Qed.

Lemma foldr_close_lookup s ids (m : gmap Z PendingChunk) sl :
  foldr (alter close_event) m ids !! s = Some sl -> pc_event sl = None \/ (s ∉ ids /\ m !! s = Some sl).
Proof.
  revert sl. induction ids as [|i ids IH]; intros sl Hs; cbn in Hs; [right; split; [apply not_elem_of_nil|done]|].
  destruct (decide (i = s)) as [->|Hn].
  - rewrite lookup_alter_eq in Hs. destruct (foldr _ m ids !! s); [|done]. cbn in Hs. injection Hs as <-. by left.
  - rewrite lookup_alter_ne in Hs by done. destruct (IH sl Hs) as [?|[]]; [by left|right]. split; [set_solver|done].
Qed.

(** No event handle is lost: only fetches in progress have theirs open, so the
    destructor finds nothing to close when none is, and leaves none open
    whenever it runs. *)
Theorem fetch_events_closed ls y out0 :
  run_fetch ls init_ProviderSys = Some (y, out0) ->
  (forall slot sl, slots (ps_provider y) !! slot = Some sl -> slot ∉ ff_slot <$> ps_stack y -> pc_event sl = None) /\
  (ps_stack y = [] -> slots (DispatcherChunkProvider_dtor (ps_provider y)) = slots (ps_provider y)) /\
  (forall slot sl, slots (DispatcherChunkProvider_dtor (ps_provider y)) !! slot = Some sl -> pc_event sl = None).
Proof.
  intros Hr. pose proof (open_reachable _ _ _ Hr) as Ho. apply run_fetch_inv in Hr as [Hq _].
  assert (Hown : forall s sl, slots (ps_provider y) !! s = Some sl -> s ∉ ff_slot <$> ps_stack y -> pc_event sl = None).
  { intros s sl Hs Hn. destruct (pc_event sl) eqn:E; [|done]. exfalso. apply Hn, (Ho s sl Hs). by rewrite E. }
  assert (Hkeys : forall s, s ∈ queued (pending (ps_provider y)) <-> s ∈ ff_slot <$> ps_stack y).
  { intros s. rewrite (queued_keys _ _ _ Hq). unfold frame_keys. by rewrite <- list_fmap_compose. }
  split_and!; [done| |].
  - intros E. cbn. rewrite (elem_of_nil_inv (queued (pending (ps_provider y)))); [done|]. intros s. rewrite Hkeys, E. apply not_elem_of_nil.
  - cbn. intros s sl [?|[Hn Hs]]%foldr_close_lookup; [done|]. apply (Hown s sl Hs). by rewrite <- Hkeys.
Qed.

(** Only the innermost fetch is anywhere but in its message pump. *)
Definition below_pump (y : ProviderSys) : Prop := Forall (fun f => exists start, ff_pc f = FAtPump start) (tail (ps_stack y)).

Lemma below_pump_step l y y' out : fetch_exec l y = Some (y', out) -> below_pump y -> below_pump y'.
Proof.
  unfold below_pump. destruct y as [p fs]. intros E Hb. destruct l; cbn in E.
  - destruct (fpumping fs) eqn:Ep; [|done]. destruct (fetch_enter _ _ _ _ _ _ _) as [[p' f] o]. apply (inj Some) in E. injection E as <- _. cbn in *.
    destruct f as [f|]; [|done]. cbn. destruct fs as [|g fs]; [done|]. cbn in *. destruct (ff_pc g) eqn:Eg; try done.
    apply Forall_cons. eauto.
  - destruct fs as [|f fs]; [done|]. destruct (ff_pc f); try done. unfold fetch_send in E. cbn in Hb.
    destruct sent; cbn in E; apply (inj Some) in E; injection E as <- _; cbn; [done|]. destruct fs; [done|]. by apply Forall_cons in Hb as [_ ?].
  - destruct fs as [|f fs]; [done|]. destruct (ff_pc f), answer, (slots p !! ff_slot f ≫= pc_event) as [[]|]; try done;
      destruct (fetch_wait _ _ _ _ _); apply (inj Some) in E; by injection E as <- _.
  - destruct fs as [|f fs]; [done|]. destruct (ff_pc f), (slots p !! ff_slot f); try done; apply (inj Some) in E; by injection E as <- _.
  - destruct fs as [|f fs]; [done|]. destruct (ff_pc f), (slots p !! ff_slot f); try done. apply (inj Some) in E. injection E as <- _. cbn in *.
    destruct fs; [done|]. by apply Forall_cons in Hb as [_ ?].
  - apply (inj Some) in E. by injection E as <- _.
  - apply (inj Some) in E. by injection E as <- _.
  - destruct (bool_decide _); [|done]. apply (inj Some) in E. by injection E as <- _.
Qed.

Lemma below_pump_reachable ls y out : run_fetch ls init_ProviderSys = Some (y, out) -> below_pump y.
Proof.
  assert (Hg : forall y0 y1 o, run_fetch ls y0 = Some (y1, o) -> below_pump y0 -> below_pump y1); [|intros Hr; eapply Hg; [exact Hr|apply Forall_nil_2]].
  induction ls as [|l ls IH]; intros y0 y1 o Hr Hb; simpl in Hr; [by simplify_eq|].
  destruct (fetch_exec l y0) as [[y2 o2]|] eqn:E; [|done]. destruct (run_fetch ls y2) as [[y3 o3]|] eqn:E3; [|done].
  simplify_eq. eapply IH; [exact E3|]. by eapply below_pump_step.
Qed.

(** C21: No lost wake-up and no leak.  In every reachable state a fetch that has
    its reply or has been cancelled has its event signalled or a [SetEvent] on
    the way, unless it has left its wait already - its event consumed, its time
    up, or seen the flag after pumping - and then it is the innermost one and
    its next step returns without sleeping again.  The queues hold exactly the
    fetches in progress, from their staging to their return: a reply leaves
    its fetch in the queue, and nothing is left behind when none is in
    progress. *)
Theorem no_lost_wakeup ls y out0 :
  run_fetch ls init_ProviderSys = Some (y, out0) ->
  (forall f sl, f ∈ ps_stack y -> slots (ps_provider y) !! ff_slot f = Some sl ->
     pc_received sl || pc_cancelled sl = true ->
     pc_event sl = Some true \/ ff_slot f ∈ to_set (ps_provider y) \/
     exists q fs y' res, ff_pc f = FAtDetach q /\ ps_stack y = f :: fs /\
       fetch_exec FLDetach y = Some (y', [FReturn (Some f) res]) /\ ps_stack y' = fs) /\
  (forall k, default [] (pending (ps_provider y) !! k) ≡ₚ
     (ff_slot <$> filter (fun f => ff_key f = k) (ps_stack y))) /\
  (ps_stack y = [] -> pending (ps_provider y) = ∅).
Proof.
  intros Hr. pose proof (below_pump_reachable _ _ _ Hr) as Hb. apply run_fetch_inv in Hr as [Hq Hf]. split_and!.
  - intros f sl Hin Hsl Hd. rewrite Forall_forall in Hf.
    destruct (Hf _ Hin) as [(sl' & Hsl' & _ & Haw & _) _ _]. rewrite Hsl in Hsl'. simplify_eq.
    unfold awake in Haw. destruct (ff_pc f) as [| | |q] eqn:Epc; [destruct (Haw Hd); auto..|].
    right. right. destruct y as [p [|g fs]]; [by apply elem_of_nil in Hin|]. unfold below_pump in Hb. cbn in *.
    apply elem_of_cons in Hin as [<-|Hin].
    + exists q, fs. rewrite Epc, Hsl. by eauto 6.
    + rewrite Forall_forall in Hb. destruct (Hb _ Hin) as [start Hp]. congruence.
  - intros k. apply NoDup_Permutation.
    + apply (qo_nodup _ _ Hq).
    + pose proof (qo_slots _ _ Hq) as Hs. unfold frame_keys in Hs. rewrite <- list_fmap_compose in Hs.
      eapply sublist_NoDup; [exact Hs|]. apply (fmap_sublist ff_slot). apply sublist_filter.
    + intros s. rewrite (qo_elem _ _ Hq), list_elem_of_fmap. unfold frame_keys. rewrite list_elem_of_fmap.
      setoid_rewrite list_elem_of_filter. naive_solver.
  - intros Hs. apply map_empty. intros k. destruct (pending (ps_provider y) !! k) as [[|s q]|] eqn:E; [| |done].
    + by destruct (qo_nonempty _ _ Hq k).
    + assert (Hin : s ∈ default [] (pending (ps_provider y) !! k)) by (rewrite E; simpl; set_solver).
      apply (qo_elem _ _ Hq) in Hin. rewrite Hs in Hin. simpl in Hin. set_solver.
Qed.

Lemma no_lost_wakeup_witness :
  exists y out0,
    run_fetch [FLFetch true (str "t") (str "0") 0 4 true; FLSend 1 true 10;
               FLDeliver (str "t") (str "0") 0 [1] false []] init_ProviderSys = Some (y, out0) /\
    ps_stack y <> [] /\
    default [] (pending (ps_provider y) !! MakeKey (str "t") (str "0") 0) ≡ₚ
      (ff_slot <$> filter (fun f => ff_key f = MakeKey (str "t") (str "0") 0) (ps_stack y)).
Proof.
  do 2 eexists. split; [vm_compute; reflexivity|]. split; [done|].
  apply (no_lost_wakeup [FLFetch true (str "t") (str "0") 0 4 true; FLSend 1 true 10;
               FLDeliver (str "t") (str "0") 0 [1] false []] _ _ eq_refl).
Defined.

(** Cancellation ends a blocked read: from every reachable state whose
    innermost fetch sleeps without a reply, [CancelAll] followed by its
    [SetEvent] lets the wait return at once and the fetch ends with
    STG_E_REVERTED and no data, leaving the queue; the fetches below it are
    flagged and signalled too, so they end the same way when they resume. *)
Theorem cancel_ends_fetch ls y out0 f fs start now sl :
  run_fetch ls init_ProviderSys = Some (y, out0) ->
  ps_stack y = f :: fs -> ff_pc f = FAtWait start ->
  slots (ps_provider y) !! ff_slot f = Some sl -> pc_received sl = false ->
  tick_elapsed start now < kChunkTimeoutMs ->
  exists y' f',
    run_fetch [FLCancelAll; FLSetEvent (ff_slot f); FLWait now WaObject; FLDetach] y =
      Some (y', [FReturn (Some f') (fetch_error STG_E_REVERTED)]) /\
    ff_slot f' = ff_slot f /\ ps_stack y' = fs /\
    Forall (fun g => ff_slot g ∈ queued (pending (ps_provider y)) /\
                     exists sl', slots (CancelAll (ps_provider y)) !! ff_slot g = Some sl' /\
                                 pc_cancelled sl' = true) fs.
Proof.
  intros Hr Hst Hpc Hsl Hrec Hb. apply run_fetch_inv in Hr as [Hq Hf].
  destruct y as [p st]. simpl in *. subst st. apply wait_budget_left in Hb.
  assert (Hin : forall g, g ∈ f :: fs -> ff_slot g ∈ queued (pending p)).
  { intros g Hg. eapply queued_keys; [done|]. unfold frame_keys. rewrite <- list_fmap_compose.
    apply list_elem_of_fmap. by exists g. }
  assert (Hev : is_Some (pc_event sl)).
  { apply Forall_cons in Hf as [[(sl0 & Hsl0 & He & _) _ _] _]. by simplify_eq. }
  destruct (foldr_flag_lookup _ (queued (pending p)) _ _ Hsl) as (sl' & Hl & He & Hre & _ & _ & _ & Hca & _).
  exists (Build_ProviderSys (detach f (alter_slot consume_event (ff_slot f) (SetEvent (ff_slot f) (CancelAll p)))) fs),
    (fetch_at f (FAtDetach false)). split_and!; try done.
  - simpl. rewrite bool_decide_eq_true_2 by (apply elem_of_app; right; apply Hin; set_solver).
    simpl. rewrite Hpc, lookup_alter_eq, Hl. simpl. destruct Hev as [b Hb']. rewrite He, Hb'. simpl.
    unfold fetch_wait. destruct (wait_budget _ _ _); [|done]. simpl.
    rewrite lookup_alter_eq, lookup_alter_eq, Hl. simpl. unfold fetch_result. simpl.
    rewrite Hre, Hrec, Hca by (apply Hin; set_solver). done.
  - apply Forall_cons in Hf as [_ Hf]. rewrite Forall_forall in *. intros g Hg.
    assert (Hg' : ff_slot g ∈ queued (pending p)) by (apply Hin; set_solver). split; [done|].
    destruct (Hf _ Hg) as [(slg & Hslg & _) _ _].
    destruct (foldr_flag_lookup _ (queued (pending p)) _ _ Hslg) as (slg' & Hlg & _ & _ & _ & _ & _ & Hc & _).
    exists slg'. split; [done|by apply Hc].
Qed.

Lemma cancel_ends_fetch_witness :
  exists y out,
    run_fetch [FLFetch true (str "t") (str "0") 0 4 true; FLSend 1 true 10] init_ProviderSys = Some (y, out) /\
    exists y' f',
      run_fetch [FLCancelAll; FLSetEvent 0; FLWait 20 WaObject; FLDetach] y =
        Some (y', [FReturn (Some f') (fetch_error STG_E_REVERTED)]) /\
      ff_slot f' = 0 /\ ps_stack y' = [].
Proof.
  do 2 eexists. split; [vm_compute; reflexivity|].
  edestruct (cancel_ends_fetch [FLFetch true (str "t") (str "0") 0 4 true; FLSend 1 true 10])
    with (now := 20) as (y' & f' & Hr & Hf & Hs & _); [reflexivity..|].
  exists y', f'. split; [exact Hr|]. split; [exact Hf|exact Hs].
Defined.

(** The queue's front is not popped on delivery: when two reads of the same
    chunk are in flight, a second reply that arrives before the first read has
    detached overwrites the first reply's bytes, and the second read gets
    neither data nor a wake-up. *)
Theorem second_reply_overwrites_first tid fid off d1 l1 e1 d2 l2 e2 p a b q sla slb :
  pending p !! MakeKey tid fid off = Some (a :: b :: q) -> a <> b ->
  slots p !! a = Some sla -> slots p !! b = Some slb ->
  let p' := DeliverChunk tid fid off d2 l2 e2 (DeliverChunk tid fid off d1 l1 e1 p) in
  slots p' !! a = Some (stage_reply d2 l2 e2 sla) /\
  slots p' !! b = Some slb /\
  to_set p' = to_set p ++ [a; a] /\
  pending p' = pending p.
Proof.
  intros Hk Hab Ha Hb. unfold DeliverChunk. rewrite Hk. simpl. rewrite Hk. simpl. split_and!.
  - by rewrite lookup_alter_eq, lookup_alter_eq, Ha.
  - by rewrite !lookup_alter_ne.
  - by rewrite <- app_assoc.
  - done.
Qed.

Definition two_reads : list FetchLabel :=
  [FLFetch true (str "t") (str "0") 0 4 true; FLSend 1 true 10; FLWait 11 WaMessages;
   FLFetch true (str "t") (str "0") 0 4 true; FLSend 1 true 12].

Definition two_reads_state : Provider :=
  match run_fetch two_reads init_ProviderSys with Some (y, _) => ps_provider y | None => init_Provider end.

Lemma second_reply_overwrites_first_witness :
  let p' := DeliverChunk (str "t") (str "0") 0 [2] true []
              (DeliverChunk (str "t") (str "0") 0 [1] true [] two_reads_state) in
  slots p' !! 0 = Some (stage_reply [2] true [] fresh_PendingChunk) /\
  slots p' !! 1 = Some fresh_PendingChunk /\ to_set p' = [0; 0].
Proof.
  destruct (second_reply_overwrites_first (str "t") (str "0") 0 [1] true [] [2] true []
              two_reads_state 0 1 [] fresh_PendingChunk fresh_PendingChunk) as (H1 & H2 & H3 & _);
    [vm_compute; reflexivity | done | vm_compute; reflexivity | vm_compute; reflexivity |].
  split; [exact H1|split; [exact H2|exact H3]].
Defined.

(** With a separator inside an id, the reply to one file's request completes
    the read of another file. *)
Example separator_collision :
  MakeKey (str "a|b") (str "c") 0 = MakeKey (str "a") (str "b|c") 0.
Proof. reflexivity. Qed.
