(* ===== verification/ClipboardFormat.v ===== *)
(** * ClipboardFormat: byte layouts of the Windows clipboard formats

    [windows/src/clipboard_format.cpp] (the writers and the re-entrancy
    counter) and the readers of the same layouts in
    [windows/src/clipboard_ops.cpp]: FILEGROUPDESCRIPTORW, CF_DIBV5 / CF_DIB,
    CF_HDROP and CF_UNICODETEXT.  [wchar_t] is a 16-bit unit.  Virtual-file
    descriptors are records with the fields the code sets (every other field
    is zero); bitmaps are byte lists in the little-endian SDK layout. *)

From S2P Require Import Prelude HelperProto ProtoWire Win32 WinCodec.

(** ** Re-entrancy counter *)

(** The thread-local [tls_os_clipboard_held], a 32-bit int. *)
Definition OsClipboardHeldGuard_enter (held : Z) : Z := i32 (held + 1).
Definition OsClipboardHeldGuard_leave (held : Z) : Z := i32 (held - 1).
Definition IsOsClipboardHeldByThisThread (held : Z) : bool := negb (held =? 0).

(** ** FILEGROUPDESCRIPTORW *)

Definition kMaxVirtualFileSpecs : Z := 100000.
Definition MAX_PATH : Z := 260.
Definition FD_ATTRIBUTES : Z := 0x4.
Definition FD_WRITESTIME : Z := 0x20.
Definition FD_FILESIZE : Z := 0x40.
Definition FD_PROGRESSUI : Z := 0x4000.
Definition FILE_ATTRIBUTE_DIRECTORY : Z := 0x10.
Definition FILE_ATTRIBUTE_NORMAL : Z := 0x80.

Record FILEDESCRIPTORW := {
  dwFlags : Z;
  dwFileAttributes : Z;
  ftLastWriteTime : Z;
  nFileSizeHigh : Z;
  nFileSizeLow : Z;
  cFileName : list Z       (* MAX_PATH units *)
}.

Record FILEGROUPDESCRIPTORW := {
  cItems : Z;
  fgd : list FILEDESCRIPTORW
}.

(** How many units of an over-long name are kept: MAX_PATH - 1, one less when
    that would split a surrogate pair. *)
Definition name_copy (n : list Z) : Z :=
  let copy := Z.min (Zlen n) (MAX_PATH - 1) in
  if (copy <? Zlen n) && (copy >? 0) then
    let last := nth (Z.to_nat (copy - 1)) n 0 in
    if (last >=? 0xD800) && (last <=? 0xDBFF) then copy - 1 else copy
  else copy.

Definition normalize_slash (c : Z) : Z := if c =? 47 then 92 else c.

(** The zero-initialised array after the copy loop and the NUL. *)
Definition file_name_field (n : list Z) : list Z :=
  let kept := map normalize_slash (take (Z.to_nat (name_copy n)) n) in
  kept ++ replicate (Z.to_nat (MAX_PATH - Zlen kept)) 0.

Definition attributes_of (spec : VirtualFileSpec) : Z :=
  if vfs_is_directory spec then FILE_ATTRIBUTE_DIRECTORY else FILE_ATTRIBUTE_NORMAL.

(** [now] is what [GetSystemTimeAsFileTime] reports for this entry. *)
Definition file_descriptor (spec : VirtualFileSpec) (now : Z) : FILEDESCRIPTORW :=
  {| dwFlags := Z.lor (Z.lor (Z.lor FD_FILESIZE FD_ATTRIBUTES) FD_WRITESTIME) FD_PROGRESSUI;
     dwFileAttributes := attributes_of spec;
     ftLastWriteTime := now;
     nFileSizeHigh := u32 (Z.shiftr (vfs_size spec) 32);
     nFileSizeLow := u32 (Z.land (vfs_size spec) 0xFFFFFFFF);
     cFileName := file_name_field (vfs_name spec) |}.

(** The loop over [specs], entry [i] first. *)
Fixpoint file_descriptors (now : Z -> Z) (i : Z) (specs : list VirtualFileSpec) : list FILEDESCRIPTORW :=
  match specs with
  | [] => []
  | s :: rest => file_descriptor s (now i) :: file_descriptors now (i + 1) rest
  end.

(** [None] is the empty payload. *)
Definition BuildFileGroupDescriptorPayload (now : Z -> Z) (specs : list VirtualFileSpec)
  : option FILEGROUPDESCRIPTORW :=
  match specs with
  | [] => None
  | _ =>
      if Zlen specs >? kMaxVirtualFileSpecs then None
      else Some {| cItems := u32 (Zlen specs);
                   fgd := file_descriptors now 0 specs |}
  end.

(** *** Reading it back *)

(** [std::wstring] from a pointer to an array: up to the first NUL, [None] when
    the array holds none and the constructor walks on past its end. *)
Fixpoint wide_from_array (a : list Z) : option (list Z) :=
  match a with
  | [] => None
  | c :: a' => if c =? 0 then Some [] else cons c <$> wide_from_array a'
  end.

Definition kMaxInboundVirtualFiles : Z := 100000.
Definition sizeof_FILEDESCRIPTORW : Z := 592.
Definition sizeof_FILEGROUPDESCRIPTORW : Z := 596.

(** The loop of [ReadVirtualFiles] over the descriptors, [None] when a name
    runs past its array. *)
Fixpoint read_entries (i : Z) (fds : list FILEDESCRIPTORW) : option (list VirtualFileEntry) :=
  match fds with
  | [] => Some []
  | fd :: rest =>
      match wide_from_array (cFileName fd) with
      | None => None
      | Some name =>
          let size := if negb (Z.land (dwFlags fd) FD_FILESIZE =? 0)
                      then Z.lor (Z.shiftl (nFileSizeHigh fd) 32) (nFileSizeLow fd) else 0 in
          cons {| vfe_name := name; vfe_size := size; vfe_lindex := i |} <$> read_entries (u32 (i + 1)) rest
      end
  end.

(** What a read of the descriptor blob comes to. *)
Inductive DescriptorRead :=
| DescEntries (entries : list VirtualFileEntry)
| DescRejected        (* one of the defensive checks returned false *)
| DescOverrun.        (* undefined behaviour *)

(** The checks and the loop on a blob of [blob_size] bytes. *)
Definition ReadFileGroupDescriptor (fg : FILEGROUPDESCRIPTORW) (blob_size : Z) : DescriptorRead :=
  let count := cItems fg in
  if count >? kMaxInboundVirtualFiles then DescRejected
  else if (count >? 0) && (sizeof_FILEGROUPDESCRIPTORW + (count - 1) * sizeof_FILEDESCRIPTORW >? blob_size)
  then DescRejected
  else match read_entries 0 (take (Z.to_nat count) (fgd fg)) with
       | Some es => DescEntries es
       | None => DescOverrun
       end.

(** ** CF_DIBV5 *)

Definition kMaxImageDimension : Z := 16384.
Definition sizeof_BITMAPINFOHEADER : Z := 40.
Definition sizeof_BITMAPV5HEADER : Z := 124.
Definition BI_RGB : Z := 0.
Definition BI_BITFIELDS : Z := 3.
Definition LCS_GM_GRAPHICS : Z := 2.

(** Little-endian fields of a blob. *)
Definition u16_at (b : list Z) (k : nat) : Z :=
  Z.lor (nth k b 0) (Z.shiftl (nth (S k) b 0) 8).
Definition u32_at (b : list Z) (k : nat) : Z :=
  Z.lor (Z.lor (nth k b 0) (Z.shiftl (nth (k + 1) b 0) 8))
        (Z.lor (Z.shiftl (nth (k + 2) b 0) 16) (Z.shiftl (nth (k + 3) b 0) 24)).

(** The BITMAPV5HEADER of a top-down 32 bpp sRGB image: size, width, height,
    planes, bit count, compression, image size; pels per metre and colour
    counts; the four masks; colour space; endpoints and gammas; intent; profile
    data, profile size and the reserved word. *)
Definition v5_header (width height len : Z) : list Z :=
  le32 sizeof_BITMAPV5HEADER ++ le32 width ++ le32 (- height) ++ le16 1 ++ le16 32 ++
  le32 BI_BITFIELDS ++ le32 len ++ replicate 16 0 ++
  le32 0x00FF0000 ++ le32 0x0000FF00 ++ le32 0x000000FF ++ le32 0xFF000000 ++
  le32 0x73524742 ++ replicate 48 0 ++ le32 LCS_GM_GRAPHICS ++ replicate 12 0.

(** [pixels] is [None] for a null pointer with the length [pixel_bytes_len]. *)
Definition BuildCfDibV5Payload (width height : Z) (pixels : option (list Z)) (pixel_bytes_len : Z) : list Z :=
  if (width <=? 0) || (height <=? 0) then []
  else if (width >? kMaxImageDimension) || (height >? kMaxImageDimension) then []
  else
    let expected_len := width * 4 * height in
    if negb (pixel_bytes_len =? expected_len) then []
    else match pixels with
         | None => []
         | Some px => v5_header width height (u32 expected_len) ++ px
         end.

(** *** Reading a DIB *)

Record BgraImage := {
  img_width : Z;
  img_height : Z;
  img_pixels : list Z
}.

(** 24 bpp BGR to 32 bpp BGRA. *)
Fixpoint widen_row (row : list Z) : list Z :=
  match row with
  | b :: g :: r :: rest => b :: g :: r :: 255 :: widen_row rest
  | _ => []
  end.

(** Row [y] of the destination. *)
Definition dib_row (src : list Z) (width height bytes_per_pixel src_stride : Z) (top_down : bool) (y : Z) : list Z :=
  let src_y := if top_down then y else height - 1 - y in
  let row := drop (Z.to_nat (src_y * src_stride)) src in
  if bytes_per_pixel =? 4 then take (Z.to_nat (width * 4)) row
  else widen_row (take (Z.to_nat (width * 3)) row).

(** The body after [GlobalLock], on the blob's bytes. *)
Definition ReadDib (blob : list Z) : option BgraImage :=
  let blob_size := Zlen blob in
  if blob_size <? sizeof_BITMAPINFOHEADER then None
  else
    let biSize := u32_at blob 0 in
    if (biSize <? sizeof_BITMAPINFOHEADER) || (biSize >? blob_size) then None
    else
      let raw_w := i32 (u32_at blob 4) in
      let raw_h := i32 (u32_at blob 8) in
      if (raw_w <=? 0) || (raw_h =? - 2 ^ 31) then None
      else
        let top_down := raw_h <? 0 in
        let abs_h := if top_down then - raw_h else raw_h in
        if (raw_w >? kMaxImageDimension) || (abs_h >? kMaxImageDimension) then None
        else if abs_h <=? 0 then None
        else
          let biBitCount := u16_at blob 14 in
          let biCompression := u32_at blob 16 in
          if negb (biCompression =? BI_RGB) && negb (biCompression =? BI_BITFIELDS) then None
          else if negb (biBitCount =? 24) && negb (biBitCount =? 32) then None
          else
            let header_bytes := if (biCompression =? BI_BITFIELDS) && (biSize =? sizeof_BITMAPINFOHEADER)
                                then biSize + 3 * 4 else biSize in
            if header_bytes >? blob_size then None
            else
              let bytes_per_pixel := biBitCount / 8 in
              let src_stride := Z.ldiff (raw_w * bytes_per_pixel + 3) 3 in
              let needed := src_stride * abs_h in
              if header_bytes + needed >? blob_size then None
              else
                let src := drop (Z.to_nat header_bytes) blob in
                Some {| img_width := raw_w; img_height := abs_h;
                        img_pixels := concat (map (dib_row src raw_w abs_h bytes_per_pixel src_stride top_down)
                                                  (seqZ 0 abs_h)) |}.

(** ** CF_HDROP and CF_UNICODETEXT *)

(** The units after the DROPFILES header; [None] is the empty payload. *)
Definition BuildCfHdropPayload (paths : list (list Z)) : option (list Z) :=
  match paths with
  | [] => None
  | _ => Some (concat (map (fun p => p ++ [0]) paths) ++ [0])
  end.

(** The documented reading of a CF_HDROP list, used only to state what the
    payload means: NUL-terminated paths up to an empty one. *)
Fixpoint hdrop_paths_from (cur : list Z) (units : list Z) : list (list Z) :=
  match units with
  | [] => []
  | c :: rest =>
      if c =? 0 then match cur with
                     | [] => []
                     | _ => cur :: hdrop_paths_from [] rest
                     end
      else hdrop_paths_from (cur ++ [c]) rest
  end.
Definition hdrop_paths (units : list Z) : list (list Z) := hdrop_paths_from [] units.

(** [dst] after [WriteClipboardText]'s copy, and [ReadClipboard]'s
    [wcslen]-delimited reading of it. *)
Definition text_units (text : list Z) : list Z := text ++ [0].
Definition read_text_units (units : list Z) : option (list Z) := wide_from_array units.

(** ** Names *)

Lemma wide_from_array_app n m : Forall (fun c => c <> 0) n -> wide_from_array (n ++ 0 :: m) = Some n.
Proof.
  induction 1 as [|c n Hc _ IH]; simpl; [done|].
  replace (c =? 0) with false by (symmetry; by apply Z.eqb_neq). by rewrite IH.
Qed.

Lemma wide_from_array_none a : Forall (fun c => c <> 0) a -> wide_from_array a = None.
Proof.
  induction 1 as [|c n Hc _ IH]; simpl; [done|].
  replace (c =? 0) with false by (symmetry; by apply Z.eqb_neq). by rewrite IH.
Qed.

Lemma wide_from_array_c_str t m : wide_from_array (t ++ 0 :: m) = Some (c_str t).
Proof. induction t as [|c t IH]; simpl; [done|]. destruct (c =? 0); [done|]. by rewrite IH. Qed.

Lemma name_copy_range n : 0 <= name_copy n <= Z.min (Zlen n) (MAX_PATH - 1).
Proof.
  unfold name_copy. pose proof (Zlen_nonneg n). cbv zeta.
  destruct ((_ <? _) && (_ >? _))%bool eqn:E; [|unfold MAX_PATH; lia].
  zbool. rewrite Z.gtb_ltb in *. zbool. case_tests; unfold MAX_PATH in *; lia.
Qed.

Definition high_surrogate (c : Z) : Prop := 0xD800 <= c <= 0xDBFF.
Definition low_surrogate (c : Z) : Prop := 0xDC00 <= c <= 0xDFFF.

Lemma name_copy_cases n :
  (Zlen n < MAX_PATH /\ name_copy n = Zlen n) \/
  (MAX_PATH <= Zlen n /\
   ((high_surrogate (nth 258 n 0) /\ name_copy n = 258) \/ (~ high_surrogate (nth 258 n 0) /\ name_copy n = 259))).
Proof.
  unfold name_copy, high_surrogate, MAX_PATH. cbv zeta. pose proof (Zlen_nonneg n).
  destruct (decide (Zlen n < 260)).
  - left. split; [done|]. rewrite Z.min_l by lia. by rewrite Z.ltb_irrefl.
  - right. split; [lia|]. rewrite Z.min_r by lia. change (260 - 1) with 259.
    replace (259 <? Zlen n) with true by (symmetry; apply Z.ltb_lt; lia). simpl.
    change (Z.to_nat (259 - 1)) with 258%nat. rewrite !Z.geb_leb.
    destruct ((55296 <=? nth 258 n 0) && (nth 258 n 0 <=? 56319))%bool eqn:E; zbool; [left; lia|].
    right. apply andb_false_iff in E as [E|E]; zbool; lia.
Qed.

(** What the consumer of a descriptor is to see of a name, independently of how
    the code copies it: of a name of 260 units and more the first 259, or 258
    when the 259th is the first half of a surrogate pair; of these the part
    before a NUL; each slash a backslash. *)
Definition kept_units (n : list Z) : list Z :=
  if decide (Zlen n <= 259) then n
  else if decide (0xD800 <= nth 258 n 0 <= 0xDBFF) then take 258 n else take 259 n.
Definition backslashes (n : list Z) : list Z := map (fun c => if decide (c = 47) then 92 else c) n.
Definition published_name (n : list Z) : list Z := backslashes (c_str (kept_units n)).

Lemma kept_units_copy n : take (Z.to_nat (name_copy n)) n = kept_units n.
Proof.
  unfold kept_units. destruct (name_copy_cases n) as [[Hl ->]|[Hl Hc]]; unfold MAX_PATH in *.
  - rewrite decide_True by lia. by rewrite Zlen_to_nat, firstn_all.
  - rewrite decide_False by lia. unfold high_surrogate in Hc. destruct Hc as [[Hh ->]|[Hh ->]].
    + by rewrite decide_True.
    + by rewrite decide_False.
Qed.

Lemma normalize_backslashes n : map normalize_slash n = backslashes n.
Proof. apply map_ext. intros c. unfold normalize_slash. destruct (Z.eqb_spec c 47); by case_decide. Qed.

Lemma c_str_backslashes n : c_str (backslashes n) = backslashes (c_str n).
Proof.
  unfold backslashes. induction n as [|c n IH]; [done|]. cbn. case_decide; [subst; cbn; by rewrite IH|].
  destruct (c =? 0); [done|]. cbn. rewrite decide_False by done. by rewrite IH.
Qed.

(** The name array is MAX_PATH units, NUL-terminated, and reads back as the
    published name. *)
Lemma file_name_field_read n :
  Zlen (file_name_field n) = MAX_PATH /\ wide_from_array (file_name_field n) = Some (published_name n).
Proof.
  unfold file_name_field. cbv zeta.
  pose proof (name_copy_range n) as Hr.
  assert (Hl : Zlen (map normalize_slash (take (Z.to_nat (name_copy n)) n)) = name_copy n).
  { unfold Zlen in *. rewrite length_map, length_take. lia. }
  rewrite Hl. split.
  - rewrite Zlen_app, Hl. unfold Zlen. rewrite length_replicate. unfold MAX_PATH in *. lia.
  - replace (Z.to_nat (MAX_PATH - name_copy n)) with (S (Z.to_nat (MAX_PATH - 1 - name_copy n)))
      by (unfold MAX_PATH in *; lia).
    rewrite normalize_backslashes, kept_units_copy. cbn [replicate]. rewrite wide_from_array_c_str. by rewrite c_str_backslashes.
Qed.

Lemma size_words size :
  is_u64 size ->
  Z.lor (Z.shiftl (u32 (Z.shiftr size 32)) 32) (u32 (Z.land size 0xFFFFFFFF)) = size.
Proof.
  intros Hs. unfold is_u64 in Hs. change 0xFFFFFFFF with (2 ^ 32 - 1). rewrite land_ones_mod by lia.
  rewrite Z.lor_comm. pose proof (u32_range (size mod 2 ^ 32)). unfold is_u32 in *.
  rewrite lor_shiftl_add by lia. unfold u32. rewrite Z.shiftr_div_pow2 by lia.
  Z.to_euclidean_division_equations. lia.
Qed.

(** ** Rows *)

Lemma concat_rows (px : list Z) (k : nat) (h : Z) :
  0 <= h -> Zlen px = h * Z.of_nat k ->
  concat (map (fun y => take k (drop (Z.to_nat (y * Z.of_nat k)) px)) (seqZ 0 h)) = px.
Proof.
  intros Hh Hl.
  assert (Hgen : forall n, (n * k <= length px)%nat ->
    concat (map (fun y => take k (drop (Z.to_nat (y * Z.of_nat k)) px)) (seqZ 0 (Z.of_nat n))) = take (n * k) px).
  { induction n as [|n IH]; intros Hn; [done|].
    rewrite seqZ_S, map_app, concat_app, IH by lia. simpl.
    rewrite app_nil_r, ?Z.add_0_l. replace (Z.to_nat (Z.of_nat n * Z.of_nat k)) with (n * k)%nat by lia.
    rewrite (Nat.add_comm k). apply take_take_drop. }
  unfold Zlen in Hl. rewrite <- (Z2Nat.id h) by lia. rewrite Hgen by nia. apply take_ge. nia.
Qed.

(** ** Reading what was written *)

(** The entries a reader of the published descriptors must obtain. *)
Fixpoint published_entries (i : Z) (specs : list VirtualFileSpec) : list VirtualFileEntry :=
  match specs with
  | [] => []
  | s :: rest => {| vfe_name := published_name (vfs_name s); vfe_size := vfs_size s; vfe_lindex := i |}
                 :: published_entries (i + 1) rest
  end.

(** The [uint64_t] of a spec. *)
Definition publishable (s : VirtualFileSpec) : Prop := is_u64 (vfs_size s).

Lemma read_entries_published specs now i :
  Forall publishable specs -> 0 <= i -> i + Zlen specs < 2 ^ 32 ->
  read_entries i (file_descriptors now i specs) = Some (published_entries i specs).
Proof.
  intros Hs. revert i. induction Hs as [|s specs Hz _ IH]; intros i Hi Hlen; [done|].
  rewrite Zlen_cons in Hlen. pose proof (Zlen_nonneg specs). simpl.
  destruct (file_name_field_read (vfs_name s)) as [_ ->]. rewrite size_words by done.
  rewrite u32_small by (unfold is_u32; lia). by rewrite IH by lia.
Qed.

Lemma file_descriptors_length now i specs : length (file_descriptors now i specs) = length specs.
Proof. revert i. induction specs as [|s specs IH]; intros i; simpl; [done|]. by rewrite IH. Qed.

Lemma nth_app_l {A} (a b : list A) k d : (k < length a)%nat -> nth k (a ++ b) d = nth k a d.
Proof. intros H. by apply app_nth1. Qed.

Lemma u32_at_app a b k : (k + 3 < length a)%nat -> u32_at (a ++ b) k = u32_at a k.
Proof. intros H. unfold u32_at. by rewrite !nth_app_l by lia. Qed.

Lemma v5_fields w h n :
  u32_at (v5_header w h n) 0 = 124 /\ u32_at (v5_header w h n) 4 = u32 w /\
  u32_at (v5_header w h n) 8 = u32 (- h) /\ u16_at (v5_header w h n) 14 = 32 /\
  u32_at (v5_header w h n) 16 = BI_BITFIELDS.
Proof.
  split_and!; try reflexivity; [apply (le32_value w)|apply (le32_value (- h))].
Qed.

Lemma stride_32 w : Z.ldiff (w * (32 / 8) + 3) 3 = w * 4.
Proof.
  change 3 with (Z.ones 2) at 2. rewrite Z.ldiff_ones_r by lia.
  rewrite Z.shiftl_mul_pow2, Z.shiftr_div_pow2 by lia. change (32 / 8) with 4. change (2 ^ 2) with 4.
  rewrite Z.div_add_l by lia. change (3 / 4) with 0. lia.
Qed.

(** ** Properties *)

(** C37: The descriptor the helper publishes for a list of virtual files passes
    the helper's own inbound checks on a blob of the size it allocates and
    yields the same files in order, with their indices and full 64-bit sizes.
    The names are not the same: each slash is read back as a backslash, a name
    ends before its first NUL, and of a name of 260 units and more the first
    259 are kept, or 258 where the cut would fall behind the first half of a
    surrogate pair, so that no pair is split. *)
Theorem descriptor_roundtrip now specs :
  specs <> [] -> Zlen specs <= kMaxVirtualFileSpecs -> Forall publishable specs ->
  (exists fg,
    BuildFileGroupDescriptorPayload now specs = Some fg /\
    cItems fg = Zlen specs /\
    Forall (fun fd => Zlen (cFileName fd) = MAX_PATH) (fgd fg) /\
    ReadFileGroupDescriptor fg
      (sizeof_FILEGROUPDESCRIPTORW + (Zlen specs - 1) * sizeof_FILEDESCRIPTORW) =
      DescEntries (published_entries 0 specs)) /\
  Forall (fun s =>
    let n := vfs_name s in
    let k := length (kept_units n) in
    (k < length n)%nat -> ~ (high_surrogate (nth (k - 1) n 0) /\ low_surrogate (nth k n 0))) specs.
Proof.
  intros Hne Hcap Hs. split.
  - destruct specs as [|s0 specs0] eqn:E; [done|]. rewrite <- E in *. clear Hne.
    assert (Hb : BuildFileGroupDescriptorPayload now specs =
                 Some {| cItems := Zlen specs; fgd := file_descriptors now 0 specs |}).
    { unfold BuildFileGroupDescriptorPayload. rewrite E, <- E. rewrite Z.gtb_ltb.
      replace (kMaxVirtualFileSpecs <? Zlen specs) with false by (symmetry; apply Z.ltb_ge; lia).
      rewrite u32_small; [done|]. unfold is_u32, kMaxVirtualFileSpecs in *. pose proof (Zlen_nonneg specs). lia. }
    eexists. split_and!; [exact Hb|done| |].
    + simpl. generalize 0. clear -specs. induction specs as [|s specs IH]; intros i; simpl; [done|].
      constructor; [by apply file_name_field_read|apply IH].
    + unfold ReadFileGroupDescriptor. simpl. rewrite !Z.gtb_ltb, Z.ltb_irrefl.
      replace (kMaxInboundVirtualFiles <? Zlen specs) with false
        by (symmetry; apply Z.ltb_ge; unfold kMaxInboundVirtualFiles, kMaxVirtualFileSpecs in *; lia).
      rewrite andb_false_r. rewrite take_ge by (rewrite file_descriptors_length, Zlen_to_nat; lia).
      rewrite read_entries_published; [done|done|lia|unfold kMaxVirtualFileSpecs in *; lia].
  - apply Forall_forall. intros s _ n k. unfold k, kept_units, high_surrogate, low_surrogate, Zlen in *.
    destruct (decide _); [lia|]. destruct (decide _) as [Hh|Hh]; rewrite length_take.
    + replace (258 `min` length n)%nat with 258%nat by lia. intros _ [_ Hlo]. lia.
    + replace (259 `min` length n)%nat with 259%nat by lia. intros _ [Hhi _]. by apply Hh.
Qed.

Lemma descriptor_roundtrip_witness :
  let specs := [{| vfs_name := str "dir/a.txt"; vfs_size := 2 ^ 33 + 5; vfs_file_id := str "0"; vfs_is_directory := false |}] in
  exists fg,
    BuildFileGroupDescriptorPayload (fun _ => 7) specs = Some fg /\
    ReadFileGroupDescriptor fg 596 =
      DescEntries [{| vfe_name := str "dir\a.txt"; vfe_size := 2 ^ 33 + 5; vfe_lindex := 0 |}].
Proof.
  cbv zeta.
  destruct (descriptor_roundtrip (fun _ => 7)
    [{| vfs_name := str "dir/a.txt"; vfs_size := 2 ^ 33 + 5; vfs_file_id := str "0"; vfs_is_directory := false |}])
    as [(fg & Hb & _ & _ & Hr) _].
  - done.
  - vm_compute. congruence.
  - apply Forall_singleton. vm_compute. split; congruence.
  - exists fg. split; [exact Hb|exact Hr].
Defined.

(** A foreign descriptor whose name array has no NUL passes every check of the
    reader and makes it read past the array: the length checks bound the
    descriptors, not the names inside them. *)
Theorem unterminated_name_overruns fd blob_size :
  Forall (fun c => c <> 0) (cFileName fd) -> sizeof_FILEGROUPDESCRIPTORW <= blob_size ->
  ReadFileGroupDescriptor {| cItems := 1; fgd := [fd] |} blob_size = DescOverrun.
Proof.
  intros Hn Hb. unfold ReadFileGroupDescriptor. simpl. rewrite Z.gtb_ltb.
  replace (blob_size <? _) with false by (symmetry; apply Z.ltb_ge; lia).
  by rewrite wide_from_array_none.
Qed.

Lemma unterminated_name_overruns_witness :
  ReadFileGroupDescriptor
    {| cItems := 1; fgd := [{| dwFlags := 0; dwFileAttributes := 0; ftLastWriteTime := 0; nFileSizeHigh := 0;
                               nFileSizeLow := 0; cFileName := replicate 260 65 |}] |} 596 = DescOverrun.
Proof.
  apply unterminated_name_overruns; [|vm_compute; congruence].
  apply Forall_replicate. discriminate.
Defined.

(** An image written to the clipboard reads back pixel for pixel: the CF_DIBV5
    bytes built for any accepted size pass the reader's checks and give the same
    width, height and top-down BGRA rows (also when the same bytes are served
    as CF_DIB). *)
Theorem dibv5_roundtrip w h px :
  0 < w <= kMaxImageDimension -> 0 < h <= kMaxImageDimension ->
  Zlen px = w * 4 * h ->
  ReadDib (BuildCfDibV5Payload w h (Some px) (Zlen px)) =
  Some {| img_width := w; img_height := h; img_pixels := px |}.
Proof.
  unfold kMaxImageDimension. intros Hw Hh Hl.
  assert (Hb : BuildCfDibV5Payload w h (Some px) (Zlen px) = v5_header w h (u32 (w * 4 * h)) ++ px).
  { unfold BuildCfDibV5Payload, kMaxImageDimension. rewrite !Z.gtb_ltb, Hl, Z.eqb_refl.
    replace (w <=? 0) with false by lia. replace (h <=? 0) with false by lia.
    replace (16384 <? w) with false by lia. by replace (16384 <? h) with false by lia. }
  rewrite Hb. destruct (v5_fields w h (u32 (w * 4 * h))) as (F0 & F4 & F8 & F14 & F16).
  set (hdr := v5_header w h (u32 (w * 4 * h))) in *.
  assert (Hlen : length hdr = 124%nat) by reflexivity.
  unfold ReadDib. cbv zeta. unfold sizeof_BITMAPINFOHEADER.
  assert (Hsz : Zlen (hdr ++ px) = 124 + w * 4 * h) by (rewrite Zlen_app, Hl; unfold Zlen; rewrite Hlen; lia).
  rewrite !u32_at_app by (rewrite Hlen; lia).
  assert (H14 : u16_at (hdr ++ px) 14 = 32).
  { unfold u16_at. rewrite !nth_app_l by (rewrite Hlen; lia). exact F14. }
  rewrite F0, F4, F8, F16, H14, Hsz, !i32_u32 by lia. rewrite !Z.gtb_ltb.
  replace (124 + w * 4 * h <? 40) with false by nia. replace (124 + w * 4 * h <? 124) with false by nia.
  simpl. replace (w <=? 0) with false by lia. replace (- h =? _) with false by lia.
  replace (- h <? 0) with true by lia. simpl. rewrite Z.opp_involutive. unfold kMaxImageDimension.
  replace (16384 <? w) with false by lia. replace (16384 <? h) with false by lia.
  replace (h <=? 0) with false by lia. simpl.
  change (w * _ + 3) with (w * (32 / 8) + 3). rewrite stride_32.
  replace (124 + w * 4 * h <? 124 + w * 4 * h) with false by lia.
  replace (124 + w * 4 * h <? 124) with false by nia.
  f_equal. f_equal. change (drop 0 px) with px.
  rewrite <- (concat_rows px (Z.to_nat (w * 4)) h) at 2 by nia.
  f_equal. apply map_ext. intros y. unfold dib_row. simpl. by rewrite Z2Nat.id by lia.
Qed.

Lemma dibv5_roundtrip_witness :
  ReadDib (BuildCfDibV5Payload 1 2 (Some [1; 2; 3; 4; 5; 6; 7; 8]) 8) =
  Some {| img_width := 1; img_height := 2; img_pixels := [1; 2; 3; 4; 5; 6; 7; 8] |}.
Proof. apply (dibv5_roundtrip 1 2 [1; 2; 3; 4; 5; 6; 7; 8]); unfold kMaxImageDimension; try lia; reflexivity. Defined.

(** Rows of a bitmap that fit in the blob. *)
Lemma widen_row_length row k : length row = (3 * k)%nat -> length (widen_row row) = (4 * k)%nat.
Proof.
  revert row. induction k as [|k IH]; intros row Hl.
  - destruct row; [done|simpl in Hl; lia].
  - destruct row as [|b [|g [|r row]]]; simpl in Hl; try lia. simpl. rewrite (IH row); lia.
Qed.

Lemma dib_row_length src w h bpp stride td y :
  0 < w -> 0 <= y < h -> (bpp = 3 \/ bpp = 4) -> w * bpp <= stride -> stride * h <= Zlen src ->
  Zlen (dib_row src w h bpp stride td y) = w * 4.
Proof.
  intros Hw Hy Hbpp Hst Hlen. unfold dib_row. cbv zeta.
  set (src_y := if td then y else h - 1 - y).
  assert (Hsy : 0 <= src_y < h) by (unfold src_y; destruct td; lia).
  assert (Hfit : src_y * stride + w * bpp <= Zlen src) by nia.
  unfold Zlen in *. destruct Hbpp as [->| ->]; simpl.
  - rewrite (widen_row_length _ (Z.to_nat w)); [lia|]. rewrite length_take, length_drop. nia.
  - rewrite length_take, length_drop. nia.
Qed.

Lemma concat_const_length {A} (f : Z -> list A) (k : Z) l :
  (forall y, y ∈ l -> Zlen (f y) = k) -> Zlen (concat (map f l)) = Zlen l * k.
Proof.
  induction l as [|y l IH]; intros Hf; simpl; [done|].
  rewrite Zlen_app, Zlen_cons, (Hf y), IH; [lia|set_solver|set_solver].
Qed.

Lemma stride_covers w bpp : 0 < w -> 0 < bpp -> w * bpp <= Z.ldiff (w * bpp + 3) 3.
Proof.
  intros Hw Hb. change 3 with (Z.ones 2) at 2. rewrite Z.ldiff_ones_r by lia.
  rewrite Z.shiftl_mul_pow2, Z.shiftr_div_pow2 by lia. change (2 ^ 2) with 4.
  Z.to_euclidean_division_equations. lia.
Qed.

(** A bitmap found on the clipboard is never read outside its blob: whatever
    the bytes claim, an accepted image has both dimensions in [1, 16384] and
    exactly width * height * 4 pixel bytes, every row having been taken whole
    from the blob. *)
Theorem dib_reads_in_bounds blob img :
  ReadDib blob = Some img ->
  1 <= img_width img <= kMaxImageDimension /\ 1 <= img_height img <= kMaxImageDimension /\
  Zlen (img_pixels img) = img_width img * img_height img * 4.
Proof.
  unfold ReadDib. cbv zeta. intros H.
  repeat match type of H with (if ?b then _ else _) = _ => destruct b eqn:?; [done|] end.
  repeat match goal with
         | E : (_ || _)%bool = false |- _ => apply orb_false_iff in E as [? ?]
         | E : (_ && _)%bool = false |- _ => apply andb_false_iff in E
         end.
  simplify_eq. simpl. rewrite !Z.gtb_ltb in *.
  set (w := i32 (u32_at blob 4)) in *. set (rh := i32 (u32_at blob 8)) in *.
  set (ah := if rh <? 0 then - rh else rh) in *.
  set (hb := if (_ && _)%bool then _ else _) in *.
  set (bpp := u16_at blob 14 / 8) in *. zbool.
  assert (Hbpp : bpp = 3 \/ bpp = 4).
  { unfold bpp. match goal with E : _ \/ _ |- _ =>
      match type of E with context [24] => destruct E as [E|E]; apply negb_false_iff, Z.eqb_eq in E; rewrite E end end;
    [by left|by right]. }
  split; [lia|]. split; [lia|].
  assert (Hhb : 0 <= hb) by (unfold hb; unfold sizeof_BITMAPINFOHEADER in *; case_tests; lia).
  assert (Hsrc : Z.ldiff (w * bpp + 3) 3 * ah <= Zlen (drop (Z.to_nat hb) blob)).
  { unfold Zlen in *. rewrite length_drop. lia. }
  rewrite (concat_const_length _ (w * 4)).
  - unfold Zlen at 1. rewrite length_seqZ. rewrite Z2Nat.id by lia. lia.
  - intros y Hy. apply elem_of_seqZ in Hy. apply dib_row_length; first [lia | apply stride_covers; lia].
Qed.

Lemma dib_reads_in_bounds_witness :
  exists img,
    ReadDib (le32 40 ++ le32 1 ++ le32 1 ++ le16 1 ++ le16 24 ++ replicate 24 0 ++ [10; 20; 30; 0]) = Some img /\
    Zlen (img_pixels img) = img_width img * img_height img * 4.
Proof.
  eexists. split; [vm_compute; reflexivity|].
  exact (proj2 (proj2 (dib_reads_in_bounds
    (le32 40 ++ le32 1 ++ le32 1 ++ le16 1 ++ le16 24 ++ replicate 24 0 ++ [10; 20; 30; 0]) _ eq_refl))).
Defined.

Lemma hdrop_paths_from_path cur p rest :
  Forall (fun c => c <> 0) p -> cur ++ p <> [] ->
  hdrop_paths_from cur (p ++ 0 :: rest) = (cur ++ p) :: hdrop_paths_from [] rest.
Proof.
  intros Hp. revert cur. induction Hp as [|c p Hc _ IH]; intros cur Hne; simpl.
  - rewrite app_nil_r in *. by destruct cur.
  - replace (c =? 0) with false by (symmetry; by apply Z.eqb_neq).
    rewrite IH by (by destruct cur). by rewrite <- app_assoc.
Qed.

(** File lists and text survive the clipboard: a CF_HDROP payload built from
    non-empty NUL-free paths lists exactly those paths in order, and text is
    read back up to its first NUL without running past the terminator. *)
Theorem hdrop_and_text_roundtrip paths text :
  (paths <> [] -> Forall (fun p => p <> [] /\ Forall (fun c => c <> 0) p) paths ->
   exists units, BuildCfHdropPayload paths = Some units /\ hdrop_paths units = paths) /\
  read_text_units (text_units text) = Some (c_str text) /\
  (Forall (fun c => c <> 0) text -> read_text_units (text_units text) = Some text).
Proof.
  split_and!.
  - intros Hne Hp. destruct paths as [|p0 ps] eqn:E; [done|]. rewrite <- E in *.
    exists (concat (map (fun p => p ++ [0]) paths) ++ [0]). split; [by rewrite E|].
    unfold hdrop_paths. clear -Hp. induction Hp as [|p ps [Hne Hp] _ IH]; [done|].
    simpl. rewrite <- !app_assoc. simpl. rewrite hdrop_paths_from_path by done. by rewrite IH.
  - apply wide_from_array_c_str.
  - apply wide_from_array_app.
Qed.
