(* ===== verification/VirtualFile.v ===== *)
(** * VirtualFile: the virtual-file data object and its streams

    [windows/src/virtual_file_provider.cpp]: [VirtualFileEnum],
    [VirtualFileStream] and [VirtualClipboardDataObject].  Their reference
    counts are in [ComObjects]; a method's result is its HRESULT with what it
    stores through its out parameters.  [Read] is split where it calls the
    chunk provider, because that call pumps messages and can re-enter the
    stream. *)

From S2P Require Import Prelude HelperProto ProtoWire Win32 WinCodec ChunkProvider ClipboardFormat.

(** ** The provider interface *)

(** [ChunkProvider::FetchChunk] as its clients see it; the first argument counts
    the calls, since two calls with the same arguments may answer
    differently. *)
Class ChunkSource := {
  FetchChunk : nat -> list Z -> list Z -> Z -> Z -> FetchResult
}.

(** What a client may rely on when the bytes behind a file are [content]: a
    fetch fails or returns bytes of the file at the offset asked for (fewer than
    asked are allowed). *)
Class HonestSource `{ChunkSource} (tid fid : list Z) (content : list Z) := {
  fetch_bytes : forall n off size,
    0 <= off ->
    let r := FetchChunk n tid fid off size in
    FAILED (fr_hr r) = true \/
    (fr_hr r = S_OK /\ exists k, fr_data r = take k (drop (Z.to_nat off) content))
}.

(** ** VirtualFileStream *)

Record VirtualFileStream := {
  vs_transfer_id : list Z;
  vs_file_id : list Z;
  vs_display_name : list Z;
  vs_size : Z;
  vs_pos : Z;
  vs_reading : bool
}.

Definition new_stream (transfer_id : list Z) (spec : VirtualFileSpec) : VirtualFileStream :=
  {| vs_transfer_id := transfer_id; vs_file_id := vfs_file_id spec; vs_display_name := vfs_name spec;
     vs_size := vfs_size spec; vs_pos := 0; vs_reading := false |}.

Definition with_pos (st : VirtualFileStream) (pos : Z) : VirtualFileStream :=
  {| vs_transfer_id := vs_transfer_id st; vs_file_id := vs_file_id st; vs_display_name := vs_display_name st;
     vs_size := vs_size st; vs_pos := pos; vs_reading := vs_reading st |}.
Definition with_reading (st : VirtualFileStream) (b : bool) : VirtualFileStream :=
  {| vs_transfer_id := vs_transfer_id st; vs_file_id := vs_file_id st; vs_display_name := vs_display_name st;
     vs_size := vs_size st; vs_pos := vs_pos st; vs_reading := b |}.

Definition STG_E_INSUFFICIENTMEMORY : Z := 0x80030008.
Definition STG_E_SEEKERROR : Z := 0x80030019.
Definition STG_E_INUSE : Z := 0x80030100.

(** The result code, the bytes copied to [pv], and the count stored through a
    non-null [pcbRead] ([None]: left alone). *)
Record ReadResult := {
  rd_hr : Z;
  rd_bytes : list Z;
  rd_count : option Z
}.

(** [Read] up to [FetchChunk]: either it returns, or it has set [reading_] and
    asks for [want] bytes at the current position. *)
Inductive ReadBegin :=
| RbReturn (r : ReadResult)
| RbFetch (st : VirtualFileStream) (want : Z).

Definition read_begin (pv_null : bool) (cb : Z) (st : VirtualFileStream) : ReadBegin :=
  if pv_null then RbReturn (Build_ReadResult STG_E_INVALIDPOINTER [] None)
  else if cb =? 0 then RbReturn (Build_ReadResult S_OK [] (Some 0))
  else if vs_pos st >=? vs_size st then RbReturn (Build_ReadResult S_FALSE [] (Some 0))
  else
    let remaining := vs_size st - vs_pos st in
    let want := u32 (Z.min remaining cb) in
    if vs_reading st then RbReturn (Build_ReadResult STG_E_INUSE [] (Some 0))
    else RbFetch (with_reading st true) want.

(** The rest of [Read], on the stream as the fetch left it. *)
Definition read_finish (want : Z) (res : FetchResult) (st : VirtualFileStream) : VirtualFileStream * ReadResult :=
  let st := with_reading st false in
  if FAILED (fr_hr res) then (st, Build_ReadResult (fr_hr res) [] (Some 0))
  else
    let got := u32 (Z.min (Zlen (fr_data res)) want) in
    if (got =? 0) && (want >? 0) then (st, Build_ReadResult E_FAIL [] (Some 0))
    else
      let st := if got >? 0 then with_pos st (u64 (vs_pos st + got)) else st in
      (st, Build_ReadResult (if vs_pos st >=? vs_size st then S_FALSE else S_OK)
                            (take (Z.to_nat got) (fr_data res)) (Some got)).

Section Stream.
Context `{ChunkSource}.

(** A [Read] during which nothing else touches the stream. *)
Definition Read (n : nat) (pv_null : bool) (cb : Z) (st : VirtualFileStream) : VirtualFileStream * ReadResult :=
  match read_begin pv_null cb st with
  | RbReturn r => (st, r)
  | RbFetch st' want =>
      read_finish want (FetchChunk n (vs_transfer_id st') (vs_file_id st') (vs_pos st') want) st'
  end.
End Stream.

(** [Write] and [SetSize] refuse; the count through a non-null [pcbWritten] is
    zero. *)
Definition Write : Z * Z := (STG_E_ACCESSDENIED, 0).
Definition SetSize : Z := STG_E_ACCESSDENIED.

(** A read-only stream has nothing to commit or lock. *)
Definition Commit (grfCommitFlags : Z) : Z := S_OK.
Definition Revert : Z := E_NOTIMPL.
Definition LockRegion (libOffset cb dwLockType : Z) : Z := STG_E_INVALIDFUNCTION.
Definition UnlockRegion (libOffset cb dwLockType : Z) : Z := STG_E_INVALIDFUNCTION.

Definition STREAM_SEEK_SET : Z := 0.
Definition STREAM_SEEK_CUR : Z := 1.
Definition STREAM_SEEK_END : Z := 2.

(** [Seek]: the stream and the result code ([plibNewPosition] receives the new
    position on success). *)
Definition Seek (delta dwOrigin : Z) (st : VirtualFileStream) : VirtualFileStream * Z :=
  let base := if dwOrigin =? STREAM_SEEK_SET then Some 0
              else if dwOrigin =? STREAM_SEEK_CUR then Some (vs_pos st)
              else if dwOrigin =? STREAM_SEEK_END then Some (vs_size st)
              else None in
  match base with
  | None => (st, STG_E_INVALIDFUNCTION)
  | Some base =>
      let target :=
        if delta >=? 0 then
          let d := u64 delta in
          if d >? (2 ^ 64 - 1) - base then None else Some (base + d)
        else
          let mag := u64 (u64 (- (delta + 1)) + 1) in
          if mag >? base then None else Some (base - mag) in
      match target with
      | None => (st, STG_E_SEEKERROR)
      | Some target_u =>
          if target_u >? 2 ^ 63 - 1 then (st, STG_E_SEEKERROR)
          else (with_pos st target_u, S_OK)
      end
  end.

(** [CopyTo] into a sink: [sink_write i buf] is what the [i]-th
    [pstm->Write] returns (its result code and count). *)
Definition kCopyChunk : Z := 256 * 1024.

(** The local variables of the loop, with the buffers handed to the sink. *)
Record CopyState := {
  cp_stream : VirtualFileStream;
  cp_written_bufs : list (list Z);
  cp_total_read : Z;
  cp_total_written : Z;
  cp_remaining : Z
}.

(** The result code; [*pcbRead] and [*pcbWritten] are only stored on success. *)
Inductive CopyResult :=
| CopyReturn (hr : Z) (s : CopyState)
| CopyOutOfFuel.

Section Copy.
Context `{ChunkSource} (sink_write : nat -> list Z -> Z * Z).

Fixpoint copy_loop (fuel n : nat) (s : CopyState) : CopyResult :=
  match fuel with
  | O => CopyOutOfFuel
  | S fuel' =>
      if cp_remaining s >? 0 then
        let take_n := u32 (Z.min (cp_remaining s) kCopyChunk) in
        let '(st, r) := Read n false take_n (cp_stream s) in
        let got := default 0 (rd_count r) in
        let s1 := {| cp_stream := st; cp_written_bufs := cp_written_bufs s;
                     cp_total_read := cp_total_read s; cp_total_written := cp_total_written s;
                     cp_remaining := cp_remaining s |} in
        if FAILED (rd_hr r) then CopyReturn (rd_hr r) s1
        else if got =? 0 then CopyReturn S_OK s1
        else
          let '(hrw, written) := sink_write n (rd_bytes r) in
          let s2 := {| cp_stream := st; cp_written_bufs := cp_written_bufs s ++ [rd_bytes r];
                       cp_total_read := u64 (cp_total_read s + got);
                       cp_total_written := cp_total_written s; cp_remaining := cp_remaining s |} in
          if FAILED hrw then CopyReturn hrw s2
          else copy_loop fuel' (S n)
                 {| cp_stream := st; cp_written_bufs := cp_written_bufs s2;
                    cp_total_read := cp_total_read s2;
                    cp_total_written := u64 (cp_total_written s + written);
                    cp_remaining := cp_remaining s - got |}
      else CopyReturn S_OK s
  end.

(** One round per byte left in the stream, and one to see the end. *)
Definition copy_fuel (st : VirtualFileStream) : nat := S (S (Z.to_nat (vs_size st - vs_pos st))).

Definition CopyTo (pstm_null : bool) (cb : Z) (st : VirtualFileStream) : CopyResult :=
  let s := {| cp_stream := st; cp_written_bufs := []; cp_total_read := 0; cp_total_written := 0;
              cp_remaining := cb |} in
  if pstm_null then CopyReturn STG_E_INVALIDPOINTER s else copy_loop (copy_fuel st) 0 s.
End Copy.

(** [Stat]: the size and, unless STATFLAG_NONAME (1) is set, the name. *)
Definition Stat (pstatstg_null alloc_ok : bool) (grfStatFlag : Z) (st : VirtualFileStream)
  : Z * option (Z * option (list Z)) :=
  if pstatstg_null then (STG_E_INVALIDPOINTER, None)
  else if Z.land grfStatFlag 1 =? 0 then
    if alloc_ok then (S_OK, Some (vs_size st, Some (vs_display_name st ++ [0])))
    else (STG_E_INSUFFICIENTMEMORY, Some (vs_size st, None))
  else (S_OK, Some (vs_size st, None)).

(** [Clone]: a new stream at the same position, not reading. *)
Definition Clone (ppstm_null alloc_ok : bool) (st : VirtualFileStream) : Z * option VirtualFileStream :=
  if ppstm_null then (E_POINTER, None)
  else if alloc_ok then (S_OK, Some (with_reading st false))
  else (E_OUTOFMEMORY, None).

(** ** VirtualFileEnum *)

Record FORMATETC := {
  fe_cfFormat : Z;
  fe_lindex : Z;
  fe_tymed : Z
}.

Record VirtualFileEnum := {
  ve_formats : list FORMATETC;
  ve_pos : Z
}.

(** [Next]: the fetched formats; the count is stored when [pceltFetched] is
    given. *)
Definition Next (celt : Z) (rgelt_null fetched_null : bool) (e : VirtualFileEnum)
  : VirtualFileEnum * Z * list FORMATETC :=
  if rgelt_null then (e, E_POINTER, [])
  else if fetched_null && negb (celt =? 1) then (e, E_INVALIDARG, [])
  else
    let out := take (Z.to_nat celt) (drop (Z.to_nat (ve_pos e)) (ve_formats e)) in
    let fetched := Zlen out in
    ({| ve_formats := ve_formats e; ve_pos := ve_pos e + fetched |},
     (if fetched =? celt then S_OK else S_FALSE), out).

Definition Skip (celt : Z) (e : VirtualFileEnum) : VirtualFileEnum * Z :=
  let remaining := u32 (u32 (Zlen (ve_formats e)) - ve_pos e) in
  if celt >? remaining then ({| ve_formats := ve_formats e; ve_pos := u32 (Zlen (ve_formats e)) |}, S_FALSE)
  else ({| ve_formats := ve_formats e; ve_pos := ve_pos e + celt |}, S_OK).

Definition Reset_enum (e : VirtualFileEnum) : VirtualFileEnum :=
  {| ve_formats := ve_formats e; ve_pos := 0 |}.

Definition Clone_enum (ppenum_null alloc_ok : bool) (e : VirtualFileEnum) : Z * option VirtualFileEnum :=
  if ppenum_null then (E_POINTER, None) else if alloc_ok then (S_OK, Some e) else (E_OUTOFMEMORY, None).

(** ** VirtualClipboardDataObject *)

(** Values [RegisterClipboardFormatW] returned for the names of the source; the
    registration gives distinct names distinct 16-bit values. *)
Record ClipFormats := {
  cf_descriptor : Z;
  cf_contents : Z;
  cf_drop_effect : Z;
  cf_file_attrs : Z;
  cf_performed : Z;
  cf_paste_ok : Z;
  cf_logical : Z
}.
Record registered (c : ClipFormats) : Prop := {
  reg_nodup : NoDup [cf_descriptor c; cf_contents c; cf_drop_effect c; cf_file_attrs c];
  reg_u16 : Forall is_u16 [cf_descriptor c; cf_contents c; cf_drop_effect c; cf_file_attrs c]
}.

Record VirtualClipboardDataObject := {
  do_specs : list VirtualFileSpec;
  do_transfer_id : list Z
}.

Definition TYMED_HGLOBAL : Z := 1.
Definition TYMED_ISTREAM : Z := 4.
Definition DROPEFFECT_COPY : Z := 1.

(** The medium [GetData] fills: a global block (here its contents) or a
    stream. *)
Inductive Medium :=
| MedDescriptor (fg : FILEGROUPDESCRIPTORW)
| MedAttributes (count or_attrs and_attrs : Z) (items : list Z)
| MedDropEffect (v : Z)
| MedStream (st : VirtualFileStream).

(** [or_attrs] and [and_attrs] over the entries. *)
Definition or_attributes (specs : list VirtualFileSpec) : Z :=
  foldl (fun acc s => Z.lor acc (attributes_of s)) 0 specs.
Definition and_attributes (specs : list VirtualFileSpec) : Z :=
  foldl (fun acc s => Z.land acc (attributes_of s)) 0xFFFFFFFF specs.

(** [BuildFileGroupDescriptor]: the checked payload in a global block;
    [alloc_ok] answers [GlobalAlloc] and [GlobalLock]. *)
Definition BuildFileGroupDescriptor (now : Z -> Z) (alloc_ok : bool) (specs : list VirtualFileSpec)
  : option FILEGROUPDESCRIPTORW :=
  if Zlen specs >? kMaxVirtualFileSpecs then None
  else match BuildFileGroupDescriptorPayload now specs with
       | None => None
       | Some p => if alloc_ok then Some p else None
       end.

Definition has_tymed (fe : FORMATETC) (t : Z) : bool := negb (Z.land (fe_tymed fe) t =? 0).

Section DataObject.
Context (c : ClipFormats).

Definition GetData (now : Z -> Z) (alloc_ok : bool) (fe : option FORMATETC) (sm_null : bool)
    (o : VirtualClipboardDataObject) : Z * option Medium :=
  match fe, sm_null with
  | None, _ | _, true => (DV_E_FORMATETC, None)
  | Some fe, false =>
      let fmt := fe_cfFormat fe in
      if fmt =? cf_descriptor c then
        if negb (has_tymed fe TYMED_HGLOBAL) then (DV_E_TYMED, None)
        else match BuildFileGroupDescriptor now alloc_ok (do_specs o) with
             | None => (E_OUTOFMEMORY, None)
             | Some fg => (S_OK, Some (MedDescriptor fg))
             end
      else if fmt =? cf_file_attrs c then
        if negb (has_tymed fe TYMED_HGLOBAL) then (DV_E_TYMED, None)
        else if negb alloc_ok then (E_OUTOFMEMORY, None)
        else (S_OK, Some (MedAttributes (u32 (Zlen (do_specs o))) (or_attributes (do_specs o))
                            (and_attributes (do_specs o)) (map attributes_of (do_specs o))))
      else if fmt =? cf_drop_effect c then
        if negb (has_tymed fe TYMED_HGLOBAL) then (DV_E_TYMED, None)
        else if negb alloc_ok then (E_OUTOFMEMORY, None)
        else (S_OK, Some (MedDropEffect DROPEFFECT_COPY))
      else if fmt =? cf_contents c then
        if negb (has_tymed fe TYMED_ISTREAM) then (DV_E_TYMED, None)
        else
          let idx := fe_lindex fe in
          if (idx <? 0) || (idx >=? Zlen (do_specs o)) then (DV_E_LINDEX, None)
          else match do_specs o !! Z.to_nat idx with
               | None => (DV_E_LINDEX, None)
               | Some spec =>
                   if alloc_ok then (S_OK, Some (MedStream (new_stream (do_transfer_id o) spec)))
                   else (E_OUTOFMEMORY, None)
               end
      else (DV_E_FORMATETC, None)
  end.

Definition GetDataHere : Z := E_NOTIMPL.

Definition QueryGetData (fe : option FORMATETC) : Z :=
  match fe with
  | None => DV_E_FORMATETC
  | Some fe =>
      let fmt := fe_cfFormat fe in
      if (fmt =? cf_descriptor c) && has_tymed fe TYMED_HGLOBAL then S_OK
      else if (fmt =? cf_contents c) && has_tymed fe TYMED_ISTREAM then S_OK
      else if (fmt =? cf_drop_effect c) && has_tymed fe TYMED_HGLOBAL then S_OK
      else DV_E_FORMATETC
  end.

Definition GetCanonicalFormatEtc (out_null : bool) : Z :=
  if out_null then E_POINTER else DATA_S_SAMEFORMATETC.

(** [SetData] accepts the shell's three post-paste notifications; the second
    component says whether it releases the medium. *)
Definition SetData (fe : option FORMATETC) (sm_null release : bool) : Z * bool :=
  let fmt := match fe with Some fe => fe_cfFormat fe | None => 0 end in
  if (fmt =? cf_performed c) || (fmt =? cf_paste_ok c) || (fmt =? cf_logical c)
  then (S_OK, release && negb sm_null)
  else (E_NOTIMPL, false).

Definition DATADIR_GET : Z := 1.

(** [static_cast<CLIPFORMAT>] keeps 16 bits. *)
Definition file_formats (i n : nat) : list FORMATETC :=
  map (fun k => {| fe_cfFormat := u16 (cf_contents c); fe_lindex := i32 (Z.of_nat k); fe_tymed := TYMED_ISTREAM |})
      (seq i n).

Definition EnumFormatEtc (ppEnum_null alloc_ok : bool) (dwDirection : Z) (o : VirtualClipboardDataObject)
  : Z * option VirtualFileEnum :=
  if ppEnum_null then (E_POINTER, None)
  else if negb (dwDirection =? DATADIR_GET) then (E_NOTIMPL, None)
  else
    let formats :=
      {| fe_cfFormat := u16 (cf_drop_effect c); fe_lindex := -1; fe_tymed := TYMED_HGLOBAL |} ::
      {| fe_cfFormat := u16 (cf_descriptor c); fe_lindex := -1; fe_tymed := TYMED_HGLOBAL |} ::
      {| fe_cfFormat := u16 (cf_contents c); fe_lindex := -1; fe_tymed := TYMED_ISTREAM |} ::
      file_formats 0 (length (do_specs o)) in
    if alloc_ok then (S_OK, Some {| ve_formats := formats; ve_pos := 0 |}) else (E_OUTOFMEMORY, None).
End DataObject.

(** Nobody is told about changes of the object. *)
Definition OLE_E_ADVISENOTSUPPORTED : Z := 0x80040003.
Definition DAdvise : Z := OLE_E_ADVISENOTSUPPORTED.
Definition DUnadvise (connection : Z) : Z := OLE_E_ADVISENOTSUPPORTED.
Definition EnumDAdvise : Z := OLE_E_ADVISENOTSUPPORTED.

Definition CreateVirtualClipboardDataObject (specs : list VirtualFileSpec) (transfer_id : list Z)
    (provider_null out_null alloc_ok : bool) : Z * option VirtualClipboardDataObject :=
  if out_null then (E_POINTER, None)
  else if provider_null then (E_INVALIDARG, None)
  else match specs with
       | [] => (E_INVALIDARG, None)
       | _ => if alloc_ok then (S_OK, Some {| do_specs := specs; do_transfer_id := transfer_id |})
              else (E_OUTOFMEMORY, None)
       end.

(** ** Reading *)

(** The invariant of a stream: a position and a size that fit. *)
Record stream_ok (st : VirtualFileStream) : Prop := {
  so_size : is_u64 (vs_size st);
  so_pos : is_u64 (vs_pos st)
}.

Lemma stream_ok_reading st b : stream_ok st -> stream_ok (with_reading st b).
Proof. by intros []. Qed.

(** How much [Read] asks for. *)
Lemma read_want st cb :
  stream_ok st -> is_u32 cb -> cb <> 0 -> vs_pos st < vs_size st ->
  u32 (Z.min (vs_size st - vs_pos st) cb) = Z.min (vs_size st - vs_pos st) cb /\
  0 < Z.min (vs_size st - vs_pos st) cb <= vs_size st - vs_pos st.
Proof. intros [[] []] [] Hcb Hlt. split; [apply u32_small; unfold is_u32; lia|lia]. Qed.

(** One [Read] against an honest source either fails without moving, or is at
    the end, or copies a non-empty run of the file's bytes at the position and
    advances past it, never beyond the declared size. *)
Inductive read_outcome (content : list Z) (st st' : VirtualFileStream) (r : ReadResult) : Prop :=
| ro_failed (H : FAILED (rd_hr r) = true) (Hp : vs_pos st' = vs_pos st) (Hb : rd_bytes r = [])
            (Hc : default 0 (rd_count r) = 0)
| ro_end (H : rd_hr r = S_FALSE) (Hp : vs_pos st' = vs_pos st) (He : vs_size st <= vs_pos st)
         (Hb : rd_bytes r = []) (Hc : rd_count r = Some 0)
| ro_bytes (got : Z) (Hg : 0 < got <= vs_size st - vs_pos st)
           (Hp : vs_pos st' = vs_pos st + got)
           (Hh : rd_hr r = if vs_pos st + got >=? vs_size st then S_FALSE else S_OK)
           (Hb : rd_bytes r = take (Z.to_nat got) (drop (Z.to_nat (vs_pos st)) content))
           (Hl : Zlen (rd_bytes r) = got) (Hc : rd_count r = Some got).

Lemma Read_outcome `{HonestSource tid fid content} n cb st st' r :
  stream_ok st -> vs_transfer_id st = tid -> vs_file_id st = fid -> is_u32 cb -> cb <> 0 ->
  Read n false cb st = (st', r) ->
  read_outcome content st st' r /\ stream_ok st' /\
  vs_transfer_id st' = tid /\ vs_file_id st' = fid /\ vs_size st' = vs_size st /\
  (forall got, rd_count r = Some got -> got <= cb).
Proof.
  intros Hok <- <- Hcb Hcb0 HR. unfold Read, read_begin in HR.
  replace (cb =? 0) with false in HR by (symmetry; by apply Z.eqb_neq).
  rewrite Z.geb_leb in HR. destruct (vs_size st <=? vs_pos st) eqn:Eend; zbool.
  { simplify_eq. split_and!; try done; [by apply ro_end|]. intros got [= <-]. by destruct Hcb. }
  destruct (vs_reading st).
  { simplify_eq. split_and!; try done; [by apply ro_failed|]. intros got [= <-]. by destruct Hcb. }
  destruct (read_want st cb) as [Hw Hwr]; [done..|]. rewrite Hw in HR.
  set (want := Z.min (vs_size st - vs_pos st) cb) in *.
  pose proof (fetch_bytes n (vs_pos st) want (proj1 (so_pos _ Hok))) as Hf. cbv zeta in Hf.
  simpl in HR. destruct (FetchChunk n _ _ (vs_pos st) want) as [hr data last] eqn:EF. simpl in Hf.
  unfold read_finish in HR. simpl in HR.
  destruct (FAILED hr) eqn:Efail.
  { simplify_eq. split_and!; try done; [by apply ro_failed|by repeat apply stream_ok_reading|].
    intros got [= <-]. by destruct Hcb. }
  destruct Hf as [?|[-> [k Hk]]]; [done|].
  pose proof (Zlen_nonneg data) as Hd.
  assert (Hgot : u32 (Z.min (Zlen data) want) = Z.min (Zlen data) want).
  { apply u32_small. destruct Hcb. unfold is_u32, want in *. lia. }
  rewrite Hgot in HR. rewrite Z.gtb_ltb in HR. replace (0 <? want) with true in HR by lia.
  rewrite andb_true_r in HR. set (got := Z.min (Zlen data) want) in *.
  destruct (got =? 0) eqn:Eg; zbool.
  { simplify_eq. split_and!; try done; [by apply ro_failed|by repeat apply stream_ok_reading|].
    intros g [= <-]. by destruct Hcb. }
  rewrite Z.gtb_ltb in HR. replace (0 <? got) with true in HR by lia. simpl in HR.
  destruct Hok as [[Hs0 Hs1] [Hp0 Hp1]].
  assert (Hp' : u64 (vs_pos st + got) = vs_pos st + got) by (apply u64_small; unfold is_u64; lia).
  rewrite Hp' in HR. injection HR as <- <-. split_and!; simpl; try done.
  - apply ro_bytes with got; simpl; try done; try lia.
    + assert (Hgk : (Z.to_nat got <= k)%nat).
      { pose proof (f_equal length Hk) as Hlk. rewrite length_take in Hlk. unfold got, Zlen. lia. }
      rewrite Hk, take_take. f_equal. lia.
    + unfold Zlen at 1. rewrite length_take. unfold got, Zlen. lia.
  - split; simpl; [done|]. unfold is_u64. lia.
  - intros g [= <-]. unfold want in *. lia.
Qed.

(** What [CopyTo] has put in the sink. *)
Definition copied (s : CopyState) : list Z := concat (cp_written_bufs s).

(** What is left to copy. *)
Definition copy_left (s : CopyState) : Z := Z.min (cp_remaining s) (Z.max 0 (vs_size (cp_stream s) - vs_pos (cp_stream s))).

(** From [s] the loop has copied [bytes] of the file and returned [hr]. *)
Definition copies (content : list Z) (s : CopyState) (hr : Z) (s' : CopyState) (bytes : list Z) : Prop :=
  copied s' = copied s ++ bytes /\
  bytes = take (length bytes) (drop (Z.to_nat (vs_pos (cp_stream s))) content) /\
  Zlen bytes <= copy_left s /\
  cp_total_read s' = cp_total_read s + Zlen bytes /\
  (FAILED hr = false -> hr = S_OK /\ Zlen bytes = copy_left s).

Lemma copies_nothing content s hr s' :
  copied s' = copied s -> cp_total_read s' = cp_total_read s -> 0 <= cp_remaining s ->
  (FAILED hr = false -> hr = S_OK /\ copy_left s = 0) -> copies content s hr s' [].
Proof.
  intros E1 E2 Hr Hd. unfold copies, copy_left in *. rewrite (Zlen_nil (A:=Z)), app_nil_r.
  split_and!; try done; [lia|lia|]. intros Hn. by destruct (Hd Hn).
Qed.

(** One round and the rest of the loop. *)
Lemma copies_round content s s2 hr s' chunk bytes :
  stream_ok (cp_stream s) ->
  chunk = take (length chunk) (drop (Z.to_nat (vs_pos (cp_stream s))) content) ->
  copied s2 = copied s ++ chunk -> cp_total_read s2 = cp_total_read s + Zlen chunk ->
  vs_pos (cp_stream s2) = vs_pos (cp_stream s) + Zlen chunk -> copy_left s2 = copy_left s - Zlen chunk ->
  copies content s2 hr s' bytes -> copies content s hr s' (chunk ++ bytes).
Proof.
  intros Hok Hc E1 E2 E3 E4 (Hcop & Hby & Hle & Ht & Hd).
  assert (Hz : Zlen (chunk ++ bytes) = Zlen chunk + Zlen bytes) by (rewrite Zlen_app; lia).
  unfold copies. rewrite Hz. split_and!.
  - by rewrite Hcop, E1, <- app_assoc.
  - rewrite length_app, Hc at 1. rewrite <- take_take_drop, drop_drop. f_equal.
    rewrite Hby at 1. rewrite E3. f_equal. f_equal. destruct (so_pos _ Hok). unfold Zlen. lia.
  - lia.
  - lia.
  - intros Hn. destruct (Hd Hn) as [-> ?]. split; [done|lia].
Qed.

Lemma copy_loop_exact `{HonestSource tid fid content} sink fuel n s :
  stream_ok (cp_stream s) -> vs_transfer_id (cp_stream s) = tid -> vs_file_id (cp_stream s) = fid ->
  0 <= cp_remaining s -> 0 <= cp_total_read s -> cp_total_read s + cp_remaining s < 2 ^ 64 ->
  (Z.to_nat (vs_size (cp_stream s) - vs_pos (cp_stream s)) + 2 <= fuel)%nat ->
  exists hr s' bytes, copy_loop sink fuel n s = CopyReturn hr s' /\ copies content s hr s' bytes.
Proof.
  revert n s. induction fuel as [|fuel IH]; intros n s Hok Ht Hf Hrem Htr Htot Hfuel; [lia|].
  simpl. rewrite Z.gtb_ltb. destruct (0 <? cp_remaining s) eqn:E; zbool.
  2: { exists S_OK, s, []. split; [done|]. apply copies_nothing; try done. split; [done|]. unfold copy_left. lia. }
  set (cb := u32 (Z.min (cp_remaining s) kCopyChunk)).
  assert (Hcb : cb = Z.min (cp_remaining s) kCopyChunk)
    by (apply u32_small; unfold is_u32, kCopyChunk; lia).
  destruct (Read n false cb (cp_stream s)) as [st r] eqn:ER.
  destruct (Read_outcome (content := content) n cb (cp_stream s) st r) as (Hout & Hok' & Ht' & Hf' & Hs' & Hle);
    try done; [unfold is_u32, kCopyChunk in *; lia|unfold kCopyChunk in *; lia|].
  destruct Hout as [HF Hp Hb Hc|HF Hp He Hb Hc|got Hg Hp Hh Hb Hl Hc].
  - rewrite HF. eexists _, _, []. split; [done|]. apply copies_nothing; try done. congruence.
  - rewrite HF. change (FAILED S_FALSE) with false. rewrite Hc. simpl.
    eexists _, _, []. split; [done|]. apply copies_nothing; try done. intros _. split; [done|]. unfold copy_left. lia.
  - assert (HF : FAILED (rd_hr r) = false) by (rewrite Hh; by case_tests). rewrite HF, Hc. simpl.
    specialize (Hle got Hc).
    replace (got =? 0) with false by lia. destruct (sink n (rd_bytes r)) as [hrw written].
    assert (Htr' : u64 (cp_total_read s + got) = cp_total_read s + got) by (apply u64_small; unfold is_u64; lia).
    assert (Hlen : length (rd_bytes r) = Z.to_nat got) by (unfold Zlen in Hl; lia).
    assert (Hby : rd_bytes r = take (length (rd_bytes r)) (drop (Z.to_nat (vs_pos (cp_stream s))) content)) by (by rewrite Hlen).
    destruct (FAILED hrw) eqn:EW.
    + eexists _, _, (rd_bytes r). split; [done|]. unfold copies, copied, copy_left. simpl. rewrite concat_app, Htr', Hl. simpl.
      rewrite app_nil_r. split_and!; try done; [lia|intros; congruence].
    + match goal with |- context [copy_loop sink fuel (S n) ?s2] => set (s2' := s2) end.
      destruct (IH (S n) s2') as (hr & s' & bytes & Hrun & Hcop); try done; try (unfold s2'; simpl; rewrite ?Htr'; lia).
      exists hr, s', (rd_bytes r ++ bytes). split; [exact Hrun|]. eapply copies_round; try done; unfold s2', copied, copy_left; simpl.
      * by rewrite concat_app; simpl; rewrite app_nil_r.
      * by rewrite Htr', Hl.
      * by rewrite Hl.
      * lia.
Qed.

(** A source that serves at most [cap] bytes of [content] per fetch. *)
Definition capped_source (cap : Z) (content : list Z) : ChunkSource :=
  {| FetchChunk := fun _ _ _ off size =>
       {| fr_hr := S_OK; fr_data := take (Z.to_nat (Z.min size cap)) (drop (Z.to_nat off) content);
          fr_is_last := false |} |}.

Lemma capped_source_honest cap content tid fid : @HonestSource (capped_source cap content) tid fid content.
Proof. split. intros n off size _. right. split; [done|]. simpl. by eexists. Qed.

(** Which signed 64-bit moves land where. *)
Lemma seek_target base delta :
  is_u64 base -> - 2 ^ 63 <= delta < 2 ^ 63 ->
  (if delta >=? 0 then
     if u64 delta >? (2 ^ 64 - 1) - base then None else Some (base + u64 delta)
   else
     let mag := u64 (u64 (- (delta + 1)) + 1) in
     if mag >? base then None else Some (base - mag)) =
  if (0 <=? base + delta) && (base + delta <? 2 ^ 64) then Some (base + delta) else None.
Proof.
  intros [Hb0 Hb1] Hd. rewrite Z.geb_leb. destruct (0 <=? delta) eqn:E; zbool.
  - rewrite u64_small by (unfold is_u64; lia). rewrite Z.gtb_ltb.
    replace (0 <=? base + delta) with true by lia. simpl.
    destruct (base + delta <? _) eqn:E2; zbool.
    + by replace (_ <? delta) with false by lia.
    + by replace (_ <? delta) with true by lia.
  - cbv zeta. rewrite !u64_small; unfold is_u64; try lia.
    2: { rewrite u64_small; unfold is_u64; lia. }
    rewrite Z.gtb_ltb. replace (base + delta <? 2 ^ 64) with true by lia. rewrite andb_true_r.
    destruct (0 <=? base + delta) eqn:E2; zbool.
    + replace (base <? _) with false by lia. f_equal. lia.
    + by replace (base <? _) with true by lia.
Qed.

(** Registered formats in the form the tests of the code need. *)
Record format_facts (c : ClipFormats) : Prop := {
  ff_desc : u16 (cf_descriptor c) = cf_descriptor c;
  ff_cont : u16 (cf_contents c) = cf_contents c;
  ff_drop : u16 (cf_drop_effect c) = cf_drop_effect c;
  ff_cd : (cf_contents c =? cf_descriptor c) = false;
  ff_ca : (cf_contents c =? cf_file_attrs c) = false;
  ff_cp : (cf_contents c =? cf_drop_effect c) = false;
  ff_pd : (cf_drop_effect c =? cf_descriptor c) = false;
  ff_pc : (cf_drop_effect c =? cf_contents c) = false;
  ff_pa : (cf_drop_effect c =? cf_file_attrs c) = false;
  ff_ad : (cf_file_attrs c =? cf_descriptor c) = false;
  ff_ac : (cf_file_attrs c =? cf_contents c) = false;
  ff_ap : (cf_file_attrs c =? cf_drop_effect c) = false;
  ff_da : (cf_descriptor c =? cf_file_attrs c) = false
}.

Lemma registered_facts c : registered c -> format_facts c.
Proof.
  intros [Hnd Hu].
  repeat match goal with
         | H : NoDup (_ :: _) |- _ => apply NoDup_cons in H as [? ?]
         | H : Forall _ (_ :: _) |- _ => apply Forall_cons in H as [? ?]
         | H : _ ∉ _ :: _ |- _ => apply not_elem_of_cons in H as [? ?]
         end.
  split; first [by apply Z.mod_small | apply Z.eqb_neq; congruence].
Qed.

(** ** Properties *)

(** C19: No silent truncation: copying a virtual file out of a stream whose source is
    honest always ends, puts only bytes of the file in the sink, in order from
    the stream's position, and succeeds only when every byte asked for up to
    the declared size has been delivered, however short the individual fetches
    were. *)
Theorem copy_is_exact `{HonestSource tid fid content} sink cb st :
  stream_ok st -> vs_transfer_id st = tid -> vs_file_id st = fid -> is_u64 cb ->
  exists hr s',
    CopyTo sink false cb st = CopyReturn hr s' /\
    copied s' = take (length (copied s')) (drop (Z.to_nat (vs_pos st)) content) /\
    cp_total_read s' = Zlen (copied s') /\
    (FAILED hr = false ->
       hr = S_OK /\ Zlen (copied s') = Z.min cb (Z.max 0 (vs_size st - vs_pos st))).
Proof.
  intros Hok Ht Hf [Hcb0 Hcb1].
  destruct (copy_loop_exact (content := content) sink (copy_fuel st) 0
              (Build_CopyState st [] 0 0 cb)) as (hr & s' & bytes & Hrun & Hcop & Hby & _ & Htr & Hdone);
    simpl; try done; try lia; [unfold copy_fuel; lia|].
  exists hr, s'. simpl in Hcop, Hdone, Htr, Hby. rewrite Hcop. split_and!; done.
Qed.

Lemma copy_is_exact_witness :
  let st := {| vs_transfer_id := str "t"; vs_file_id := str "0"; vs_display_name := []; vs_size := 5;
               vs_pos := 1; vs_reading := false |} in
  exists hr s',
    @CopyTo (capped_source 2 [1; 2; 3; 4; 5]) (fun _ b => (S_OK, Zlen b)) false (2 ^ 64 - 1) st = CopyReturn hr s' /\
    copied s' = [2; 3; 4; 5] /\
    cp_total_read s' = Zlen (copied s').
Proof.
  cbv zeta.
  destruct (@copy_is_exact _ _ _ _ (capped_source_honest 2 [1; 2; 3; 4; 5] (str "t") (str "0"))
    (fun _ b => (S_OK, Zlen b)) (2 ^ 64 - 1)
    {| vs_transfer_id := str "t"; vs_file_id := str "0"; vs_display_name := []; vs_size := 5;
       vs_pos := 1; vs_reading := false |}) as (hr & s' & Hrun & _ & Htot & _);
    [split; unfold is_u64; simpl; lia | reflexivity | reflexivity | unfold is_u64; lia |].
  exists hr, s'. split; [exact Hrun|]. split; [|exact Htot].
  vm_compute in Hrun. injection Hrun as _ <-. reflexivity.
Defined.

(** Seeking is exact 64-bit arithmetic: with a signed move the new position is
    origin plus move when that lies in [0, 2^63), and otherwise the stream is
    left where it was with STG_E_SEEKERROR; no sum or negation wraps, including
    for the smallest signed move. *)
Theorem seek_exact st origin delta :
  stream_ok st -> 0 <= origin <= 2 -> - 2 ^ 63 <= delta < 2 ^ 63 ->
  let base := if origin =? STREAM_SEEK_SET then 0
              else if origin =? STREAM_SEEK_CUR then vs_pos st else vs_size st in
  Seek delta origin st =
    if (0 <=? base + delta) && (base + delta <? 2 ^ 63) then (with_pos st (base + delta), S_OK)
    else (st, STG_E_SEEKERROR).
Proof.
  intros [Hs Hp] Ho Hd base.
  assert (Hb : is_u64 base) by (unfold base; case_tests; unfold is_u64 in *; lia).
  assert (Hsel : (if origin =? STREAM_SEEK_SET then Some 0
                  else if origin =? STREAM_SEEK_CUR then Some (vs_pos st)
                  else if origin =? STREAM_SEEK_END then Some (vs_size st) else None) = Some base).
  { unfold base, STREAM_SEEK_SET, STREAM_SEEK_CUR, STREAM_SEEK_END. case_tests; zbool; try done. lia. }
  unfold Seek. cbv zeta. rewrite Hsel. pose proof (seek_target base delta Hb Hd) as Ht. cbv zeta in Ht.
  rewrite Ht. destruct (0 <=? base + delta) eqn:E1; simpl; [|done].
  destruct (base + delta <? 2 ^ 64) eqn:E2; simpl.
  - rewrite Z.gtb_ltb. destruct (base + delta <? 2 ^ 63) eqn:E3; zbool.
    + by replace (2 ^ 63 - 1 <? base + delta) with false by lia.
    + by replace (2 ^ 63 - 1 <? base + delta) with true by lia.
  - zbool. by replace (base + delta <? 2 ^ 63) with false by lia.
Qed.

Lemma seek_exact_witness :
  let st := {| vs_transfer_id := []; vs_file_id := []; vs_display_name := []; vs_size := 2 ^ 64 - 1;
               vs_pos := 7; vs_reading := false |} in
  Seek (- 2 ^ 63) 2 st = (with_pos st (2 ^ 63 - 1), S_OK) /\ Seek (- 8) 1 st = (st, STG_E_SEEKERROR).
Proof.
  cbv zeta. split; (etransitivity; [apply seek_exact; [split; unfold is_u64; simpl; lia | lia | lia]|reflexivity]).
Defined.

(** A [Read] that re-enters the same stream while a fetch pumps messages is
    refused with STG_E_INUSE (or ends at end of file) and touches nothing, so
    the outer [Read] finishes from the position it started at; once it has
    finished, the stream accepts reads again. *)
Theorem reentrant_read_refused `{ChunkSource} cb st st1 want n pv_null cb2 st2 r2 res :
  read_begin false cb st = RbFetch st1 want ->
  pv_null = false -> cb2 <> 0 ->
  Read n pv_null cb2 st1 = (st2, r2) ->
  st2 = st1 /\ rd_hr r2 = STG_E_INUSE /\ rd_bytes r2 = [] /\
  vs_reading (fst (read_finish want res st2)) = false /\
  read_finish want res st2 = read_finish want res st1.
Proof.
  intros Hb -> Hc HR. unfold read_begin in Hb.
  destruct (cb =? 0); [done|]. destruct (vs_pos st >=? vs_size st) eqn:E; [done|].
  destruct (vs_reading st); [done|]. simplify_eq.
  unfold Read, read_begin in HR. replace (cb2 =? 0) with false in HR by lia. simpl in HR.
  rewrite E in HR. simplify_eq. split_and!; try done.
  unfold read_finish. case_tests; done.
Qed.

Lemma reentrant_read_refused_witness :
  let st := {| vs_transfer_id := str "t"; vs_file_id := str "0"; vs_display_name := []; vs_size := 5;
               vs_pos := 1; vs_reading := false |} in
  exists st1 want st2 r2,
    read_begin false 3 st = RbFetch st1 want /\
    @Read (capped_source 2 [1; 2; 3; 4; 5]) 1 false 9 st1 = (st2, r2) /\
    rd_hr r2 = STG_E_INUSE.
Proof.
  cbv zeta. do 4 eexists. split; [reflexivity|]. split; [reflexivity|].
  exact (proj1 (proj2 (@reentrant_read_refused (capped_source 2 [1; 2; 3; 4; 5]) 3
    {| vs_transfer_id := str "t"; vs_file_id := str "0"; vs_display_name := []; vs_size := 5;
       vs_pos := 1; vs_reading := false |} _ _ 1%nat false 9 _ _
    (fetch_error E_FAIL) eq_refl eq_refl ltac:(discriminate) eq_refl))).
Defined.

(** The data object serves what it advertises: every format it enumerates
    answers QueryGetData with S_OK; the descriptor and the drop effect are then
    delivered, and the format enumerated for the i-th file yields a stream at
    position 0 with that file's id and size under the announcement's transfer
    id, while an index out of range is refused. *)
Theorem advertised_formats_served c now o en :
  registered c -> do_specs o <> [] -> Zlen (do_specs o) <= kMaxVirtualFileSpecs ->
  EnumFormatEtc c false true DATADIR_GET o = (S_OK, Some en) ->
  Forall (fun fe => QueryGetData c (Some fe) = S_OK) (ve_formats en) /\
  (forall fe, fe ∈ ve_formats en -> fe_cfFormat fe <> cf_contents c ->
     exists m, GetData c now true (Some fe) false o = (S_OK, Some m)) /\
  (forall i spec, do_specs o !! i = Some spec ->
     exists fe, ve_formats en !! (3 + i)%nat = Some fe /\
       GetData c now true (Some fe) false o = (S_OK, Some (MedStream (new_stream (do_transfer_id o) spec)))) /\
  (forall fe, fe_cfFormat fe = cf_contents c -> has_tymed fe TYMED_ISTREAM = true ->
     (fe_lindex fe < 0 \/ Zlen (do_specs o) <= fe_lindex fe) ->
     GetData c now true (Some fe) false o = (DV_E_LINDEX, None)).
Proof.
  intros [Hd Hc Hp Hcd Hca Hcp Hpd Hpc Hpa Had Hac Hap Hda]%registered_facts Hne Hcap He.
  unfold EnumFormatEtc in He. simpl in He. injection He as <-. simpl.
  split_and!.
  - rewrite Hd, Hc, Hp. repeat apply Forall_cons_2; unfold QueryGetData; simpl;
      rewrite ?Z.eqb_refl, ?Hcd, ?Hpd, ?Hpc; simpl; try done.
    unfold file_formats. apply Forall_map, Forall_true. intros k. simpl.
    by rewrite Hc, Hcd, Z.eqb_refl.
  - intros fe Hin Hfe. rewrite Hd, Hc, Hp in Hin.
    apply elem_of_cons in Hin as [->|Hin]; [unfold GetData; simpl; rewrite Hpd, Hpa, Z.eqb_refl; simpl; eauto|].
    apply elem_of_cons in Hin as [->|Hin].
    { unfold GetData. simpl. rewrite Z.eqb_refl. simpl. unfold BuildFileGroupDescriptor. rewrite Z.gtb_ltb.
      replace (_ <? Zlen (do_specs o)) with false by lia. unfold BuildFileGroupDescriptorPayload.
      destruct (do_specs o) eqn:E; [done|]. rewrite Z.gtb_ltb. replace (_ <? Zlen (_ :: _)) with false by lia. eauto. }
    apply elem_of_cons in Hin as [->|Hin]; [done|].
    unfold file_formats in Hin. rewrite Hc in Hin. by apply list_elem_of_fmap in Hin as (k & -> & _).
  - intros i spec Hi. pose proof (lookup_lt_Some _ _ _ Hi) as Hlt.
    exists {| fe_cfFormat := cf_contents c; fe_lindex := Z.of_nat i; fe_tymed := TYMED_ISTREAM |}.
    assert (Hi32 : i32 (Z.of_nat i) = Z.of_nat i).
    { apply i32_small. unfold kMaxVirtualFileSpecs, Zlen in *. lia. }
    split.
    + simpl. unfold file_formats. rewrite Hc. rewrite list_lookup_fmap, lookup_seq_lt by done. simpl. by rewrite Hi32.
    + unfold GetData. simpl. rewrite Hcd, Hca, Hcp, Z.eqb_refl. simpl. rewrite Z.geb_leb.
      replace (Z.of_nat i <? 0) with false by lia.
      replace (Zlen (do_specs o) <=? Z.of_nat i) with false by (unfold Zlen; lia). simpl.
      by rewrite Nat2Z.id, Hi.
  - intros fe Hf Ht Hr. unfold GetData. rewrite Hf, Hcd, Hca, Hcp, Z.eqb_refl, Ht. simpl. rewrite Z.geb_leb.
    destruct Hr; [replace (fe_lindex fe <? 0) with true by lia; done|].
    replace (Zlen (do_specs o) <=? fe_lindex fe) with true by lia. by rewrite orb_true_r.
Qed.

Definition sample_formats : ClipFormats :=
  {| cf_descriptor := 49200; cf_contents := 49201; cf_drop_effect := 49202; cf_file_attrs := 49203;
     cf_performed := 49204; cf_paste_ok := 49205; cf_logical := 49206 |}.
Lemma sample_formats_registered : registered sample_formats.
Proof.
  split; simpl.
  - apply (bool_decide_unpack _). vm_compute. exact I.
  - repeat constructor; vm_compute; congruence.
Qed.

Definition sample_object : VirtualClipboardDataObject :=
  {| do_specs := [{| vfs_name := str "a"; vfs_size := 3; vfs_file_id := str "0"; vfs_is_directory := false |}];
     do_transfer_id := str "t" |}.

Lemma advertised_formats_served_witness :
  exists en,
    EnumFormatEtc sample_formats false true DATADIR_GET sample_object = (S_OK, Some en) /\
    Forall (fun fe => QueryGetData sample_formats (Some fe) = S_OK) (ve_formats en).
Proof.
  eexists. split; [reflexivity|].
  apply (advertised_formats_served sample_formats (fun _ => 0) sample_object _ sample_formats_registered);
    [discriminate | vm_compute; congruence | reflexivity].
Defined.

(** The "File Attributes Array" format is delivered by GetData but neither
    enumerated nor admitted by QueryGetData, so a consumer that asks first
    never gets it. *)
Theorem attributes_array_not_advertised c now o fe en :
  registered c -> fe_cfFormat fe = cf_file_attrs c -> has_tymed fe TYMED_HGLOBAL = true ->
  EnumFormatEtc c false true DATADIR_GET o = (S_OK, Some en) ->
  (exists m, GetData c now true (Some fe) false o = (S_OK, Some m)) /\
  QueryGetData c (Some fe) = DV_E_FORMATETC /\
  Forall (fun g => fe_cfFormat g <> cf_file_attrs c) (ve_formats en).
Proof.
  intros [Hd Hc Hp Hcd Hca Hcp Hpd Hpc Hpa Had Hac Hap Hda]%registered_facts Hf Ht He.
  unfold EnumFormatEtc in He. simpl in He. injection He as <-. simpl.
  split_and!.
  - unfold GetData. rewrite Hf, Had, Z.eqb_refl, Ht. simpl. eauto.
  - unfold QueryGetData. by rewrite Hf, Had, Hac, Hap.
  - unfold file_formats. rewrite Hd, Hc, Hp. zbool.
    repeat apply Forall_cons_2; simpl; try done. by apply Forall_map, Forall_true.
Qed.

Lemma attributes_array_not_advertised_witness :
  QueryGetData sample_formats (Some {| fe_cfFormat := 49203; fe_lindex := -1; fe_tymed := 1 |}) = DV_E_FORMATETC.
Proof.
  exact (proj1 (proj2 (attributes_array_not_advertised sample_formats (fun _ => 0) sample_object
    {| fe_cfFormat := 49203; fe_lindex := -1; fe_tymed := 1 |} _
    sample_formats_registered eq_refl eq_refl eq_refl))).
Defined.
