(* ===== verification/ComObjects.v ===== *)
(** * ComObjects: life times of the helper's COM objects

    The three classes of [windows/src/virtual_file_provider.cpp] with their
    reference counts: objects live on a heap, a creator or [QueryInterface]
    hands a reference to the client, and [Release] deletes the object whose
    count it brings to zero.  The methods are those of [VirtualFile]; here the
    calls of any number of clients interleave, with [Read] split at the fetch
    and [Release] at its [delete].  Clients follow the rules of COM: they call
    through a reference they hold, keep one for as long as a call lasts, and
    hold fewer than 2^31 of them.  That the dispatcher is such a client is
    [references_balanced] of [WinDispatch]. *)

From stdpp Require Import gmultiset.
From S2P Require Import Prelude Win32 WinCodec ChunkProvider VirtualFile.

(** ** Objects *)

Inductive ComBody :=
| CbEnum (e : VirtualFileEnum)
| CbStream (st : VirtualFileStream)
| CbData (d : VirtualClipboardDataObject).

Record ComObject := { refs_ : Z; body_ : ComBody }.

(** Interfaces a client asks for. *)
Inductive Iid := IidUnknown | IidEnumFORMATETC | IidSequentialStream | IidStream | IidDataObject | IidOther.

Definition enum_supports (riid : Iid) : bool := match riid with IidUnknown | IidEnumFORMATETC => true | _ => false end.
Definition stream_supports (riid : Iid) : bool :=
  match riid with IidUnknown | IidSequentialStream | IidStream => true | _ => false end.
Definition data_supports (riid : Iid) : bool := match riid with IidUnknown | IidDataObject => true | _ => false end.
Definition supports (b : ComBody) : Iid -> bool :=
  match b with CbEnum _ => enum_supports | CbStream _ => stream_supports | CbData _ => data_supports end.

Definition E_NOINTERFACE : Z := 0x80004002.

(** The result code, and whether [*ppv] is set and [AddRef] called. *)
Definition QueryInterface (b : ComBody) (riid : Iid) (ppv_null : bool) : Z * bool :=
  if ppv_null then (E_POINTER, false)
  else if supports b riid then (S_OK, true)
  else (E_NOINTERFACE, false).

Definition InterlockedIncrement (r : Z) : Z := i32 (r + 1).
Definition InterlockedDecrement (r : Z) : Z := i32 (r - 1).

(** [AddRef] and the counting part of [Release]; the latter's result decides
    about [delete this]. *)
Definition AddRef (ob : ComObject) : ComObject := {| refs_ := InterlockedIncrement (refs_ ob); body_ := body_ ob |}.
Definition Release (ob : ComObject) : ComObject * bool :=
  let r := InterlockedDecrement (refs_ ob) in ({| refs_ := r; body_ := body_ ob |}, r =? 0).

(** The constructors start at one reference. *)
Definition com_new (b : ComBody) : ComObject := {| refs_ := 1; body_ := b |}.

(** ** The heap *)

Record ComWorld := {
  cm_heap : gmap Z ComObject;
  cm_next : Z;
  cm_owned : gmultiset Z;          (* the references clients hold *)
  cm_reads : list (Z * (Z * Z));   (* threads inside [FetchChunk]: the stream, the bytes wanted *)
  cm_dying : list (Z * Z);         (* threads in [Release] before their [delete this] *)
  cm_deleted : list Z;
  cm_bad : bool                    (* an object was used after its deletion *)
}.
#[export] Instance eta_ComWorld : Eta ComWorld := fun w =>
  {| cm_heap := cm_heap w; cm_next := cm_next w; cm_owned := cm_owned w; cm_reads := cm_reads w; cm_dying := cm_dying w;
     cm_deleted := cm_deleted w; cm_bad := cm_bad w |}.

Definition com_init : ComWorld :=
  {| cm_heap := ∅; cm_next := 0; cm_owned := ∅; cm_reads := []; cm_dying := []; cm_deleted := []; cm_bad := false |}.

Definition put_object (o : Z) (ob : ComObject) (w : ComWorld) : ComWorld := w <| cm_heap := <[o := ob]> (cm_heap w) |>.
Definition set_body (o : Z) (ob : ComObject) (b : ComBody) : ComWorld -> ComWorld :=
  put_object o {| refs_ := refs_ ob; body_ := b |}.

(** An object comes into being, the client holding its reference. *)
Definition create (b : ComBody) (w : ComWorld) : ComWorld :=
  (put_object (cm_next w) (com_new b) w <| cm_owned := cm_owned w ⊎ {[+ cm_next w +]} |>) <| cm_next := cm_next w + 1 |>.
Definition created (r : option ComBody) (w : ComWorld) : ComWorld := match r with Some b => create b w | None => w end.

Definition reading_on (o : Z) (w : ComWorld) : bool := existsb (fun p => p.2.1 =? o) (cm_reads w).
Definition held (o : Z) (w : ComWorld) : nat := multiplicity o (cm_owned w).

(** A client has another reference. *)
Definition add_reference (o : Z) (ob : ComObject) (w : ComWorld) : option ComWorld :=
  if Z.of_nat (held o w) <? 2 ^ 31 - 1
  then Some (put_object o (AddRef ob) w <| cm_owned := cm_owned w ⊎ {[+ o +]} |>)
  else None.

(** A method is called on [o] through a reference. *)
Definition call_on (o : Z) (w : ComWorld) (f : ComObject -> option ComWorld) : option ComWorld :=
  match held o w with
  | O => None
  | S _ => match cm_heap w !! o with None => Some (w <| cm_bad := true |>) | Some ob => f ob end
  end.

Inductive ComLabel :=
| CmCreate (specs : list VirtualFileSpec) (transfer_id : list Z) (provider_null out_null alloc_ok : bool)
| CmQueryInterface (o : Z) (riid : Iid) (ppv_null : bool)
| CmAddRef (o : Z)
| CmRelease (t o : Z)
| CmDelete (t : Z)
| CmGetData (o : Z) (now : Z -> Z) (alloc_ok : bool) (fe : option FORMATETC) (sm_null : bool)
| CmEnumFormatEtc (o : Z) (ppEnum_null alloc_ok : bool) (dwDirection : Z)
| CmClone (o : Z) (out_null alloc_ok : bool)
| CmNext (o celt : Z) (rgelt_null fetched_null : bool)
| CmSkip (o celt : Z)
| CmReset (o : Z)
| CmSeek (o delta dwOrigin : Z)
| CmRead (t o : Z) (pv_null : bool) (cb : Z)
| CmFetched (t : Z) (res : FetchResult).

Section Com.
Context (c : ClipFormats).

Definition medium_stream (m : option Medium) : option ComBody := match m with Some (MedStream st) => Some (CbStream st) | _ => None end.

Definition com_exec (l : ComLabel) (w : ComWorld) : option ComWorld :=
  match l with
  | CmCreate specs tid provider_null out_null alloc_ok =>
      Some (created (CbData <$> (CreateVirtualClipboardDataObject specs tid provider_null out_null alloc_ok).2) w)
  | CmQueryInterface o riid ppv_null =>
      call_on o w (fun ob => if (QueryInterface (body_ ob) riid ppv_null).2 then add_reference o ob w else Some w)
  | CmAddRef o => call_on o w (fun ob => add_reference o ob w)
  | CmRelease t o =>
      if reading_on o w && Nat.eqb (held o w) 1 then None     (* the call of Read needs it *)
      else call_on o w (fun ob =>
             let '(ob', last) := Release ob in
             let w' := put_object o ob' w <| cm_owned := cm_owned w ∖ {[+ o +]} |> in
             Some (if last then w' <| cm_dying := (t, o) :: cm_dying w |> else w'))
  | CmDelete t =>
      '(o, rest) ← take_key t (cm_dying w);
      Some ((((w <| cm_bad := cm_bad w || bool_decide (cm_heap w !! o = None) |>) <| cm_heap := delete o (cm_heap w) |>)
               <| cm_dying := rest |>) <| cm_deleted := cm_deleted w ++ [o] |>)
  | CmGetData o now alloc_ok fe sm_null =>
      call_on o w (fun ob =>
        match body_ ob with
        | CbData d => Some (created (medium_stream (GetData c now alloc_ok fe sm_null d).2) w)
        | _ => None
        end)
  | CmEnumFormatEtc o ppEnum_null alloc_ok dwDirection =>
      call_on o w (fun ob =>
        match body_ ob with
        | CbData d => Some (created (CbEnum <$> (EnumFormatEtc c ppEnum_null alloc_ok dwDirection d).2) w)
        | _ => None
        end)
  | CmClone o out_null alloc_ok =>
      call_on o w (fun ob =>
        match body_ ob with
        | CbStream st => Some (created (CbStream <$> (Clone out_null alloc_ok st).2) w)
        | CbEnum e => Some (created (CbEnum <$> (Clone_enum out_null alloc_ok e).2) w)
        | CbData _ => None
        end)
  | CmNext o celt rgelt_null fetched_null =>
      call_on o w (fun ob =>
        match body_ ob with CbEnum e => Some (set_body o ob (CbEnum (Next celt rgelt_null fetched_null e).1.1) w) | _ => None end)
  | CmSkip o celt =>
      call_on o w (fun ob => match body_ ob with CbEnum e => Some (set_body o ob (CbEnum (Skip celt e).1) w) | _ => None end)
  | CmReset o =>
      call_on o w (fun ob => match body_ ob with CbEnum e => Some (set_body o ob (CbEnum (Reset_enum e)) w) | _ => None end)
  | CmSeek o delta dwOrigin =>
      call_on o w (fun ob => match body_ ob with CbStream st => Some (set_body o ob (CbStream (Seek delta dwOrigin st).1) w) | _ => None end)
  | CmRead t o pv_null cb =>
      call_on o w (fun ob =>
        match body_ ob with
        | CbStream st =>
            match read_begin pv_null cb st with
            | RbReturn _ => Some w
            | RbFetch st' want => Some (set_body o ob (CbStream st') w <| cm_reads := (t, (o, want)) :: cm_reads w |>)
            end
        | _ => None
        end)
  (* the fetch returns to the [Read] that made it *)
  | CmFetched t res =>
      '((o, want), rest) ← take_key t (cm_reads w);
      let w' := w <| cm_reads := rest |> in
      match cm_heap w !! o with
      | None => Some (w' <| cm_bad := true |>)
      | Some ob =>
          match body_ ob with
          | CbStream st => Some (set_body o ob (CbStream (read_finish want res st).1) w')
          | _ => None
          end
      end
  end.
Definition run_com : list ComLabel -> ComWorld -> option ComWorld := run_exec com_exec.
End Com.

(** ** The ledger *)

Definition count_of (o : Z) (w : ComWorld) : option Z := refs_ <$> cm_heap w !! o.
Definition dying (w : ComWorld) : list Z := map snd (cm_dying w).

(** What holds of one object: on the heap its count is the number of references
    held, and it has none exactly when a [Release] is about to delete it; off
    the heap it has been deleted, or never made. *)
Definition ledger_at (w : ComWorld) (o : Z) : Prop :=
  match count_of o w with
  | Some r => r = Z.of_nat (held o w) /\ r < 2 ^ 31 /\ (held o w = 0%nat <-> o ∈ dying w) /\ 0 <= o < cm_next w /\ o ∉ cm_deleted w
  | None => held o w = 0%nat /\ o ∉ dying w /\ (0 <= o < cm_next w -> o ∈ cm_deleted w)
  end.

Record ledger_inv (w : ComWorld) : Prop := {
  li_objects : forall o, ledger_at w o;
  li_deleted : forall o, o ∈ cm_deleted w -> 0 <= o < cm_next w;
  li_once : NoDup (cm_deleted w);
  li_dying : NoDup (dying w);
  li_bad : cm_bad w = false;
  li_next : 0 <= cm_next w
}.

Lemma held_add (o o' : Z) (x : gmultiset Z) : multiplicity o' (x ⊎ {[+ o +]}) = (multiplicity o' x + if decide (o' = o) then 1 else 0)%nat.
Proof. rewrite multiplicity_disj_union, multiplicity_singleton. by case_decide. Qed.
Lemma held_remove (o o' : Z) (x : gmultiset Z) : multiplicity o' (x ∖ {[+ o +]}) = (multiplicity o' x - if decide (o' = o) then 1 else 0)%nat.
Proof. rewrite multiplicity_difference, multiplicity_singleton. by case_decide. Qed.

Lemma count_insert o o' h ob : refs_ <$> (<[o := ob]> h : gmap Z ComObject) !! o' = if decide (o' = o) then Some (refs_ ob) else refs_ <$> h !! o'.
Proof. case_decide; subst; [by rewrite lookup_insert_eq|by rewrite lookup_insert_ne]. Qed.
Lemma count_delete o o' h : refs_ <$> (delete o h : gmap Z ComObject) !! o' = if decide (o' = o) then None else refs_ <$> h !! o'.
Proof. case_decide; subst; [by rewrite lookup_delete_eq|by rewrite lookup_delete_ne]. Qed.

(** Steps that leave the counts alone. *)
Definition same_counts (w w' : ComWorld) : Prop :=
  (forall o, count_of o w' = count_of o w) /\ cm_owned w' = cm_owned w /\ cm_next w' = cm_next w /\ cm_dying w' = cm_dying w /\
  cm_deleted w' = cm_deleted w /\ cm_bad w' = cm_bad w.

Lemma ledger_same w w' : same_counts w w' -> ledger_inv w -> ledger_inv w'.
Proof.
  intros (H1 & H2 & H3 & H4 & H5 & H6) [L1 L2 L3 L4 L5 L6].
  assert (Hd : dying w' = dying w) by (unfold dying; by rewrite H4).
  split; rewrite ?H3, ?H5, ?H6, ?Hd; try done.
  intros o. unfold ledger_at, held. rewrite H1, H2, H3, H5, Hd. apply L1.
Qed.

Lemma same_set_body o ob b w : cm_heap w !! o = Some ob -> same_counts w (set_body o ob b w).
Proof.
  intros Ho. split; [|done]. intros o'. unfold count_of. simpl. rewrite count_insert. case_decide; [|done]. subst.
  by rewrite Ho.
Qed.

Lemma ledger_body o ob b rs w :
  cm_heap w !! o = Some ob -> ledger_inv w -> ledger_inv (set_body o ob b (w <| cm_reads := rs |>)).
Proof.
  intros Ho Hl. assert (ledger_inv (w <| cm_reads := rs |>)) by (by apply (ledger_same w)).
  eapply ledger_same; [|done]. by apply same_set_body.
Qed.

Lemma ledger_create b w : ledger_inv w -> ledger_inv (create b w).
Proof.
  intros [L1 L2 L3 L4 L5 L6]. split; try done; simpl; [|intros o Ho; specialize (L2 o Ho); lia|lia].
  intros o. specialize (L1 o). unfold ledger_at, count_of, held in *. simpl. rewrite count_insert, held_add.
  assert (Hd : dying (create b w) = dying w) by done. rewrite Hd.
  case_decide as Eo.
  - subst o. destruct (cm_heap w !! cm_next w); simpl in L1; [lia|]. destruct L1 as (L & Hn & _). rewrite L. simpl.
    split_and!; try done; try lia. intros Hin. specialize (L2 _ Hin). lia.
  - rewrite Nat.add_0_r. destruct (cm_heap w !! o); simpl in *; [|].
    + destruct L1 as (-> & ? & ? & ? & ?). split_and!; try done; try lia.
    + destruct L1 as (? & ? & H). split_and!; try done. intros. apply H. lia.
Qed.

Lemma ledger_add o ob w w' : cm_heap w !! o = Some ob -> (0 < held o w)%nat -> add_reference o ob w = Some w' -> ledger_inv w -> ledger_inv w'.
Proof.
  unfold add_reference. intros Ho Hh He [L1 L2 L3 L4 L5 L6]. destruct (_ <? _) eqn:Eb; [|done]. injection He as <-. zbool.
  split; try done. intros o'. specialize (L1 o'). unfold ledger_at, count_of, held in *. simpl. rewrite count_insert, held_add.
  change (dying _) with (dying w).
  case_decide as Eo; [subst o'|by rewrite Nat.add_0_r].
  rewrite Ho in L1. simpl in L1. destruct L1 as (Hr & Hb & Hd & Hn & Hdel).
  unfold AddRef, InterlockedIncrement. cbn [refs_]. rewrite Hr, i32_small by lia. split_and!; try done; try lia. split; [lia|].
  intros Hin. apply Hd in Hin. lia.
Qed.

Lemma ledger_release t o ob w ob' last :
  cm_heap w !! o = Some ob -> (0 < held o w)%nat -> Release ob = (ob', last) -> ledger_inv w ->
  let w' := put_object o ob' w <| cm_owned := cm_owned w ∖ {[+ o +]} |> in
  ledger_inv (if last then w' <| cm_dying := (t, o) :: cm_dying w |> else w') /\
  held o w = S (Z.to_nat (refs_ ob')) /\ body_ ob' = body_ ob.
Proof.
  unfold Release. intros Ho Hh [= <- <-] [L1 L2 L3 L4 L5 L6]. pose proof (L1 o) as Lo.
  unfold ledger_at, count_of in Lo. rewrite Ho in Lo. simpl in Lo. destruct Lo as (Hr & Hb & Hd & Hn & Hdel).
  unfold InterlockedDecrement. simpl. rewrite i32_small by lia. split; [|split; [lia|done]].
  assert (Hnd : o ∉ dying w) by (intros Hin; apply Hd in Hin; lia).
  destruct (refs_ ob - 1 =? 0) eqn:E; zbool; split; try done.
  - intros o'; specialize (L1 o'). unfold ledger_at, count_of, held in *. simpl. rewrite count_insert, held_remove. unfold dying in *. simpl. case_decide as Eo.
    + subst o'. simpl. split_and!; try done; try lia. split; [intros _; by left|lia].
    + rewrite Nat.sub_0_r. destruct (cm_heap w !! o'); simpl in *; rewrite elem_of_cons; [|naive_solver].
      destruct L1 as (? & ? & Hx & ? & ?). split_and!; try done; try lia. split; [intros Hz; right; by apply Hx|]. intros [?|?]; [done|by apply Hx].
  - by constructor.
  - intros o'; specialize (L1 o'). unfold ledger_at, count_of, held in *. simpl. rewrite count_insert, held_remove. change (dying _) with (dying w). case_decide as Eo.
    + subst o'. simpl. split_and!; try done; try lia. split; [lia|done].
    + by rewrite Nat.sub_0_r.
Qed.

Lemma ledger_delete t o rest w :
  take_key t (cm_dying w) = Some (o, rest) -> ledger_inv w ->
  ledger_inv ((((w <| cm_bad := cm_bad w || bool_decide (cm_heap w !! o = None) |>) <| cm_heap := delete o (cm_heap w) |>)
               <| cm_dying := rest |>) <| cm_deleted := cm_deleted w ++ [o] |>) /\
  held o w = 0%nat.
Proof.
  intros Ht [L1 L2 L3 L4 L5 L6]. apply take_key_perm in Ht.
  assert (Hp : dying w ≡ₚ o :: map snd rest) by (unfold dying; by rewrite Ht).
  assert (Hin : o ∈ dying w) by (rewrite Hp; by left).
  pose proof (L1 o) as Lo. unfold ledger_at, count_of in Lo.
  destruct (cm_heap w !! o) as [ob|] eqn:Ho; simpl in Lo; [|by destruct Lo as (_ & ? & _)].
  destruct Lo as (Hr & Hb & Hd & Hn & Hdel). rewrite Hp in L4. apply NoDup_cons in L4 as [Hnin L4].
  split; [|by apply Hd]. split; simpl; try done.
  - intros o'. specialize (L1 o'). unfold ledger_at, count_of, held, dying in *. simpl. rewrite count_delete.
    case_decide as Eo; [subst o'|].
    + split_and!; [by apply Hd|done|]. intros _. apply elem_of_app. right. by left.
    + destruct (cm_heap w !! o'); simpl in *; rewrite Hp, elem_of_cons in L1; rewrite elem_of_app, list_elem_of_singleton; naive_solver.
  - intros o' Ho'. apply elem_of_app in Ho' as [?|?%list_elem_of_singleton]; [by apply L2|by subst].
  - apply NoDup_app. split_and!; [done| |apply NoDup_singleton]. intros x Hx ?%list_elem_of_singleton. by subst.
  - by rewrite L5.
Qed.

(** ** Reads in progress *)

Definition readings (w : ComWorld) : list Z := map (fun p => p.2.1) (cm_reads w).
Definition stream_reading (b : ComBody) : bool := match b with CbStream st => vs_reading st | _ => false end.
Definition flag_at (o : Z) (w : ComWorld) : bool := match cm_heap w !! o with Some ob => stream_reading (body_ ob) | None => false end.

(** The flag of a stream is set exactly while one [Read] of it is in its fetch,
    and the caller keeps the stream alive. *)
Record reads_inv (w : ComWorld) : Prop := {
  ri_flag : forall o, flag_at o w = true <-> o ∈ readings w;
  ri_once : NoDup (readings w);
  ri_held : forall o, o ∈ readings w -> (0 < held o w)%nat
}.

Lemma reads_frame w w' :
  readings w' = readings w -> (forall o, flag_at o w' = flag_at o w) ->
  (forall o, o ∈ readings w -> (0 < held o w)%nat -> (0 < held o w')%nat) -> reads_inv w -> reads_inv w'.
Proof. intros Hr Hf Hh [R1 R2 R3]. split; rewrite ?Hr; try done; [|auto]. intros o. by rewrite Hf. Qed.

Lemma flag_put o o' ob w : flag_at o' (put_object o ob w) = if decide (o' = o) then stream_reading (body_ ob) else flag_at o' w.
Proof. unfold flag_at. simpl. case_decide; subst; [by rewrite lookup_insert_eq|by rewrite lookup_insert_ne]. Qed.

Lemma flag_put_same o o' ob ob' w :
  cm_heap w !! o = Some ob -> stream_reading (body_ ob') = stream_reading (body_ ob) -> flag_at o' (put_object o ob' w) = flag_at o' w.
Proof. intros Ho Hs. rewrite flag_put. case_decide; [subst|done]. unfold flag_at. by rewrite Ho, Hs. Qed.

Lemma reading_on_spec o w : reading_on o w = true <-> o ∈ readings w.
Proof.
  unfold reading_on, readings. rewrite list_elem_of_In, in_map_iff, existsb_exists. split.
  - intros (p & Hp & E). apply Z.eqb_eq in E. eauto.
  - intros (p & E & Hp). exists p. split; [done|]. by apply Z.eqb_eq.
Qed.

Lemma reads_create b w : ledger_inv w -> stream_reading b = false -> reads_inv w -> reads_inv (create b w).
Proof.
  intros Hl Hb. apply reads_frame; [done| |].
  - intros o. change (flag_at o (create b w)) with (flag_at o (put_object (cm_next w) (com_new b) w)). rewrite flag_put.
    case_decide; [subst|done]. simpl. rewrite Hb. pose proof (li_objects _ Hl (cm_next w)) as L. unfold ledger_at, count_of in L.
    unfold flag_at. destruct (cm_heap w !! cm_next w); [simpl in L; lia|done].
  - intros o _ Hh. unfold held in *. simpl. rewrite held_add. lia.
Qed.

Lemma reads_add o ob w w' : cm_heap w !! o = Some ob -> add_reference o ob w = Some w' -> reads_inv w -> reads_inv w'.
Proof.
  unfold add_reference. intros Ho He. destruct (_ <? _); [|done]. injection He as <-. apply reads_frame; [done| |].
  - intros o'. change (flag_at o' _) with (flag_at o' (put_object o (AddRef ob) w)) at 1. by eapply flag_put_same.
  - intros o' _ Hh. unfold held in *. simpl. rewrite held_add. lia.
Qed.

Lemma reads_release t o ob ob' w w' :
  cm_heap w !! o = Some ob -> body_ ob' = body_ ob -> reading_on o w && Nat.eqb (held o w) 1 = false ->
  w' = put_object o ob' w <| cm_owned := cm_owned w ∖ {[+ o +]} |> \/
  w' = (put_object o ob' w <| cm_owned := cm_owned w ∖ {[+ o +]} |>) <| cm_dying := (t, o) :: cm_dying w |> ->
  reads_inv w -> reads_inv w'.
Proof.
  intros Ho Hb Hg Hw. apply reads_frame; [by destruct Hw as [-> | ->]| |].
  - intros o'. transitivity (flag_at o' (put_object o ob' w)); [by destruct Hw as [-> | ->]|].
    eapply flag_put_same; [done|by rewrite Hb].
  - intros o' Hin Hh. assert (held o' w' = multiplicity o' (cm_owned w ∖ {[+ o +]})) as -> by (by destruct Hw as [-> | ->]).
    rewrite held_remove. unfold held in *. case_decide; [subst o'|lia].
    apply andb_false_iff in Hg as [Hg|Hg]; [by apply reading_on_spec in Hin; rewrite Hg in Hin|]. apply Nat.eqb_neq in Hg. lia.
Qed.

Lemma reads_delete o rest bad w :
  held o w = 0%nat -> reads_inv w ->
  reads_inv ((((w <| cm_bad := bad |>) <| cm_heap := delete o (cm_heap w) |>) <| cm_dying := rest |>) <| cm_deleted := cm_deleted w ++ [o] |>).
Proof.
  intros Hz Hi. apply (reads_frame w); [done| |done|done].
  intros o'. unfold flag_at at 1. simpl. destruct (decide (o' = o)) as [->|Hne]; [|by rewrite lookup_delete_ne].
  rewrite lookup_delete_eq. destruct (flag_at o w) eqn:E; [|done]. apply (ri_flag _ Hi) in E. apply (ri_held _ Hi) in E. lia.
Qed.

Lemma read_begin_fetch pv_null cb st st' want :
  read_begin pv_null cb st = RbFetch st' want -> vs_reading st = false /\ st' = with_reading st true.
Proof.
  unfold read_begin. destruct pv_null; [done|]. destruct (cb =? 0); [done|]. destruct (_ >=? _); [done|].
  destruct (vs_reading st); [done|]. by intros [= <- _].
Qed.

Lemma read_finish_flag want res st : vs_reading (read_finish want res st).1 = false.
Proof. unfold read_finish. destruct (FAILED _); [done|]. destruct (_ && _); [done|]. by destruct (_ >? 0). Qed.

Lemma reads_begin t o ob st want w :
  cm_heap w !! o = Some ob -> body_ ob = CbStream st -> vs_reading st = false -> (0 < held o w)%nat -> reads_inv w ->
  reads_inv (set_body o ob (CbStream (with_reading st true)) w <| cm_reads := (t, (o, want)) :: cm_reads w |>).
Proof.
  intros Ho Hb Hf Hh [R1 R2 R3].
  assert (Hn : o ∉ readings w) by (intros Hin; apply R1 in Hin; unfold flag_at in Hin; rewrite Ho, Hb in Hin; simpl in Hin; congruence).
  split.
  - intros o'. change (flag_at o' _) with (flag_at o' (set_body o ob (CbStream (with_reading st true)) w)).
    unfold set_body. rewrite flag_put. change (readings _) with (o :: readings w). rewrite elem_of_cons.
    case_decide; [subst; simpl; tauto|]. rewrite R1. tauto.
  - by constructor.
  - intros o'. change (readings _) with (o :: readings w). rewrite elem_of_cons. intros [->|Hin]; [done|by apply R3].
Qed.

Lemma reads_end t o want rest ob st res w :
  take_key t (cm_reads w) = Some ((o, want), rest) -> cm_heap w !! o = Some ob -> body_ ob = CbStream st -> reads_inv w ->
  reads_inv (set_body o ob (CbStream (read_finish want res st).1) (w <| cm_reads := rest |>)).
Proof.
  intros Ht Ho Hb [R1 R2 R3]. apply take_key_perm in Ht.
  assert (Hp : readings w ≡ₚ o :: map (fun p => p.2.1) rest) by (unfold readings; by rewrite Ht).
  rewrite Hp in R2. apply NoDup_cons in R2 as [Hn R2]. split.
  - intros o'. unfold set_body. rewrite flag_put. specialize (R1 o'). rewrite Hp, elem_of_cons in R1. cbn [body_ stream_reading].
    rewrite read_finish_flag. change (flag_at o' (w <| cm_reads := rest |>)) with (flag_at o' w). case_decide; [subst; done|].
    unfold readings. simpl. rewrite R1. tauto.
  - done.
  - intros o' Hin. apply (R3 o'). rewrite Hp. by right.
Qed.

(** ** Every step *)

Definition com_inv (w : ComWorld) : Prop := ledger_inv w /\ reads_inv w.

Lemma call_on_spec o w w' f :
  call_on o w f = Some w' -> ledger_inv w -> exists ob, cm_heap w !! o = Some ob /\ (0 < held o w)%nat /\ f ob = Some w'.
Proof.
  unfold call_on. intros He Hl. destruct (held o w) eqn:Eh; [done|]. pose proof (li_objects _ Hl o) as L.
  unfold ledger_at, count_of in L. destruct (cm_heap w !! o) as [ob|]; [|simpl in L; lia]. exists ob. split_and!; [done|lia|done].
Qed.

Lemma com_created r w : com_inv w -> (forall b, r = Some b -> stream_reading b = false) -> com_inv (created r w).
Proof. intros [Hl Hr] Hb. destruct r as [b|]; [|done]. split; [by apply ledger_create|by apply reads_create; auto]. Qed.

Lemma com_set_body o ob b w :
  cm_heap w !! o = Some ob -> stream_reading b = stream_reading (body_ ob) -> com_inv w -> com_inv (set_body o ob b w).
Proof.
  intros Ho Hb [Hl Hr]. split; [by eapply ledger_same; [apply same_set_body|]|].
  apply (reads_frame w); [done| |by auto|exact Hr]. intros o'. by eapply flag_put_same.
Qed.

Lemma com_add o ob w w' : cm_heap w !! o = Some ob -> (0 < held o w)%nat -> add_reference o ob w = Some w' -> com_inv w -> com_inv w'.
Proof. intros Ho Hh He [Hl Hr]. split; [by eapply ledger_add|by eapply reads_add]. Qed.

Lemma Seek_flag delta origin st : vs_reading (Seek delta origin st).1 = vs_reading st.
Proof. unfold Seek. repeat (case_match; simpl; try done). Qed.

Section Com.
Context (c : ClipFormats).

Lemma GetData_fresh now alloc_ok fe sm_null d b :
  medium_stream (GetData c now alloc_ok fe sm_null d).2 = Some b -> stream_reading b = false.
Proof. unfold GetData, medium_stream. intros Hg. by repeat (case_match; simplify_eq/=). Qed.

Lemma com_exec_inv l w w' : com_exec c l w = Some w' -> com_inv w -> com_inv w'.
Proof.
  intros He Hi. pose proof Hi as [Hl Hr].
  destruct l as [specs tid pn on ok|o riid pn|o|t o|t|o now ok fe sn|o pn ok dir|o on ok|o celt rn fn|o celt|o|o delta origin|t o pv cb|t res]; unfold com_exec in He.
  - injection He as <-. apply com_created; [done|]. intros b Eb. apply fmap_Some in Eb as (x & _ & ->). done.
  - apply call_on_spec in He as (ob & Ho & Hh & He); [|done]. destruct (QueryInterface _ _ _) as [hr [|]]; simpl in He; [by eapply com_add|by simplify_eq].
  - apply call_on_spec in He as (ob & Ho & Hh & He); [|done]. by eapply com_add.
  - destruct (reading_on o w && Nat.eqb (held o w) 1) eqn:Eg; [done|]. apply call_on_spec in He as (ob & Ho & Hh & He); [|done].
    destruct (Release ob) as [ob' last] eqn:Er. destruct (ledger_release t _ _ _ _ _ Ho Hh Er Hl) as (Hl' & _ & Hb).
    destruct last; injection He as <-; (split; [exact Hl'|]); eapply (reads_release t o ob ob' w); try done; auto.
  - destruct (take_key t (cm_dying w)) as [[o rest]|] eqn:Et; simpl in He; [|done]. injection He as <-.
    destruct (ledger_delete _ _ _ _ Et Hl) as [Hl' Hz]. split; [done|by apply reads_delete].
  - apply call_on_spec in He as (ob & Ho & Hh & He); [|done]. destruct (body_ ob); try done. injection He as <-.
    apply com_created; [done|]. intros b. apply GetData_fresh.
  - apply call_on_spec in He as (ob & Ho & Hh & He); [|done]. destruct (body_ ob); try done. injection He as <-.
    apply com_created; [done|]. intros b Eb. apply fmap_Some in Eb as (x & _ & ->). done.
  - apply call_on_spec in He as (ob & Ho & Hh & He); [|done]. destruct (body_ ob); try done; injection He as <-;
      (apply com_created; [done|]); intros b Eb; apply fmap_Some in Eb as (x & Ex & ->); [done|].
    unfold Clone in Ex. destruct on; [done|]. destruct ok; [|done]. by injection Ex as <-.
  - apply call_on_spec in He as (ob & Ho & Hh & He); [|done]. destruct (body_ ob) eqn:Eb; try done. injection He as <-.
    apply com_set_body; [done|by rewrite Eb|done].
  - apply call_on_spec in He as (ob & Ho & Hh & He); [|done]. destruct (body_ ob) eqn:Eb; try done. injection He as <-.
    apply com_set_body; [done|by rewrite Eb|done].
  - apply call_on_spec in He as (ob & Ho & Hh & He); [|done]. destruct (body_ ob) eqn:Eb; try done. injection He as <-.
    apply com_set_body; [done|by rewrite Eb|done].
  - apply call_on_spec in He as (ob & Ho & Hh & He); [|done]. destruct (body_ ob) eqn:Eb; try done. injection He as <-.
    apply com_set_body; [done|by rewrite Eb; simpl; rewrite Seek_flag|done].
  - apply call_on_spec in He as (ob & Ho & Hh & He); [|done]. destruct (body_ ob) eqn:Eb; try done.
    destruct (read_begin pv cb st) as [r|st' want] eqn:Erb; injection He as <-; [done|].
    apply read_begin_fetch in Erb as [Hf ->]. split; [by apply ledger_body|by apply reads_begin].
  - destruct (take_key t (cm_reads w)) as [[[o want] rest]|] eqn:Et; simpl in He; [|done].
    assert (Hin : o ∈ readings w) by (unfold readings; rewrite (take_key_perm _ _ _ _ Et); by left).
    apply (ri_flag _ Hr) in Hin. unfold flag_at in Hin. destruct (cm_heap w !! o) as [ob|] eqn:Ho; [|done].
    destruct (body_ ob) eqn:Eb; try done. injection He as <-.
    split; [by apply ledger_body|by eapply reads_end].
Qed.

Lemma com_reachable ls w : run_com c ls com_init = Some w -> com_inv w.
Proof.
  intros Hr. eapply (run_exec_invariant (com_exec c) com_inv (fun _ => True)); [|by apply Forall_true|exact Hr|].
  - intros l w1 w2 _. apply com_exec_inv.
  - split; split; try done; try apply NoDup_nil_2; simpl; try lia.
    + intros o. split; [done|]. split; [apply not_elem_of_nil|]. simpl. lia.
    + intros o Ho. by apply not_elem_of_nil in Ho.
    + intros o. split; [done|]. intros Ho. by apply not_elem_of_nil in Ho.
    + intros o Ho. by apply not_elem_of_nil in Ho.
Qed.
End Com.

(** ** Properties *)

(** C20: however the clients' calls interleave, an object of the helper is
    deleted exactly when its last reference goes, and once.  Its count is the
    number of references held; no call, no fetch coming back and no [delete]
    meets an object that was deleted; of the objects made, those not deleted
    are on the heap, and when no reference is held and no [Release] is under way
    all of them have been deleted.  A stream's flag is set exactly while one
    [Read] of it is fetching, and until it returns the stream is alive. *)
Theorem com_objects_balanced c ls w :
  run_com c ls com_init = Some w ->
  cm_bad w = false /\
  (forall o ob, cm_heap w !! o = Some ob -> refs_ ob = Z.of_nat (held o w) /\ (refs_ ob = 0 <-> o ∈ dying w)) /\
  (forall o, cm_heap w !! o = None -> held o w = 0%nat) /\
  NoDup (cm_deleted w) /\
  (forall o, 0 <= o < cm_next w -> (cm_heap w !! o = None <-> o ∈ cm_deleted w)) /\
  (cm_owned w = ∅ -> cm_dying w = [] -> cm_heap w = ∅) /\
  NoDup (readings w) /\
  (forall o, o ∈ readings w <-> exists r st, cm_heap w !! o = Some (Build_ComObject r (CbStream st)) /\ vs_reading st = true).
Proof.
  intros Hr. destruct (com_reachable _ _ _ Hr) as [[L1 L2 L3 L4 L5 L6] [R1 R2 R3]]. split_and!; try done.
  - intros o ob Ho. specialize (L1 o). unfold ledger_at, count_of in L1. rewrite Ho in L1. simpl in L1.
    destruct L1 as (-> & _ & Hd & _). split; [done|]. rewrite <- Hd. lia.
  - intros o Ho. specialize (L1 o). unfold ledger_at, count_of in L1. rewrite Ho in L1. by destruct L1.
  - intros o Hn. specialize (L1 o). unfold ledger_at, count_of in L1. destruct (cm_heap w !! o); simpl in L1; [|tauto].
    split; [done|]. intros Hin. by destruct L1 as (_ & _ & _ & _ & ?).
  - intros Ho Hd. apply map_eq. intros o. rewrite lookup_empty. specialize (L1 o). unfold ledger_at, count_of, held, dying in L1.
    rewrite Ho, Hd in L1. destruct (cm_heap w !! o); [|done]. simpl in L1. destruct L1 as (_ & _ & [Hx _] & _).
    exfalso. by apply (not_elem_of_nil o), Hx.
  - intros o. rewrite <- R1. unfold flag_at. split.
    + destruct (cm_heap w !! o) as [[r [| st|]]|]; try done. intros Hs. by exists r, st.
    + intros (r & st & -> & Hs). done.
Qed.

(** A data object hands out a stream; its reader releases the object and, while
    a clone lives on, the stream. *)
Definition sample_calls : list ComLabel :=
  [CmCreate [Build_VirtualFileSpec (str "a") 10 (str "0") false] (str "t") false false true;
   CmQueryInterface 0 IidDataObject false; CmQueryInterface 0 IidStream false;
   CmGetData 0 (fun _ => 0) true (Some (Build_FORMATETC 2 0 TYMED_ISTREAM)) false;
   CmRead 7 1 false 4; CmClone 1 false true; CmRelease 7 0; CmRelease 8 0; CmDelete 8;
   CmFetched 7 (Build_FetchResult S_OK [1; 2] false); CmRelease 7 1; CmDelete 7].

Lemma com_objects_balanced_witness :
  exists w,
    run_com (Build_ClipFormats 1 2 3 4 5 6 7) sample_calls com_init = Some w /\
    cm_deleted w = [0; 1] /\ cm_next w = 3 /\ cm_heap w !! 2 <> None /\ NoDup (cm_deleted w).
Proof.
  eexists. split; [vm_compute; reflexivity|]. split; [reflexivity|]. split; [reflexivity|]. split; [vm_compute; congruence|].
  refine (proj1 (proj2 (proj2 (proj2 (com_objects_balanced (Build_ClipFormats 1 2 3 4 5 6 7) sample_calls _ _)))));
    vm_compute; reflexivity.
Defined.
