(* ===== verification/VirtualPaste.v ===== *)
(** * VirtualPaste: the peer's files as their readers see them

    The streams of [VirtualFile] over the chunk provider of [ChunkProvider], the
    way the data object wires them: a [Read] asks [FetchChunk] for bytes at the
    stream's position, waits there pumping messages, during which other
    streams (or the same one) are read, and copies what the fetch returns.
    FILE_CHUNK_DATA arrives in any order, late, twice, or not at all, and
    requests time out or are cancelled. *)

From S2P Require Import Prelude Win32 WinCodec ChunkProvider VirtualFile.

(** ** State *)

(** A [Read] inside its fetch: the stream, the bytes wanted, and the position
    the request is for. *)
Record ReadCall := { rc_stream : Z; rc_want : Z; rc_pos : Z }.

Record PasteSys := {
  vp_provider : ProviderSys;
  vp_streams : gmap Z VirtualFileStream;
  vp_next : Z;
  vp_calls : list ReadCall;                     (* innermost first, like the provider's frames *)
  (* history *)
  vp_done : list (Z * Z * VirtualFile.ReadResult);  (* [Read]s that returned: stream, position, result *)
  vp_trace : list FetchLabel                    (* what happened to the provider *)
}.
#[export] Instance eta_PasteSys : Eta PasteSys := fun s =>
  {| vp_provider := vp_provider s; vp_streams := vp_streams s; vp_next := vp_next s; vp_calls := vp_calls s;
     vp_done := vp_done s; vp_trace := vp_trace s |}.

Definition init_PasteSys : PasteSys :=
  {| vp_provider := init_ProviderSys; vp_streams := ∅; vp_next := 0; vp_calls := []; vp_done := []; vp_trace := [] |}.

Definition put_stream (o : Z) (st : VirtualFileStream) (s : PasteSys) : PasteSys :=
  s <| vp_streams := <[o := st]> (vp_streams s) |>.

Inductive PasteLabel :=
| VpOpen (transfer_id : list Z) (spec : VirtualFileSpec)
| VpSeek (o delta dwOrigin : Z)
| VpRead (o : Z) (pv_null : bool) (cb : Z) (pipe_present event_created : bool)
| VpProvider (l : FetchLabel).

(** ** Steps *)

Definition result_of (out : list FetchOutput) : option FetchResult :=
  match last out with Some (FReturn _ res) => Some res | _ => None end.

(** The provider acts; if that ends a fetch, the [Read] that made it returns. *)
Definition provider_acts (l : FetchLabel) (s : PasteSys) : option PasteSys :=
  '(y, out) ← fetch_exec l (vp_provider s);
  let s1 := (s <| vp_provider := y |>) <| vp_trace := vp_trace s ++ [l] |> in
  match result_of out, vp_calls s with
  | None, _ => Some s1
  | Some res, [] => None
  | Some res, call :: calls =>
      st ← vp_streams s !! rc_stream call;
      let '(st', r) := read_finish (rc_want call) res st in
      Some (put_stream (rc_stream call) st'
              ((s1 <| vp_calls := calls |>) <| vp_done := vp_done s ++ [(rc_stream call, rc_pos call, r)] |>))
  end.

Definition paste_exec (l : PasteLabel) (s : PasteSys) : option PasteSys :=
  match l with
  | VpOpen tid spec => Some (put_stream (vp_next s) (new_stream tid spec) (s <| vp_next := vp_next s + 1 |>))
  | VpSeek o delta dwOrigin =>
      if fpumping (ps_stack (vp_provider s)) then
        st ← vp_streams s !! o;
        Some (put_stream o (Seek delta dwOrigin st).1 s)
      else None
  | VpRead o pv_null cb pipe_present event_created =>
      if fpumping (ps_stack (vp_provider s)) then
        st ← vp_streams s !! o;
        match read_begin pv_null cb st with
        | RbReturn r => Some (s <| vp_done := vp_done s ++ [(o, vs_pos st, r)] |>)
        | RbFetch st' want =>
            provider_acts (FLFetch pipe_present (vs_transfer_id st') (vs_file_id st') (vs_pos st') want event_created)
              (put_stream o st' (s <| vp_calls := Build_ReadCall o want (vs_pos st') :: vp_calls s |>))
        end
      else None
  | VpProvider l =>
      match l with
      | FLFetch _ _ _ _ _ _ => None
      | _ => provider_acts l s
      end
  end.
Definition run_paste : list PasteLabel -> PasteSys -> option PasteSys := run_exec paste_exec.

(** ** What the peer sends *)

(** Every error-free FILE_CHUNK_DATA for the file has bytes of [content] from its
    offset on. *)
Definition honest (tid fid content : list Z) (l : FetchLabel) : Prop :=
  match l with
  | FLDeliver tid' fid' off data _ error =>
      tid' = tid -> fid' = fid -> error = [] -> data `prefix_of` drop (Z.to_nat off) content
  | _ => True
  end.

(** Identifiers without the separator of the provider's keys, 64-bit offsets. *)
Definition plain_id (id : list Z) : Prop := 124 ∉ id.
#[export] Instance plain_id_dec id : Decision (plain_id id).
Proof. unfold plain_id. apply _. Defined.
Definition plain_label (l : FetchLabel) : Prop :=
  match l with FLDeliver tid fid off _ _ _ => plain_id tid /\ plain_id fid /\ is_u64 off | _ => True end.

(** 32-bit counts, 64-bit sizes and plain identifiers. *)
Definition label_ok (l : PasteLabel) : Prop :=
  match l with
  | VpOpen tid spec => plain_id tid /\ plain_id (vfs_file_id spec) /\ is_u64 (vfs_size spec)
  | VpRead _ _ cb _ _ => is_u32 cb
  | VpProvider l => plain_label l
  | VpSeek _ _ _ => True
  end.
(** The two apart: what the types of the code guarantee, and what it takes for
    granted of the identifiers the peer chooses. *)
Definition widths (l : PasteLabel) : Prop :=
  match l with
  | VpOpen _ spec => is_u64 (vfs_size spec)
  | VpRead _ _ cb _ _ => is_u32 cb
  | VpProvider (FLDeliver _ _ off _ _ _) => is_u64 off
  | _ => True
  end.
Definition ids_of (l : PasteLabel) : list (list Z) :=
  match l with
  | VpOpen tid spec => [tid; vfs_file_id spec]
  | VpProvider (FLDeliver tid fid _ _ _ _) => [tid; fid]
  | _ => []
  end.
Definition no_separator (l : PasteLabel) : Prop := Forall plain_id (ids_of l).
#[export] Instance no_separator_dec l : Decision (no_separator l).
Proof. unfold no_separator. apply _. Defined.

Lemma label_ok_split l : widths l -> no_separator l -> label_ok l.
Proof.
  unfold no_separator. destruct l as [tid spec|o delta origin|o pv cb pp ev|[]]; simpl; try done; intros Hw Hp;
    apply Forall_cons in Hp as [H1 Hp]; by apply Forall_cons in Hp as [H2 _].
Qed.

Lemma labels_ok ls : Forall widths ls -> Forall no_separator ls -> Forall label_ok ls.
Proof. induction 1 as [|l ls Hl _ IH]; [done|]. intros [? ?]%Forall_cons. apply Forall_cons. split; [by apply label_ok_split|by apply IH]. Qed.

Definition on_provider (P : FetchLabel -> Prop) (l : PasteLabel) : Prop := match l with VpProvider l => P l | _ => True end.
Definition never_sought (o : Z) (l : PasteLabel) : Prop := match l with VpSeek o' _ _ => o' <> o | _ => True end.

(** The bytes the reader of stream [o] has been given, in order. *)
Definition bytes_read (o : Z) (s : PasteSys) : list Z :=
  concat (map (fun e => rd_bytes e.2) (List.filter (fun e => e.1.1 =? o) (vp_done s))).

(** ** The provider's steps, for the reads *)

Definition frame_id (f : FetchFrame) : list Z * list Z * Z := (ff_transfer_id f, ff_file_id f, ff_offset f).

(** What a step of the provider means for the [Read]s: nothing, a new fetch, a
    fetch refused at once, or the innermost fetch returns an error or a reply
    of its own. *)
Inductive acts (tr : list FetchLabel) (l : FetchLabel) (fs fs' : list FetchFrame) (out : list FetchOutput) : Prop :=
| acts_quiet (Hl : match l with FLFetch _ _ _ _ _ _ => False | _ => True end) (Hr : result_of out = None)
             (Hs : map frame_id fs' = map frame_id fs)
| acts_enter f pp size ev (Hl : l = FLFetch pp (ff_transfer_id f) (ff_file_id f) (ff_offset f) size ev) (Hr : result_of out = None)
             (Hs : fs' = f :: fs)
| acts_refused res pp tid fid off size ev (Hl : l = FLFetch pp tid fid off size ev) (Hr : result_of out = Some res)
             (Hf : FAILED (fr_hr res) = true) (Hs : fs' = fs)
| acts_return f res (Hl : match l with FLFetch _ _ _ _ _ _ => False | _ => True end) (Hr : result_of out = Some res)
             (Hf : FAILED (fr_hr res) = true \/ (fr_hr res = S_OK /\ own_reply tr f res)) (Hs : fs = f :: fs').

Lemma fetch_exec_acts tr l y y' out :
  fetch_inv tr y -> fetch_exec l y = Some (y', out) -> acts tr l (ps_stack y) (ps_stack y') out.
Proof.
  intros Hi He. destruct y as [p fs].
  destruct l as [pp tid fid off sz ev|clock sent now|now a|q| |tid fid off d last err| |slot]; simpl in He.
  - destruct (fpumping fs); [|done]. unfold fetch_enter in He. cbv zeta in He.
    destruct (negb pp); [simplify_eq; by eapply acts_refused|].
    destruct (_ || _)%bool; [simplify_eq; by eapply acts_refused|].
    destruct (negb ev); [simplify_eq; by eapply acts_refused|]. simplify_eq. simpl. eapply acts_enter; [|done|reflexivity]. done.
  - destruct fs as [|f fs]; [done|]. destruct (ChunkProvider.ff_pc f); try done. unfold fetch_send in He.
    destruct sent; simpl in He; simplify_eq; simpl; [by apply acts_quiet|]. eapply acts_return; [done|done|by left|done].
  - destruct fs as [|f fs]; [done|]. destruct (ChunkProvider.ff_pc f) as [|start| |]; try done.
    destruct (fetch_wait f start now a p) as [p' f'] eqn:E.
    assert (y' = Build_ProviderSys p' (f' :: fs) /\ out = []) as [-> ->]
      by (destruct a, (slots p !! ff_slot f ≫= pc_event) as [[]|]; by simplify_eq).
    apply acts_quiet; [done|done|]. unfold fetch_wait in E. simpl. f_equal. by destruct (wait_budget _ _ _), a; simplify_eq.
  - destruct fs as [|f fs]; [done|]. destruct (ChunkProvider.ff_pc f); try done. destruct (slots p !! ff_slot f) as [sl|]; [|done]. simplify_eq.
    apply acts_quiet; [done|done|]. simpl. f_equal. unfold fetch_pumped. by case_tests.
  - destruct fs as [|f fs]; [done|]. destruct (ChunkProvider.ff_pc f) as [| | |q]; try done. destruct (slots p !! ff_slot f) as [sl|] eqn:Esl; [|done].
    simplify_eq. eapply acts_return; [done|done|by eapply detach_reply|done].
  - simplify_eq. by apply acts_quiet.
  - simplify_eq. by apply acts_quiet.
  - case_bool_decide; [|done]. simplify_eq. by apply acts_quiet.
Qed.

(** ** The stream's side of a fetch *)

Definition same_file (st st' : VirtualFileStream) : Prop :=
  vs_transfer_id st' = vs_transfer_id st /\ vs_file_id st' = vs_file_id st /\ vs_size st' = vs_size st.

Lemma read_finish_spec want res st st' r :
  read_finish want res st = (st', r) -> 0 < want < 2 ^ 32 ->
  same_file st st' /\ vs_reading st' = false /\ rd_bytes r `prefix_of` fr_data res /\ Zlen (rd_bytes r) <= want /\
  (FAILED (fr_hr res) = true -> rd_bytes r = []) /\
  (vs_pos st' = vs_pos st /\ rd_bytes r = [] \/ vs_pos st' = u64 (vs_pos st + Zlen (rd_bytes r))) /\
  (rd_hr r = S_FALSE -> vs_size st' <= vs_pos st').
Proof.
  unfold read_finish. intros He Hw. destruct (FAILED (fr_hr res)) eqn:Ef.
  - injection He as <- <-. split_and!; try done; simpl; [apply prefix_nil|unfold Zlen; simpl; lia|by left|]. intros E. by rewrite E in Ef.
  - assert (Hgot : u32 (Z.min (Zlen (fr_data res)) want) = Z.min (Zlen (fr_data res)) want).
    { apply u32_small. pose proof (Zlen_nonneg (fr_data res)). unfold is_u32. lia. }
    cbv zeta in He. rewrite Hgot in He. pose proof (Zlen_nonneg (fr_data res)) as Hn.
    set (got := Z.min (Zlen (fr_data res)) want) in *.
    destruct (want >? 0) eqn:Ew; [|rewrite Z.gtb_ltb in Ew; zbool; lia]. rewrite andb_true_r in He.
    destruct (got =? 0) eqn:E0; zbool; [injection He as <- <-; split_and!; try done; simpl; [apply prefix_nil|unfold Zlen; simpl; lia|by left]|].
    destruct (got >? 0) eqn:Eg; [|rewrite Z.gtb_ltb in Eg; zbool; lia]. injection He as <- <-. simpl.
    assert (Hl : Zlen (take (Z.to_nat got) (fr_data res)) = got) by (unfold Zlen in *; rewrite length_take; lia).
    rewrite Hl. split_and!; try done; [apply prefix_take|lia|by right|].
    destruct (_ >=? vs_size st) eqn:Es; [|done]. rewrite Z.geb_leb in Es. by zbool.
Qed.

Lemma Seek_spec delta origin st : same_file st (Seek delta origin st).1 /\ vs_reading (Seek delta origin st).1 = vs_reading st.
Proof. unfold Seek. repeat (case_match; simpl; try done). Qed.

Lemma read_begin_spec pv_null cb st :
  is_u32 cb ->
  match read_begin pv_null cb st with
  | RbReturn r => rd_bytes r = [] /\ (rd_hr r = S_FALSE -> vs_size st <= vs_pos st)
  | RbFetch st' want => st' = with_reading st true /\ vs_reading st = false /\ vs_pos st < vs_size st /\
                        (is_u64 (vs_size st) -> 0 <= vs_pos st -> want = Z.min (vs_size st - vs_pos st) cb /\ 0 < want < 2 ^ 32)
  end.
Proof.
  intros [Hc1 Hc2]. unfold read_begin. destruct pv_null; [done|]. destruct (cb =? 0) eqn:E; zbool; [done|].
  destruct (_ >=? _) eqn:E2; rewrite Z.geb_leb in E2; zbool; [done|]. destruct (vs_reading st); [done|]. split_and!; try done.
  intros Hs Hp. unfold is_u64 in Hs. rewrite u32_small; [|unfold is_u32]; lia.
Qed.

(** ** Invariants *)

(** A call in progress reads what the frame in its place fetches. *)
Definition call_ok (s : PasteSys) (call : ReadCall) (id : list Z * list Z * Z) : Prop :=
  exists st, vp_streams s !! rc_stream call = Some st /\ vs_reading st = true /\
    id = (vs_transfer_id st, vs_file_id st, rc_pos call) /\ is_u64 (rc_pos call) /\ 0 < rc_want call < 2 ^ 32.

(** The bytes of a finished read came in a reply for its file and position. *)
Definition read_ok (s : PasteSys) (e : Z * Z * VirtualFile.ReadResult) : Prop :=
  exists st, vp_streams s !! e.1.1 = Some st /\
    (rd_bytes e.2 = [] \/
     exists data last, (FLDeliver (vs_transfer_id st) (vs_file_id st) e.1.2 data last []) ∈ vp_trace s /\ rd_bytes e.2 `prefix_of` data).

(** [ids]: the fetches in progress. *)
Record calls_inv (ids : list (list Z * list Z * Z)) (s : PasteSys) : Prop := {
  ca_streams : forall o st, vp_streams s !! o = Some st ->
    o < vp_next s /\ plain_id (vs_transfer_id st) /\ plain_id (vs_file_id st) /\ is_u64 (vs_size st) /\ is_u64 (vs_pos st);
  ca_calls : Forall2 (call_ok s) (vp_calls s) ids;
  ca_once : NoDup (map rc_stream (vp_calls s));
  ca_done : Forall (read_ok s) (vp_done s)
}.

(** A stream nobody seeks on: its position is the number of bytes read from it,
    each read started where the one before ended, and none was past the end. *)
Definition contiguous (o : Z) (s : PasteSys) : Prop :=
  forall before e after, vp_done s = before ++ e :: after -> e.1.1 = o ->
    e.1.2 = Zlen (concat (map (fun e => rd_bytes e.2) (List.filter (fun e => e.1.1 =? o) before))).

Record smooth (o : Z) (s : PasteSys) : Prop := {
  sm_pos : forall st, vp_streams s !! o = Some st -> vs_pos st = Zlen (bytes_read o s) /\ vs_pos st <= vs_size st;
  sm_calls : forall st call, vp_streams s !! o = Some st -> call ∈ vp_calls s -> rc_stream call = o ->
    rc_pos call = vs_pos st /\ rc_want call <= vs_size st - vs_pos st;
  sm_end : forall st p r, vp_streams s !! o = Some st -> (o, p, r) ∈ vp_done s -> rd_hr r = S_FALSE -> vs_pos st = vs_size st;
  sm_contiguous : contiguous o s
}.

(** Other provider, more of its trace. *)
Lemma calls_trace ids y tr s : calls_inv ids s -> calls_inv ids ((s <| vp_provider := y |>) <| vp_trace := vp_trace s ++ tr |>).
Proof.
  intros [H1 H2 H3 H4]. split; try done. simpl. eapply Forall_impl; [exact H4|]. intros e (st & Hst & Hb). exists st. split; [done|].
  destruct Hb as [Hb|(data & last & Hin & Hp)]; [by left|right]. exists data, last. split; [|done]. simpl. apply elem_of_app. by left.
Qed.

Lemma smooth_trace o y tr s : smooth o s -> smooth o ((s <| vp_provider := y |>) <| vp_trace := tr |>).
Proof. by intros [H1 H2 H3 H4]. Qed.

(** A stream replaced by one of the same file. *)
Lemma call_ok_put o st st' s call id :
  vp_streams s !! o = Some st -> same_file st st' -> (rc_stream call = o -> vs_reading st' = true) ->
  call_ok s call id -> call_ok (put_stream o st' s) call id.
Proof.
  intros Ho (E1 & E2 & E3) Hr (st0 & Hst & Hf & -> & Hp & Hw). destruct (decide (rc_stream call = o)) as [<-|Hne].
  - exists st'. rewrite Hst in Ho. injection Ho as <-. simpl. rewrite lookup_insert_eq, E1, E2. split; [done|]. split; [auto|]. done.
  - exists st0. simpl. rewrite lookup_insert_ne by done. done.
Qed.

Lemma read_ok_put o st st' s e : vp_streams s !! o = Some st -> same_file st st' -> read_ok s e -> read_ok (put_stream o st' s) e.
Proof.
  intros Ho (E1 & E2 & E3) (st0 & Hst & Hb). destruct (decide (e.1.1 = o)) as [He|Hne].
  - exists st'. rewrite He, Ho in Hst. injection Hst as <-. simpl. rewrite He, lookup_insert_eq, E1, E2. by split.
  - exists st0. simpl. rewrite lookup_insert_ne by done. by split.
Qed.

Lemma streams_put ids o st st' s :
  calls_inv ids s -> vp_streams s !! o = Some st -> same_file st st' -> is_u64 (vs_pos st') ->
  forall o' st0, vp_streams (put_stream o st' s) !! o' = Some st0 ->
    o' < vp_next s /\ plain_id (vs_transfer_id st0) /\ plain_id (vs_file_id st0) /\ is_u64 (vs_size st0) /\ is_u64 (vs_pos st0).
Proof.
  intros Hi Ho (E1 & E2 & E3) Hp o' st0. simpl. destruct (decide (o' = o)) as [->|Hne].
  - rewrite lookup_insert_eq. intros [= <-]. rewrite E1, E2, E3. destruct (ca_streams _ _ Hi _ _ Ho) as (?&?&?&?&?). by split_and!.
  - rewrite lookup_insert_ne by done. apply (ca_streams _ _ Hi).
Qed.


(** ** A read begins *)

Lemma calls_idle ids o st s call :
  calls_inv ids s -> vp_streams s !! o = Some st -> vs_reading st = false -> call ∈ vp_calls s -> rc_stream call <> o.
Proof.
  intros Hi Ho Hr Hin E. destruct (Forall2_in_l _ _ _ _ (ca_calls _ _ Hi) Hin) as (id & st' & Hst & Hf & _). congruence.
Qed.

Lemma calls_push ids o st want s :
  calls_inv ids s -> vp_streams s !! o = Some st -> vs_reading st = false -> 0 < want < 2 ^ 32 ->
  calls_inv ((vs_transfer_id st, vs_file_id st, vs_pos st) :: ids)
    (put_stream o (with_reading st true) (s <| vp_calls := Build_ReadCall o want (vs_pos st) :: vp_calls s |>)).
Proof.
  intros Hi Ho Hr Hw. pose proof Hi as [H1 H2 H3 H4].
  assert (Hidle : forall call, call ∈ vp_calls s -> rc_stream call <> o) by (intros call; by eapply calls_idle).
  destruct (H1 _ _ Ho) as (_ & _ & _ & _ & Hpos).
  split.
  - apply (streams_put ids o st (with_reading st true) s); done.
  - constructor.
    + exists (with_reading st true). simpl. by rewrite lookup_insert_eq.
    + eapply Forall2_impl; [exact H2|]. intros call id Hc. by apply (call_ok_put o st).
  - simpl. constructor; [|done]. intros Hin. apply list_elem_of_fmap in Hin as (call & -> & Hin). by destruct (Hidle call).
  - eapply Forall_impl; [exact H4|]. intros e He. by apply (read_ok_put o st).
Qed.

Lemma smooth_push o' o st want s :
  smooth o' s -> vp_streams s !! o = Some st -> want <= vs_size st - vs_pos st ->
  smooth o' (put_stream o (with_reading st true) (s <| vp_calls := Build_ReadCall o want (vs_pos st) :: vp_calls s |>)).
Proof.
  intros [S1 S2 S3 S4] Ho Hw. destruct (decide (o' = o)) as [->|Hne]; split; try done; unfold bytes_read in *; simpl;
    rewrite ?lookup_insert_eq, ?lookup_insert_ne by done; try done.
  - intros ? [= <-]. by apply (S1 st).
  - intros ? call [= <-] [->|Hin]%elem_of_cons Hs; [done|]. by apply (S2 st).
  - intros ? p r [= <-]. by apply (S3 st).
  - intros st0 call Hst [->|Hin]%elem_of_cons Hs; [done|]. by apply (S2 st0).
Qed.

(** ** A read returns *)

Lemma bytes_read_snoc o e s s' :
  vp_done s' = vp_done s ++ [e] -> bytes_read o s' = bytes_read o s ++ (if e.1.1 =? o then rd_bytes e.2 else []).
Proof.
  unfold bytes_read. intros ->. rewrite List.filter_app, map_app, concat_app. simpl. destruct (e.1.1 =? o); simpl; [by rewrite app_nil_r|done].
Qed.

Lemma contiguous_snoc o e s s' :
  vp_done s' = vp_done s ++ [e] -> contiguous o s -> (e.1.1 = o -> e.1.2 = Zlen (bytes_read o s)) -> contiguous o s'.
Proof.
  unfold contiguous. intros -> Hc He before e' after Heq Ho.
  destruct after as [|x after _] using rev_ind.
  - apply app_inj_tail in Heq as [<- <-]. by apply He.
  - rewrite app_comm_cons, app_assoc in Heq. apply app_inj_tail in Heq as [Heq _]. by eapply Hc.
Qed.

(** ... at once, without a byte. *)
Lemma calls_done ids o st r s :
  calls_inv ids s -> vp_streams s !! o = Some st -> rd_bytes r = [] ->
  calls_inv ids (s <| vp_done := vp_done s ++ [(o, vs_pos st, r)] |>).
Proof.
  intros [H1 H2 H3 H4] Ho Hr. split; try done. simpl. apply Forall_app. split; [done|]. constructor; [|constructor].
  exists st. split; [done|by left].
Qed.

Lemma smooth_done o' o st r s :
  smooth o' s -> vp_streams s !! o = Some st -> rd_bytes r = [] -> (rd_hr r = S_FALSE -> vs_size st <= vs_pos st) ->
  smooth o' (s <| vp_done := vp_done s ++ [(o, vs_pos st, r)] |>).
Proof.
  intros [S1 S2 S3 S4] Ho Hr He. split; simpl; try done.
  - intros st' Hst. rewrite (bytes_read_snoc o' (o, vs_pos st, r) s) by done. simpl. rewrite Hr. case_tests; rewrite app_nil_r; by apply S1.
  - intros st' p r' Hst [Hin|Hin%list_elem_of_singleton]%elem_of_app Hx; [by eapply S3|]. simplify_eq.
    destruct (S1 _ Ho). specialize (He Hx). lia.
  - eapply contiguous_snoc; [done|done|]. simpl. intros ->. by apply S1.
Qed.

(** ... from its fetch. *)
Section Finish.
Context (id : list Z * list Z * Z) (ids : list (list Z * list Z * Z)) (s : PasteSys) (call : ReadCall) (calls : list ReadCall).
Context (st st' : VirtualFileStream) (res : FetchResult) (r : VirtualFile.ReadResult).
Context (Hi : calls_inv (id :: ids) s) (Hcalls : vp_calls s = call :: calls) (Ho : vp_streams s !! rc_stream call = Some st).
Context (Hf : read_finish (rc_want call) res st = (st', r)).

Definition finished : PasteSys :=
  put_stream (rc_stream call) st' ((s <| vp_calls := calls |>) <| vp_done := vp_done s ++ [(rc_stream call, rc_pos call, r)] |>).

Lemma finish_facts :
  id = (vs_transfer_id st, vs_file_id st, rc_pos call) /\ 0 < rc_want call < 2 ^ 32 /\ Forall2 (call_ok s) calls ids /\
  NoDup (rc_stream call :: map rc_stream calls) /\ is_u64 (vs_pos st).
Proof using Hi Hcalls Ho.
  destruct Hi as [H1 H2 H3 H4]. rewrite Hcalls in H2, H3. apply Forall2_cons in H2 as [(st0 & Hst & _ & -> & _ & Hw) H2].
  rewrite Ho in Hst. injection Hst as <-. split_and!; try done; try apply Hw. by apply H1 in Ho as (_ & _ & _ & _ & ?).
Qed.

Lemma calls_finish :
  FAILED (fr_hr res) = true \/ (exists last, (FLDeliver id.1.1 id.1.2 id.2 (fr_data res) last []) ∈ vp_trace s) ->
  calls_inv ids finished.
Proof using Hi Hcalls Ho Hf.
  intros Hres. destruct finish_facts as (Hid & Hw & H2 & H3 & Hpos).
  destruct (read_finish_spec _ _ _ _ _ Hf Hw) as (Hs & Hrd & Hb & Hl & Hfail & Hp & _). pose proof Hi as [H1 _ _ H4].
  apply NoDup_cons in H3 as [Hn H3]. split.
  - apply (streams_put (id :: ids) (rc_stream call) st st' s); try done. destruct Hp as [[-> _]| ->]; [done|apply u64_range].
  - simpl. eapply Forall2_impl_in; [exact H2|]. intros c i Hin Hc. apply (call_ok_put _ st); try done.
    intros E. destruct Hn. apply list_elem_of_fmap. by exists c.
  - done.
  - simpl. apply Forall_app. split.
    + eapply Forall_impl; [exact H4|]. intros e He. by apply (read_ok_put _ st).
    + constructor; [|constructor]. destruct Hs as (E1 & E2 & _). exists st'. simpl. rewrite lookup_insert_eq. split; [done|].
      destruct Hres as [Hx|[last Hin]]; [left; auto|right]. rewrite E1, E2. rewrite Hid in Hin. by exists (fr_data res), last.
Qed.

Lemma smooth_finish o : smooth o s -> smooth o finished.
Proof using Hi Hcalls Ho Hf.
  intros [S1 S2 S3 S4]. destruct finish_facts as (Hid & Hw & H2 & H3 & Hpos).
  destruct (read_finish_spec _ _ _ _ _ Hf Hw) as ((_ & _ & Hsz) & Hrd & Hb & Hl & Hfail & Hp & He). apply NoDup_cons in H3 as [Hn H3].
  assert (Hin : call ∈ vp_calls s) by (rewrite Hcalls; by left).
  assert (Hother : forall c, c ∈ calls -> rc_stream c <> rc_stream call).
  { intros c Hc E. destruct Hn. apply list_elem_of_fmap. by exists c. }
  assert (Hbr : bytes_read o finished = bytes_read o s ++ (if rc_stream call =? o then rd_bytes r else [])) by (by apply (bytes_read_snoc o (rc_stream call, rc_pos call, r) s)).
  pose proof (ca_streams _ _ Hi _ _ Ho) as (_ & _ & _ & Hsz64 & _).
  destruct (decide (o = rc_stream call)) as [->|Hne].
  - rewrite Z.eqb_refl in Hbr. destruct (S1 _ Ho) as [Hpos1 Hle]. destruct (S2 _ _ Ho Hin eq_refl) as [Hcp Hcw].
    pose proof (Zlen_nonneg (rd_bytes r)) as Hn0.
    assert (Hp' : vs_pos st' = vs_pos st + Zlen (rd_bytes r)).
    { destruct Hp as [[-> ->]| ->]; [unfold Zlen; simpl; lia|]. apply u64_small. unfold is_u64 in *. lia. }
    split.
    + intros st0. unfold finished at 1. simpl. rewrite lookup_insert_eq, Hbr, Zlen_app. intros [= <-]. rewrite Hsz. lia.
    + intros st0 c. unfold finished. simpl. intros _ Hc E. by destruct (Hother c).
    + intros st0 p r0. unfold finished. simpl. rewrite lookup_insert_eq. intros [= <-] [Hd|Hd%list_elem_of_singleton]%elem_of_app Hx.
      * specialize (S3 _ _ _ Ho Hd Hx). lia.
      * simplify_eq. specialize (He Hx). lia.
    + eapply contiguous_snoc; [done|done|]. simpl. intros _. by rewrite Hcp.
  - assert (Eo : (rc_stream call =? o) = false) by (apply Z.eqb_neq; congruence). rewrite Eo, app_nil_r in Hbr. split.
    + intros st0. unfold finished at 1. simpl. rewrite lookup_insert_ne, Hbr by done. apply S1.
    + intros st0 c. unfold finished. simpl. rewrite lookup_insert_ne by done. intros Hst Hc. apply S2; [done|]. rewrite Hcalls. by right.
    + intros st0 p r0. unfold finished. simpl. rewrite lookup_insert_ne by done. intros Hst [Hd|Hd%list_elem_of_singleton]%elem_of_app; [by eapply S3|].
      simplify_eq.
    + eapply contiguous_snoc; [done|done|]. simpl. congruence.
Qed.
End Finish.

(** ** Every step *)

Record paste_inv (s : PasteSys) : Prop := {
  pv_fetch : fetch_inv (vp_trace s) (vp_provider s);
  pv_plain : Forall plain_label (vp_trace s);
  pv_calls : calls_inv (map frame_id (ps_stack (vp_provider s))) s
}.

(** What one step keeps. *)
Definition keeps (s s' : PasteSys) (unsought : Z -> Prop) : Prop :=
  paste_inv s' /\ forall o, unsought o -> smooth o s -> smooth o s'.

Lemma own_reply_exact tr f res :
  own_reply tr f res -> Forall plain_label tr -> plain_id (ff_transfer_id f) -> plain_id (ff_file_id f) -> is_u64 (ff_offset f) ->
  exists last, (FLDeliver (ff_transfer_id f) (ff_file_id f) (ff_offset f) (fr_data res) last []) ∈ tr.
Proof.
  intros (tid & fid & off & Hin & Hk) Hp Ht Hf Ho. destruct (proj1 (Forall_forall _ _) Hp _ Hin) as (H1 & H2 & H3).
  apply MakeKey_inj in Hk as (-> & -> & ->); [by eexists|done..].
Qed.

(** The innermost call returns what its fetch returned. *)
Lemma provider_returns l s y out f res s' :
  paste_inv s -> fetch_exec l (vp_provider s) = Some (y, out) -> plain_label l -> ps_stack (vp_provider s) = f :: ps_stack y ->
  (FAILED (fr_hr res) = true \/ (fr_hr res = S_OK /\ own_reply (vp_trace s) f res)) ->
  let s1 := (s <| vp_provider := y |>) <| vp_trace := vp_trace s ++ [l] |> in
  match vp_calls s with
  | [] => None
  | call :: calls =>
      st ← vp_streams s !! rc_stream call;
      let '(st', r) := read_finish (rc_want call) res st in
      Some (put_stream (rc_stream call) st' ((s1 <| vp_calls := calls |>) <| vp_done := vp_done s ++ [(rc_stream call, rc_pos call, r)] |>))
  end = Some s' -> keeps s s' (fun _ => True).
Proof.
  intros [Hf Hp Hc] He Hl Hst Hres s1 Hs. rewrite Hst in Hc. simpl in Hc.
  destruct (vp_calls s) as [|call calls] eqn:Ecalls; [done|].
  destruct (vp_streams s !! rc_stream call) as [st|] eqn:Eo; simpl in Hs; [|done].
  destruct (read_finish (rc_want call) res st) as [st' r] eqn:Er. injection Hs as <-.
  pose proof (calls_trace _ y [l] _ Hc) as Hc1. rewrite Ecalls in Hc1. fold s1 in Hc1.
  destruct (finish_facts _ _ s1 call calls st Hc1 eq_refl Eo) as (Hid & _ & _ & _ & _).
  assert (Hpos : is_u64 (rc_pos call)).
  { pose proof (ca_calls _ _ Hc) as H2. rewrite Ecalls in H2. apply Forall2_cons in H2 as [(? & _ & _ & _ & ? & _) _]. done. }
  destruct (ca_streams _ _ Hc _ _ Eo) as (_ & Ht & Hfi & _ & _). unfold frame_id in Hid. injection Hid as E1 E2 E3.
  assert (Hr' : FAILED (fr_hr res) = true \/ exists last, (FLDeliver (frame_id f).1.1 (frame_id f).1.2 (frame_id f).2 (fr_data res) last []) ∈ vp_trace s1).
  { destruct Hres as [?|[_ Hown]]; [by left|right]. destruct (own_reply_exact _ _ _ Hown Hp) as [last Hin]; [congruence..|].
    exists last. simpl. apply elem_of_app. by left. }
  split.
  - split; [by eapply fetch_exec_inv|by apply Forall_app; split; [|repeat constructor]|].
    by apply (calls_finish (frame_id f) _ s1 call calls st st' res r).
  - intros o _ Hsm. apply (smooth_finish (frame_id f) (map frame_id (ps_stack y)) s1 call calls st st' res r Hc1 eq_refl Eo Er).
    apply (smooth_trace o y (vp_trace s ++ [l])) in Hsm. rewrite Ecalls in Hsm. exact Hsm.
Qed.

Lemma provider_step l s s' :
  provider_acts l s = Some s' -> match l with FLFetch _ _ _ _ _ _ => False | _ => True end -> plain_label l -> paste_inv s ->
  keeps s s' (fun _ => True).
Proof.
  unfold provider_acts. intros Hs Hl Hp Hi. pose proof Hi as [Hf Ht Hc].
  destruct (fetch_exec l (vp_provider s)) as [[y out]|] eqn:He; simpl in Hs; [|done].
  destruct (fetch_exec_acts _ _ _ _ _ Hf He) as [_ Hr Hst|? ? ? ? ->|? ? ? ? ? ? ? ->|f res _ Hr Hres Hst]; try done; rewrite Hr in Hs.
  - injection Hs as <-. split; [|intros o _; by apply smooth_trace].
    split; [by eapply fetch_exec_inv|by apply Forall_app; split; [|repeat constructor]|]. simpl. rewrite Hst. by apply calls_trace.
  - by eapply provider_returns.
Qed.

(** [Read]. *)
Lemma read_step o pv_null cb pp ev s s' :
  paste_exec (VpRead o pv_null cb pp ev) s = Some s' -> is_u32 cb -> paste_inv s -> keeps s s' (fun _ => True).
Proof.
  simpl. intros Hs Hcb Hi. pose proof Hi as [Hf Ht Hc]. destruct (fpumping _); [|done].
  destruct (vp_streams s !! o) as [st|] eqn:Eo; simpl in Hs; [|done]. pose proof (read_begin_spec pv_null cb st Hcb) as Hb.
  destruct (ca_streams _ _ Hc _ _ Eo) as (_ & _ & _ & Hsz & Hpos).
  destruct (read_begin pv_null cb st) as [r|st1 want].
  - injection Hs as <-. destruct Hb as [Hb He]. split; [split; [done|done|by apply calls_done]|]. intros o' _ Hsm. by apply smooth_done.
  - destruct Hb as (-> & Hr & Hlt & Hw). destruct (Hw Hsz ltac:(apply Hpos)) as [Hwant Hwr].
    change (vs_pos (with_reading st true)) with (vs_pos st) in Hs. change (vs_transfer_id (with_reading st true)) with (vs_transfer_id st) in Hs.
    change (vs_file_id (with_reading st true)) with (vs_file_id st) in Hs.
    set (s1 := put_stream o (with_reading st true) (s <| vp_calls := Build_ReadCall o want (vs_pos st) :: vp_calls s |>)) in *.
    assert (Hc1 : calls_inv ((vs_transfer_id st, vs_file_id st, vs_pos st) :: map frame_id (ps_stack (vp_provider s))) s1) by (by apply calls_push).
    assert (Hs1 : forall o', smooth o' s -> smooth o' s1) by (intros o' Hsm; apply smooth_push; [done|done|lia]).
    unfold provider_acts in Hs. change (vp_provider s1) with (vp_provider s) in Hs.
    destruct (fetch_exec _ (vp_provider s)) as [[y out]|] eqn:He; cbn -[fetch_exec read_finish] in Hs; [|done].
    destruct (fetch_exec_acts _ _ _ _ _ Hf He) as [[]|f pp' size ev' Hl Hres Hst|res pp' tid fid off size ev' Hl Hres Hfail Hst|f res []]; rewrite Hres in Hs.
    + injection Hs as <-. split; [|intros o' _ Hsm; by apply (smooth_trace o' y (vp_trace s ++ [_]) s1), Hs1].
      split; [by eapply fetch_exec_inv|by apply Forall_app; split; [|repeat constructor]|]. simpl. rewrite Hst. simpl.
      unfold frame_id at 1. injection Hl as _ <- <- <- _ _. by apply (calls_trace _ y [_] s1).
    + rewrite lookup_insert_eq in Hs. cbn -[read_finish] in Hs.
      destruct (read_finish want res (with_reading st true)) as [st' r] eqn:Er. injection Hs as <-.
      pose proof (calls_trace _ y [FLFetch pp (vs_transfer_id st) (vs_file_id st) (vs_pos st) want ev] _ Hc1) as Hc2.
      assert (Eo2 : vp_streams s1 !! o = Some (with_reading st true)) by (unfold s1; simpl; by rewrite lookup_insert_eq).
      split.
      * split; [by eapply fetch_exec_inv|by apply Forall_app; split; [|repeat constructor]|]. simpl. rewrite Hst.
        by apply (calls_finish _ _ _ (Build_ReadCall o want (vs_pos st)) (vp_calls s) (with_reading st true) st' res r Hc2); [| | |left].
      * intros o' _ Hsm. apply (smooth_finish _ _ _ (Build_ReadCall o want (vs_pos st)) (vp_calls s) (with_reading st true) st' res r Hc2); try done.
        by apply smooth_trace, Hs1.
Qed.

Lemma Seek_u64 delta origin st : is_u64 (vs_pos st) -> is_u64 (vs_size st) -> is_u64 (vs_pos (Seek delta origin st).1).
Proof.
  intros Hp Hs. unfold Seek. destruct (if origin =? _ then _ else _) as [base|] eqn:Eb; [|done].
  assert (Hb : 0 <= base) by (unfold is_u64 in *; repeat case_match; simplify_eq; lia).
  pose proof (u64_range delta) as Hd. pose proof (u64_range (u64 (- (delta + 1)) + 1)) as Hm. unfold is_u64 in *.
  destruct (if delta >=? 0 then _ else _) as [t|] eqn:Et; [|done]. destruct (t >? 2 ^ 63 - 1) eqn:E; [done|]. simpl.
  rewrite Z.gtb_ltb in E. zbool. split; [|lia]. cbv zeta in Et.
  destruct (delta >=? 0); [destruct (_ >? _); [done|]; simplify_eq; lia|].
  destruct (_ >? base) eqn:E2; [done|]. rewrite Z.gtb_ltb in E2. zbool. simplify_eq. lia.
Qed.

(** A stream of its own. *)
Lemma open_step tid spec s s' :
  paste_exec (VpOpen tid spec) s = Some s' -> label_ok (VpOpen tid spec) -> paste_inv s -> keeps s s' (fun _ => True).
Proof.
  simpl. intros [= <-] (Ht & Hfi & Hsz) [Hf Hp [H1 H2 H3 H4]].
  assert (Hfresh : vp_streams s !! vp_next s = None).
  { destruct (vp_streams s !! vp_next s) as [st|] eqn:E; [|done]. apply H1 in E. lia. }
  assert (Hsame : forall o st, vp_streams s !! o = Some st -> <[vp_next s := new_stream tid spec]> (vp_streams s) !! o = Some st).
  { intros o st Ho. rewrite lookup_insert_ne; [done|congruence]. }
  split; [split; [done|done|]; split; simpl; [| |done|]|].
  - intros o st. destruct (decide (o = vp_next s)) as [->|Hne].
    + rewrite lookup_insert_eq. intros [= <-]. split_and!; try done; simpl; try lia; apply Hsz.
    + rewrite lookup_insert_ne by done. intros Ho. destruct (H1 _ _ Ho) as (?&?&?&?&?). split_and!; try done; lia || apply H || idtac.
  - eapply Forall2_impl; [exact H2|]. intros call id (st & Hst & Hr). exists st. split; [by apply Hsame|done].
  - eapply Forall_impl; [exact H4|]. intros e (st & Hst & Hr). exists st. split; [by apply Hsame|done].
  - intros o _ [S1 S2 S3 S4]. destruct (decide (o = vp_next s)) as [->|Hne].
    + assert (Hnone : forall e, e ∈ vp_done s -> e.1.1 <> vp_next s).
      { intros e Hin E. destruct (proj1 (Forall_forall _ _) H4 _ Hin) as (st & Hst & _). congruence. }
      assert (Hb : bytes_read (vp_next s) s = []).
      { unfold bytes_read. destruct (List.filter _ (vp_done s)) as [|e l] eqn:E; [done|].
        assert (He : e ∈ List.filter (fun e => e.1.1 =? vp_next s) (vp_done s)) by (rewrite E; by left).
        apply list_elem_of_In, filter_In in He as [He Ee]. apply Z.eqb_eq in Ee. apply list_elem_of_In in He. by destruct (Hnone e). }
      split; try done.
      * intros st. simpl. rewrite lookup_insert_eq. intros [= <-]. change (bytes_read _ _) with (bytes_read (vp_next s) s). rewrite Hb.
        simpl. unfold is_u64 in Hsz. unfold Zlen. simpl. lia.
      * intros st call. simpl. intros _ Hin E. destruct (Forall2_in_l _ _ _ _ H2 Hin) as (id & st' & Hst & _). congruence.
      * intros st p r. simpl. intros _ Hin. by destruct (Hnone _ Hin).
    + by split; try done; simpl; rewrite lookup_insert_ne by done.
Qed.

Lemma seek_step o delta origin s s' :
  paste_exec (VpSeek o delta origin) s = Some s' -> paste_inv s -> keeps s s' (fun o' => o' <> o).
Proof.
  simpl. intros Hs [Hf Hp Hc]. destruct (fpumping _); [|done]. destruct (vp_streams s !! o) as [st|] eqn:Eo; simpl in Hs; [|done].
  injection Hs as <-. destruct (Seek_spec delta origin st) as [Hsame Hr]. destruct (ca_streams _ _ Hc _ _ Eo) as (_ & _ & _ & Hsz & Hpos).
  split; [split; [done|done|]|].
  - pose proof Hc as [H1 H2 H3 H4]. split.
    + apply (streams_put (map frame_id (ps_stack (vp_provider s))) o st (Seek delta origin st).1 s); try done. by apply Seek_u64.
    + simpl. eapply Forall2_impl; [exact H2|]. intros call id Hcall. apply (call_ok_put o st); try done.
      intros E. rewrite Hr. destruct Hcall as (st0 & Hst & Hrd & _). congruence.
    + done.
    + eapply Forall_impl; [exact H4|]. intros e He. by apply (read_ok_put o st).
  - intros o' Hne [S1 S2 S3 S4]. by split; try done; simpl; rewrite lookup_insert_ne by done.
Qed.

Lemma paste_exec_keeps l s s' :
  paste_exec l s = Some s' -> label_ok l -> paste_inv s -> keeps s s' (fun o => never_sought o l).
Proof.
  intros He Hl Hi. destruct l as [tid spec|o delta origin|o pv cb pp ev|l].
  - destruct (open_step _ _ _ _ He Hl Hi). by split; auto.
  - destruct (seek_step _ _ _ _ _ He Hi) as [H1 H2]. split; [done|]. intros o' Hne. apply H2. by intros ->.
  - destruct (read_step _ _ _ _ _ _ _ He Hl Hi). by split; auto.
  - simpl in He. destruct l; try done; (edestruct provider_step as [H1 H2]; [exact He|done|done|done|]; by split; auto).
Qed.

Lemma init_paste : paste_inv init_PasteSys.
Proof.
  split; [apply init_fetch_inv|constructor|]. split; simpl; [intros o st; by rewrite lookup_empty|constructor..].
Qed.

Lemma reachable_paste ls s :
  run_paste ls init_PasteSys = Some s -> Forall label_ok ls ->
  paste_inv s /\ forall o, Forall (never_sought o) ls -> smooth o s.
Proof.
  intros Hr Hls. split.
  - by apply (run_exec_invariant paste_exec paste_inv label_ok (fun l s s' H1 H2 H3 => proj1 (paste_exec_keeps l s s' H2 H1 H3)) ls init_PasteSys s Hls Hr), init_paste.
  - intros o Hns. apply (run_exec_invariant paste_exec (fun s => paste_inv s /\ smooth o s) (fun l => label_ok l /\ never_sought o l)) with (ls := ls) (s := init_PasteSys).
    + intros l s1 s2 [H1 H2] He [Hi Hsm]. destruct (paste_exec_keeps _ _ _ He H1 Hi). auto.
    + apply Forall_and. by split.
    + exact Hr.
    + split; [apply init_paste|].
      assert (Hn : forall st, vp_streams init_PasteSys !! o <> Some st) by (intros st; simpl; by rewrite lookup_empty).
      split; try (intros st; intros; by destruct (Hn st)). intros before e after E. by destruct before.
Qed.

(** What the provider is told of besides its own fetches are labels of the run. *)
Lemma trace_labels ls s l : run_paste ls init_PasteSys = Some s -> l ∈ vp_trace s -> match l with FLFetch _ _ _ _ _ _ => True | _ => VpProvider l ∈ ls end.
Proof.
  intros Hr. apply (run_exec_invariant paste_exec
    (fun s => forall l, l ∈ vp_trace s -> match l with FLFetch _ _ _ _ _ _ => True | _ => VpProvider l ∈ ls end) (fun x => x ∈ ls)) with (s := init_PasteSys) (ls := ls); [| |exact Hr|].
  - clear. intros x s s' Hx He HI l Hl.
    assert (Hacts : forall l' s1 s2, provider_acts l' s1 = Some s2 -> vp_trace s1 = vp_trace s -> vp_trace s2 = vp_trace s ++ [l']).
    { unfold provider_acts. intros l' s1 s2 H1 H2. destruct (fetch_exec l' _) as [[y out]|]; simpl in H1; [|done]. rewrite H2 in H1.
      destruct (result_of out); [|by injection H1 as <-]. destruct (vp_calls s1) as [|call calls]; [done|].
      destruct (vp_streams s1 !! _); simpl in H1; [|done]. destruct (read_finish _ _ _). by injection H1 as <-. }
    destruct x as [tid spec|o delta origin|o pv cb pp ev|x]; simpl in He.
    + injection He as <-. by apply HI.
    + destruct (fpumping _); [|done]. destruct (vp_streams s !! o); simpl in He; [|done]. injection He as <-. by apply HI.
    + destruct (fpumping _); [|done]. destruct (vp_streams s !! o); simpl in He; [|done].
      destruct (read_begin _ _ _); [injection He as <-; by apply HI|]. apply Hacts in He; [|done]. rewrite He in Hl.
      apply elem_of_app in Hl as [Hl|Hl%list_elem_of_singleton]; [by apply HI|by subst l].
    + assert (Hx' : vp_trace s' = vp_trace s ++ [x]) by (destruct x; try done; by apply Hacts in He). rewrite Hx' in Hl.
      apply elem_of_app in Hl as [Hl|Hl%list_elem_of_singleton]; [by apply HI|]. subst l. by destruct x.
  - by apply Forall_forall.
  - intros l' Hl'. by apply not_elem_of_nil in Hl'.
Qed.

(** ** What the readers see *)

Lemma contiguous_content (o : Z) (content : list Z) (l : list (Z * Z * VirtualFile.ReadResult)) :
  let bytes l := concat (map (fun e => rd_bytes e.2) (List.filter (fun e => e.1.1 =? o) l)) in
  (forall before e after, l = before ++ e :: after -> e.1.1 = o -> e.1.2 = Zlen (bytes before)) ->
  (forall e, e ∈ l -> e.1.1 = o -> rd_bytes e.2 `prefix_of` drop (Z.to_nat e.1.2) content) ->
  bytes l = take (length (bytes l)) content.
Proof.
  intros bytes. induction l as [|x l IH] using rev_ind; intros Hc Hp; [done|].
  assert (Hb : bytes (l ++ [x]) = bytes l ++ (if x.1.1 =? o then rd_bytes x.2 else [])).
  { unfold bytes. rewrite List.filter_app, map_app, concat_app. simpl. destruct (x.1.1 =? o); simpl; [by rewrite app_nil_r|done]. }
  assert (Hl : bytes l = take (length (bytes l)) content).
  { apply IH; [|intros e He; apply Hp, elem_of_app; by left]. intros before e after ->. apply (Hc before e (after ++ [x])). by rewrite <- app_assoc. }
  rewrite Hb. destruct (x.1.1 =? o) eqn:E; zbool; [|by rewrite app_nil_r].
  specialize (Hp x ltac:(apply elem_of_app; right; by left) E). rewrite (Hc l x [] eq_refl E), Zlen_to_nat in Hp.
  destruct Hp as [rest Hrest]. rewrite length_app. rewrite Hl at 1.
  rewrite <- (take_drop (length (bytes l)) content) at 2. rewrite take_app, length_take.
  assert (Hle : (length (bytes l) <= length content)%nat) by (rewrite Hl at 1; rewrite length_take; lia).
  rewrite take_take. f_equal; [f_equal; lia|].
  replace (length (bytes l) + length (rd_bytes x.2) - length (bytes l) `min` length content)%nat with (length (rd_bytes x.2)) by lia.
  by rewrite Hrest, take_app_length.
Qed.

(** C8: The files of a virtual paste arrive as they are, when no transfer or
    file id contains the separator of the provider's keys, the character [|]
    (with it [ChunkProvider.separator_collision] shows the bytes of one file
    delivered as another's).  If the peer's chunks of a file are bytes of it, in
    whatever order they come, with whatever other streams, nested reads,
    retries, errors and cancellations around them, each [Read] of one of its
    streams is given bytes of the file at the position it started from; a
    reader that does not seek is given the file from its beginning, without gap
    or repetition, up to where it stands; and when the size announced for the
    file is its length, all of it once a [Read] has said so with S_FALSE. *)
Theorem virtual_paste_exact ls s o st content :
  run_paste ls init_PasteSys = Some s -> Forall widths ls -> Forall no_separator ls -> vp_streams s !! o = Some st ->
  Forall (on_provider (honest (vs_transfer_id st) (vs_file_id st) content)) ls ->
  (forall pos r, (o, pos, r) ∈ vp_done s -> rd_bytes r `prefix_of` drop (Z.to_nat pos) content) /\
  (Forall (never_sought o) ls ->
     bytes_read o s = take (Z.to_nat (vs_pos st)) content /\
     ((exists pos r, (o, pos, r) ∈ vp_done s /\ rd_hr r = S_FALSE) -> vs_size st = Zlen content -> bytes_read o s = content)).
Proof.
  intros Hr Hw Hid Ho Hh. pose proof (labels_ok _ Hw Hid) as Hls. destruct (reachable_paste _ _ Hr Hls) as [[_ _ Hc] Hsm].
  assert (Hread : forall pos r, (o, pos, r) ∈ vp_done s -> rd_bytes r `prefix_of` drop (Z.to_nat pos) content).
  { intros pos r Hin. destruct (proj1 (Forall_forall _ _) (ca_done _ _ Hc) _ Hin) as (st' & Hst & Hb). simpl in *.
    rewrite Ho in Hst. injection Hst as <-. destruct Hb as [->|(data & last & Hd & Hp)]; [apply prefix_nil|].
    apply (trace_labels _ _ _ Hr) in Hd. apply (proj1 (Forall_forall _ _) Hh) in Hd. etrans; [exact Hp|]. by apply Hd. }
  split; [done|]. intros Hns. destruct (Hsm o Hns) as [S1 _ S3 S4]. destruct (S1 _ Ho) as [Hpos Hle].
  assert (Hb : bytes_read o s = take (Z.to_nat (vs_pos st)) content).
  { rewrite Hpos, Zlen_to_nat. apply (contiguous_content o content (vp_done s)); [exact S4|].
    intros [[o' pos] r] Hin E. simpl in *. subst o'. by apply Hread. }
  split; [done|]. intros (pos & r & Hin & He) Hsz. rewrite Hb, (S3 _ _ _ Ho Hin He), Hsz, Zlen_to_nat. by apply take_ge.
Qed.

(** While one file is read, another is; the replies come in the other order. *)
Definition sample_run : list PasteLabel :=
  [VpOpen (str "t") (Build_VirtualFileSpec (str "a") 3 (str "0") false);
   VpOpen (str "t") (Build_VirtualFileSpec (str "b") 1 (str "1") false);
   VpRead 0 false 2 true true; VpProvider (FLSend 1 true 10); VpProvider (FLWait 11 WaMessages);
   VpRead 1 false 9 true true; VpProvider (FLSend 2 true 12);
   VpProvider (FLDeliver (str "t") (str "0") 0 (str "xyz") false []);
   VpProvider (FLDeliver (str "t") (str "1") 0 (str "q") true []); VpProvider (FLSetEvent 1);
   VpProvider (FLWait 13 WaObject); VpProvider FLDetach; VpProvider (FLPumped false); VpProvider FLDetach;
   VpRead 0 false 2 true true; VpProvider (FLSend 3 true 14); VpProvider (FLDeliver (str "t") (str "0") 2 (str "z") true []);
   VpProvider (FLSetEvent 2); VpProvider (FLWait 15 WaObject); VpProvider FLDetach].

Lemma virtual_paste_exact_witness :
  exists s, run_paste sample_run init_PasteSys = Some s /\ bytes_read 0 s = str "xyz" /\ bytes_read 1 s = str "q".
Proof.
  eexists. split; [vm_compute; reflexivity|]. split; [|vm_compute; reflexivity].
  refine (proj2 (proj2 (virtual_paste_exact sample_run _ 0 _ (str "xyz") _ _ _ _ _) _) _ _).
  - vm_compute. reflexivity.
  - repeat (apply Forall_cons_2; [repeat split; try (apply (bool_decide_unpack _); vm_compute; exact I); try done|]); apply Forall_nil_2.
  - apply (bool_decide_unpack _); vm_compute; exact I.
  - vm_compute. reflexivity.
  - repeat (apply Forall_cons_2; [simpl; try done; intros _ E _; first [discriminate E|by exists []]|]). apply Forall_nil_2.
  - repeat constructor; simpl; congruence.
  - do 2 eexists. split; [right; right; left|reflexivity].
  - reflexivity.
Defined.
