(* ===== verification/HandlerProg.v ===== *)
(** * HandlerProg: dispatcher handlers as programs

    The handlers of [windows/src/dispatch.cpp] run on two threads: requests on
    the pipe thread, clipboard notifications on the STA thread, with
    [StaWorker::RunSync] running single blocks of the former on the latter.
    They are written once, as programs over the calls they make, the regions
    they execute under [file_paths_mu_] or [render_mu_], and the blocks that run
    on the STA thread; the programs have two meanings.  [run] executes one
    handler alone, for its functional behaviour.  [sys_step] interleaves any
    number of them, for the bookkeeping of COM references: the references the
    helper holds are a multiset, and releasing or using an object without
    holding a reference to it clears [sy_ok].  [owns] is the ownership
    discipline under which that never happens. *)

From stdpp Require Import gmultiset.
From S2P Require Import Prelude HelperProto ProtoWire WinCodec DelayedRender.

(** ** The dispatcher's members *)

(** COM objects are identified by numbers; [std::wstring]s are their units. *)
Record Dispatcher := {
  file_paths_ : gmap (list Z) (list Z);
  virtual_data_object_ : option Z;
  virtual_lindex_ : gmap (list Z) Z;
  outbound_data_object_ : option Z;
  render_ : RenderState
}.

Definition init_Dispatcher (event_created : bool) : Dispatcher :=
  {| file_paths_ := ∅; virtual_data_object_ := None; virtual_lindex_ := ∅; outbound_data_object_ := None;
     render_ := init_RenderState event_created |}.

Definition set_outbound (o : option Z) (d : Dispatcher) : Dispatcher :=
  {| file_paths_ := file_paths_ d; virtual_data_object_ := virtual_data_object_ d;
     virtual_lindex_ := virtual_lindex_ d; outbound_data_object_ := o; render_ := render_ d |}.
Definition set_render (r : RenderState) (d : Dispatcher) : Dispatcher :=
  {| file_paths_ := file_paths_ d; virtual_data_object_ := virtual_data_object_ d;
     virtual_lindex_ := virtual_lindex_ d; outbound_data_object_ := outbound_data_object_ d; render_ := r |}.

(** ** Calls *)

(** What the handlers call outside [dispatch.cpp], with the type of the answer.
    [CReadClipboard] answers the snapshot and its [virtual_data_object];
    [CStaAlive] is whether a [RunSync] runs its block or fails with
    [std::future_error]. *)
Inductive Call : Set -> Set :=
| CClock : Call Z
| CStaAlive : Call bool
| CReadClipboard : Call (option (ClipboardSnapshot * option Z))
| CWriteClipboardText (text : list Z) : Call bool
| CWriteClipboardImagePng (png : list Z) : Call bool
| CWriteClipboardFiles (paths : list (list Z)) : Call bool
| CAnnounceDelayedFormatsForType (t : ClipboardContentType) : Call bool
| CCreateVirtualClipboardDataObject (specs : list VirtualFileSpec) (transfer_id : list Z) : Call (option Z)
| COleSetClipboard (o : option Z) : Call bool
| COleIsCurrentClipboard (o : Z) : Call bool
| COwnerIsUs : Call bool
| CHasOwner : Call bool
| CRelease (o : Z) : Call unit
| CReadVirtualFileChunk (o lindex offset want : Z) : Call (option (list Z * bool))
| CCreateFile (path : list Z) : Call bool
| CSetFilePointer (offset : Z) : Call bool
| CReadFile (want : Z) : Call (option (list Z))
| CCloseHandle : Call unit
| CSendFrame (frame : list Z) : Call bool
| CServerStop : Call unit
| CCancelAll : Call unit
| CDeliverChunk (chunk : ParsedFileChunkData) : Call unit.

(** Operations on references: receiving one, adding one to an object that is
    alive, giving one up. *)
Inductive RefOp := RoAcquire (o : Z) | RoAddRef (o : Z) | RoRelease (o : Z).

Definition acquired (o : option Z) : list RefOp := match o with Some o => [RoAcquire o] | None => [] end.

(** The reference a call hands over or takes, and the objects it uses. *)
Definition call_refs {B : Set} (c : Call B) : B -> list RefOp :=
  match c in Call B' return B' -> list RefOp with
  | CReadClipboard => fun r => match r with Some (_, vdo) => acquired vdo | None => [] end
  | CCreateVirtualClipboardDataObject _ _ => acquired
  | CRelease o => fun _ => [RoRelease o]
  | _ => fun _ => []
  end.

Definition call_uses {B : Set} (c : Call B) : list Z :=
  match c with
  | COleSetClipboard (Some o) => [o]
  | COleIsCurrentClipboard o => [o]
  | CReadVirtualFileChunk o _ _ _ => [o]
  | CRelease o => [o]
  | _ => []
  end.

(** Calls into OLE during which the STA thread may dispatch other work. *)
Definition pumps {B : Set} (c : Call B) : bool :=
  match c with
  | CReadClipboard => true
  | CWriteClipboardText _ => true
  | CWriteClipboardImagePng _ => true
  | CWriteClipboardFiles _ => true
  | CAnnounceDelayedFormatsForType _ => true
  | COleSetClipboard _ => true
  | CReadVirtualFileChunk _ _ _ _ => true
  | CRelease _ => true
  | _ => false
  end.

(** ** Programs *)

Inductive Prog (A : Type) : Type :=
| Ret (a : A)
| Do {B : Set} (c : Call B) (k : B -> Prog A)
| Locked {B : Set} (f : Dispatcher -> B * Dispatcher * list RefOp) (k : B -> Prog A)
| StaEnter (k : bool -> Prog A)
| StaLeave (p : Prog A)
| Throw.
Arguments Ret {A} a.
Arguments Do {A B} c k.
Arguments Locked {A B} f k.
Arguments StaEnter {A} k.
Arguments StaLeave {A} p.
Arguments Throw {A}.

Fixpoint prog_bind {A B : Type} (k : A -> Prog B) (p : Prog A) : Prog B :=
  match p with
  | Ret a => k a
  | Do c f => Do c (fun b => prog_bind k (f b))
  | Locked f g => Locked f (fun b => prog_bind k (g b))
  | StaEnter f => StaEnter (fun b => prog_bind k (f b))
  | StaLeave q => StaLeave (prog_bind k q)
  | Throw => Throw
  end.
#[export] Instance Prog_ret : MRet Prog := @Ret.
#[export] Instance Prog_bind : MBind Prog := @prog_bind.

Definition call {B : Set} (c : Call B) : Prog B := Do c Ret.
Definition locked {B : Set} (f : Dispatcher -> B * Dispatcher * list RefOp) : Prog B := Locked f Ret.

(** [sta_->RunSync(body)]; a broken promise propagates as an exception, or is
    caught by [gone]. *)
Definition RunSync_or {A B : Type} (body : Prog B) (gone : Prog A) (k : B -> Prog A) : Prog A :=
  StaEnter (fun alive => if alive then prog_bind (fun b => StaLeave (k b)) body else gone).
Definition RunSync {B : Type} (body : Prog B) : Prog B := RunSync_or body Throw Ret.

(** A message handler on the STA thread. *)
Definition on_sta (body : Prog unit) : Prog unit := RunSync_or body (Ret tt) Ret.

(** ** A handler alone *)

(** The answers of all calls at one instant. *)
Definition Answers := forall B : Set, Call B -> B.

Inductive Event :=
| EvCall {B : Set} (c : Call B) (b : B)
| EvRef (r : RefOp).

(** The result ([None] for an exception), the state and the events; [ω n] are
    the answers at instant [n]. *)
Fixpoint run {A} (ω : nat -> Answers) (n : nat) (p : Prog A) (d : Dispatcher) : option A * Dispatcher * list Event :=
  match p with
  | Ret a => (Some a, d, [])
  | Do c k =>
      let b := ω n _ c in
      let '(r, d', tr) := run ω (S n) (k b) d in (r, d', EvCall c b :: tr)
  | Locked f k =>
      let '(b, d1, refs) := f d in
      let '(r, d', tr) := run ω (S n) (k b) d1 in (r, d', map EvRef refs ++ tr)
  | StaEnter k =>
      let b := ω n _ CStaAlive in
      let '(r, d', tr) := run ω (S n) (k b) d in (r, d', EvCall CStaAlive b :: tr)
  | StaLeave q => run ω (S n) q d
  | Throw => (None, d, [])
  end.

(** The frames handed to [SendFrame]. *)
Definition event_frames (e : Event) : list (list Z) :=
  match e with
  | EvCall c _ => match c with CSendFrame f => [f] | _ => [] end
  | EvRef _ => []
  end.
Definition sent_frames (tr : list Event) : list (list Z) := concat (map event_frames tr).

(** A complete set of answers: every call succeeds, with the given snapshot and
    the given answers of the two ownership tests. *)
Definition answering (snap : option (ClipboardSnapshot * option Z)) (current owner : bool) : Answers :=
  fun B c =>
    match c in Call B' return B' with
    | CClock => 0
    | CStaAlive => true
    | CReadClipboard => snap
    | CWriteClipboardText _ => true
    | CWriteClipboardImagePng _ => true
    | CWriteClipboardFiles _ => true
    | CAnnounceDelayedFormatsForType _ => true
    | CCreateVirtualClipboardDataObject _ _ => Some 1
    | COleSetClipboard _ => true
    | COleIsCurrentClipboard _ => current
    | COwnerIsUs => owner
    | CHasOwner => true
    | CRelease _ => tt
    | CReadVirtualFileChunk _ _ _ _ => Some ([], true)
    | CCreateFile _ => true
    | CSetFilePointer _ => true
    | CReadFile _ => Some []
    | CCloseHandle => tt
    | CSendFrame _ => true
    | CServerStop => tt
    | CCancelAll => tt
    | CDeliverChunk _ => tt
    end.

(** ** Handlers together *)

(** [th_pump]: the thread is on the STA, inside a call that pumps. *)
Record Thread := { th_prog : Prog unit; th_pump : bool }.

Record System := {
  sy_d : Dispatcher;
  sy_sta : option nat;
  sy_threads : list Thread;
  sy_refs : gmultiset Z;
  sy_ok : bool
}.

Definition apply_ref (r : RefOp) (x : gmultiset Z) : gmultiset Z :=
  match r with
  | RoAcquire o => x ⊎ {[+ o +]}
  | RoAddRef o => x ⊎ {[+ o +]}
  | RoRelease o => x ∖ {[+ o +]}
  end.
Definition ref_ok (r : RefOp) (x : gmultiset Z) : bool :=
  match r with
  | RoAcquire _ => true
  | RoAddRef o => bool_decide (o ∈ x)
  | RoRelease o => bool_decide (o ∈ x)
  end.
Fixpoint apply_refs (rs : list RefOp) (x : gmultiset Z) (ok : bool) : gmultiset Z * bool :=
  match rs with
  | [] => (x, ok)
  | r :: rs' => apply_refs rs' (apply_ref r x) (ok && ref_ok r x)
  end.
Definition uses_ok (os : list Z) (x : gmultiset Z) : bool := forallb (fun o => bool_decide (o ∈ x)) os.

Definition goto (i : nat) (p : Prog unit) (pump : bool) (y : list Thread) : list Thread :=
  <[i := {| th_prog := p; th_pump := pump |}]> y.

(** One step of thread [i]; [ω] answers its call. *)
Definition sys_step (i : nat) (ω : Answers) (y : System) : option System :=
  match sy_threads y !! i with
  | None => None
  | Some t =>
      match th_prog t with
      | Ret _ => None
      | Throw => None
      | StaEnter k =>
          if negb (ω _ CStaAlive) then
            Some {| sy_d := sy_d y; sy_sta := sy_sta y; sy_threads := goto i (k false) false (sy_threads y);
                    sy_refs := sy_refs y; sy_ok := sy_ok y |}
          else match sy_sta y with
               | Some _ => None
               | None => Some {| sy_d := sy_d y; sy_sta := Some i; sy_threads := goto i (k true) false (sy_threads y);
                                 sy_refs := sy_refs y; sy_ok := sy_ok y |}
               end
      | StaLeave p =>
          Some {| sy_d := sy_d y; sy_sta := None; sy_threads := goto i p false (sy_threads y);
                  sy_refs := sy_refs y; sy_ok := sy_ok y |}
      | Locked f k =>
          let '(b, d', rs) := f (sy_d y) in
          let '(x, ok) := apply_refs rs (sy_refs y) (sy_ok y) in
          Some {| sy_d := d'; sy_sta := sy_sta y; sy_threads := goto i (k b) false (sy_threads y);
                  sy_refs := x; sy_ok := ok |}
      | Do c k =>
          let ok := sy_ok y && uses_ok (call_uses c) (sy_refs y) in
          if pumps c && bool_decide (sy_sta y = Some i) then
            (* the call starts; the STA is free for other work *)
            Some {| sy_d := sy_d y; sy_sta := None; sy_threads := goto i (Do c k) true (sy_threads y);
                    sy_refs := sy_refs y; sy_ok := ok |}
          else if th_pump t && negb (bool_decide (sy_sta y = None)) then None
          else
            let b := ω _ c in
            let '(x, ok) := apply_refs (call_refs c b) (sy_refs y) ok in
            Some {| sy_d := sy_d y; sy_sta := if th_pump t then Some i else sy_sta y;
                    sy_threads := goto i (k b) false (sy_threads y); sy_refs := x; sy_ok := ok |}
      end
  end.

Fixpoint sys_run (ls : list (nat * Answers)) (y : System) : option System :=
  match ls with
  | [] => Some y
  | (i, ω) :: ls' => match sys_step i ω y with Some y' => sys_run ls' y' | None => None end
  end.

(** The references the members hold. *)
Definition of_slot (o : option Z) : gmultiset Z := match o with Some o => {[+ o +]} | None => ∅ end.
Definition slots (d : Dispatcher) : gmultiset Z :=
  of_slot (virtual_data_object_ d) ⊎ of_slot (outbound_data_object_ d).

Definition start_system (d : Dispatcher) (ps : list (Prog unit)) : System :=
  {| sy_d := d; sy_sta := None; sy_threads := map (fun p => {| th_prog := p; th_pump := false |}) ps;
     sy_refs := slots d; sy_ok := true |}.

Definition finished (t : Thread) : bool := match th_prog t with Ret _ => true | _ => false end.

(** ** The ownership discipline *)

(** The reference an answer brings that no member ever records: the data object
    of a snapshot that lists none of its files, which the handlers take for a
    list of paths. *)
Definition lost_ref {B : Set} (c : Call B) : B -> gmultiset Z :=
  match c in Call B' return B' -> gmultiset Z with
  | CReadClipboard => fun r =>
      match r with
      | Some (snap, vdo) =>
          match snap_content_type snap, snap_virtual_files snap with
          | Files, _ :: _ => ∅
          | _, _ => of_slot vdo
          end
      | None => ∅
      end
  | _ => fun _ => ∅
  end.

(** Those of a step, when its call completes, and of a run. *)
Definition step_lost (i : nat) (ω : Answers) (y : System) : gmultiset Z :=
  match sy_threads y !! i with
  | Some {| th_prog := Do c _ |} =>
      if pumps c && bool_decide (sy_sta y = Some i) then ∅ else lost_ref c (ω _ c)
  | _ => ∅
  end.
Fixpoint run_lost (ls : list (nat * Answers)) (y : System) : gmultiset Z :=
  match ls with
  | [] => ∅
  | (i, ω) :: ls' =>
      match sys_step i ω y with Some y' => step_lost i ω y ⊎ run_lost ls' y' | None => ∅ end
  end.

Lemma lost_none {B : Set} (c : Call B) b : call_refs c b = [] -> lost_ref c b = ∅.
Proof.
  destruct c; try done. destruct b as [[snap [o|]]|]; simpl; [done| |done]. intros _.
  by destruct (snap_content_type snap), (snap_virtual_files snap).
Qed.

(** [owns h m p]: the rest [p] of a handler, holding the references [m] beside
    those of the members, uses and releases only what it holds, and ends with
    nothing but what its answers lost.  [h] is [Some ob] while it runs on the STA, [ob] being the outbound
    object, which no one else changes meanwhile. *)
Fixpoint owns (h : option (option Z)) (m : gmultiset Z) (p : Prog unit) : Prop :=
  match p with
  | Ret _ => m = ∅ /\ h = None
  | Throw => True
  | StaEnter k => h = None /\ (forall ob, owns (Some ob) m (k true)) /\ owns None m (k false)
  | StaLeave q => h <> None /\ owns None m q
  | Locked f k =>
      forall d, (forall ob, h = Some ob -> outbound_data_object_ d = ob) ->
      forall b d' rs, f d = (b, d', rs) ->
      (h = None -> outbound_data_object_ d' = outbound_data_object_ d) /\
      exists m', apply_refs rs (slots d ⊎ m) true = (slots d' ⊎ m', true) /\
                 owns (option_map (fun _ => outbound_data_object_ d') h) m' (k b)
  | Do c k =>
      (forall o, o ∈ call_uses c -> o ∈ m \/ (pumps c = false /\ h = Some (Some o))) /\
      forall b, exists m', apply_refs (call_refs c b) m true = (m' ⊎ lost_ref c b, true) /\
        match h with
        | Some ob => forall ob', (pumps c = false -> ob' = ob) -> owns (Some ob') m' (k b)
        | None => owns None m' (k b)
        end
  end.

(** ** Soundness of the discipline *)

Lemma apply_refs_false rs x : (apply_refs rs x false).2 = false.
Proof. revert x. induction rs as [|r rs IH]; intros x; simpl; auto. Qed.

Lemma apply_refs_frame rs x x' z :
  apply_refs rs x true = (x', true) -> apply_refs rs (x ⊎ z) true = (x' ⊎ z, true).
Proof.
  revert x. induction rs as [|r rs IH]; intros x Ha; simpl in *; [by simplify_eq|].
  destruct (ref_ok r x) eqn:Er.
  - replace (ref_ok r (x ⊎ z)) with true; [|symmetry].
    + replace (apply_ref r (x ⊎ z)) with (apply_ref r x ⊎ z); [by apply IH|].
      destruct r as [o|o|o]; simpl in *; [multiset_solver|multiset_solver|].
      apply bool_decide_eq_true in Er. multiset_solver.
    + destruct r; simpl in *; [done| |]; apply bool_decide_eq_true in Er; apply bool_decide_eq_true; multiset_solver.
  - pose proof (apply_refs_false rs (apply_ref r x)) as Hf. rewrite Ha in Hf. done.
Qed.

Lemma uses_ok_subset os x : (forall o, o ∈ os -> o ∈ x) -> uses_ok os x = true.
Proof.
  intros Hos. unfold uses_ok. apply forallb_forall. intros o Ho. apply bool_decide_eq_true, Hos, list_elem_of_In, Ho.
Qed.

Definition prog_pumps (p : Prog unit) : bool := match p with Do c _ => pumps c | _ => false end.

(** What thread [i] is entitled to. *)
Definition th_owns (d : Dispatcher) (sta : option nat) (i : nat) (t : Thread) (m : gmultiset Z) : Prop :=
  if th_pump t then
    sta <> Some i /\ prog_pumps (th_prog t) = true /\
    forall ob, owns (Some ob) m (th_prog t)
  else owns (if decide (sta = Some i) then Some (outbound_data_object_ d) else None) m (th_prog t).

Definition sys_inv (lost : gmultiset Z) (y : System) : Prop :=
  exists ms : list (gmultiset Z),
    length ms = length (sy_threads y) /\
    sy_refs y = slots (sy_d y) ⊎ ⋃+ ms ⊎ lost /\
    sy_ok y = true /\
    forall i t m, sy_threads y !! i = Some t -> ms !! i = Some m -> th_owns (sy_d y) (sy_sta y) i t m.

Lemma disj_union_list_insert (ms : list (gmultiset Z)) i m :
  ms !! i = Some m -> exists r, ⋃+ ms = m ⊎ r /\ forall m', ⋃+ (<[i := m']> ms) = m' ⊎ r.
Proof.
  revert i. induction ms as [|a ms IH]; intros [|i] Hi; simpl in *; simplify_eq; [by eexists|].
  destruct (IH i Hi) as (r & E & Ei). exists (a ⊎ r). split.
  - rewrite E. multiset_solver.
  - intros m'. rewrite Ei. multiset_solver.
Qed.

Lemma th_owns_other d d' sta sta' i t m :
  (sta = Some i <-> sta' = Some i) ->
  (sta = Some i -> outbound_data_object_ d' = outbound_data_object_ d) ->
  th_owns d sta i t m -> th_owns d' sta' i t m.
Proof.
  intros Hiff Hob. unfold th_owns. destruct (th_pump t).
  - intros (H1 & H2 & H3). split; [by rewrite <- Hiff|done].
  - destruct (decide (sta = Some i)) as [E|E], (decide (sta' = Some i)) as [E'|E'];
      [by rewrite Hob|tauto|tauto|done].
Qed.

Lemma in_share (o : Z) (s m r l : gmultiset Z) : o ∈ m -> o ∈ s ⊎ (m ⊎ r) ⊎ l.
Proof. rewrite !gmultiset_elem_of_disj_union. tauto. Qed.
Lemma swap_share (s m r l : gmultiset Z) : s ⊎ (m ⊎ r) ⊎ l = m ⊎ (s ⊎ r ⊎ l).
Proof. multiset_solver. Qed.
Lemma swap_lost (s m r l l' : gmultiset Z) : m ⊎ l' ⊎ (s ⊎ r ⊎ l) = s ⊎ (m ⊎ r) ⊎ (l ⊎ l').
Proof. multiset_solver. Qed.
Lemma assoc_share (s m r l : gmultiset Z) : s ⊎ (m ⊎ r) ⊎ l = s ⊎ m ⊎ (r ⊎ l).
Proof. multiset_solver. Qed.
Lemma rest_share (x m r r' : gmultiset Z) : x = m ⊎ r -> x = m ⊎ r' -> r' = r.
Proof. intros -> E. by apply (inj (m ⊎.)) in E. Qed.

Lemma lost_nothing (l : gmultiset Z) : l ⊎ ∅ = l.
Proof. multiset_solver. Qed.

(** Replacing the share of the thread that moved. *)
Lemma sys_inv_move y i t ms m m' p pump d' sta' x lost :
  sy_threads y !! i = Some t -> ms !! i = Some m -> length ms = length (sy_threads y) ->
  (forall j u v, sy_threads y !! j = Some u -> ms !! j = Some v -> th_owns (sy_d y) (sy_sta y) j u v) ->
  (forall j, j <> i -> sy_sta y = Some j <-> sta' = Some j) ->
  (forall j, j <> i -> sy_sta y = Some j -> outbound_data_object_ d' = outbound_data_object_ (sy_d y)) ->
  (forall r, ⋃+ ms = m ⊎ r -> (forall v, ⋃+ (<[i := v]> ms) = v ⊎ r) -> x = slots d' ⊎ (m' ⊎ r) ⊎ lost) ->
  th_owns d' sta' i {| th_prog := p; th_pump := pump |} m' ->
  sys_inv lost {| sy_d := d'; sy_sta := sta'; sy_threads := goto i p pump (sy_threads y); sy_refs := x; sy_ok := true |}.
Proof.
  intros Ht Hm Hlen Hall Hsta Hob Hx Hown.
  exists (<[i := m']> ms). simpl. unfold goto. rewrite !length_insert. split; [done|].
  destruct (disj_union_list_insert ms i m Hm) as (r & E & Ei).
  split; [rewrite Ei; by apply Hx|]. split; [done|].
  intros j u v Hu Hv. destruct (decide (j = i)) as [->|Hne].
  - rewrite list_lookup_insert_eq in Hu by (by eapply lookup_lt_Some).
    rewrite list_lookup_insert_eq in Hv by (by eapply lookup_lt_Some). by simplify_eq.
  - rewrite list_lookup_insert_ne in Hu by done. rewrite list_lookup_insert_ne in Hv by done.
    eapply th_owns_other; [by apply Hsta|by apply Hob|by apply Hall].
Qed.

(** The call of thread [i] completes, on the STA or off it. *)
Lemma sys_inv_call y i (B : Set) (c : Call B) k pump ms m ω x ok lost :
  sy_threads y !! i = Some {| th_prog := Do c k; th_pump := pump |} -> ms !! i = Some m ->
  length ms = length (sy_threads y) -> sy_refs y = slots (sy_d y) ⊎ ⋃+ ms ⊎ lost -> sy_ok y = true ->
  (forall j u v, sy_threads y !! j = Some u -> ms !! j = Some v -> th_owns (sy_d y) (sy_sta y) j u v) ->
  (pumps c && bool_decide (sy_sta y = Some i)) = false ->
  (pump && negb (bool_decide (sy_sta y = None))) = false ->
  apply_refs (call_refs c (ω B c)) (sy_refs y) (sy_ok y && uses_ok (call_uses c) (sy_refs y)) = (x, ok) ->
  sys_inv (lost ⊎ lost_ref c (ω B c)) {| sy_d := sy_d y; sy_sta := if pump then Some i else sy_sta y;
             sy_threads := goto i (k (ω B c)) false (sy_threads y); sy_refs := x; sy_ok := ok |}.
Proof.
  intros Ht Hm Hlen Hrefs Hok Hall Hstart Hwait Ha.
  pose proof (Hall i _ _ Ht Hm) as Hown. unfold th_owns in Hown. simpl in Hown.
  destruct (disj_union_list_insert ms i m Hm) as (r & Er & _).
  set (h := if pump then None else if decide (sy_sta y = Some i) then Some (outbound_data_object_ (sy_d y)) else None).
  assert (Huse : forall o, o ∈ call_uses c -> o ∈ sy_refs y).
  { intros o Ho. rewrite Hrefs, Er. destruct pump.
    - destruct Hown as (_ & Hp & Hown). destruct (Hown None) as [Hu _]. destruct (Hu o Ho) as [?|[_ ?]]; [by apply in_share|done].
    - destruct Hown as [Hu _]. destruct (Hu o Ho) as [?|[_ Hb]]; [by apply in_share|].
      destruct (decide _) as [E|E]; [|done]. simplify_eq. unfold slots. rewrite Hb. simpl.
      rewrite !gmultiset_elem_of_disj_union, gmultiset_elem_of_singleton. tauto. }
  rewrite Hok, (uses_ok_subset _ _ Huse) in Ha. simpl in Ha.
  assert (Hret : exists m', apply_refs (call_refs c (ω B c)) m true = (m' ⊎ lost_ref c (ω B c), true) /\
            owns (if decide ((if pump then Some i else sy_sta y) = Some i)
                  then Some (outbound_data_object_ (sy_d y)) else None) m' (k (ω B c))).
  { destruct pump.
    - destruct Hown as (_ & Hp & Hown). simpl in Hp. destruct (Hown None) as [_ Hk]. destruct (Hk (ω B c)) as (m' & Hm' & Hk').
      exists m'. split; [done|]. rewrite decide_True by done. apply Hk'. congruence.
    - destruct Hown as [_ Hk]. destruct (Hk (ω B c)) as (m' & Hm' & Hk').
      exists m'. split; [done|]. destruct (decide _); [by apply Hk'|done]. }
  destruct Hret as (m' & Hm' & Hk'). rewrite Hrefs, Er in Ha.
  pose proof (apply_refs_frame _ _ _ (slots (sy_d y) ⊎ r ⊎ lost) Hm') as Hf.
  rewrite swap_share in Ha.
  rewrite Hf in Ha. simplify_eq.
  eapply (sys_inv_move y i _ ms m m'); try done.
  - intros j Hj. destruct pump; [|done]. simpl in Hwait. apply negb_false_iff, bool_decide_eq_true in Hwait.
    rewrite Hwait. split; congruence.
  - intros r' Er' _. rewrite (rest_share _ _ _ _ Er Er'). apply swap_lost.
Qed.

(** The reference set of the thread that steps, and what it owes. *)
Ltac sys_owner Hs Hi Ht :=
  destruct Hi as (ms & Hlen & Hrefs & Hok & Hall); unfold sys_step in Hs; rewrite Ht in Hs;
  let Hlt := fresh in
  pose proof (lookup_lt_Some _ _ _ Ht) as Hlt; rewrite <- Hlen in Hlt;
  apply lookup_lt_is_Some_2 in Hlt as [m Hm];
  pose proof (Hall _ _ _ Ht Hm) as Hown; unfold th_owns in Hown; simpl in Hown, Hs;
  match type of Ht with
  | context [{| th_prog := ?p; th_pump := ?pump |}] =>
      assert (Hpump : pump = true -> prog_pumps p = true) by (intros ->; by destruct Hown as (_ & ? & _))
  end.

(** A call. *)
Lemma sys_step_do i ω y y' lost (B : Set) (c : Call B) k pump :
  sy_threads y !! i = Some {| th_prog := Do c k; th_pump := pump |} -> sys_step i ω y = Some y' -> sys_inv lost y -> sys_inv (lost ⊎ step_lost i ω y) y'.
Proof.
  intros Ht Hs Hi. unfold step_lost. rewrite Ht. sys_owner Hs Hi Ht.
  destruct (pumps c && bool_decide (sy_sta y = Some i)) eqn:Est.
  - apply andb_prop in Est as [Ep Est]. apply bool_decide_eq_true in Est. simplify_eq.
    destruct pump; [destruct Hown as [? _]; congruence|]. rewrite decide_True in Hown by done.
    assert (Huse : forall o, o ∈ call_uses c -> o ∈ sy_refs y).
    { intros o Ho. destruct Hown as [Hu _]. destruct (Hu o Ho) as [?|[? _]]; [|congruence].
      rewrite Hrefs. destruct (disj_union_list_insert ms i m Hm) as (r & -> & _). by apply in_share. }
    rewrite Hok, (uses_ok_subset _ _ Huse). simpl.
    eapply (sys_inv_move y i _ ms m m); try done.
    + intros j Hj. rewrite Est. split; [congruence|done].
    + intros r Er _. by rewrite Hrefs, Er, lost_nothing.
    + unfold th_owns. simpl. split; [done|]. split; [done|]. intros ob.
      destruct Hown as [Hu Hk]. split.
      * intros o Ho. destruct (Hu o Ho) as [?|[? _]]; [by left|congruence].
      * intros b. destruct (Hk b) as (m' & ? & Hk'). exists m'. split; [done|].
         intros ob' _. apply Hk'. congruence.
  - destruct (pump && negb (bool_decide (sy_sta y = None))) eqn:Ew; [done|].
    destruct (apply_refs _ _ _) as [x ok] eqn:Ea. simplify_eq. by eapply sys_inv_call.
Qed.

(** A locked region. *)
Lemma sys_step_locked i ω y y' lost (B : Set) (f : Dispatcher -> B * Dispatcher * list RefOp) k pump :
  sy_threads y !! i = Some {| th_prog := Locked f k; th_pump := pump |} -> sys_step i ω y = Some y' -> sys_inv lost y -> sys_inv (lost ⊎ step_lost i ω y) y'.
Proof.
  intros Ht Hs Hi. unfold step_lost. rewrite Ht. sys_owner Hs Hi Ht.
  destruct pump; [by specialize (Hpump eq_refl)|].
  destruct (f (sy_d y)) as [[b d'] rs] eqn:Ef. destruct (apply_refs _ _ _) as [x ok] eqn:Ea. simplify_eq.
  destruct (Hown (sy_d y)) with (b := b) (d' := d') (rs := rs) as (Hob & m' & Hm' & Hk);
    [intros ob; destruct (decide _); [by intros [= <-]|done]|done|].
  destruct (disj_union_list_insert ms i m Hm) as (r & Er & _).
  pose proof (apply_refs_frame _ _ _ (r ⊎ lost) Hm') as Hf.
  rewrite Hok, Hrefs, Er in Ea.
  rewrite assoc_share in Ea.
  rewrite Hf in Ea. simplify_eq. eapply (sys_inv_move y i _ ms m m'); try done.
  - intros j Hj Hsj. apply Hob. rewrite Hsj. by rewrite decide_False by congruence.
  - intros r' Er' _. rewrite (rest_share _ _ _ _ Er Er'). rewrite lost_nothing. symmetry. apply assoc_share.
  - unfold th_owns. simpl. by destruct (decide (sy_sta y = Some i)).
Qed.

(** Entering the STA, and leaving it. *)
Lemma sys_step_enter i ω y y' lost k pump :
  sy_threads y !! i = Some {| th_prog := StaEnter k; th_pump := pump |} -> sys_step i ω y = Some y' -> sys_inv lost y -> sys_inv (lost ⊎ step_lost i ω y) y'.
Proof.
  intros Ht Hs Hi. unfold step_lost. rewrite Ht. sys_owner Hs Hi Ht.
  destruct pump; [by specialize (Hpump eq_refl)|]. destruct Hown as (Hh & Hin & Hout).
  assert (Hns : sy_sta y <> Some i) by (by destruct (decide (sy_sta y = Some i))).
  destruct (ω bool CStaAlive); simpl in Hs.
  - destruct (sy_sta y) eqn:Esta; [done|]. simplify_eq. rewrite Hok.
    eapply (sys_inv_move y i _ ms m m); try done.
    + intros j u v. rewrite Esta. apply Hall.
    + intros j Hj. rewrite Esta. split; congruence.
    + intros r Er _. by rewrite Hrefs, Er, lost_nothing.
    + unfold th_owns. simpl. by rewrite decide_True.
  - simplify_eq. rewrite Hok. eapply (sys_inv_move y i _ ms m m); try done.
    + intros r Er _. by rewrite Hrefs, Er, lost_nothing.
    + unfold th_owns. simpl. by rewrite decide_False.
Qed.

Lemma sys_step_leave i ω y y' lost q pump :
  sy_threads y !! i = Some {| th_prog := StaLeave q; th_pump := pump |} -> sys_step i ω y = Some y' -> sys_inv lost y -> sys_inv (lost ⊎ step_lost i ω y) y'.
Proof.
  intros Ht Hs Hi. unfold step_lost. rewrite Ht. sys_owner Hs Hi Ht.
  destruct pump; [by specialize (Hpump eq_refl)|]. destruct Hown as [Hh Hq]. simplify_eq.
  assert (Esta : sy_sta y = Some i) by (by destruct (decide (sy_sta y = Some i))).
  rewrite Hok. eapply (sys_inv_move y i _ ms m m); try done.
  - intros j Hj. rewrite Esta. split; [congruence|done].
  - intros r Er _. by rewrite Hrefs, Er, lost_nothing.
Qed.

Lemma sys_step_inv i ω y y' lost :
  sys_step i ω y = Some y' -> sys_inv lost y -> sys_inv (lost ⊎ step_lost i ω y) y'.
Proof.
  intros Hs. destruct (sy_threads y !! i) as [[p pump]|] eqn:Ht; [|by unfold sys_step in Hs; rewrite Ht in Hs].
  destruct p as [a|B c k|B f k|k|q|].
  - unfold sys_step in Hs. by rewrite Ht in Hs.
  - by eapply sys_step_do.
  - by eapply sys_step_locked.
  - by eapply sys_step_enter.
  - by eapply sys_step_leave.
  - unfold sys_step in Hs. by rewrite Ht in Hs.
Qed.

Lemma sys_run_inv ls y y' lost : sys_run ls y = Some y' -> sys_inv lost y -> sys_inv (lost ⊎ run_lost ls y) y'.
Proof.
  revert y lost. induction ls as [|[i ω] ls IH]; intros y lost Hr Hi; simpl in Hr |- *.
  - simplify_eq. by rewrite lost_nothing.
  - destruct (sys_step i ω y) as [y1|] eqn:E; [|done]. rewrite (assoc_L (⊎)). eapply IH; [exact Hr|].
    by apply sys_step_inv.
Qed.

Lemma start_inv d ps : Forall (owns None ∅) ps -> sys_inv ∅ (start_system d ps).
Proof.
  intros Hps. exists (replicate (length ps) ∅). simpl. rewrite length_replicate, length_map. split; [done|]. split.
  - clear Hps. induction ps as [|p ps IH]; simpl; [multiset_solver|].
    rewrite IH at 1. multiset_solver.
  - split; [done|]. intros i t m Ht Hm. apply lookup_replicate_1 in Hm as [-> _].
    rewrite list_lookup_fmap in Ht. destruct (ps !! i) as [p|] eqn:Ep; [|done]. simplify_eq/=.
    unfold th_owns. simpl. by eapply Forall_lookup_1.
Qed.

(** The members' references and the lost ones are there all the time; once every
    handler is done, there are no others. *)
Lemma inv_members y lost : sys_inv lost y -> slots (sy_d y) ⊎ lost ⊆ sy_refs y.
Proof. intros (ms & _ & -> & _). multiset_solver. Qed.
Lemma inv_finished y lost :
  sys_inv lost y -> forallb finished (sy_threads y) = true -> sy_refs y = slots (sy_d y) ⊎ lost.
Proof.
  intros (ms & Hlen & -> & _ & Hall) Hf. rewrite forallb_forall in Hf.
  enough (⋃+ ms = ∅) as -> by multiset_solver.
  assert (Hms : Forall (fun m => m = ∅) ms).
  { apply Forall_lookup_2. intros i m Hm.
    destruct (lookup_lt_is_Some_2 (sy_threads y) i) as [t Ht]; [rewrite <- Hlen; by eapply lookup_lt_Some|].
    pose proof (Hall i t m Ht Hm) as Ho. specialize (Hf t).
    unfold finished in Hf. unfold th_owns in Ho.
    assert (Hin : In t (sy_threads y)) by (by apply list_elem_of_In, list_elem_of_lookup_2 with i).
    specialize (Hf Hin). destruct t as [[] []]; simpl in *; try done; [|by destruct Ho].
    destruct Ho as (_ & ? & _). done. }
  clear -Hms. induction Hms as [|m ms -> _ IH]; simpl; [done|]. rewrite IH. multiset_solver.
Qed.

Arguments owns : simpl never.

(** ** Proving ownership

    One lemma per construct, in the form the handlers meet it. *)

Lemma owns_call {B : Set} (c : Call B) k m h :
  call_uses c = [] -> (forall b, call_refs c b = []) -> pumps c = false ->
  (forall b, owns h m (k b)) -> owns h m (Do c k).
Proof.
  intros Hu Hr Hp Hk. split; [rewrite Hu; intros o Ho; by apply elem_of_nil in Ho|].
  intros b. exists m. rewrite (lost_none c b), Hr, lost_nothing by done. split; [done|]. specialize (Hk b).
  destruct h as [ob|]; [|done]. intros ob' Hob. by rewrite Hob.
Qed.

(** A call that pumps may leave another outbound object behind. *)
Lemma owns_pump {B : Set} (c : Call B) k m ob :
  (forall o, o ∈ call_uses c -> o ∈ m) -> (forall b, call_refs c b = []) ->
  (forall b ob', owns (Some ob') m (k b)) -> owns (Some ob) m (Do c k).
Proof.
  intros Hu Hr Hk. split; [intros o Ho; left; by apply Hu|].
  intros b. exists m. rewrite (lost_none c b), Hr, lost_nothing by done. split; [done|]. intros ob' _. apply Hk.
Qed.

Lemma owns_release o k m h :
  o ∈ m -> (forall h', h' = None <-> h = None -> owns h' (m ∖ {[+ o +]}) (k tt)) -> owns h m (Do (CRelease o) k).
Proof.
  intros Ho Hk. split; [intros o' Ho'; left; by apply list_elem_of_singleton in Ho' as ->|].
  intros []. exists (m ∖ {[+ o +]}). simpl. rewrite lost_nothing. split; [by rewrite bool_decide_true|].
  destruct h as [ob|]; [intros ob' _|]; by apply Hk.
Qed.

Lemma owns_enter k m :
  (forall ob, owns (Some ob) m (k true)) -> owns None m (k false) -> owns None m (StaEnter k).
Proof. intros Hin Hout. by split. Qed.

Lemma owns_leave q m ob : owns None m q -> owns (Some ob) m (StaLeave q).
Proof. intros Hq. by split. Qed.

(** The reference a snapshot brings along for its members to keep. *)
Definition snapshot_ref (r : option (ClipboardSnapshot * option Z)) : gmultiset Z :=
  match r with
  | Some (snap, vdo) =>
      match snap_content_type snap, snap_virtual_files snap with
      | Files, _ :: _ => of_slot vdo
      | _, _ => ∅
      end
  | None => ∅
  end.

Lemma owns_read_clipboard k ob :
  (forall r ob', owns (Some ob') (snapshot_ref r) (k r)) -> owns (Some ob) ∅ (Do CReadClipboard k).
Proof.
  intros Hk. split; [intros o Ho; by apply elem_of_nil in Ho|]. intros r. exists (snapshot_ref r).
  split; [|intros ob' _; by apply Hk]. destruct r as [[snap vdo]|]; simpl; [|by rewrite lost_nothing].
  destruct vdo as [o|], (snap_content_type snap), (snap_virtual_files snap); simpl; f_equal; multiset_solver.
Qed.

(** A region that neither moves references nor changes the outbound object. *)
Lemma owns_locked_quiet {B : Set} (f : Dispatcher -> B * Dispatcher * list RefOp) k m h :
  (forall d b d' rs, f d = (b, d', rs) ->
     rs = [] /\ slots d' = slots d /\ outbound_data_object_ d' = outbound_data_object_ d) ->
  (forall b, owns h m (k b)) -> owns h m (Locked f k).
Proof.
  intros Hf Hk d Hob b d' rs E. destruct (Hf d b d' rs E) as (-> & Hs & Ho). split; [done|].
  exists m. rewrite Hs. split; [done|]. specialize (Hk b). destruct h as [ob|]; simpl; [|done].
  rewrite Ho. by rewrite (Hob ob eq_refl).
Qed.

(** Sequencing may be reassociated under [owns]. *)
Lemma owns_assoc {A B : Type} (j : A -> Prog B) (k : B -> Prog unit) p h m :
  owns h m (prog_bind (fun a => prog_bind k (j a)) p) -> owns h m (prog_bind k (prog_bind j p)).
Proof.
  revert h m. induction p as [a|C c f IH|C f g IH|f IH|q IH|]; intros h m; cbn; [done| | | | |done].
  - intros [Hu Hk]. split; [done|]. intros b. destruct (Hk b) as (m' & Hm & Ho). exists m'.
    split; [done|]. destruct h as [ob|]; [intros ob' Hob|]; apply IH; auto.
  - intros Hl d Hob b d' rs E. destruct (Hl d Hob b d' rs E) as (Hq & m' & Hm & Ho). split; [done|].
    exists m'. split; [done|]. by apply IH.
  - intros (Hh & Hin & Hout). split; [done|]. split; [intros ob; by apply IH|by apply IH].
  - intros [Hh Hq]. split; [done|]. by apply IH.
Qed.
