(* ===== verification/WinDispatch.v ===== *)
(** * WinDispatch: the Windows dispatcher's handlers

    [Dispatcher] in [windows/src/dispatch.h] and [dispatch.cpp], except
    [OnRenderFormat] (see DelayedRender) and the chunk provider's methods (see
    ChunkProvider).  Every handler is a program of HandlerProg: the clipboard
    operations, OLE, the file system, the clock, [PipeServer] and the chunk
    provider are its calls.  [sta_], [pipe_] and [chunk_provider_] are never
    null in the helper.  Log lines are left out. *)

From stdpp Require Import gmultiset.
From S2P Require Import Prelude HelperProto ProtoWire WinCodec DelayedRender HandlerProg.

Section Handlers.
Context `{Win32Strings}.

(** ** Members *)

(** [m[std::to_string(i)] = items[i]] for every index. *)
Fixpoint index_map {A} (i : Z) (items : list A) (m : gmap (list Z) A) : gmap (list Z) A :=
  match items with
  | [] => m
  | x :: rest => index_map (i + 1) rest (<[to_string i := x]> m)
  end.

Definition released (o : option Z) : list RefOp := match o with Some o => [RoRelease o] | None => [] end.

Definition UpdateFilePaths (paths : list (list Z)) (d : Dispatcher) : unit * Dispatcher * list RefOp :=
  (tt,
   {| file_paths_ := index_map 0 paths ∅; virtual_data_object_ := None; virtual_lindex_ := ∅;
      outbound_data_object_ := outbound_data_object_ d; render_ := render_ d |},
   released (virtual_data_object_ d)).

Definition UpdateVirtualFiles (data_object : option Z) (lindex_by_id : list Z) (d : Dispatcher)
  : unit * Dispatcher * list RefOp :=
  (tt,
   {| file_paths_ := ∅; virtual_data_object_ := data_object; virtual_lindex_ := index_map 0 lindex_by_id ∅;
      outbound_data_object_ := outbound_data_object_ d; render_ := render_ d |},
   released (virtual_data_object_ d)).

(** What [OnClipboardChanged] and GET_CLIPBOARD do with a snapshot. *)
Definition remember_files (snap : ClipboardSnapshot) (vdo : option Z) : Prog unit :=
  match snap_content_type snap with
  | Files =>
      match snap_virtual_files snap with
      | [] => locked (UpdateFilePaths (snap_file_paths snap))
      | vs => locked (UpdateVirtualFiles vdo (map vfe_lindex vs))
      end
  | _ => Ret tt
  end.

(** ** Announcements *)

(** The specs of the announced files that parse. *)
Fixpoint parse_specs (files : list (list Z)) : list VirtualFileSpec :=
  match files with
  | [] => []
  | f :: rest =>
      match ParseFileMetadataForVirtualFile f with
      | Done spec => spec :: parse_specs rest
      | _ => parse_specs rest
      end
  end.

Definition HandleAnnounceDelayed (sub_payload : list Z) : Prog unit :=
  match ParseAnnouncement sub_payload with
  | Done ann =>
      locked (fun d => (tt, set_render (announce_render ann (render_ d)) d, [])) ;;
      match ann_content_type ann with
      | Files =>
          match parse_specs (ann_files ann) with
          | [] => Ret tt
          | specs =>
              match ann_transfer_id ann with
              | [] => Ret tt
              | tid =>
                  dataobj ← call (CCreateVirtualClipboardDataObject specs tid);
                  match dataobj with
                  | None => Ret tt
                  | Some o =>
                      sr ← RunSync (hr ← call (COleSetClipboard (Some o));
                                    if negb hr then Ret None
                                    else prev ← locked (fun d => (outbound_data_object_ d, set_outbound (Some o) d, []));
                                         Ret (Some prev));
                      match sr with
                      | None => RunSync (call (CRelease o))
                      | Some None => Ret tt
                      | Some (Some prev) => RunSync (call (CRelease prev))
                      end
                  end
              end
          end
      | ct => RunSync (call (CAnnounceDelayedFormatsForType ct)) ;; Ret tt
      end
  | _ => Ret tt
  end.

Definition HandleProvideData (sub_payload : list Z) : Prog unit :=
  locked (fun d => (tt, set_render (DelayedRender.HandleProvideData sub_payload (render_ d)) d, [])).

(** ** File chunks *)

Definition kDefaultChunkSize : Z := 256 * 1024.
Definition kMaxChunkSize : Z := 4 * 1024 * 1024.

Definition chunk_size (size : Z) : Z :=
  let want := if size =? 0 then kDefaultChunkSize else size in
  if want >? kMaxChunkSize then kMaxChunkSize else want.

Definition send_chunk (req : ParsedFileChunkRequest) (data : list Z) (is_last : bool) (error : list Z) : Prog unit :=
  clock ← call CClock;
  _ ← call (CSendFrame (EncodeFileChunkData (fcr_transfer_id req) (fcr_file_id req) (fcr_offset req)
                          data is_last error clock));
  Ret tt.

(** How a [file_id] resolves. *)
Inductive Backing :=
| Physical (path : list Z)
| Virtual (o lindex : Z)
| NoBacking.

Definition resolve (file_id : list Z) (d : Dispatcher) : Backing * Dispatcher * list RefOp :=
  match file_paths_ d !! file_id with
  | Some path => (Physical path, d, [])
  | None =>
      match virtual_lindex_ d !! file_id, virtual_data_object_ d with
      | Some lindex, Some o => (Virtual o lindex, d, [RoAddRef o])
      | _, _ => (NoBacking, d, [])
      end
  end.

Definition read_physical (req : ParsedFileChunkRequest) (path : list Z) (want : Z) : Prog unit :=
  opened ← call (CCreateFile path);
  if negb opened then send_chunk req [] true (str "open failed")
  else
    sought ← call (CSetFilePointer (i64 (fcr_offset req)));
    if negb sought then call CCloseHandle ;; send_chunk req [] true (str "seek failed")
    else
      got ← call (CReadFile want);
      match got with
      | None => call CCloseHandle ;; send_chunk req [] true (str "read failed")
      | Some data => send_chunk req data (Zlen data <? want) [] ;; call CCloseHandle
      end.

Definition read_virtual (req : ParsedFileChunkRequest) (o lindex want : Z) : Prog unit :=
  r ← RunSync (call (CReadVirtualFileChunk o lindex (fcr_offset req) want));
  call (CRelease o) ;;
  match r with
  | None => send_chunk req [] true (str "virtual file read failed")
  | Some (data, is_last) => send_chunk req data is_last []
  end.

Definition HandleFileChunkRequest (sub_payload : list Z) : Prog unit :=
  match ParseFileChunkRequest sub_payload with
  | Done req =>
      let want := chunk_size (fcr_size req) in
      backing ← locked (resolve (fcr_file_id req));
      match backing with
      | NoBacking => send_chunk req [] true (str "unknown file_id")
      | Physical [] => send_chunk req [] true (str "unknown file_id")
      | Physical path => read_physical req path want
      | Virtual o lindex => read_virtual req o lindex want
      end
  | _ => Ret tt
  end.

Definition HandleFileChunkData (sub_payload : list Z) : Prog unit :=
  match ParseFileChunkData sub_payload with
  | Done chunk => call (CDeliverChunk chunk)
  | _ => Ret tt
  end.

(** ** Requests *)

Definition error_reply (message : list Z) : Prog (list Z) :=
  clock ← call CClock; Ret (EncodeError message clock).

(** [if (!ok) return EncodeError(...); return {};] *)
Definition reply_unless (ok : bool) (message : list Z) : Prog (list Z) :=
  if negb ok then error_reply message else Ret [].

(** The paths of a SET_CLIPBOARD of files. *)
Fixpoint usable_paths (files : list (list Z)) : list (list Z) :=
  match files with
  | [] => []
  | f :: rest =>
      match ExtractRelativePath f with
      | Done (c :: rel) => Utf8ToWide (c :: rel) :: usable_paths rest
      | _ => usable_paths rest
      end
  end.

Definition HandleSetClipboard (pcd : ParsedClipboardData) : Prog (list Z) :=
  match cd_content_type pcd with
  | Text =>
      ok ← RunSync (call (CWriteClipboardText (Utf8ToWide (default [] (cd_payload_ptr pcd)))));
      reply_unless ok (str "WriteClipboardText failed")
  | Image =>
      ok ← RunSync (call (CWriteClipboardImagePng (default [] (cd_payload_ptr pcd))));
      reply_unless ok (str "WriteClipboardImagePng failed")
  | Files =>
      match usable_paths (cd_files pcd) with
      | [] => Ret []
      | paths =>
          ok ← RunSync (call (CWriteClipboardFiles paths));
          reply_unless ok (str "WriteClipboardFiles failed")
      end
  | _ => Ret []
  end.

Definition HandleGetClipboard : Prog (list Z) :=
  r ← RunSync (call CReadClipboard);
  match r with
  | None => clock ← call CClock; Ret (EncodeClipboardEnvelope ClipboardContent [] clock)
  | Some (snap, vdo) =>
      remember_files snap vdo ;;
      clock ← call CClock; Ret (EncodeClipboardEnvelope ClipboardContent (EncodeClipboardData snap) clock)
  end.

(** A sub-message a request cannot do without. *)
Definition with_payload (p : option (list Z)) (message : list Z) (k : list Z -> Prog unit) : Prog (list Z) :=
  match p with
  | None => error_reply message
  | Some sub => k sub ;; Ret []
  end.

Definition Handle (request : list Z) : Prog (list Z) :=
  match ParseHelperMessage request with
  | Done m =>
      match hm_type m with
      | SetClipboard =>
          match clipboard_data_ptr m with
          | None => error_reply (str "SET_CLIPBOARD missing clipboard_data")
          | Some sub =>
              match ParseClipboardData sub with
              | Done pcd => HandleSetClipboard pcd
              | _ => error_reply (str "SET_CLIPBOARD clipboard_data parse failed")
              end
          end
      | GetClipboard => HandleGetClipboard
      | AnnounceDelayed =>
          with_payload (announcement_ptr m) (str "ANNOUNCE_DELAYED missing announcement payload") HandleAnnounceDelayed
      | ProvideData =>
          with_payload (provide_data_ptr m) (str "PROVIDE_DATA missing provide_data payload") HandleProvideData
      | FileChunkRequest =>
          with_payload (file_chunk_request_ptr m) (str "FILE_CHUNK_REQUEST missing file_chunk_request payload")
            HandleFileChunkRequest
      | FileChunkData =>
          with_payload (file_chunk_data_ptr m) (str "FILE_CHUNK_DATA missing file_chunk_data payload")
            HandleFileChunkData
      | FileTransferProgress => Ret []
      | Shutdown => call CServerStop ;; Ret []
      | _ => error_reply (str "unknown or unsupported HelperMessageType")
      end
  | _ => Ret []
  end.

Definition OnConnect : Prog (list Z) := clock ← call CClock; Ret (EncodeReady clock).

(** ** Notifications *)

(** The first block: whether our own object is still on the clipboard. *)
Definition still_ours : Prog bool :=
  obj ← locked (fun d => (outbound_data_object_ d, d, []));
  match obj with
  | None => Ret false
  | Some o =>
      current ← call (COleIsCurrentClipboard o);
      if current : bool then Ret true
      else
        locked (fun d => (tt, if bool_decide (outbound_data_object_ d = Some o) then set_outbound None d else d, [])) ;;
        call (CRelease o) ;;
        call CCancelAll ;;
        Ret false
  end.

Definition OnClipboardChanged : Prog unit :=
  ours ← still_ours;
  if ours : bool then Ret tt
  else
    owner ← call COwnerIsUs;
    if owner : bool then Ret tt
    else
      r ← call CReadClipboard;
      match r with
      | None => Ret tt
      | Some (snap, vdo) =>
          remember_files snap vdo ;;
          clock ← call CClock;
          _ ← call (CSendFrame (EncodeClipboardEnvelope ClipboardChanged (EncodeClipboardData snap) clock));
          Ret tt
      end.

(** ** Shutdown *)

Definition take_inbound (d : Dispatcher) : option Z * Dispatcher * list RefOp :=
  (virtual_data_object_ d,
   {| file_paths_ := file_paths_ d; virtual_data_object_ := None; virtual_lindex_ := ∅;
      outbound_data_object_ := outbound_data_object_ d; render_ := render_ d |}, []).
Definition take_outbound (d : Dispatcher) : option Z * Dispatcher * list RefOp :=
  (outbound_data_object_ d, set_outbound None d, []).

Definition ReleaseStaBoundResources : Prog unit :=
  call CCancelAll ;;
  in_obj ← locked take_inbound;
  match in_obj with
  | None => Ret tt
  | Some o => RunSync_or (call (CRelease o)) (call (CRelease o)) Ret
  end ;;
  out_obj ← locked take_outbound;
  match out_obj with
  | None => Ret tt
  | Some o =>
      RunSync_or (current ← call (COleIsCurrentClipboard o);
                  (if current : bool then _ ← call (COleSetClipboard None); Ret tt else Ret tt) ;;
                  call (CRelease o))
                 (call (CRelease o)) Ret
  end ;;
  owner ← call CHasOwner;
  if owner : bool then
    RunSync_or (ours ← call COwnerIsUs;
                if ours : bool then _ ← call (COleSetClipboard None); Ret tt else Ret tt)
               (Ret tt) Ret
  else Ret tt.

(** The destructor releases what [ReleaseStaBoundResources] left. *)
Definition Dispatcher_dtor (d : Dispatcher) : unit * Dispatcher * list RefOp :=
  (tt,
   {| file_paths_ := file_paths_ d; virtual_data_object_ := None; virtual_lindex_ := virtual_lindex_ d;
      outbound_data_object_ := None; render_ := render_ d |},
   released (virtual_data_object_ d) ++ released (outbound_data_object_ d)).
End Handlers.

(** ** Ownership of the handlers *)

Section Ownership.
Context `{Win32Strings}.

Lemma owns_send_chunk req data is_last err k m h :
  (forall u, owns h m (k u)) -> owns h m (send_chunk req data is_last err ≫= k).
Proof.
  intros Hk. simpl. apply owns_call; [done|done|done|]. intros clock. by apply owns_call.
Qed.

(** Publishing a snapshot: an object that lists files goes into the member, the
    old one is released. *)
Lemma owns_remember_files snap vdo k h :
  (forall u, owns h ∅ (k u)) -> owns h (snapshot_ref (Some (snap, vdo))) (remember_files snap vdo ≫= k).
Proof.
  intros Hk. unfold remember_files, snapshot_ref.
  assert (Hlock : forall paths vobj lidx,
    owns h (of_slot vobj) (Locked (fun d => (tt, {| file_paths_ := paths; virtual_data_object_ := vobj;
       virtual_lindex_ := lidx; outbound_data_object_ := outbound_data_object_ d; render_ := render_ d |},
       released (virtual_data_object_ d))) k)).
  { intros paths vobj lidx d Hob b d' rs [= <- <- <-]. split; [done|]. exists ∅.
    assert (Hend : owns (option_map (fun _ => outbound_data_object_ d) h) ∅ (k tt)).
    { destruct h as [ob|]; simpl; [rewrite (Hob ob eq_refl)|]; apply Hk. }
    split; [|exact Hend]. unfold slots. destruct (virtual_data_object_ d) as [o|]; simpl; [|f_equal; multiset_solver].
    rewrite bool_decide_true by multiset_solver. f_equal. multiset_solver. }
  destruct (snap_content_type snap); try apply Hk.
  destruct (snap_virtual_files snap) as [|v vs]; simpl; [apply (Hlock _ None)|apply Hlock].
Qed.

(** [RunSync] of one call that pumps and moves no reference. *)
Lemma owns_sync_call {B : Set} (c : Call B) k m :
  (forall o, o ∈ call_uses c -> o ∈ m) -> (forall b, call_refs c b = []) ->
  (forall b, owns None m (k b)) -> owns None m (RunSync (call c) ≫= k).
Proof.
  intros Hu Hr Hk. simpl. apply owns_enter; [intros ob|done]. apply owns_pump; [done|done|].
  intros b ob'. by apply owns_leave.
Qed.

Lemma owns_sync_release o k m :
  o ∈ m -> owns None (m ∖ {[+ o +]}) (k tt) -> owns None m (RunSync (call (CRelease o)) ≫= k).
Proof.
  intros Ho Hk. simpl. apply owns_enter; [intros ob|done]. apply owns_release; [done|].
  intros h' Hh. split; [|done]. intros ->. by destruct Hh as [Hh _]; specialize (Hh eq_refl).
Qed.

Lemma owns_read_physical req path want k m :
  (forall u, owns None m (k u)) -> owns None m (read_physical req path want ≫= k).
Proof.
  intros Hk. unfold read_physical. simpl. apply owns_call; [done..|]. intros [|]; simpl.
  - apply owns_call; [done..|]. intros [|]; simpl.
    + apply owns_call; [done..|]. intros [data|]; simpl.
      * apply owns_call; [done..|]. intros t. apply owns_call; [done..|]. intros _. by apply owns_call.
      * apply owns_call; [done..|]. intros _. by apply (owns_send_chunk req [] true _ k).
    + apply owns_call; [done..|]. intros _. by apply (owns_send_chunk req [] true _ k).
  - by apply (owns_send_chunk req [] true _ k).
Qed.

Lemma owns_read_virtual req o lindex want k :
  (forall u, owns None ∅ (k u)) -> owns None {[+ o +]} (read_virtual req o lindex want ≫= k).
Proof.
  intros Hk. unfold read_virtual. simpl. apply owns_enter; [intros ob|done].
  apply owns_pump; [|done|].
  - intros o'. simpl. rewrite list_elem_of_singleton. intros ->. by apply gmultiset_elem_of_singleton.
  - intros b ob'. apply owns_leave. apply owns_release; [by apply gmultiset_elem_of_singleton|].
    intros h' Hh. replace h' with (None : option (option Z)) by (symmetry; tauto).
    replace ({[+ o +]} ∖ {[+ o +]}) with (∅ : gmultiset Z) by multiset_solver.
    destruct b as [[data last]|]; simpl; by apply (owns_send_chunk req).
Qed.

Lemma owns_HandleFileChunkRequest sub k :
  (forall u, owns None ∅ (k u)) -> owns None ∅ (HandleFileChunkRequest sub ≫= k).
Proof.
  intros Hk. unfold HandleFileChunkRequest. destruct (ParseFileChunkRequest sub) as [req| |]; [|apply Hk|apply Hk].
  cbv zeta. simpl. intros d _ b d' rs E. unfold resolve in E.
  assert (Hquiet : forall q : Prog unit, owns None ∅ q -> rs = [] -> d' = d ->
    (@None (option Z) = None -> outbound_data_object_ d' = outbound_data_object_ d) /\
    exists m', apply_refs rs (slots d ⊎ ∅) true = (slots d' ⊎ m', true) /\ owns None m' q).
  { intros q Hq -> ->. split; [done|]. exists ∅. by split. }
  destruct (file_paths_ d !! fcr_file_id req) as [path|].
  { simplify_eq. apply Hquiet; [|done|done]. destruct path as [|c path];
      [by apply (owns_send_chunk req)|by apply owns_read_physical]. }
  destruct (virtual_lindex_ d !! fcr_file_id req) as [lindex|];
    [|simplify_eq; apply Hquiet; [by apply (owns_send_chunk req)|done|done]].
  destruct (virtual_data_object_ d) as [o|] eqn:Eo; simplify_eq;
    [|apply Hquiet; [by apply (owns_send_chunk req)|done|done]].
  split; [done|]. exists {[+ o +]}. simpl. split; [|by apply owns_read_virtual].
  unfold slots. rewrite Eo. simpl. rewrite bool_decide_true by multiset_solver. f_equal. multiset_solver.
Qed.

(** OLE takes the new object, the members keep it, and the one it replaces is
    released afterwards. *)
Lemma owns_publish_object o k :
  (forall u, owns None ∅ (k u)) ->
  owns None {[+ o +]}
    ((sr ← RunSync (hr ← call (COleSetClipboard (Some o));
                    if negb hr then Ret None
                    else prev ← locked (fun d => (outbound_data_object_ d, set_outbound (Some o) d, []));
                         Ret (Some prev));
      match sr with
      | None => RunSync (call (CRelease o))
      | Some None => Ret tt
      | Some (Some prev) => RunSync (call (CRelease prev))
      end) ≫= k).
Proof.
  intros Hk. assert (Ho : o ∈ ({[+ o +]} : gmultiset Z)) by (by apply gmultiset_elem_of_singleton).
  assert (Hself : forall p : Z, ({[+ p +]} : gmultiset Z) ∖ {[+ p +]} = ∅) by (intros; multiset_solver).
  simpl. apply owns_enter; [intros ob|done].
  apply owns_pump; [intros o'; simpl; by rewrite list_elem_of_singleton; intros ->|done|].
  intros [|] ob'; simpl.
  - intros d Hob b d' rs [= <- <- <-]. specialize (Hob ob' eq_refl). split; [done|].
    exists (of_slot (outbound_data_object_ d)). split.
    + simpl. f_equal. unfold slots, set_outbound. simpl. multiset_solver.
    + simpl. apply owns_leave. destruct (outbound_data_object_ d) as [prev|]; simpl; [|apply Hk].
      apply (owns_sync_release prev k); [by apply gmultiset_elem_of_singleton|]. by rewrite Hself.
  - apply owns_leave. apply (owns_sync_release o k); [done|]. by rewrite Hself.
Qed.

Lemma owns_HandleAnnounceDelayed sub k :
  (forall u, owns None ∅ (k u)) -> owns None ∅ (HandleAnnounceDelayed sub ≫= k).
Proof.
  intros Hk. unfold HandleAnnounceDelayed. destruct (ParseAnnouncement sub) as [ann| |]; [|apply Hk|apply Hk].
  simpl. apply owns_locked_quiet; [by intros d b d' rs [= <- <- <-]|]. intros _.
  assert (Hdelayed : forall ct, owns None ∅ (prog_bind k
            ((RunSync (call (CAnnounceDelayedFormatsForType ct))) ;; Ret tt))).
  { intros ct. simpl. apply owns_enter; [intros ob|done]. apply owns_pump; [|done|].
    - intros o Ho. by apply elem_of_nil in Ho.
    - intros b ob'. apply owns_leave. apply Hk. }
  destruct (ann_content_type ann); try apply Hdelayed.
  destruct (parse_specs (ann_files ann)) as [|spec specs]; [apply Hk|].
  destruct (ann_transfer_id ann) as [|c tid]; [apply Hk|].
  split; [intros o Ho; by apply elem_of_nil in Ho|]. intros [o|]; simpl.
  - exists {[+ o +]}. split; [f_equal; multiset_solver|]. by apply (owns_publish_object o k).
  - exists ∅. split; [f_equal; multiset_solver|]. apply Hk.
Qed.

Lemma owns_error_reply msg k m : (forall r, owns None m (k r)) -> owns None m (error_reply msg ≫= k).
Proof. intros Hk. simpl. by apply owns_call. Qed.

Lemma owns_HandleGetClipboard k : (forall r, owns None ∅ (k r)) -> owns None ∅ (HandleGetClipboard ≫= k).
Proof.
  intros Hk. unfold HandleGetClipboard. simpl. apply owns_enter; [intros ob|done].
  apply owns_read_clipboard. intros [[snap vdo]|] ob'; apply owns_leave; [|by apply owns_call].
  apply owns_assoc. apply (owns_remember_files snap vdo). intros _. by apply owns_call.
Qed.

Lemma owns_HandleSetClipboard pcd k : (forall r, owns None ∅ (k r)) -> owns None ∅ (HandleSetClipboard pcd ≫= k).
Proof.
  intros Hk. unfold HandleSetClipboard.
  assert (Hwrite : forall (c : Call bool) msg, call_uses c = [] -> (forall b, call_refs c b = []) ->
            owns None ∅ ((ok ← RunSync (call c); reply_unless ok msg) ≫= k)).
  { intros c msg Hu Hr. apply owns_assoc. apply owns_sync_call; [|done|].
    - rewrite Hu. intros o Ho. by apply elem_of_nil in Ho.
    - intros [|]; [apply Hk|]. by apply owns_call. }
  destruct (cd_content_type pcd); try apply Hk; try by apply Hwrite.
  destruct (usable_paths (cd_files pcd)) as [|p ps]; [apply Hk|by apply Hwrite].
Qed.

(** A request, as a thread. *)
Definition request_thread (request : list Z) : Prog unit := prog_bind (fun _ => Ret tt) (Handle request).

Lemma owns_request_thread request : owns None ∅ (request_thread request).
Proof.
  unfold request_thread, Handle. assert (Hend : forall r : list Z, owns None ∅ ((fun _ => Ret tt) r)) by done.
  destruct (ParseHelperMessage request) as [m| |]; [|done|done].
  assert (Hsub : forall p msg g, (forall sub k, (forall u, owns None ∅ (k u)) -> owns None ∅ (g sub ≫= k)) ->
            owns None ∅ (prog_bind (fun _ => Ret tt) (with_payload p msg g))).
  { intros [sub|] msg g Hg; [|by apply (owns_error_reply msg)]. apply owns_assoc. by apply Hg. }
  destruct (hm_type m); try (by apply (owns_error_reply (str "unknown or unsupported HelperMessageType"))).
  - destruct (clipboard_data_ptr m) as [sub|]; [|by apply (owns_error_reply (str "SET_CLIPBOARD missing clipboard_data"))].
    destruct (ParseClipboardData sub) as [pcd| |];
      [by apply owns_HandleSetClipboard| |];
      by apply (owns_error_reply (str "SET_CLIPBOARD clipboard_data parse failed")).
  - apply Hsub. apply owns_HandleAnnounceDelayed.
  - apply Hsub. intros sub k Hk. simpl. by apply owns_locked_quiet; [intros d b d' rs [= <- <- <-]|].
  - by apply owns_HandleGetClipboard.
  - by apply owns_call.
  - apply Hsub. apply owns_HandleFileChunkRequest.
  - apply Hsub. intros sub k Hk. unfold HandleFileChunkData.
    destruct (ParseFileChunkData sub); [by apply owns_call|apply Hk|apply Hk].
  - done.
Qed.

Lemma owns_OnClipboardChanged : owns None ∅ (on_sta OnClipboardChanged).
Proof.
  unfold on_sta, RunSync_or. apply owns_enter; [intros ob0|done].
  assert (Hleave : forall ob m, m = ∅ -> owns (Some ob) m (StaLeave (Ret tt))) by (by intros ob m ->).
  assert (Hrest : forall ob, owns (Some ob) ∅ (prog_bind (fun b => StaLeave (Ret b))
            (owner ← call COwnerIsUs;
             if owner : bool then Ret tt
             else
               r ← call CReadClipboard;
               match r with
               | None => Ret tt
               | Some (snap, vdo) =>
                   remember_files snap vdo ;;
                   clock ← call CClock;
                   _ ← call (CSendFrame (EncodeClipboardEnvelope ClipboardChanged (EncodeClipboardData snap) clock));
                   Ret tt
               end))).
  { intros ob. simpl. apply owns_call; [done..|]. intros [|]; simpl; [by apply Hleave|].
    apply owns_read_clipboard. intros [[snap vdo]|] ob'; [|by apply Hleave].
    apply owns_assoc. apply owns_remember_files.
    intros _. simpl. apply owns_call; [done..|]. intros t. apply owns_call; [done..|]. intros _. by apply Hleave. }
  unfold OnClipboardChanged, still_ours. apply owns_assoc. simpl.
  intros d Hob b d' rs [= <- <- <-]. split; [done|]. exists ∅. split; [done|]. simpl.
  destruct (outbound_data_object_ d) as [o|] eqn:Eo; [|apply Hrest]. simpl.
  split; [intros o' Ho'; right; by apply list_elem_of_singleton in Ho' as ->|].
  intros current. exists ∅. split; [done|]. intros ob' Hob'. rewrite Hob' by done.
  destruct current; simpl; [by apply Hleave|].
  intros d2 Hob2 b2 d3 rs2 [= <- <- <-]. rewrite (Hob2 _ eq_refl). rewrite bool_decide_true by done.
  split; [done|]. exists {[+ o +]}. split.
  - simpl. f_equal. unfold slots, set_outbound. simpl. rewrite (Hob2 _ eq_refl). simpl. multiset_solver.
  - simpl. apply owns_release; [by apply gmultiset_elem_of_singleton|]. intros h' Hh.
    destruct h' as [ob2|]; [|by destruct Hh as [Hh _]; specialize (Hh eq_refl)].
    replace ({[+ o +]} ∖ {[+ o +]}) with (∅ : gmultiset Z) by multiset_solver.
    apply owns_call; [done..|]. intros _. apply Hrest.
Qed.
End Ownership.

(** ** Lemmas for the properties *)

Lemma chunk_size_bounds size : 0 <= size -> 0 < chunk_size size <= kMaxChunkSize.
Proof.
  intros Hs. unfold chunk_size, kMaxChunkSize, kDefaultChunkSize. rewrite Z.gtb_ltb.
  destruct (size =? 0) eqn:E; zbool; [by vm_compute|].
  destruct (_ <? size) eqn:E2; zbool; lia.
Qed.

(** How many files a handler has opened and not closed. *)
Definition event_handles (e : Event) : Z :=
  match e with
  | EvCall c b =>
      match c in Call B' return B' -> Z with
      | CCreateFile _ => fun ok => if ok : bool then 1 else 0
      | CCloseHandle => fun _ => -1
      | _ => fun _ => 0
      end b
  | EvRef _ => 0
  end.
Definition open_handles (tr : list Event) : Z := foldr (fun e acc => event_handles e + acc) 0 tr.

(** The references a handler's events leave it with. *)
Definition event_refs (e : Event) : Z :=
  match e with
  | EvCall c b =>
      match c with
      | CRelease _ => -1
      | _ => 0
      end
  | EvRef (RoRelease _) => -1
  | EvRef _ => 1
  end.
Definition held_refs (tr : list Event) : Z := foldr (fun e acc => event_refs e + acc) 0 tr.

(** A call that answers nothing answers [tt]. *)
Ltac unit_answers :=
  repeat match goal with |- context [?w ?i unit ?c] => destruct (w i unit c) end.

(** One block of calls ending in one answer to the parent. *)
Definition answers_once (req : ParsedFileChunkRequest) (tr : list Event) : Prop :=
  exists data is_last err clock,
    sent_frames tr = [EncodeFileChunkData (fcr_transfer_id req) (fcr_file_id req) (fcr_offset req)
                        data is_last err clock] /\
    (err <> [] -> data = [] /\ is_last = true) /\
    open_handles tr = 0 /\ held_refs tr = 0.

Lemma HandleFileChunkRequest_answers `{Win32Strings} sub req (ω : nat -> Answers) n d :
  ParseFileChunkRequest sub = Done req -> (forall i, ω i bool CStaAlive = true) ->
  exists tr, run ω n (HandleFileChunkRequest sub) d = (Some tt, d, tr) /\ answers_once req tr.
Proof.
  intros Hp Halive. unfold HandleFileChunkRequest. rewrite Hp. cbv zeta.
  simpl. unfold resolve.
  assert (Hone : forall data last err i, err = [] \/ (data = [] /\ last = true) ->
    exists tr, run ω i (send_chunk req data last err) d = (Some tt, d, tr) /\ answers_once req tr).
  { intros data last err i He. eexists. split; [reflexivity|]. eexists data, last, err, _.
    split; [reflexivity|]. split; [naive_solver|done]. }
  destruct (file_paths_ d !! fcr_file_id req) as [[|c path]|].
  - apply Hone. by right.
  - simpl. destruct (ω (S n) bool (CCreateFile (c :: path))) eqn:Eo; simpl.
    + destruct (ω (S (S n)) bool (CSetFilePointer (i64 (fcr_offset req)))); simpl.
      * destruct (ω (S (S (S n))) _ (CReadFile (chunk_size (fcr_size req)))) as [data|]; simpl;
          unit_answers; (eexists; split; [reflexivity|]; eexists _, _, _, _; split; [reflexivity|]);
          (split; [naive_solver|by split]).
      * eexists; split; [reflexivity|]; eexists _, _, _, _; split; [reflexivity|]; split; [naive_solver|by split].
    + eexists; split; [reflexivity|]; eexists _, _, _, _; split; [reflexivity|]; split; [naive_solver|by split].
  - destruct (virtual_lindex_ d !! fcr_file_id req) as [lindex|]; [|apply Hone; by right].
    destruct (virtual_data_object_ d) as [o|]; [|apply Hone; by right].
    simpl. rewrite Halive. simpl.
    destruct (ω _ _ (CReadVirtualFileChunk o lindex (fcr_offset req) (chunk_size (fcr_size req)))) as [[data last]|];
      simpl; (eexists; split; [reflexivity|]; eexists _, _, _, _; split; [reflexivity|]); (split; [naive_solver|by split]).
Qed.

(** The request that sets the clipboard to a snapshot. *)
Definition set_call (snap : ClipboardSnapshot) : Call bool * list Z :=
  match snap_content_type snap with
  | Image => (CWriteClipboardImagePng (snap_image_png snap), str "WriteClipboardImagePng failed")
  | Files => (CWriteClipboardFiles (snap_file_paths snap), str "WriteClipboardFiles failed")
  | _ => (CWriteClipboardText (snap_text snap), str "WriteClipboardText failed")
  end.

Section Content.
Context `{Win32StringLaws}.

Lemma wide_roundtrip w : wf w -> Utf8ToWide (WideToUtf8 w) = w.
Proof.
  intros Hw. unfold WideToUtf8. destruct w as [|c w]; [done|].
  pose proof (narrow_nonempty (c :: w) Hw ltac:(discriminate)). unfold Utf8ToWide.
  destruct (WideCharToMultiByte (c :: w)) eqn:E; [done|]. rewrite <- E. by apply wide_narrow_wide.
Qed.

Lemma usable_paths_encoded i paths :
  Forall wf paths -> Forall (fun p => p <> []) paths ->
  Forall (fun m => Zlen m < 2 ^ 64) (encoded_files EncodeFileMetadata i paths) ->
  usable_paths (encoded_files EncodeFileMetadata i paths) = paths.
Proof.
  intros Hwf Hne. revert i. induction Hwf as [|p paths Hp _ IH]; intros i; simpl; [done|].
  apply Forall_cons in Hne as [Hpne Hne]. intros [Hm Hms]%Forall_cons.
  assert (Hutf : WideToUtf8 p <> []) by (unfold WideToUtf8; destruct p; [done|by apply narrow_nonempty]).
  rewrite relative_path_found by done. destruct (WideToUtf8 p) as [|c u] eqn:E; [done|].
  change (MultiByteToWideChar (c :: u)) with (Utf8ToWide (c :: u)). rewrite <- E, wide_roundtrip by done. by rewrite IH.
Qed.
End Content.

(** The helper's own chunk request for [want] bytes at [off], and the parsed
    reply of the dispatcher to it. *)
Definition chunk_reply `{Win32Strings} (ω : nat -> Answers) (d : Dispatcher) (tid fid : list Z) (off want : Z)
  : option ParsedFileChunkData :=
  let '(_, _, tr) := run ω 0 (Handle (EncodeFileChunkRequestOutbound tid fid off want 0)) d in
  match sent_frames tr with
  | [f] =>
      match ParseHelperMessage f with
      | Done m =>
          match file_chunk_data_ptr m with
          | Some sub => match ParseFileChunkData sub with Done c => Some c | _ => None end
          | None => None
          end
      | _ => None
      end
  | _ => None
  end.

(** A peer that downloads a file: chunk after chunk until one is the last. *)
Fixpoint download `{Win32Strings} (fuel : nat) (ω : Z -> nat -> Answers) (d : Dispatcher) (tid fid : list Z)
    (want off : Z) : option (list Z) :=
  match fuel with
  | O => None
  | S fuel' =>
      match chunk_reply (ω off) d tid fid off want with
      | Some c =>
          match fcd_error c with
          | [] =>
              if fcd_is_last c then Some (fcd_data c)
              else match download fuel' ω d tid fid want (off + Zlen (fcd_data c)) with
                   | Some rest => Some (fcd_data c ++ rest)
                   | None => None
                   end
          | _ => None
          end
      | None => None
      end
  end.

(** What [CreateFileW], [SetFilePointerEx], [ReadFile] and [CloseHandle] promise
    for a regular file at [path] that nobody changes, as a check of the calls
    made and their answers: [pos] is the file pointer of the open handle.  An
    opened handle starts at 0, only a seek or a read moves it, and a read
    returns the bytes at the pointer, as many as asked for unless the file
    ends. *)
Definition file_call (path content : list Z) (pos : option Z) {B : Set} (c : Call B) : B -> Prop :=
  match c in Call B' return B' -> Prop with
  | CCreateFile p => fun opened => p = path -> opened = true
  | CSetFilePointer offset => fun sought => is_Some pos -> 0 <= offset -> sought = true
  | CReadFile want => fun got =>
      forall q, pos = Some q -> got = Some (take (Z.to_nat want) (drop (Z.to_nat q) content))
  | CClock => fun t => is_u64 t
  | _ => fun _ => True
  end.
Definition file_pos (pos : option Z) {B : Set} (c : Call B) : B -> option Z :=
  match c in Call B' return B' -> option Z with
  | CCreateFile _ => fun opened => if opened : bool then Some 0 else None
  | CSetFilePointer offset => fun sought => if sought : bool then (_ ← pos; Some offset) else pos
  | CReadFile _ => fun got => q ← pos; Some (q + Zlen (default [] got))
  | CCloseHandle => fun _ => None
  | _ => fun _ => pos
  end.
Fixpoint file_answers (path content : list Z) (pos : option Z) (tr : list Event) : Prop :=
  match tr with
  | [] => True
  | EvCall c b :: rest => file_call path content pos c b /\ file_answers path content (file_pos pos c b) rest
  | EvRef _ :: rest => file_answers path content pos rest
  end.

(** The calls the chunk request at [off] makes, and their answers. *)
Definition chunk_calls `{Win32Strings} (ω : nat -> Answers) (d : Dispatcher) (tid fid : list Z) (off want : Z) : list Event :=
  (run ω 0 (Handle (EncodeFileChunkRequestOutbound tid fid off want 0)) d).2.

Lemma chunk_reply_file `{Win32Strings} path content ω d tid fid off want :
  file_answers path content None (chunk_calls (ω off) d tid fid off want) ->
  file_paths_ d !! fid = Some path -> path <> [] ->
  0 <= off < 2 ^ 63 -> is_u32 want -> small tid -> small fid ->
  let data := take (Z.to_nat (chunk_size want)) (drop (Z.to_nat off) content) in
  chunk_reply (ω off) d tid fid off want =
    Some (Build_ParsedFileChunkData tid fid off data (Zlen data <? chunk_size want) []).
Proof.
  intros Hf Hpath Hne Hoff Hwant Htid Hfid. cbv zeta. revert Hf. unfold chunk_reply, chunk_calls, Handle.
  assert (Hoff64 : is_u64 off) by (unfold is_u64; lia).
  destruct (file_chunk_request_decodes tid fid off want 0) as (inner & -> & Hreq); try done.
  cbn [hm_type file_chunk_request_ptr with_payload]. unfold HandleFileChunkRequest. rewrite Hreq.
  cbn [fcr_size fcr_file_id]. cbv zeta. unfold mbind, Prog_bind. cbn [prog_bind locked]. cbn [run].
  unfold resolve. rewrite Hpath. destruct path as [|c path]; [done|].
  cbn -[Z.to_nat chunk_size ParseHelperMessage ParseFileChunkData EncodeFileChunkData file_answers].
  destruct (ω off 1%nat bool (CCreateFile (c :: path))) eqn:Eopen;
    [|intros [Hopen _]; by specialize (Hopen eq_refl)].
  cbn -[Z.to_nat chunk_size ParseHelperMessage ParseFileChunkData EncodeFileChunkData file_answers].
  replace (i64 off) with off by (unfold i64; rewrite Z.mod_small by lia; replace (off <? 2 ^ 63) with true by lia; done).
  destruct (ω off 2%nat bool (CSetFilePointer off)) eqn:Eseek;
    [|intros (_ & Hseek & _); specialize (Hseek ltac:(by eexists) ltac:(lia)); done].
  cbn -[Z.to_nat chunk_size ParseHelperMessage ParseFileChunkData EncodeFileChunkData file_answers].
  destruct (ω off 3%nat (option (list Z)) (CReadFile (chunk_size want))) as [got|] eqn:Eread;
    [|intros (_ & _ & Hread & _); by specialize (Hread _ eq_refl)].
  cbn -[Z.to_nat chunk_size ParseHelperMessage ParseFileChunkData EncodeFileChunkData file_answers].
  intros (_ & _ & Hread & Hclock & _). specialize (Hread _ eq_refl). injection Hread as ->.
  set (data := take _ _).
  destruct (file_chunk_data_decodes tid fid off data (Zlen data <? chunk_size want) [] (ω off 4%nat Z CClock))
    as (inner2 & -> & Hdata); try done.
  - unfold data, small, Zlen. rewrite length_take. pose proof (chunk_size_bounds want). unfold is_u32, kMaxChunkSize in *. lia.
  - cbn [file_chunk_data_ptr]. by rewrite Hdata.
Qed.

Lemma download_from `{Win32Strings} path content ω d tid fid want fuel off :
  (forall off, 0 <= off <= Zlen content -> file_answers path content None (chunk_calls (ω off) d tid fid off want)) ->
  file_paths_ d !! fid = Some path -> path <> [] ->
  0 <= off <= Zlen content -> Zlen content < 2 ^ 63 -> is_u32 want -> small tid -> small fid ->
  Zlen content - off < Z.of_nat fuel * chunk_size want ->
  download fuel ω d tid fid want off = Some (drop (Z.to_nat off) content).
Proof.
  intros Hf Hpath Hne Hoff Hlen Hwant Htid Hfid.
  pose proof (chunk_size_bounds want ltac:(unfold is_u32 in Hwant; lia)) as Hcs.
  revert off Hoff. induction fuel as [|fuel IH]; intros off Hoff Hfuel; [lia|].
  cbn [download]. rewrite (chunk_reply_file path content) by (auto || lia). cbn [fcd_error fcd_is_last fcd_data].
  set (data := take _ _). assert (Hdata : Zlen data = Z.min (chunk_size want) (Zlen content - off)).
  { unfold data, Zlen in *. rewrite length_take, length_drop. lia. }
  destruct (Zlen data <? chunk_size want) eqn:E; zbool.
  - f_equal. apply take_ge. unfold Zlen in *. rewrite length_drop. lia.
  - rewrite IH by lia. f_equal. replace (Z.to_nat (off + Zlen data)) with (Z.to_nat off + length data)%nat
      by (unfold Zlen in *; lia).
    rewrite <- drop_drop. unfold data at 2. rewrite length_take, length_drop.
    rewrite <- (take_drop (Z.to_nat (chunk_size want)) (drop (Z.to_nat off) content)) at 2. f_equal.
    f_equal. unfold Zlen in *. lia.
Qed.

(** ** Properties *)

Section Properties.
Context `{Win32Strings}.

(** C1: COM references are balanced: in every interleaving of requests on the pipe
    thread with clipboard notifications on the STA thread, also while OLE calls
    pump messages and whatever the calls answer, the dispatcher never uses or
    releases an object it holds no reference to.  It always holds the references
    of its two data-object members, and once every handler has returned it holds
    exactly these and, for every snapshot the run was answered that carries a
    data object but lists none of its files, the one reference to that object,
    which no member ever records: [run_lost].  Without such an answer nothing is
    left over. *)
Theorem references_balanced d requests n ls y :
  let y0 := start_system d (map request_thread requests ++ replicate n (on_sta OnClipboardChanged)) in
  sys_run ls y0 = Some y ->
  sy_ok y = true /\
  slots (sy_d y) ⊎ run_lost ls y0 ⊆ sy_refs y /\
  (forallb finished (sy_threads y) = true -> sy_refs y = slots (sy_d y) ⊎ run_lost ls y0).
Proof.
  cbv zeta. intros Hrun. set (y0 := start_system _ _) in *.
  assert (Hi : sys_inv (∅ ⊎ run_lost ls y0) y).
  { eapply sys_run_inv; [exact Hrun|]. apply start_inv. apply Forall_app. split.
    - apply Forall_fmap. apply Forall_forall. intros r _. apply owns_request_thread.
    - apply Forall_replicate. apply owns_OnClipboardChanged. }
  rewrite (left_id_L ∅ (⊎)) in Hi. split; [|split; [by apply inv_members|by apply inv_finished]].
  by destruct Hi as (ms & _ & _ & ? & _).
Qed.

(** C30: Every file-chunk request that parses gets exactly one FILE_CHUNK_DATA with
    its own transfer id, file id and offset, whatever the backing of the file
    and whichever call fails; an error carries no data and ends the transfer; a
    file that was opened is closed and an object that was pinned is released. *)
Theorem chunk_request_always_answered sub req (ω : nat -> Answers) n d :
  ParseFileChunkRequest sub = Done req -> (forall i, ω i bool CStaAlive = true) ->
  exists tr, run ω n (HandleFileChunkRequest sub) d = (Some tt, d, tr) /\ answers_once req tr.
Proof. apply HandleFileChunkRequest_answers. Qed.

(** SET_CLIPBOARD does what it says: a request that carries a snapshot of text,
    an image or files makes exactly one clipboard call, on the STA thread, with
    exactly that text, those image bytes or those paths in order; the reply is
    empty when the call succeeds and the matching error otherwise. *)
Theorem set_clipboard_end_to_end `{!Win32StringLaws wf} snap clock (ω : nat -> Answers) n d :
  snap_content_type snap = Text \/ snap_content_type snap = Image \/
    (snap_content_type snap = Files /\ snap_file_paths snap <> [] /\ snap_virtual_files snap = []) ->
  small (EncodeClipboardData snap) -> is_u64 clock ->
  wf (snap_text snap) -> Forall wf (snap_file_paths snap) -> Forall (fun p => p <> []) (snap_file_paths snap) ->
  ω n bool CStaAlive = true ->
  let '(c, message) := set_call snap in
  let ok := ω (S n) bool c in
  let t := ω (S (S (S n))) Z CClock in
  run ω n (Handle (EncodeClipboardEnvelope SetClipboard (EncodeClipboardData snap) clock)) d =
    (Some (if ok then [] else EncodeError message t), d,
     [EvCall CStaAlive true; EvCall c ok] ++ if ok then [] else [EvCall CClock t]).
Proof.
  intros Hct Hsmall Hclock Htext Hpaths Hne Halive. unfold Handle.
  rewrite envelope_clipboard by (auto; by apply small_u64). cbn [hm_type clipboard_data_ptr].
  apply small_u64 in Hsmall. rewrite clipboard_data_decodes by (auto; tauto).
  assert (Hrun : forall (c : Call bool) msg,
    run ω n (ok ← RunSync (call c); reply_unless ok msg) d =
      (Some (if ω (S n) bool c then [] else EncodeError msg (ω (S (S (S n))) Z CClock)), d,
       [EvCall CStaAlive true; EvCall c (ω (S n) bool c)] ++
         if ω (S n) bool c then [] else [EvCall CClock (ω (S (S (S n))) Z CClock)])).
  { intros c msg. simpl. rewrite Halive. simpl. by destruct (ω (S n) bool c). }
  unfold snapshot_parsed, set_call, HandleSetClipboard. destruct Hct as [E|[E|(E & Hn & Hv)]]; rewrite E.
  - cbn [cd_content_type cd_payload_ptr].
    assert (Hd : default [] (match WideToUtf8 (snap_text snap) with [] => None | _ => Some (WideToUtf8 (snap_text snap)) end) =
              WideToUtf8 (snap_text snap)) by (by destruct (WideToUtf8 (snap_text snap))).
    rewrite Hd, wide_roundtrip by done. apply Hrun.
  - cbn [cd_content_type cd_payload_ptr].
    assert (Hd : default [] (match snap_image_png snap with [] => None | _ => Some (snap_image_png snap) end) =
              snap_image_png snap) by (by destruct (snap_image_png snap)).
    rewrite Hd. apply Hrun.
  - cbn [cd_content_type cd_files]. rewrite Hv. cbn [encoded_files]. rewrite app_nil_r.
    rewrite usable_paths_encoded; [|done|done|].
    + destruct (snap_file_paths snap) as [|p ps]; [done|]. apply Hrun.
    + unfold EncodeClipboardData in Hsmall. rewrite E, Hv in Hsmall. cbn [write_files] in Hsmall.
      rewrite write_files_app, Zlen_app in Hsmall.
      apply Forall_forall. intros m Hm. pose proof (files_field_contains _ m Hm).
      pose proof (Zlen_nonneg (WriteEnumField kCDFieldContentType (content_type_value Files) [])). lia.
Qed.

(** C7: A file is transferred byte for byte: fetching a mapped file chunk by chunk
    through FILE_CHUNK_REQUEST frames until a chunk is marked last yields exactly
    its contents, for any requested chunk size (0 means 256 KiB, more than 4 MiB
    is cut to 4 MiB) and any length, also a multiple of the chunk size.  Every
    request opens the file anew; the file system answers the calls it makes as
    for a regular file that nobody changes: a handle's pointer starts at 0, a
    seek sets it and a read returns the bytes at it. *)
Theorem download_is_exact path content ω d tid fid want fuel :
  (forall off, 0 <= off <= Zlen content -> file_answers path content None (chunk_calls (ω off) d tid fid off want)) ->
  file_paths_ d !! fid = Some path -> path <> [] ->
  Zlen content < 2 ^ 63 -> is_u32 want -> small tid -> small fid ->
  Zlen content < Z.of_nat fuel * chunk_size want ->
  download fuel ω d tid fid want 0 = Some content.
Proof.
  intros. pose proof (Zlen_nonneg content). rewrite (download_from path content) by (auto || lia). done.
Qed.
End Properties.

(** ** Witnesses and counterexamples *)

Definition get_clipboard_request : list Z := WriteEnumField kFieldType (message_type_value GetClipboard) [].

(** A snapshot of virtual files whose data object is number 9. *)
Definition virtual_snapshot (files : list VirtualFileEntry) : option (ClipboardSnapshot * option Z) :=
  Some ({| snap_content_type := Files; snap_text := []; snap_image_png := []; snap_file_paths := [];
           snap_virtual_files := files |}, Some 9).
Definition one_file : list VirtualFileEntry := [{| vfe_name := [97]; vfe_size := 3; vfe_lindex := 0 |}].

(** GET_CLIPBOARD while a notification finds our outbound object 5 replaced. *)
Definition two_readers : System :=
  start_system (set_outbound (Some 5) (init_Dispatcher true))
    (map (@request_thread ascii_strings) [get_clipboard_request] ++
     replicate 1 (on_sta (@OnClipboardChanged ascii_strings))).
Definition two_readers_run : list (nat * Answers) :=
  map (fun i => (i, answering (virtual_snapshot one_file) false false))
    ([1; 1; 1; 1; 1; 1; 1; 1; 1; 0; 0; 1; 1; 1; 1; 1; 0; 0; 0; 0]%nat).

Lemma references_balanced_witness :
  exists y, sys_run two_readers_run two_readers = Some y /\
    forallb finished (sy_threads y) = true /\ sy_refs y = slots (sy_d y) ⊎ run_lost two_readers_run two_readers /\
    run_lost two_readers_run two_readers = ∅.
Proof.
  eexists. split; [vm_compute; reflexivity|]. split; [reflexivity|]. split; [|vm_compute; reflexivity].
  refine (proj2 (proj2 (@references_balanced ascii_strings (set_outbound (Some 5) (init_Dispatcher true))
            [get_clipboard_request] 1 two_readers_run _ _)) _); [vm_compute; reflexivity|reflexivity].
Defined.

(** A regular file with the given contents. *)
Definition regular_file (content : list Z) (off : Z) (i : nat) : Answers :=
  fun B c =>
    match c in Call B' return B' with
    | CReadFile w => Some (take (Z.to_nat w) (drop (Z.to_nat off) content))
    | c' => answering None false false _ c'
    end.

Definition mapped (path : list Z) : Dispatcher :=
  {| file_paths_ := {[str "0" := path]}; virtual_data_object_ := None; virtual_lindex_ := ∅;
     outbound_data_object_ := None; render_ := init_RenderState true |}.

Lemma chunk_request_always_answered_witness :
  exists tr, run (regular_file [1; 2; 3] 1) 0 (@HandleFileChunkRequest
      (WriteStringField kFCReqFieldFileId (str "0") (WriteUint64Field kFCReqFieldOffset 1 []))) (mapped [67]) =
      (Some tt, mapped [67], tr) /\
    answers_once (Build_ParsedFileChunkRequest [] (str "0") 1 0) tr.
Proof.
  apply (@chunk_request_always_answered ascii_strings); [vm_compute; reflexivity|reflexivity].
Defined.

Lemma set_clipboard_end_to_end_witness :
  let snap := {| snap_content_type := Files; snap_text := []; snap_image_png := [];
                 snap_file_paths := [str "C:\a.txt"; str "D:\b"]; snap_virtual_files := [] |} in
  run (fun _ => answering None false false) 0
      (@Handle ascii_strings (EncodeClipboardEnvelope SetClipboard (@EncodeClipboardData ascii_strings snap) 7))
      (init_Dispatcher true) =
    (Some [], init_Dispatcher true,
     [EvCall CStaAlive true; EvCall (CWriteClipboardFiles [str "C:\a.txt"; str "D:\b"]) true] ++ []).
Proof.
  cbv zeta.
  apply (@set_clipboard_end_to_end ascii_strings _ ascii_string_laws
    {| snap_content_type := Files; snap_text := []; snap_image_png := [];
       snap_file_paths := [str "C:\a.txt"; str "D:\b"]; snap_virtual_files := [] |} 7
    (fun _ => answering None false false) 0 (init_Dispatcher true)).
  - right. right. by split_and!.
  - vm_compute. reflexivity.
  - unfold is_u64. lia.
  - exact I.
  - by repeat (apply Forall_cons_2; [exact I|]).
  - repeat (apply Forall_cons_2; [discriminate|]). by apply Forall_nil_2.
  - reflexivity.
Defined.

Lemma download_is_exact_witness :
  @download ascii_strings 4 (regular_file [1; 2; 3; 4]) (mapped (str "C:\f")) (str "t") (str "0") 2 0 = Some [1; 2; 3; 4].
Proof.
  apply (@download_is_exact ascii_strings (str "C:\f") [1; 2; 3; 4]).
  - intros off Hoff. change (0 <= off <= 4) in Hoff.
    assert (Hcases : off = 0 \/ off = 1 \/ off = 2 \/ off = 3 \/ off = 4) by lia.
    destruct Hcases as [-> |[-> |[-> |[-> | ->]]]]; vm_compute; split_and!; try done; by intros q [= <-].
  - reflexivity.
  - discriminate.
  - vm_compute. reflexivity.
  - unfold is_u32. lia.
  - vm_compute. reflexivity.
  - vm_compute. reflexivity.
  - vm_compute. reflexivity.
Defined.

(** Shutting down can release an object twice: [ReleaseStaBoundResources] takes
    the outbound object out of its member on the main thread while the STA
    thread, between its two locked regions, has found the same object replaced;
    both release the one reference, and the second also asks OLE about the
    freed object. *)
Theorem shutdown_releases_twice :
  exists ls y,
    sys_run ls (start_system (set_outbound (Some 5) (init_Dispatcher true))
      [ReleaseStaBoundResources; on_sta (@OnClipboardChanged ascii_strings)]) = Some y /\
    sy_refs y = ∅ /\ sy_ok y = false.
Proof.
  exists (map (fun i => (i, answering None false true)) [1; 1; 0; 0; 0; 1; 1; 1; 1; 1; 1; 1; 0; 0]%nat).
  eexists. split; [vm_compute; reflexivity|split; reflexivity].
Qed.

(** A file descriptor with no entries leaks its data object: the snapshot it
    gives is taken for a list of paths, so GET_CLIPBOARD ends holding a
    reference that no member records. *)
Theorem empty_descriptor_leaks :
  exists ls y,
    sys_run ls (start_system (init_Dispatcher true) [@request_thread ascii_strings get_clipboard_request]) = Some y /\
    forallb finished (sy_threads y) = true /\
    slots (sy_d y) = ∅ /\ sy_refs y = {[+ 9 +]}.
Proof.
  exists (map (fun i => (i, answering (virtual_snapshot []) false false)) [0; 0; 0; 0; 0; 0]%nat).
  eexists. split; [vm_compute; reflexivity|]. split; [reflexivity|]. split; reflexivity.
Qed.
