(* ===== verification/ClipboardOps.v ===== *)
(** * ClipboardOps: clipboard reads and writes of the Windows helper

    The functions of [windows/src/clipboard_ops.cpp] as programs over the Win32
    and OLE calls they make.  [run_os] executes one against any answers; the
    ledger replays the calls and refuses a use of a handle, lock, medium,
    object or of the clipboard itself that the functions are not entitled to,
    while it records what ends up on the clipboard.  WIC ([PngToBgra],
    [BgraToPng]) is a call.  [held] is the thread's OsClipboardHeldGuard
    counter; log lines and the owner window are left out. *)

From S2P Require Import Prelude HelperProto ProtoWire Win32 WinCodec DelayedRender ClipboardFormat.

(** ** Calls *)

(** What the code copies into a global handle: a bitmap, text units, or the
    units after a 20-byte DROPFILES header. *)
Inductive Contents := BitmapBytes (b : list Z) | TextUnits (u : list Z) | DropUnits (u : list Z).
Definition contents_size (c : Contents) : Z :=
  match c with
  | BitmapBytes b => Zlen b
  | TextUnits u => 2 * Zlen u
  | DropUnits u => 20 + 2 * Zlen u
  end.

(** A STGMEDIUM by its [tymed]; [None] of a handle or stream is a null pointer. *)
Inductive Medium := MedHGlobal (h : option Z) | MedStream (s : option Z) | MedOther.

(** [WLockBytes], [WLockUnits] and [WLockDescriptor] are [GlobalLock] with the
    memory at the type the code casts it to. *)
Inductive OsCall : Set -> Set :=
| WOpenClipboard : OsCall bool
| WSleep : OsCall unit
| WCloseClipboard : OsCall unit
| WEmptyClipboard : OsCall bool
| WSetClipboardData (format h : Z) : OsCall bool
| WAnnounceFormat (format : Z) : OsCall bool
| WIsClipboardFormatAvailable (format : Z) : OsCall bool
| WGetClipboardData (format : Z) : OsCall (option Z)
| WGlobalAlloc (bytes : Z) : OsCall (option Z)
| WGlobalFree (h : Z) : OsCall unit
| WGlobalLock (h : Z) : OsCall bool
| WCopy (h : Z) (c : Contents) : OsCall unit
| WLockBytes (h : Z) : OsCall (option (list Z))
| WLockUnits (h : Z) : OsCall (option (list Z))
| WLockDescriptor (h : Z) : OsCall (option FILEGROUPDESCRIPTORW)
| WGlobalUnlock (h : Z) : OsCall unit
| WGlobalSize (h : Z) : OsCall Z
| WDragQueryCount (h : Z) : OsCall Z
| WDragQueryLength (h i : Z) : OsCall Z
| WDragQueryFile (h i : Z) : OsCall (list Z)
| WPngToBgra (png : list Z) : OsCall (option BgraImage)
| WBgraToPng (img : BgraImage) : OsCall (option (list Z))
| WRegisteredFormat : OsCall Z
| WOleGetClipboard : OsCall (option Z)
| WGetData (o lindex : Z) : OsCall (option Medium)
| WReleaseStgMedium (m : Medium) : OsCall unit
| WRelease (o : Z) : OsCall unit
| WStreamSeek (s offset : Z) : OsCall bool
| WStreamRead (s size : Z) : OsCall (option (list Z)).

(** [OsUndefined]: the code reads memory it does not own. *)
Inductive Os (A : Type) : Type :=
| OsRet (a : A)
| OsDo {B : Set} (c : OsCall B) (k : B -> Os A)
| OsUndefined.
Arguments OsRet {A} a.
Arguments OsDo {A B} c k.
Arguments OsUndefined {A}.

Fixpoint os_bind {A B : Type} (k : A -> Os B) (p : Os A) : Os B :=
  match p with
  | OsRet a => k a
  | OsDo c f => OsDo c (fun b => os_bind k (f b))
  | OsUndefined => OsUndefined
  end.
#[export] Instance Os_ret : MRet Os := @OsRet.
#[export] Instance Os_bind : MBind Os := @os_bind.
Definition os {B : Set} (c : OsCall B) : Os B := OsDo c OsRet.

(** ** The clipboard scope *)

(** At most ten attempts, 15 ms apart. *)
Fixpoint open_attempts (n : nat) : Os bool :=
  match n with
  | O => OsRet false
  | S n' => ok ← os WOpenClipboard; if ok : bool then OsRet true else os WSleep ;; open_attempts n'
  end.

(** The constructor, and the destructor around a body that runs when the scope
    is open. *)
Definition ClipboardScope_open (held : Z) : Os bool :=
  if IsOsClipboardHeldByThisThread held then OsRet false else open_attempts 10.

Definition with_clipboard {A} (held : Z) (closed : Os A) (body : Os A) : Os A :=
  opened ← ClipboardScope_open held;
  if opened : bool then r ← body; os WCloseClipboard ;; OsRet r else closed.

(** ** Writing *)

Definition CF_HDROP : Z := 15.

(** Allocate, lock, copy, unlock; [None] when a call fails (the handle is then
    freed). *)
Definition filled_handle (bytes : Z) (c : Contents) : Os (option Z) :=
  h ← os (WGlobalAlloc bytes);
  match h with
  | None => OsRet None
  | Some h =>
      locked ← os (WGlobalLock h);
      if locked : bool then os (WCopy h c) ;; os (WGlobalUnlock h) ;; OsRet (Some h)
      else os (WGlobalFree h) ;; OsRet None
  end.

(** Hand the handle to the clipboard, or free it. *)
Definition set_or_free (format h : Z) : Os bool :=
  ok ← os (WSetClipboardData format h);
  if ok : bool then OsRet true else os (WGlobalFree h) ;; OsRet false.

Definition WriteClipboardText (held : Z) (text : list Z) : Os bool :=
  with_clipboard held (OsRet false)
    (emptied ← os WEmptyClipboard;
     if negb emptied then OsRet false
     else
       h ← filled_handle ((Zlen text + 1) * 2) (TextUnits (text_units text));
       match h with
       | None => OsRet false
       | Some h => set_or_free CF_UNICODETEXT h
       end).

(** The tail of the image and file writers: the handle is ready before the
    clipboard is opened. *)
Definition publish_handle (held format h : Z) : Os bool :=
  with_clipboard held (os (WGlobalFree h) ;; OsRet false)
    (emptied ← os WEmptyClipboard;
     if negb emptied then os (WGlobalFree h) ;; OsRet false
     else set_or_free format h).

Definition BuildDibV5HGlobalFromPng (png : list Z) : Os (option Z) :=
  img ← os (WPngToBgra png);
  match img with
  | None => OsRet None
  | Some img =>
      match BuildCfDibV5Payload (img_width img) (img_height img) (Some (img_pixels img)) (Zlen (img_pixels img)) with
      | [] => OsRet None
      | payload => filled_handle (Zlen payload) (BitmapBytes payload)
      end
  end.

Definition WriteClipboardImagePng (held : Z) (png : list Z) : Os bool :=
  h ← BuildDibV5HGlobalFromPng png;
  match h with
  | None => OsRet false
  | Some h => publish_handle held CF_DIBV5 h
  end.

Definition WriteClipboardFiles (held : Z) (paths : list (list Z)) : Os bool :=
  match BuildCfHdropPayload paths with
  | None => OsRet false
  | Some units =>
      h ← filled_handle (contents_size (DropUnits units)) (DropUnits units);
      match h with
      | None => OsRet false
      | Some h => publish_handle held CF_HDROP h
      end
  end.

Definition AnnounceDelayedFormatsForType (held : Z) (type : ClipboardContentType) : Os bool :=
  with_clipboard held (OsRet false)
    (emptied ← os WEmptyClipboard;
     if negb emptied then OsRet false
     else
       match type with
       | Text => os (WAnnounceFormat CF_UNICODETEXT)
       | Image => dibv5_ok ← os (WAnnounceFormat CF_DIBV5); _ ← os (WAnnounceFormat CF_DIB); OsRet dibv5_ok
       | _ => OsRet false
       end).

(** Inside WM_RENDERFORMAT: the clipboard is already open. *)
Definition RenderTextDuringWmRenderFormat (text : list Z) : Os bool :=
  h ← filled_handle ((Zlen text + 1) * 2) (TextUnits (text_units text));
  match h with
  | None => OsRet false
  | Some h => set_or_free CF_UNICODETEXT h
  end.

Definition RenderImageDuringWmRenderFormat (format : Z) (png : list Z) : Os bool :=
  h ← BuildDibV5HGlobalFromPng png;
  match h with
  | None => OsRet false
  | Some h =>
      if negb (format =? CF_DIB) && negb (format =? CF_DIBV5) then os (WGlobalFree h) ;; OsRet false
      else set_or_free format h
  end.

(** ** Reading *)

Definition ReadClipboardDibToBgra : Os (option BgraImage) :=
  h5 ← os (WGetClipboardData CF_DIBV5);
  h ← match h5 with Some h => OsRet (Some h) | None => os (WGetClipboardData CF_DIB) end;
  match h with
  | None => OsRet None
  | Some h =>
      blob ← os (WLockBytes h);
      match blob with
      | None => OsRet None
      | Some blob => os (WGlobalUnlock h) ;; OsRet (ReadDib blob)
      end
  end.

(** The paths of a CF_HDROP from index [i] on. *)
Fixpoint drop_paths (h i : Z) (n : nat) : Os (list (list Z)) :=
  match n with
  | O => OsRet []
  | S n' =>
      len ← os (WDragQueryLength h i);
      if (len : Z) =? 0 then drop_paths h (i + 1) n'
      else
        path ← os (WDragQueryFile h i);
        rest ← drop_paths h (i + 1) n';
        OsRet (match path with [] => rest | _ => path :: rest end)
  end.

(** The medium of the descriptor, with everything released on failure. *)
Definition read_descriptor (o : Z) (hg : Z) : Os (option (list VirtualFileEntry)) :=
  fg ← os (WLockDescriptor hg);
  match fg with
  | None => os (WReleaseStgMedium (MedHGlobal (Some hg))) ;; os (WRelease o) ;; OsRet None
  | Some fg =>
      blob_size ← os (WGlobalSize hg);
      match ReadFileGroupDescriptor fg blob_size with
      | DescEntries entries =>
          os (WGlobalUnlock hg) ;; os (WReleaseStgMedium (MedHGlobal (Some hg))) ;; OsRet (Some entries)
      | DescRejected =>
          os (WGlobalUnlock hg) ;; os (WReleaseStgMedium (MedHGlobal (Some hg))) ;; os (WRelease o) ;; OsRet None
      | DescOverrun => OsUndefined
      end
  end.

Definition ReadVirtualFiles (held : Z) : Os (option (list VirtualFileEntry * Z)) :=
  if IsOsClipboardHeldByThisThread held then OsRet None
  else
    obj ← os WOleGetClipboard;
    match obj with
    | None => OsRet None
    | Some o =>
        cf ← os WRegisteredFormat;
        if (cf : Z) =? 0 then os (WRelease o) ;; OsRet None
        else
          sm ← os (WGetData o (-1));
          match sm with
          | Some (MedHGlobal (Some hg)) =>
              es ← read_descriptor o hg;
              OsRet (option_map (fun entries => (entries, o)) es)
          | _ => os (WRelease o) ;; OsRet None
          end
    end.

Definition snapshot (t : ClipboardContentType) (text png : list Z) (paths : list (list Z))
    (vfiles : list VirtualFileEntry) : ClipboardSnapshot :=
  {| snap_content_type := t; snap_text := text; snap_image_png := png; snap_file_paths := paths;
     snap_virtual_files := vfiles |}.

Definition Snapshot : Type := option (ClipboardSnapshot * option Z).

(** The four probes, in order; each falls through to the next. *)
Definition read_image : Os Snapshot :=
  dib ← os (WIsClipboardFormatAvailable CF_DIB);
  avail ← if dib : bool then OsRet true else os (WIsClipboardFormatAvailable CF_DIBV5);
  if (avail : bool) then
    img ← ReadClipboardDibToBgra;
    match img with
    | None => OsRet None
    | Some img =>
        png ← os (WBgraToPng img);
        OsRet (option_map (fun png => (snapshot Image [] png [] [], None)) png)
    end
  else OsRet None.

Definition read_text (next : Os Snapshot) : Os Snapshot :=
  avail ← os (WIsClipboardFormatAvailable CF_UNICODETEXT);
  if avail : bool then
    h ← os (WGetClipboardData CF_UNICODETEXT);
    match h with
    | None => next
    | Some h =>
        units ← os (WLockUnits h);
        match units with
        | None => next
        | Some units =>
            match read_text_units units with
            | None => OsUndefined
            | Some text => os (WGlobalUnlock h) ;; OsRet (Some (snapshot Text text [] [] [], None))
            end
        end
    end
  else next.

Definition read_virtual_files (held : Z) (next : Os Snapshot) : Os Snapshot :=
  cf ← os WRegisteredFormat;
  avail ← os (WIsClipboardFormatAvailable cf);
  if avail : bool then
    r ← ReadVirtualFiles held;
    match r with
    | Some (entries, o) => OsRet (Some (snapshot Files [] [] [] entries, Some o))
    | None => next
    end
  else next.

Definition read_drop (next : Os Snapshot) : Os Snapshot :=
  avail ← os (WIsClipboardFormatAvailable CF_HDROP);
  if avail : bool then
    h ← os (WGetClipboardData CF_HDROP);
    match h with
    | None => next
    | Some h =>
        locked ← os (WGlobalLock h);
        if locked : bool then
          count ← os (WDragQueryCount h);
          paths ← drop_paths h 0 (Z.to_nat count);
          os (WGlobalUnlock h) ;;
          match paths with
          | [] => next
          | _ => OsRet (Some (snapshot Files [] [] paths [], None))
          end
        else next
    end
  else next.

Definition ReadClipboard (held : Z) : Os Snapshot :=
  with_clipboard held (OsRet None) (read_drop (read_virtual_files held (read_text read_image))).


(** ** Execution and the ledger *)

Definition OsAnswers := forall B : Set, OsCall B -> B.
Inductive OsEvent :=
| EvOs {B : Set} (c : OsCall B) (b : B).

(** The result ([None]: undefined behaviour) and the calls made. *)
Fixpoint run_os {A} (ω : nat -> OsAnswers) (n : nat) (p : Os A) : option A * list OsEvent :=
  match p with
  | OsRet a => (Some a, [])
  | OsDo c k =>
      let b := ω n _ c in
      let '(r, tr) := run_os ω (S n) (k b) in (r, EvOs c b :: tr)
  | OsUndefined => (None, [])
  end.

(** What the functions hold: the open clipboard, allocated handles with their
    size and contents, locks, media and object references; and the clipboard's
    own contents, format by format ([None] for a delayed one). *)
Record Ledger := {
  lg_open : bool;
  lg_owned : list (Z * Z * option Contents);
  lg_locks : list Z;
  lg_media : list Medium;
  lg_objects : list Z;
  lg_clipboard : list (Z * option Contents)
}.

#[export] Instance Medium_eq_dec : EqDecision Medium.
Proof. solve_decision. Defined.

Fixpoint remove_one {A} `{EqDecision A} (x : A) (l : list A) : option (list A) :=
  match l with
  | [] => None
  | y :: l' => if decide (x = y) then Some l' else cons y <$> remove_one x l'
  end.

Fixpoint find_handle (h : Z) (l : list (Z * Z * option Contents)) : option (Z * option Contents) :=
  match l with
  | [] => None
  | (h', size, c) :: l' => if h =? h' then Some (size, c) else find_handle h l'
  end.
Definition drop_handle (h : Z) (l : list (Z * Z * option Contents)) : list (Z * Z * option Contents) :=
  List.filter (fun e => negb (h =? e.1.1)) l.

(** One call against the ledger; [None]: not entitled to it. *)
Definition ledger_step {B : Set} (l : Ledger) (c : OsCall B) : B -> option Ledger :=
  let 'Build_Ledger op ow lk md ob cb := l in
  let lock h := Some (Build_Ledger op ow (h :: lk) md ob cb) in
  match c in OsCall B' return B' -> option Ledger with
  | WOpenClipboard => fun ok => if op then None else Some (Build_Ledger ok ow lk md ob cb)
  | WCloseClipboard => fun _ => if op then Some (Build_Ledger false ow lk md ob cb) else None
  | WEmptyClipboard => fun ok => if op then Some (Build_Ledger op ow lk md ob (if ok : bool then [] else cb)) else None
  | WSetClipboardData f h => fun ok =>
      match find_handle h ow with
      | Some (_, contents) =>
          if op && negb (bool_decide (h ∈ lk)) then
            if ok : bool then Some (Build_Ledger op (drop_handle h ow) lk md ob (cb ++ [(f, contents)])) else Some l
          else None
      | None => None
      end
  | WAnnounceFormat f => fun ok =>
      if op then Some (Build_Ledger op ow lk md ob (if ok : bool then cb ++ [(f, None)] else cb)) else None
  | WGetClipboardData _ => fun _ => if op then Some l else None
  | WGlobalAlloc bytes => fun h =>
      match h with Some h => Some (Build_Ledger op ((h, bytes, None) :: ow) lk md ob cb) | None => Some l end
  | WGlobalFree h => fun _ =>
      match find_handle h ow with
      | Some _ => if bool_decide (h ∈ lk) then None else Some (Build_Ledger op (drop_handle h ow) lk md ob cb)
      | None => None
      end
  | WGlobalLock h => fun ok => if ok : bool then lock h else Some l
  | WLockBytes h => fun p => match p with Some _ => lock h | None => Some l end
  | WLockUnits h => fun p => match p with Some _ => lock h | None => Some l end
  | WLockDescriptor h => fun p => match p with Some _ => lock h | None => Some l end
  | WCopy h contents => fun _ =>
      match find_handle h ow with
      | Some (size, _) =>
          if bool_decide (h ∈ lk) && (contents_size contents <=? size) then
            Some (Build_Ledger op ((h, size, Some contents) :: drop_handle h ow) lk md ob cb)
          else None
      | None => None
      end
  | WGlobalUnlock h => fun _ =>
      match remove_one h lk with Some lk' => Some (Build_Ledger op ow lk' md ob cb) | None => None end
  | WDragQueryCount h => fun _ => if bool_decide (h ∈ lk) then Some l else None
  | WDragQueryLength h _ => fun _ => if bool_decide (h ∈ lk) then Some l else None
  | WDragQueryFile h _ => fun _ => if bool_decide (h ∈ lk) then Some l else None
  | WOleGetClipboard => fun o =>
      match o with Some o => Some (Build_Ledger op ow lk md (o :: ob) cb) | None => Some l end
  | WRelease o => fun _ =>
      match remove_one o ob with Some ob' => Some (Build_Ledger op ow lk md ob' cb) | None => None end
  | WGetData o _ => fun m =>
      if bool_decide (o ∈ ob) then
        match m with Some m => Some (Build_Ledger op ow lk (m :: md) ob cb) | None => Some l end
      else None
  | WReleaseStgMedium m => fun _ =>
      match remove_one m md with Some md' => Some (Build_Ledger op ow lk md' ob cb) | None => None end
  | WStreamSeek s _ => fun _ => if bool_decide (MedStream (Some s) ∈ md) then Some l else None
  | WStreamRead s _ => fun _ => if bool_decide (MedStream (Some s) ∈ md) then Some l else None
  | _ => fun _ => Some l
  end.

Fixpoint ledger_run (l : Ledger) (tr : list OsEvent) : option Ledger :=
  match tr with
  | [] => Some l
  | EvOs c b :: tr' => match ledger_step l c b with Some l' => ledger_run l' tr' | None => None end
  end.

(** ** Reasoning by weakest preconditions *)

(** The answers a run may get, and when it may be undefined. *)
Record Rules := {
  may : forall B : Set, OsCall B -> B -> Prop;
  undef : Prop
}.
Arguments may R {B} c b : rename.

(** Any answer at all may come; those of a trace are the ones it shows. *)
Definition seen (tr : list OsEvent) (undef : Prop) : Rules :=
  {| may := fun B c b => EvOs c b ∈ tr; undef := undef |}.

(** [p] run from [l] meets [Q] or is undefined where that is allowed, and makes
    only entitled calls. *)
Fixpoint wp {A} (R : Rules) (p : Os A) (l : Ledger) (Q : A -> Ledger -> Prop) : Prop :=
  match p with
  | OsRet a => Q a l
  | OsDo c k => forall b, may R c b -> exists l', ledger_step l c b = Some l' /\ wp R (k b) l' Q
  | OsUndefined => undef R
  end.

Section Wp.
Context (R : Rules).

Lemma wp_sound {A} (p : Os A) l Q ω n :
  (forall (B : Set) (c : OsCall B) b, EvOs c b ∈ (run_os ω n p).2 -> may R c b) -> wp R p l Q ->
  exists r tr l', run_os ω n p = (r, tr) /\ ledger_run l tr = Some l' /\
    match r with Some a => Q a l' | None => undef R end.
Proof.
  revert l n. induction p as [a|B c k IH|]; intros l n Hω Hwp; [by eexists _, _, _| |by eexists _, _, _].
  simpl in Hω. destruct (run_os ω (S n) (k (ω n B c))) as [r tr] eqn:Er.
  destruct (Hwp (ω n B c)) as (l1 & Hs & Hk); [apply Hω, list_elem_of_here|].
  destruct (IH (ω n B c) l1 (S n)) as (r' & tr' & l' & Hr & Hl & HQ); [|done|].
  { intros C d b Hin. rewrite Er in Hin. by apply Hω, list_elem_of_further. }
  rewrite Er in Hr. injection Hr as <- <-.
  exists r, (EvOs c (ω n B c) :: tr), l'. simpl. by rewrite Er, Hs.
Qed.

Lemma wp_bind {A B} (p : Os A) (k : A -> Os B) l Q :
  wp R p l (fun a l' => wp R (k a) l' Q) -> wp R (p ≫= k) l Q.
Proof.
  revert l. induction p as [a|C c f IH|]; intros l; simpl; [done| |done].
  intros Hp b Hb. destruct (Hp b Hb) as (l' & ? & ?). exists l'. split; [done|]. by apply IH.
Qed.

Lemma wp_mono {A} (p : Os A) l (Q Q' : A -> Ledger -> Prop) :
  (forall a l', Q a l' -> Q' a l') -> wp R p l Q -> wp R p l Q'.
Proof.
  intros HQ. revert l. induction p as [a|C c f IH|]; intros l; simpl; [auto| |done].
  intros Hp b Hb. destruct (Hp b Hb) as (l' & ? & ?). exists l'. split; [done|]. by apply IH.
Qed.
Lemma wp_ret {A} (a : A) l Q : Q a l -> wp R (OsRet a) l Q.
Proof. done. Qed.

Lemma wp_call {A} {B : Set} (c : OsCall B) (k : B -> Os A) l Q :
  (forall b, may R c b -> exists l', ledger_step l c b = Some l' /\ wp R (k b) l' Q) ->
  wp R (os c ≫= k) l Q.
Proof. done. Qed.

Lemma wp_last {B : Set} (c : OsCall B) l (Q : B -> Ledger -> Prop) :
  (forall b, may R c b -> exists l', ledger_step l c b = Some l' /\ Q b l') -> wp R (os c) l Q.
Proof. done. Qed.

End Wp.
Arguments wp : simpl never.

(** *** The building blocks *)

(** The ledger of a thread that holds nothing. *)
Definition idle (op : bool) (ob : list Z) (cb : list (Z * option Contents)) : Ledger :=
  Build_Ledger op [] [] [] ob cb.

(** Answer the next call, the ledger step being evaluated. *)
Ltac wp_step :=
  first [apply wp_call | apply wp_last];
  let b := fresh "b" in let Hb := fresh "Hb" in intros b Hb.

Tactic Notation "wp_as" simple_intropattern(p) ident(H) :=
  first [apply wp_call | apply wp_last]; intros p H.
Ltac ledger_ok :=
  unfold idle; simpl; repeat (rewrite decide_True by done); repeat (rewrite bool_decide_true by in_list);
  rewrite ?Z.eqb_refl; simpl; reflexivity.
Ltac step_ok := eexists; split; [ledger_ok|].

Section Blocks.
Context (R : Rules) (ow : list (Z * Z * option Contents)) (lk : list Z) (md : list Medium) (ob : list Z).

Lemma wp_open_attempts n cb (Q : bool -> Ledger -> Prop) :
  Q true (Build_Ledger true ow lk md ob cb) -> Q false (Build_Ledger false ow lk md ob cb) ->
  wp R (open_attempts n) (Build_Ledger false ow lk md ob cb) Q.
Proof.
  intros Ht Hf. induction n as [|n IH]; simpl open_attempts; [by apply wp_ret|].
  wp_step. destruct b; step_ok; [by apply wp_ret|].
  wp_step. step_ok; done.
Qed.

Lemma wp_with_clipboard {A} held (closed body : Os A) cb Q :
  wp R closed (Build_Ledger false ow lk md ob cb) Q ->
  wp R body (Build_Ledger true ow lk md ob cb)
    (fun r l => lg_open l = true /\
       Q r (Build_Ledger false (lg_owned l) (lg_locks l) (lg_media l) (lg_objects l) (lg_clipboard l))) ->
  wp R (with_clipboard held closed body) (Build_Ledger false ow lk md ob cb) Q.
Proof.
  intros Hc Hb. unfold with_clipboard, ClipboardScope_open. apply wp_bind.
  destruct (IsOsClipboardHeldByThisThread held); [by apply wp_ret|].
  apply wp_open_attempts; [|done]. apply wp_bind. eapply wp_mono; [|exact Hb].
  intros r [op ow' lk' md' ob' cb'] [Hop HQ]. simpl in *. subst op.
  wp_step. step_ok. by apply wp_ret.
Qed.

Lemma wp_set_or_free f h size c cb (Q : bool -> Ledger -> Prop) :
  h ∉ lk ->
  Q true (Build_Ledger true [] lk md ob (cb ++ [(f, c)])) -> Q false (Build_Ledger true [] lk md ob cb) ->
  wp R (set_or_free f h) (Build_Ledger true [(h, size, c)] lk md ob cb) Q.
Proof.
  intros Hlk Ht Hf. unfold set_or_free. wp_step. simpl. rewrite Z.eqb_refl, bool_decide_false by done. simpl.
  destruct b; step_ok; [by apply wp_ret|].
  wp_step. simpl. rewrite Z.eqb_refl, bool_decide_false by done. step_ok. by apply wp_ret.
Qed.

Lemma wp_free_handle {A} op h size c cb (k : unit -> Os A) Q :
  h ∉ lk -> (forall u, wp R (k u) (Build_Ledger op [] lk md ob cb) Q) ->
  wp R (os (WGlobalFree h) ≫= k) (Build_Ledger op [(h, size, c)] lk md ob cb) Q.
Proof.
  intros Hlk Hk. wp_step. simpl. rewrite Z.eqb_refl, bool_decide_false by done. simpl.
  step_ok. apply Hk.
Qed.
End Blocks.

Section Writers.
Context (R : Rules).

Lemma wp_filled_handle op md ob cb bytes c (Q : option Z -> Ledger -> Prop) :
  contents_size c <= bytes ->
  Q None (Build_Ledger op [] [] md ob cb) ->
  (forall h, Q (Some h) (Build_Ledger op [(h, bytes, Some c)] [] md ob cb)) ->
  wp R (filled_handle bytes c) (Build_Ledger op [] [] md ob cb) Q.
Proof.
  intros Hsize Hn Hs. unfold filled_handle. wp_step. destruct b as [h|]; step_ok; [|by apply wp_ret].
  wp_step. destruct b; step_ok.
  - wp_step. simpl. rewrite Z.eqb_refl, bool_decide_true by in_list.
    replace (contents_size c <=? bytes) with true by lia. simpl. rewrite ?Z.eqb_refl. simpl.
    step_ok. wp_step. step_ok. by apply wp_ret.
  - apply wp_free_handle; [in_list|]. intros _. by apply wp_ret.
Qed.

Lemma text_units_size text : contents_size (TextUnits (text_units text)) <= (Zlen text + 1) * 2.
Proof. unfold contents_size, text_units. rewrite Zlen_app, Zlen_cons, Zlen_nil. lia. Qed.

(** The bitmap a PNG becomes, if it does. *)
Definition bitmap_of (img : BgraImage) : list Z :=
  BuildCfDibV5Payload (img_width img) (img_height img) (Some (img_pixels img)) (Zlen (img_pixels img)).

Lemma wp_dib_handle op ob cb png (Q : option Z -> Ledger -> Prop) :
  Q None (idle op ob cb) ->
  (forall h size img, may R (WPngToBgra png) (Some img) ->
     Q (Some h) (Build_Ledger op [(h, size, Some (BitmapBytes (bitmap_of img)))] [] [] ob cb)) ->
  wp R (BuildDibV5HGlobalFromPng png) (idle op ob cb) Q.
Proof.
  intros Hn Hs. unfold BuildDibV5HGlobalFromPng. wp_step. step_ok.
  destruct b as [img|]; [|by apply wp_ret]. specialize (fun h size => Hs h size img Hb). unfold bitmap_of in Hs.
  destruct (BuildCfDibV5Payload _ _ _ _) as [|x payload]; [by apply wp_ret|].
  apply wp_filled_handle; [done|done|]. intros h. apply Hs.
Qed.

(** What a write leaves on the clipboard. *)
Definition write_post (cb : list (Z * option Contents)) (placed : list (Z * option Contents) -> Prop)
    (ob : list Z) (ok : bool) (l : Ledger) : Prop :=
  if ok then exists cb', l = idle false ob cb' /\ placed cb' else l = idle false ob cb \/ l = idle false ob [].

Lemma wp_publish_handle held f h size c ob cb (placed : list (Z * option Contents) -> Prop) :
  placed [(f, c)] ->
  wp R (publish_handle held f h) (Build_Ledger false [(h, size, c)] [] [] ob cb) (write_post cb placed ob).
Proof.
  intros Hp. unfold publish_handle. apply wp_with_clipboard.
  - apply wp_free_handle; [in_list|]. intros _. apply wp_ret. by left.
  - wp_step. step_ok. destruct b.
    + apply wp_set_or_free; [in_list| |]; split; simpl; try done; [by eexists|by right].
    + apply wp_free_handle; [in_list|]. intros _. apply wp_ret. split; [done|]. by left.
Qed.

End Writers.

(** What a read leaves: the reference a snapshot carries, and the medium of
    [GetData] when it is of another kind than the one asked for. *)
Definition snapshot_objects (r : Snapshot) (ob : list Z) : list Z :=
  match r with Some (_, Some o) => o :: ob | _ => ob end.
Definition snapshot_shape (r : Snapshot) : Prop :=
  match r with
  | None => True
  | Some (snap, None) =>
      (exists t, snap = snapshot Text t [] [] []) \/ (exists png, snap = snapshot Image [] png [] []) \/
      (exists paths, paths <> [] /\ snap = snapshot Files [] [] paths [])
  | Some (snap, Some _) => exists entries, snap = snapshot Files [] [] [] entries
  end.
Definition stray (R : Rules) (md : list Medium) : Prop :=
  md = [] \/ exists o m, md = [m] /\ may R (WGetData o (-1)) (Some m) /\ forall h, m <> MedHGlobal (Some h).
Definition read_post (R : Rules) (op : bool) (ob : list Z) (cb : list (Z * option Contents)) (r : Snapshot) (l : Ledger) : Prop :=
  exists md, stray R md /\ l = Build_Ledger op [] [] md (snapshot_objects r ob) cb /\ snapshot_shape r.

Section Reads.
Context (R : Rules) (ob : list Z) (cb : list (Z * option Contents)).
(** The run may be undefined where a text or a name is not terminated. *)
Hypothesis text_overrun : forall h u, may R (WLockUnits h) (Some u) -> read_text_units u = None -> undef R.
Hypothesis name_overrun : forall h fg size,
  may R (WLockDescriptor h) (Some fg) -> ReadFileGroupDescriptor fg size = DescOverrun -> undef R.
Let Q := read_post R true ob cb.









End Reads.


(** ** Properties *)

(** [p] run against any answers: every call it makes is one it is entitled to,
    and it ends with the ledger as [post] says or, where [undef] allows it of
    the calls and answers so far, runs into undefined behaviour. *)
Definition meets {A} (ω : nat -> OsAnswers) (n : nat) (p : Os A) (l : Ledger)
    (undef : list OsEvent -> Prop) (post : list OsEvent -> A -> Ledger -> Prop) : Prop :=
  exists r tr l', run_os ω n p = (r, tr) /\ ledger_run l tr = Some l' /\
    match r with Some a => post tr a l' | None => undef tr end.
Definition never (tr : list OsEvent) : Prop := False.

Lemma wp_meets {A} ω n (p : Os A) l undef post :
  (forall tr, wp (seen tr (undef tr)) p l (post tr)) -> meets ω n p l undef post.
Proof.
  intros Hp. set (t := (run_os ω n p).2) in *.
  destruct (wp_sound (seen t (undef t)) p l _ ω n (fun B c b H => H) (Hp t)) as (r & tr & l' & Hr & Hl & Hpost).
  exists r, tr, l'. unfold t in Hpost. by rewrite Hr in Hpost.
Qed.

(** What announcing delayed formats leaves: the formats of the content type,
    the best-effort CF_DIB of an image aside. *)
Definition announce_post (cb : list (Z * option Contents)) (ob : list Z) (t : ClipboardContentType)
    (ok : bool) (l : Ledger) : Prop :=
  exists cb', l = idle false ob cb' /\
    if ok then (t = Text /\ cb' = [(CF_UNICODETEXT, None)]) \/
               (t = Image /\ (cb' = [(CF_DIBV5, None)] \/ cb' = [(CF_DIBV5, None); (CF_DIB, None)]))
    else cb' = cb \/ cb' = [] \/ (t = Image /\ cb' = [(CF_DIB, None)]).

(** What a render leaves on the clipboard the system holds open. *)
Definition render_post (cb : list (Z * option Contents)) (ob : list Z) (placed : Z * option Contents -> Prop)
    (ok : bool) (l : Ledger) : Prop :=
  if ok then exists e, l = idle true ob (cb ++ [e]) /\ placed e else l = idle true ob cb.

Lemma wp_announce R held t ob cb :
  wp R (AnnounceDelayedFormatsForType held t) (idle false ob cb) (announce_post cb ob t).
Proof.
  unfold AnnounceDelayedFormatsForType, idle. apply wp_with_clipboard; [apply wp_ret; eexists; split; [done|by left]|].
  wp_as emptied He. step_ok. destruct emptied; cbn [negb];
    [|apply wp_ret; split; [done|]; eexists; split; [done|by left]].
  destruct t; try (apply wp_ret; split; [done|]; eexists; split; [done|by right; left]).
  - wp_as ok Ho. step_ok. split; [done|]. eexists. split; [done|].
    destruct ok; [left; by split|right; by left].
  - wp_as ok Ho. step_ok. wp_as ok2 Ho2. step_ok. apply wp_ret. split; [done|]. eexists. split; [done|].
    destruct ok, ok2; simpl; auto.
Qed.

Lemma wp_render_text R ob cb text :
  wp R (RenderTextDuringWmRenderFormat text) (idle true ob cb)
     (render_post cb ob (fun e => e = (CF_UNICODETEXT, Some (TextUnits (text_units text))))).
Proof.
  unfold RenderTextDuringWmRenderFormat. apply wp_bind, wp_filled_handle; [apply text_units_size|by apply wp_ret|].
  intros h. apply wp_set_or_free; [in_list| |]; [by eexists|done].
Qed.

Lemma wp_render_image R ob cb format png :
  wp R (RenderImageDuringWmRenderFormat format png) (idle true ob cb)
     (render_post cb ob (fun e => (format = CF_DIB \/ format = CF_DIBV5) /\
                                  exists img, may R (WPngToBgra png) (Some img) /\
                                              e = (format, Some (BitmapBytes (bitmap_of img))))).
Proof.
  unfold RenderImageDuringWmRenderFormat. apply wp_bind, wp_dib_handle; [by apply wp_ret|]. intros h size img Himg.
  destruct (format =? CF_DIB) eqn:E1, (format =? CF_DIBV5) eqn:E2; zbool; simpl negb; cbn [andb];
    try (apply wp_set_or_free; [in_list| |done]; eexists; split; [done|]; split; [tauto|by eexists]).
  apply wp_free_handle; [in_list|]. intros _. by apply wp_ret.
Qed.

Lemma wp_write_text R held text ob cb :
  wp R (WriteClipboardText held text) (idle false ob cb)
    (write_post cb (fun cb' => cb' = [(CF_UNICODETEXT, Some (TextUnits (text_units text)))]) ob).
Proof.
  unfold WriteClipboardText, idle. apply wp_with_clipboard; [apply wp_ret; by left|].
  wp_step. step_ok. destruct b; cbn [negb]; [|apply wp_ret; split; [done|by left]].
  apply wp_bind, wp_filled_handle; [apply text_units_size|apply wp_ret; split; [done|by right]|].
  intros h. apply wp_set_or_free; [in_list| |]; split; simpl; try done; [by eexists|by right].
Qed.

(** What the image writers put on the clipboard: the bitmap of an image that
    decoding [png] was answered with. *)
Definition decoded_bitmap (tr : list OsEvent) (png : list Z) (c : option Contents) : Prop :=
  exists img, EvOs (WPngToBgra png) (Some img) ∈ tr /\ c = Some (BitmapBytes (bitmap_of img)).

(** C9: The writers own what they hand out.  Whatever the calls answer, they
    finish, use the clipboard only while it is open, and leak, free twice, lock
    twice or write past the size of no handle.  The text, image and file
    writers and the announcement leave the clipboard closed, the two renderers
    leave it open as the system gave it to them.  A writer that reports success
    leaves on the clipboard exactly the one format with the bytes built for
    its argument: the text with its terminator, the bitmap of the image the
    decoder gave for these PNG bytes, the path list of these paths; a renderer
    adds its format with such bytes; on failure a writer leaves the clipboard
    as it was or empty and a renderer leaves it as it was. *)
Theorem clipboard_writes_balanced ω n held ob cb text png paths format t :
  meets ω n (WriteClipboardText held text) (idle false ob cb) never
    (fun _ => write_post cb (fun cb' => cb' = [(CF_UNICODETEXT, Some (TextUnits (text ++ [0])))]) ob) /\
  meets ω n (WriteClipboardImagePng held png) (idle false ob cb) never
    (fun tr => write_post cb (fun cb' => exists c, cb' = [(CF_DIBV5, c)] /\ decoded_bitmap tr png c) ob) /\
  meets ω n (WriteClipboardFiles held paths) (idle false ob cb) never
    (fun _ => write_post cb (fun cb' => exists units, BuildCfHdropPayload paths = Some units /\
                                                      cb' = [(CF_HDROP, Some (DropUnits units))]) ob) /\
  meets ω n (RenderTextDuringWmRenderFormat text) (idle true ob cb) never
    (fun _ => render_post cb ob (fun e => e = (CF_UNICODETEXT, Some (TextUnits (text ++ [0]))))) /\
  meets ω n (RenderImageDuringWmRenderFormat format png) (idle true ob cb) never
    (fun tr => render_post cb ob (fun e => e.1 = format /\ (format = CF_DIB \/ format = CF_DIBV5) /\
                                           decoded_bitmap tr png e.2)) /\
  meets ω n (AnnounceDelayedFormatsForType held t) (idle false ob cb) never (fun _ => announce_post cb ob t).
Proof.
  split_and!; apply wp_meets; intros tr; [apply wp_write_text| | |apply wp_render_text| |apply wp_announce].
  - unfold WriteClipboardImagePng. apply wp_bind, wp_dib_handle; [apply wp_ret; by left|].
    intros h size img Himg. apply wp_publish_handle. eexists. split; [done|]. by exists img.
  - unfold WriteClipboardFiles. destruct (BuildCfHdropPayload paths) as [units|] eqn:E; [|apply wp_ret; by left].
    apply wp_bind. unfold idle. apply wp_filled_handle; [done|apply wp_ret; by left|].
    intros h. apply wp_publish_handle. by eexists.
  - eapply wp_mono; [|apply wp_render_image]. intros ok l Hl. unfold render_post in *. destruct ok; [|done].
    destruct Hl as (e & -> & Hf & img & Himg & ->). eexists. split; [done|]. split_and!; [done|done|by exists img].
Qed.

(** Calls that all succeed, on a clipboard that offers [format]. *)
Definition os_succeeding (format : Z) : OsAnswers :=
  fun B c =>
    match c in OsCall B' return B' with
    | WOpenClipboard => true
    | WSleep => tt
    | WCloseClipboard => tt
    | WEmptyClipboard => true
    | WSetClipboardData _ _ => true
    | WAnnounceFormat _ => true
    | WIsClipboardFormatAvailable f => f =? format
    | WGetClipboardData _ => Some 40
    | WGlobalAlloc _ => Some 41
    | WGlobalFree _ => tt
    | WGlobalLock _ => true
    | WCopy _ _ => tt
    | WLockBytes _ => Some []
    | WLockUnits _ => Some [104; 105; 0]
    | WLockDescriptor _ => None
    | WGlobalUnlock _ => tt
    | WGlobalSize _ => 0
    | WDragQueryCount _ => 1
    | WDragQueryLength _ _ => 2
    | WDragQueryFile _ _ => [67; 58]
    | WPngToBgra _ => Some {| img_width := 1; img_height := 1; img_pixels := [1; 2; 3; 255] |}
    | WBgraToPng _ => Some [137]
    | WRegisteredFormat => 49200
    | WOleGetClipboard => Some 9
    | WGetData _ _ => Some (MedHGlobal (Some 42))
    | WReleaseStgMedium _ => tt
    | WRelease _ => tt
    | WStreamSeek _ _ => true
    | WStreamRead _ _ => Some []
    end.

(** The writer and the reader of a text, run. *)
Lemma write_text_run :
  run_os (fun _ => os_succeeding 13) 0 (WriteClipboardText 0 [104; 105]) =
    (Some true, [EvOs WOpenClipboard true; EvOs WEmptyClipboard true; EvOs (WGlobalAlloc 6) (Some 41);
                 EvOs (WGlobalLock 41) true; EvOs (WCopy 41 (TextUnits [104; 105; 0])) tt; EvOs (WGlobalUnlock 41) tt;
                 EvOs (WSetClipboardData CF_UNICODETEXT 41) true; EvOs WCloseClipboard tt]).
Proof. vm_compute. reflexivity. Qed.






(** An object that answers the descriptor with a stream. *)
Definition os_stream_descriptor : OsAnswers :=
  fun B c =>
    match c in OsCall B' return B' -> B' with
    | WIsClipboardFormatAvailable f => fun _ => f =? 49200
    | WGetData _ _ => fun _ => Some (MedStream (Some 7))
    | _ => fun b => b
    end (os_succeeding 49200 B c).

Lemma unexpected_medium_leaks :
  let '(r, tr) := run_os (fun _ => os_stream_descriptor) 0 (ReadClipboard 0) in
  r = Some None /\ option_map lg_media (ledger_run (idle false [] []) tr) = Some [MedStream (Some 7)] /\
  option_map lg_objects (ledger_run (idle false [] []) tr) = Some [].
Proof. vm_compute. split_and!; reflexivity. Qed.
