(* ===== verification/RenderAll.v ===== *)
(** * RenderAll: rendering everything before ownership is lost

    The WM_RENDERALLFORMATS case of [StaWorker::WndProc] ([windows/src/sta_worker.cpp])
    with the render callback of [dispatch.cpp] in its cache-only mode, as a
    program over the clipboard calls of [ClipboardOps].  The callback locks the
    render state of [DelayedRender] once per format; what the pipe thread makes
    of it in between is a parameter. *)

From S2P Require Import Prelude HelperProto WinCodec DelayedRender RenderEnds ClipboardFormat ClipboardOps.

Section RenderAll.
Context `{Win32Strings}.

(** The clipboard call a render ends in. *)
Definition perform_render (c : RenderCall) : Os bool :=
  match c with
  | DelayedRender.RenderTextDuringWmRenderFormat wide => RenderTextDuringWmRenderFormat wide
  | DelayedRender.RenderImageDuringWmRenderFormat format png => RenderImageDuringWmRenderFormat format png
  end.

(** [cb(fmt, /*cache_only=*/true)] on the render state it finds. *)
Definition render_cached (format : Z) (s : RenderState) : Os RenderState :=
  let '(s', _, out) := render_enter format true s in
  match out with
  | ORender _ c :: _ => _ ← perform_render c; OsRet s'
  | _ => OsRet s'
  end.

Section Handler.
Context (others : Z -> RenderState -> RenderState).

Definition fmts : list Z := [CF_UNICODETEXT; CF_DIBV5; CF_DIB].

(** The loop over [fmts]. *)
Fixpoint render_available (formats : list Z) (s : RenderState) : Os RenderState :=
  match formats with
  | [] => OsRet s
  | fmt :: formats' =>
      available ← os (WIsClipboardFormatAvailable fmt);
      s' ← (if available : bool then render_cached fmt (others fmt s) else OsRet s);
      render_available formats' s'
  end.

(** [registered]: a callback is set. *)
Definition OnRenderAllFormats (registered : bool) (s : RenderState) : Os RenderState :=
  if negb registered then OsRet s
  else
    opened ← os WOpenClipboard;
    if negb opened then OsRet s
    else s' ← render_available fmts s; os WCloseClipboard ;; OsRet s'.
End Handler.

(** ** What it leaves on the clipboard *)

(** The bytes of [e] were made from [d]: the text itself, or the image that
    decoding it was answered with. *)
Definition made_from (R : Rules) (t : ClipboardContentType) (d : list Z) (contents : option Contents) : Prop :=
  match t with
  | Text => contents = Some (TextUnits (text_units (Utf8ToWide d)))
  | _ => exists img, may R (WPngToBgra d) (Some img) /\ contents = Some (BitmapBytes (bitmap_of img))
  end.

(** [d] is there to be rendered. *)
Definition held_data (s : RenderState) (d : list Z) : Prop :=
  (cached_valid s = true /\ d = cached_response s) \/ (cached_valid s = false /\ d = pending_response s /\ d <> []).

(** The entry renders the data held for the announcement in force, under its type. *)
Definition from_cache (R : Rules) (I : RenderState -> Prop) (e : Z * option Contents) : Prop :=
  exists s t d, I s /\ requested_type e.1 = Some t /\ pending_type s = t /\ pending_hash s <> [] /\ held_data s d /\ made_from R t d e.2.

Lemma requested_text format : requested_type format = Some Text -> format = CF_UNICODETEXT.
Proof. unfold requested_type. intros E. repeat case_match; simplify_eq; by zbool. Qed.

Lemma finish_one hash t format d : requested_type format = Some t ->
  exists c, finish_render hash t format d = [ORender hash c] /\ render_call t format d = Some c.
Proof. unfold finish_render. intros Hr. apply requested_renderable in Hr as [-> | ->]; cbn; eauto. Qed.

(** In cache-only mode a render finds data or leaves the slot alone; it never
    asks the peer. *)
Lemma enter_cache_only format s :
  let '(s', f, out) := render_enter format true s in
  f = None /\ (s' = s \/ s' = adopt_pending s) /\
  ((exists why, out = [OAbort why]) \/
   (exists t d c, out = [ORender (pending_hash s) c] /\ requested_type format = Some t /\ pending_type s = t /\
      pending_hash s <> [] /\ held_data s d /\ render_call t format d = Some c)).
Proof.
  unfold render_enter. destruct (requested_type format) as [t|] eqn:Er; [|eauto 6].
  destruct (bytes_eqb (pending_hash s) []) eqn:Eh; [eauto 6|]. case_bool_decide as Et; cbn [negb]; [|eauto 6].
  assert (Hh : pending_hash s <> []) by (intros E; by rewrite E in Eh).
  destruct (cached_valid s) eqn:Ec; [|destruct (bytes_eqb (pending_response s) []) eqn:Ep]; cbn [negb]; [|eauto 6|].
  - destruct (finish_one (pending_hash s) t format (cached_response s) Er) as (c & -> & Hc). split_and!; [done|by left|].
    right. exists t, (cached_response s), c. split_and!; try done. left. done.
  - assert (Hp : pending_response s <> []) by (intros E; by rewrite E in Ep).
    destruct (finish_one (pending_hash s) t format (pending_response s) Er) as (c & -> & Hc). split_and!; [done|by right|].
    right. exists t, (pending_response s), c. split_and!; try done. by right.
Qed.

Section Balance.
Context (R : Rules) (I : RenderState -> Prop) (others : Z -> RenderState -> RenderState).
Hypothesis others_keep : forall fmt s, I s -> I (others fmt s).
Hypothesis adopt_keeps : forall s, I s -> I (adopt_pending s).

Definition rendered_post (formats : list Z) (ob : list Z) (cb : list (Z * option Contents)) (op : bool) (s' : RenderState) (l : Ledger) : Prop :=
  I s' /\ exists entries, l = idle op ob (cb ++ entries) /\ map fst entries `sublist_of` formats /\ Forall (from_cache R I) entries.

Lemma wp_render_cached fmt s ob cb : I s -> wp R (render_cached fmt s) (idle true ob cb) (rendered_post [fmt] ob cb true).
Proof.
  intros Hs. unfold render_cached. pose proof (enter_cache_only fmt s) as He. destruct (render_enter fmt true s) as [[s' f] out].
  destruct He as (_ & Hs' & Hout). assert (HI : I s') by (destruct Hs' as [-> | ->]; auto).
  assert (Hnone : rendered_post [fmt] ob cb true s' (idle true ob cb)).
  { split; [done|]. exists []. rewrite app_nil_r. split_and!; [done|apply sublist_nil_l|done]. }
  destruct Hout as [[why ->]|(t & d & c & -> & Hr & Ht & Hh & Hd & Hc)]; [by apply wp_ret|].
  assert (Hsome : forall e, e.1 = fmt -> made_from R t d e.2 -> rendered_post [fmt] ob cb true s' (idle true ob (cb ++ [e]))).
  { intros e He Hm. split; [done|]. exists [e]. split_and!; [done|by rewrite <- He|]. apply Forall_singleton.
    exists s, t, d. by rewrite He. }
  apply wp_bind. apply requested_renderable in Hr as Htt. destruct Htt as [-> | ->]; cbn in Hc; injection Hc as <-; cbn [perform_render].
  - eapply wp_mono; [|apply wp_render_text]. intros ok l Hl. apply wp_ret. destruct ok; cbn in Hl; [|by subst l].
    destruct Hl as (e & -> & ->). apply Hsome; [|done]. by rewrite (requested_text fmt Hr).
  - eapply wp_mono; [|apply wp_render_image]. intros ok l Hl. apply wp_ret. destruct ok; cbn in Hl; [|by subst l].
    destruct Hl as (e & -> & _ & img & Himg & ->). apply Hsome; [done|]. by exists img.
Qed.

Lemma wp_render_available formats s ob cb :
  I s -> wp R (render_available others formats s) (idle true ob cb) (rendered_post formats ob cb true).
Proof.
  revert s cb. induction formats as [|fmt formats IH]; intros s cb Hs; cbn [render_available].
  - apply wp_ret. split; [done|]. exists []. split_and!; [by rewrite app_nil_r|done|done].
  - wp_as available Ha. step_ok. fold (idle true ob cb). apply wp_bind.
    assert (Hnext : forall s' l, rendered_post [fmt] ob cb true s' l ->
      wp R (render_available others formats s') l (rendered_post (fmt :: formats) ob cb true)).
    { intros s' l (HI & es & -> & Hsub & Hes). eapply wp_mono; [|by apply IH]. intros s2 l2 (HI2 & es2 & -> & Hsub2 & Hes2).
      split; [done|]. exists (es ++ es2). rewrite app_assoc, map_app. split_and!; [done| |by apply Forall_app].
      change (fmt :: formats) with ([fmt] ++ formats). by apply sublist_app. }
    destruct available.
    + eapply wp_mono; [|by apply wp_render_cached, others_keep]. intros s' l. by apply Hnext.
    + apply wp_ret. apply Hnext. split; [done|]. exists []. split_and!; [by rewrite app_nil_r|apply sublist_nil_l|done].
Qed.
End Balance.

(** WM_RENDERALLFORMATS is answered from the cache.  Whatever calls fail and
    whatever the pipe thread announces or provides between two formats, the
    handler finishes with the clipboard closed, no handle leaked or overrun and
    no request sent; what it adds to the clipboard are formats of its list in
    that order, at most once each, and each was made from data held for the
    announcement in force when its turn came, under that announcement's type,
    an image as the decoder answered in this run.
    [I] is any property of the render state the other threads maintain. *)
Theorem render_all_formats_cached ω n (I : RenderState -> Prop) others registered s ob cb :
  (forall fmt s, I s -> I (others fmt s)) -> (forall s, I s -> I (adopt_pending s)) -> I s ->
  meets ω n (OnRenderAllFormats others registered s) (idle false ob cb) never
    (fun tr => rendered_post (seen tr False) I fmts ob cb false).
Proof.
  intros Ho Ha Hs. apply wp_meets. intros tr.
  assert (Hnone : rendered_post (seen tr False) I fmts ob cb false s (idle false ob cb)).
  { split; [done|]. exists []. rewrite app_nil_r. split_and!; [done|apply sublist_nil_l|done]. }
  unfold OnRenderAllFormats. destruct registered; cbn [negb]; [|by apply wp_ret]. wp_as opened Hop. step_ok.
  destruct opened; cbn [negb]; [|by apply wp_ret]. apply wp_bind. fold (idle true ob cb).
  eapply wp_mono; [|by apply (wp_render_available _ I)]. intros s' l (HI & es & -> & Hsub & Hes).
  wp_as u Hu. step_ok. apply wp_ret. split; [done|]. by exists es.
Qed.
End RenderAll.

(** *** A run *)

(** An image of which the first paste rendered CF_DIBV5 already. *)
Definition pasted_image : RenderState :=
  {| pending_hash := str "h1"; pending_type := Image; pending_response := []; cached_response := [137]; cached_valid := true;
     render_event := Some true |}.

Lemma render_all_formats_cached_witness :
  meets (fun _ => os_succeeding CF_DIB) 0 (@OnRenderAllFormats ascii_strings (fun _ s => s) true pasted_image) (idle false [] [(CF_DIBV5, None)]) never
    (fun tr => @rendered_post ascii_strings (seen tr False) (fun s => cached_response s ∈ [[]; [137]] /\ pending_response s ∈ [[]; [137]])
       fmts [] [(CF_DIBV5, None)] false).
Proof.
  apply (@render_all_formats_cached ascii_strings).
  - done.
  - cbn. intros s [_ Hp]. split; [done|apply list_elem_of_here].
  - split; [apply list_elem_of_further|]; apply list_elem_of_here.
Defined.

(** CF_DIB, which nobody has pasted yet, is rendered before ownership is lost. *)
Lemma rendered_before_leaving :
  option_map (fun l => (lg_open l, map fst (lg_clipboard l), length (lg_owned l)))
    (ledger_run (idle false [] [(CF_DIBV5, None)])
       (run_os (fun _ => os_succeeding CF_DIB) 0 (@OnRenderAllFormats ascii_strings (fun _ s => s) true pasted_image)).2) =
  Some (false, [CF_DIBV5; CF_DIB], O).
Proof. vm_compute. reflexivity. Qed.
