(* ===== verification/LinuxCodec.v ===== *)
(** * LinuxCodec: HelperMessage codec of the Linux helper

    [linux/src/dispatch_codec.h] and [dispatch_codec.cpp].  The encoders take
    the clock's value.  The Linux decoders read the same wire format as the
    Windows ones of [WinCodec] into smaller structs: the theorems relate the
    two. *)

From S2P Require Import Prelude HelperProto ProtoWire WinCodec.

(** ** Parsed structs *)

Record LinuxHelperMessage := {
  lm_type : HelperMessageType;
  lm_clipboard_data : option (list Z);
  lm_announcement : option (list Z);
  lm_provide_data : option (list Z);
  lm_file_chunk_request : option (list Z);
  lm_file_chunk_data : option (list Z)
}.
Record LinuxClipboardData := {
  lcd_content_type : ClipboardContentType;
  lcd_payload : option (list Z);
  lcd_content_hash : list Z;
  lcd_transfer_id : list Z
}.
Record LinuxAnnouncement := {
  lann_content_type : ClipboardContentType;
  lann_content_hash : list Z;
  lann_transfer_id : list Z
}.
Record LinuxProvideData := {
  lpd_content_hash : list Z;
  lpd_data : list Z
}.

(** ** Decoders *)

Definition LinuxParseHelperMessage_round (out : LinuxHelperMessage) : Parser LinuxHelperMessage :=
  tag ← ReadTag;
  let (field, wire) := tag : Z * WireType in
  let 'Build_LinuxHelperMessage ty cd an pd rq dt := out in
  if (field =? kFieldType) && is_wire wire Varint then
    v ← ReadVarint; mret (Build_LinuxHelperMessage (message_type_of (i32 v)) cd an pd rq dt)
  else if (field =? kFieldClipboardData) && is_wire wire LengthDelim then
    s ← ReadLengthDelim; mret (Build_LinuxHelperMessage ty (Some s) an pd rq dt)
  else if (field =? kFieldAnnouncement) && is_wire wire LengthDelim then
    s ← ReadLengthDelim; mret (Build_LinuxHelperMessage ty cd (Some s) pd rq dt)
  else if (field =? kFieldProvideData) && is_wire wire LengthDelim then
    s ← ReadLengthDelim; mret (Build_LinuxHelperMessage ty cd an (Some s) rq dt)
  else if (field =? kFieldFileChunkRequest) && is_wire wire LengthDelim then
    s ← ReadLengthDelim; mret (Build_LinuxHelperMessage ty cd an pd (Some s) dt)
  else if (field =? kFieldFileChunkData) && is_wire wire LengthDelim then
    s ← ReadLengthDelim; mret (Build_LinuxHelperMessage ty cd an pd rq (Some s))
  else (_ ← SkipField wire; mret out).
Definition LinuxParseHelperMessage (input : list Z) : outcome LinuxHelperMessage :=
  parse_all LinuxParseHelperMessage_round (Build_LinuxHelperMessage MtUnspecified None None None None None) input.

Definition LinuxParseClipboardData_round (out : LinuxClipboardData) : Parser LinuxClipboardData :=
  tag ← ReadTag;
  let (field, wire) := tag : Z * WireType in
  let 'Build_LinuxClipboardData ty payload hash tid := out in
  if (field =? kCDFieldContentType) && is_wire wire Varint then
    v ← ReadVarint; mret (Build_LinuxClipboardData (content_type_of (i32 v)) payload hash tid)
  else if (field =? kCDFieldPayload) && is_wire wire LengthDelim then
    s ← ReadLengthDelim; mret (Build_LinuxClipboardData ty (Some s) hash tid)
  else if (field =? kCDFieldContentHash) && is_wire wire LengthDelim then
    s ← ReadLengthDelim; mret (Build_LinuxClipboardData ty payload s tid)
  else if (field =? kCDFieldTransferId) && is_wire wire LengthDelim then
    s ← ReadLengthDelim; mret (Build_LinuxClipboardData ty payload hash s)
  else (_ ← SkipField wire; mret out).
Definition LinuxParseClipboardData (data : list Z) : outcome LinuxClipboardData :=
  parse_all LinuxParseClipboardData_round (Build_LinuxClipboardData CtUnspecified None [] []) data.

Definition LinuxParseAnnouncement_round (out : LinuxAnnouncement) : Parser LinuxAnnouncement :=
  tag ← ReadTag;
  let (field, wire) := tag : Z * WireType in
  let 'Build_LinuxAnnouncement ty hash tid := out in
  if (field =? kAnnFieldContentType) && is_wire wire Varint then
    v ← ReadVarint; mret (Build_LinuxAnnouncement (content_type_of (i32 v)) hash tid)
  else if (field =? kAnnFieldContentHash) && is_wire wire LengthDelim then
    s ← ReadLengthDelim; mret (Build_LinuxAnnouncement ty s tid)
  else if (field =? kAnnFieldTransferId) && is_wire wire LengthDelim then
    s ← ReadLengthDelim; mret (Build_LinuxAnnouncement ty hash s)
  else (_ ← SkipField wire; mret out).
Definition LinuxParseAnnouncement (data : list Z) : outcome LinuxAnnouncement :=
  parse_all LinuxParseAnnouncement_round (Build_LinuxAnnouncement CtUnspecified [] []) data.

Definition LinuxParseProvideData_round (out : LinuxProvideData) : Parser LinuxProvideData :=
  tag ← ReadTag;
  let (field, wire) := tag : Z * WireType in
  let 'Build_LinuxProvideData hash data := out in
  if (field =? kPDFieldContentHash) && is_wire wire LengthDelim then
    s ← ReadLengthDelim; mret (Build_LinuxProvideData s data)
  else if (field =? kPDFieldData) && is_wire wire LengthDelim then
    s ← ReadLengthDelim; mret (Build_LinuxProvideData hash s)
  else (_ ← SkipField wire; mret out).
Definition LinuxParseProvideData (data : list Z) : outcome LinuxProvideData :=
  parse_all LinuxParseProvideData_round (Build_LinuxProvideData [] []) data.

(** ** Encoders *)

Definition LinuxEncodeReady (clock : Z) : list Z :=
  let w := WriteEnumField kFieldType (message_type_value Ready) [] in
  WriteUint64Field kFieldTimestamp clock w.

Definition LinuxEncodeError (message : list Z) (clock : Z) : list Z :=
  let w := WriteEnumField kFieldType (message_type_value Error) [] in
  let w := match message with [] => w | _ => WriteStringField kFieldErrorMessage message w end in
  WriteUint64Field kFieldTimestamp clock w.

Definition EncodeClipboardDataInnerText (utf8_payload content_hash : list Z) : list Z :=
  let w := WriteEnumField kCDFieldContentType (content_type_value Text) [] in
  let w := match utf8_payload with [] => w | _ => WriteBytesField kCDFieldPayload utf8_payload w end in
  match content_hash with [] => w | _ => WriteStringField kCDFieldContentHash content_hash w end.

Definition EncodeClipboardChangedText (utf8_payload content_hash : list Z) (clock : Z) : list Z :=
  let inner := EncodeClipboardDataInnerText utf8_payload content_hash in
  let w := WriteEnumField kFieldType (message_type_value ClipboardChanged) [] in
  let w := WriteSubMessageField kFieldClipboardData inner w in
  WriteUint64Field kFieldTimestamp clock w.

Definition LinuxEncodeDataRequest (content_hash : list Z) (content_type : ClipboardContentType) (clock : Z) : list Z :=
  let inner := match content_hash with [] => [] | _ => WriteStringField kReqFieldContentHash content_hash [] end in
  let inner := WriteEnumField kReqFieldContentType (content_type_value content_type) inner in
  let w := WriteEnumField kFieldType (message_type_value DataRequest) [] in
  let w := WriteSubMessageField kFieldDataRequest inner w in
  WriteUint64Field kFieldTimestamp clock w.


(** ** The two decoders side by side *)

(** Two parse results for the same bytes: both reject, or both accept with
    related values. *)
Definition agree {A B} (R : A -> B -> Prop) (x : outcome A) (y : outcome B) : Prop :=
  match x, y with
  | Done a, Done b => R a b
  | Malformed, Malformed => True
  | OutOfFuel, OutOfFuel => True
  | _, _ => False
  end.

Definition parsers_agree {A B} (R : A -> B -> Prop) (p : Parser A) (q : Parser B) : Prop :=
  forall r, match p r, q r with
            | Some (a, r1), Some (b, r2) => R a b /\ r1 = r2
            | None, None => True
            | _, _ => False
            end.

Lemma parse_all_agree {A B} (R : A -> B -> Prop) ra rb a b r :
  (forall a b, R a b -> parsers_agree R (ra a) (rb b)) -> R a b ->
  agree R (parse_all ra a r) (parse_all rb b r).
Proof.
  intros Hround. unfold parse_all. generalize (S (length r)) as fuel. intros fuel.
  revert a b r. induction fuel as [|fuel IH]; intros a b r HR; cbn [parse_loop agree]; [done|].
  destruct (eof r); [done|]. specialize (Hround a b HR r).
  destruct (ra a r) as [[a' r1]|], (rb b r) as [[b' r2]|]; try done.
  destruct Hround as [HR' ->]. by apply IH.
Qed.

Lemma parsers_agree_bind {A B C} (R : B -> C -> Prop) (p : Parser A) (k : A -> Parser B) (l : A -> Parser C) :
  (forall a, parsers_agree R (k a) (l a)) -> parsers_agree R (p ≫= k) (p ≫= l).
Proof.
  intros Hk r. unfold mbind, Parser_bind. destruct (p r) as [[a r']|]; [|done]. apply Hk.
Qed.

Lemma parsers_agree_ret {A B} (R : A -> B -> Prop) a b : R a b -> parsers_agree R (mret a) (mret b).
Proof. intros HR r. by cbn. Qed.

(** Skipping a length-delimited field is reading it and dropping the span. *)
Lemma skip_length_delim {A B} (R : A -> B -> Prop) a (k : list Z -> Parser B) :
  (forall s, parsers_agree R (mret a) (k s)) ->
  parsers_agree R (_ ← SkipField LengthDelim; mret a) (s ← ReadLengthDelim; k s).
Proof.
  intros Hk r. cbn [SkipField]. unfold mbind, Parser_bind.
  destruct (ReadLengthDelim r) as [[s r']|]; [|done]. apply Hk.
Qed.
Lemma length_delim_skip {A B} (R : A -> B -> Prop) b (k : list Z -> Parser A) :
  (forall s, parsers_agree R (k s) (mret b)) ->
  parsers_agree R (s ← ReadLengthDelim; k s) (_ ← SkipField LengthDelim; mret b).
Proof.
  intros Hk r. cbn [SkipField]. unfold mbind, Parser_bind.
  destruct (ReadLengthDelim r) as [[s r']|]; [|done]. apply Hk.
Qed.

(** What the two structs have in common. *)
Definition same_message (l : LinuxHelperMessage) (w : ParsedHelperMessage) : Prop :=
  w = Build_ParsedHelperMessage (lm_type l) (lm_clipboard_data l) (lm_announcement l)
        (lm_provide_data l) (lm_file_chunk_request l) (lm_file_chunk_data l).
Definition same_clipboard_data (l : LinuxClipboardData) (w : ParsedClipboardData) : Prop :=
  cd_content_type w = lcd_content_type l /\ cd_payload_ptr w = lcd_payload l.
Definition same_announcement (l : LinuxAnnouncement) (w : ParsedAnnouncement) : Prop :=
  ann_content_type w = lann_content_type l /\ ann_content_hash w = lann_content_hash l /\
  ann_transfer_id w = lann_transfer_id l.
Definition same_provide_data (l : LinuxProvideData) (w : ParsedProvideData) : Prop :=
  w = Build_ParsedProvideData (lpd_content_hash l) (lpd_data l).

(** One round of each pair: the same tag, then the same branch, or a span one
    side keeps and the other skips. *)
Ltac is_wire_tac :=
  repeat match goal with
         | H : (_ && is_wire _ _)%bool = true |- _ =>
             apply andb_prop in H; destruct H as [? H]; unfold is_wire in H; apply bool_decide_eq_true in H
         end; subst.
Ltac rounds_agree_tac :=
  apply parsers_agree_bind; intros [field wire]; cbv beta iota zeta;
  case_tests; is_wire_tac; zbool; try congruence;
  first [ apply parsers_agree_bind | apply skip_length_delim | apply length_delim_skip ];
  intros ?; apply parsers_agree_ret; by repeat split.

Lemma helper_message_rounds l w :
  same_message l w -> parsers_agree same_message (LinuxParseHelperMessage_round l) (ParseHelperMessage_round w).
Proof.
  destruct l. unfold same_message at 1. cbn. intros ->.
  unfold LinuxParseHelperMessage_round, ParseHelperMessage_round. rounds_agree_tac.
Qed.
Lemma provide_data_rounds l w :
  same_provide_data l w -> parsers_agree same_provide_data (LinuxParseProvideData_round l) (ParseProvideData_round w).
Proof.
  destruct l. unfold same_provide_data at 1. cbn. intros ->.
  unfold LinuxParseProvideData_round, ParseProvideData_round. rounds_agree_tac.
Qed.
Lemma clipboard_data_rounds l w :
  same_clipboard_data l w ->
  parsers_agree same_clipboard_data (LinuxParseClipboardData_round l) (ParseClipboardData_round w).
Proof.
  destruct l, w. unfold same_clipboard_data at 1. cbn. intros [-> ->].
  unfold LinuxParseClipboardData_round, ParseClipboardData_round.
  unfold kCDFieldContentType, kCDFieldPayload, kCDFieldContentHash, kCDFieldTransferId, kCDFieldFiles.
  rounds_agree_tac.
Qed.
Lemma announcement_rounds l w :
  same_announcement l w ->
  parsers_agree same_announcement (LinuxParseAnnouncement_round l) (ParseAnnouncement_round w).
Proof.
  destruct l, w. unfold same_announcement at 1. cbn. intros (-> & -> & ->).
  unfold LinuxParseAnnouncement_round, ParseAnnouncement_round.
  unfold kAnnFieldContentType, kAnnFieldContentHash, kAnnFieldTransferId, kAnnFieldFiles.
  rounds_agree_tac.
Qed.

Lemma messages_agree data : agree same_message (LinuxParseHelperMessage data) (ParseHelperMessage data).
Proof. apply parse_all_agree; [apply helper_message_rounds | done]. Qed.
Lemma provide_datas_agree data : agree same_provide_data (LinuxParseProvideData data) (ParseProvideData data).
Proof. apply parse_all_agree; [apply provide_data_rounds | done]. Qed.
Lemma clipboard_datas_agree data :
  agree same_clipboard_data (LinuxParseClipboardData data) (ParseClipboardData data).
Proof. apply parse_all_agree; [apply clipboard_data_rounds | done]. Qed.
Lemma announcements_agree data :
  agree same_announcement (LinuxParseAnnouncement data) (ParseAnnouncement data).
Proof. apply parse_all_agree; [apply announcement_rounds | done]. Qed.

(** Every round keeps to its input and consumes it. *)
#[export] Instance framed_lcd out : Framed (LinuxParseClipboardData_round out).
Proof. solve_round_class. Qed.
#[export] Instance consuming_lcd out : Consuming (LinuxParseClipboardData_round out).
Proof. solve_round_class. Qed.
#[export] Instance framed_lann out : Framed (LinuxParseAnnouncement_round out).
Proof. solve_round_class. Qed.
#[export] Instance consuming_lann out : Consuming (LinuxParseAnnouncement_round out).
Proof. solve_round_class. Qed.
#[export] Instance framed_lpd out : Framed (LinuxParseProvideData_round out).
Proof. solve_round_class. Qed.
#[export] Instance consuming_lpd out : Consuming (LinuxParseProvideData_round out).
Proof. solve_round_class. Qed.

(** ** Properties *)

(** C35: the Linux and Windows decoders accept the same byte strings and read
    the same values from them: the message envelope and PROVIDE_DATA agree on
    every field, and CLIPBOARD_DATA and ANNOUNCE_DELAYED on every field both
    helpers keep (each skips exactly the spans only the other one stores). *)
Theorem codecs_agree data :
  agree same_message (LinuxParseHelperMessage data) (ParseHelperMessage data) /\
  agree same_provide_data (LinuxParseProvideData data) (ParseProvideData data) /\
  agree same_clipboard_data (LinuxParseClipboardData data) (ParseClipboardData data) /\
  agree same_announcement (LinuxParseAnnouncement data) (ParseAnnouncement data).
Proof.
  split_and!; [apply messages_agree | apply provide_datas_agree | apply clipboard_datas_agree | apply announcements_agree].
Qed.
