(* ===== verification/LinuxDispatch.v ===== *)
(** * LinuxDispatch: the Linux helper's message dispatcher

    [linux/src/dispatch.cpp] over the backend interface of
    [clipboard_manager.h] and, as one backend, the stub of
    [clipboard_manager.cpp].  A pointer that may be null is an [option]; the
    clock's value is an argument; [SendFrame] is a frame in the callback's
    result. *)

From S2P Require Import Prelude HelperProto ProtoWire WinCodec LinuxCodec.

(** ** The backend interface *)

(** [std::function<void(const std::string&)>] as [Attach] fills it: the string
    and the clock's value give the frames handed to [SendFrame]. *)
Definition Callback : Type := list Z -> Z -> list (list Z).

(** [ClipboardManager], over the backend's state. *)
Class ClipboardManager (S : Type) := {
  SetClipboardText : list Z -> S -> S;
  SetClipboardImage : list Z -> S -> S;
  AnnounceDelayedText : list Z -> S -> S;
  AnnounceDelayedImage : list Z -> S -> S;
  AnnounceDelayedFiles : list Z -> S -> S;
  ManagerProvideData : list Z -> list Z -> S -> S;
  GetClipboardText : S -> option (list Z);
  SetOnClipboardChanged : option Callback -> S -> S;
  SetOnDataRequest : option Callback -> S -> S
}.

(** ** The stub backend *)

Record StubClipboardManager := {
  stub_pending_hash_ : list Z;
  stub_on_changed_ : option Callback;
  stub_on_request_ : option Callback
}.
Definition MakeStubManager : StubClipboardManager :=
  {| stub_pending_hash_ := []; stub_on_changed_ := None; stub_on_request_ := None |}.

Definition stub_announce (content_hash : list Z) (s : StubClipboardManager) : StubClipboardManager :=
  {| stub_pending_hash_ := content_hash; stub_on_changed_ := stub_on_changed_ s;
     stub_on_request_ := stub_on_request_ s |}.

(** Setting and providing only log. *)
Definition stub_set (bytes : list Z) (s : StubClipboardManager) : StubClipboardManager := s.
Definition stub_provide (content_hash data : list Z) (s : StubClipboardManager) : StubClipboardManager := s.
Definition stub_text (s : StubClipboardManager) : option (list Z) := None.

Definition stub_set_on_changed (cb : option Callback) (s : StubClipboardManager) : StubClipboardManager :=
  {| stub_pending_hash_ := stub_pending_hash_ s; stub_on_changed_ := cb; stub_on_request_ := stub_on_request_ s |}.
Definition stub_set_on_request (cb : option Callback) (s : StubClipboardManager) : StubClipboardManager :=
  {| stub_pending_hash_ := stub_pending_hash_ s; stub_on_changed_ := stub_on_changed_ s; stub_on_request_ := cb |}.

#[export] Instance stub_manager : ClipboardManager StubClipboardManager := {
  SetClipboardText := stub_set;
  SetClipboardImage := stub_set;
  AnnounceDelayedText := stub_announce;
  AnnounceDelayedImage := stub_announce;
  AnnounceDelayedFiles := stub_announce;
  ManagerProvideData := stub_provide;
  GetClipboardText := stub_text;
  SetOnClipboardChanged := stub_set_on_changed;
  SetOnDataRequest := stub_set_on_request
}.

(** ** The dispatcher *)

Record LinuxDispatcher (S : Type) := {
  clipboard_ : option S;
  socket_ : bool;
  on_shutdown_request_ : bool;
  attached_ : bool
}.
Arguments clipboard_ {S} _.
Arguments socket_ {S} _.
Arguments on_shutdown_request_ {S} _.
Arguments attached_ {S} _.

Definition EncodeClipboardContentText (utf8 : list Z) (clock : Z) : list Z :=
  let inner := WriteEnumField kCDFieldContentType (content_type_value Text) [] in
  let inner := match utf8 with [] => inner | _ => WriteBytesField kCDFieldPayload utf8 inner end in
  let w := WriteEnumField kFieldType (message_type_value ClipboardContent) [] in
  let w := WriteSubMessageField kFieldClipboardData inner w in
  WriteUint64Field kFieldTimestamp clock w.

Section Dispatcher.
Context {S : Type} `{ClipboardManager S}.

Definition on_backend (f : S -> S) (d : LinuxDispatcher S) : LinuxDispatcher S :=
  {| clipboard_ := f <$> clipboard_ d; socket_ := socket_ d;
     on_shutdown_request_ := on_shutdown_request_ d; attached_ := attached_ d |}.

(** The two callbacks [Attach] installs. *)
Definition on_changed_callback (socket : bool) : Callback := fun utf8 clock =>
  let frame := EncodeClipboardChangedText utf8 [] clock in
  if socket then [frame] else [].
Definition on_request_callback (socket : bool) : Callback := fun content_hash clock =>
  let frame := LinuxEncodeDataRequest content_hash Text clock in
  if socket then [frame] else [].

Definition set_attached (b : bool) (d : LinuxDispatcher S) : LinuxDispatcher S :=
  {| clipboard_ := clipboard_ d; socket_ := socket_ d;
     on_shutdown_request_ := on_shutdown_request_ d; attached_ := b |}.

(** [None]: a null backend is dereferenced. *)
Definition Attach (d : LinuxDispatcher S) : option (LinuxDispatcher S) :=
  if attached_ d then Some d
  else match clipboard_ d with
       | None => None
       | Some _ =>
           Some (on_backend (fun s => SetOnDataRequest (Some (on_request_callback (socket_ d)))
                                        (SetOnClipboardChanged (Some (on_changed_callback (socket_ d))) s))
                   (set_attached true d))
       end.

Definition Detach (d : LinuxDispatcher S) : LinuxDispatcher S :=
  if negb (attached_ d) then d
  else on_backend (fun s => SetOnDataRequest None (SetOnClipboardChanged None s)) (set_attached false d).

Definition OnConnect (clock : Z) : list Z := LinuxEncodeReady clock.

(** A handler's result: the reply, the dispatcher and whether the shutdown
    request was signalled. *)
Definition Handled : Type := list Z * LinuxDispatcher S * bool.
Definition replied (reply : list Z) (d : LinuxDispatcher S) : Handled := (reply, d, false).

(** [!(data == nullptr || len == 0)]. *)
Definition present (p : option (list Z)) : option (list Z) :=
  match p with Some (c :: rest) => Some (c :: rest) | _ => None end.

Definition LinuxHandleSetClipboard (data : option (list Z)) (clock : Z) (d : LinuxDispatcher S) : Handled :=
  match present data with
  | None => replied (LinuxEncodeError (str "SET_CLIPBOARD missing clipboard_data") clock) d
  | Some data =>
      match LinuxParseClipboardData data with
      | Done cd =>
          match clipboard_ d with
          | None => replied [] d
          | Some _ =>
              match lcd_content_type cd with
              | Text => replied [] (on_backend (SetClipboardText (default [] (lcd_payload cd))) d)
              | Image => replied [] (on_backend (SetClipboardImage (default [] (lcd_payload cd))) d)
              | Files => replied (LinuxEncodeError (str "SET_CLIPBOARD: FILES not yet supported on Linux helper") clock) d
              | _ => replied (LinuxEncodeError (str "SET_CLIPBOARD: unknown content_type") clock) d
              end
          end
      | _ => replied (LinuxEncodeError (str "SET_CLIPBOARD parse failure") clock) d
      end
  end.

Definition LinuxHandleAnnounceDelayed (data : option (list Z)) (clock : Z) (d : LinuxDispatcher S) : Handled :=
  match present data with
  | None => replied (LinuxEncodeError (str "ANNOUNCE_DELAYED missing announcement") clock) d
  | Some data =>
      match LinuxParseAnnouncement data with
      | Done ann =>
          match clipboard_ d with
          | None => replied [] d
          | Some _ =>
              match lann_content_type ann with
              | Text => replied [] (on_backend (AnnounceDelayedText (lann_content_hash ann)) d)
              | Image => replied [] (on_backend (AnnounceDelayedImage (lann_content_hash ann)) d)
              | Files => replied [] (on_backend (AnnounceDelayedFiles (lann_content_hash ann)) d)
              | _ => replied (LinuxEncodeError (str "ANNOUNCE_DELAYED: unknown content_type") clock) d
              end
          end
      | _ => replied (LinuxEncodeError (str "ANNOUNCE_DELAYED parse failure") clock) d
      end
  end.

Definition LinuxHandleProvideData (data : option (list Z)) (clock : Z) (d : LinuxDispatcher S) : Handled :=
  match present data with
  | None => replied (LinuxEncodeError (str "PROVIDE_DATA missing payload") clock) d
  | Some data =>
      match LinuxParseProvideData data with
      | Done pd => replied [] (on_backend (ManagerProvideData (lpd_content_hash pd) (lpd_data pd)) d)
      | _ => replied (LinuxEncodeError (str "PROVIDE_DATA parse failure") clock) d
      end
  end.

Definition LinuxHandleGetClipboard (clock : Z) (d : LinuxDispatcher S) : Handled :=
  match clipboard_ d with
  | None => replied (LinuxEncodeError (str "GET_CLIPBOARD: no clipboard backend") clock) d
  | Some s => replied (EncodeClipboardContentText (default [] (GetClipboardText s)) clock) d
  end.

Definition LinuxHandleShutdown (d : LinuxDispatcher S) : Handled := ([], d, on_shutdown_request_ d).

Definition LinuxHandle (frame : list Z) (clock : Z) (d : LinuxDispatcher S) : Handled :=
  match LinuxParseHelperMessage frame with
  | Done msg =>
      match lm_type msg with
      | SetClipboard => LinuxHandleSetClipboard (lm_clipboard_data msg) clock d
      | AnnounceDelayed => LinuxHandleAnnounceDelayed (lm_announcement msg) clock d
      | ProvideData => LinuxHandleProvideData (lm_provide_data msg) clock d
      | GetClipboard => LinuxHandleGetClipboard clock d
      | Shutdown => LinuxHandleShutdown d
      | FileChunkRequest | FileChunkData | FileTransferProgress =>
          replied (LinuxEncodeError (str "FILES path not yet supported on Linux helper") clock) d
      | _ => replied (LinuxEncodeError (str "unknown HelperMessageType") clock) d
      end
  | _ => replied (LinuxEncodeError (str "malformed HelperMessage") clock) d
  end.
End Dispatcher.
Arguments Handled S : clear implicits.

(** ** Decoding the peer's requests *)

Lemma agree_done {A B} (R : A -> B -> Prop) x b : agree R x (Done b) -> exists a, x = Done a /\ R a b.
Proof. destruct x; simpl; [eauto|done|done]. Qed.

(** What the Linux decoder reads from bytes the Windows decoder accepts. *)
Lemma linux_message frame w :
  ParseHelperMessage frame = Done w ->
  LinuxParseHelperMessage frame = Done (Build_LinuxHelperMessage (hm_type w) (clipboard_data_ptr w)
    (announcement_ptr w) (provide_data_ptr w) (file_chunk_request_ptr w) (file_chunk_data_ptr w)).
Proof.
  intros E. pose proof (messages_agree frame) as H. rewrite E in H.
  destruct (agree_done _ _ _ H) as (l & -> & ->). by destruct l.
Qed.

Section Requests.
Context (clock : Z) (Hclock : is_u64 clock).

Lemma request_clipboard sub : small sub ->
  LinuxParseHelperMessage (request_frame SetClipboard kFieldClipboardData sub clock) =
  Done (Build_LinuxHelperMessage SetClipboard (Some sub) None None None None).
Proof using Hclock.
  intros Hs. apply small_u64 in Hs.
  erewrite (linux_message _ (Build_ParsedHelperMessage SetClipboard (Some sub) None None None None)); [done|].
  apply envelope_clipboard; auto.
Qed.
Lemma request_announce sub : small sub ->
  LinuxParseHelperMessage (request_frame AnnounceDelayed kFieldAnnouncement sub clock) =
  Done (Build_LinuxHelperMessage AnnounceDelayed None (Some sub) None None None).
Proof using Hclock.
  intros Hs. apply small_u64 in Hs.
  erewrite (linux_message _ (Build_ParsedHelperMessage AnnounceDelayed None (Some sub) None None None)); [done|].
  unfold request_frame, ParseHelperMessage, empty_ParsedHelperMessage. split_fields.
  rewrite WriteEnumField_uint by closed_or_hyp. do 2 known_field. by rewrite parse_timestamp.
Qed.
Lemma request_provide sub : small sub ->
  LinuxParseHelperMessage (request_frame ProvideData kFieldProvideData sub clock) =
  Done (Build_LinuxHelperMessage ProvideData None None (Some sub) None None).
Proof using Hclock.
  intros Hs. apply small_u64 in Hs.
  erewrite (linux_message _ (Build_ParsedHelperMessage ProvideData None None (Some sub) None None)); [done|].
  unfold request_frame, ParseHelperMessage, empty_ParsedHelperMessage. split_fields.
  rewrite WriteEnumField_uint by closed_or_hyp. do 2 known_field. by rewrite parse_timestamp.
Qed.
End Requests.

(** The three sub-messages. *)
Definition listed (ty : ClipboardContentType) : Prop := ty = Text \/ ty = Image \/ ty = Files.

Lemma parse_clipboard_sub ty payload : listed ty -> small payload ->
  exists cd, LinuxParseClipboardData (clipboard_sub ty payload) = Done cd /\
    lcd_content_type cd = ty /\ default [] (lcd_payload cd) = payload.
Proof.
  intros Ht Hs. apply small_u64 in Hs. 
  exists (Build_LinuxClipboardData ty (match payload with [] => None | _ => Some payload end) [] []).
  split; [|split; [done|by destruct payload]].
  unfold LinuxParseClipboardData, clipboard_sub. rewrite WriteBytesField_app.
  rewrite <- (app_nil_r (WriteBytesField kCDFieldPayload payload [])).
  destruct Ht as [->|[->| ->]]; (rewrite WriteEnumField_uint by closed_or_hyp; known_field;
    destruct payload as [|b u]; [done|]; rewrite WriteBytesField_sub; by known_field).
Qed.

Lemma parse_announcement_sub ty hash : listed ty -> small hash ->
  LinuxParseAnnouncement (announcement_sub ty hash) = Done (Build_LinuxAnnouncement ty hash []).
Proof.
  intros Ht Hs. apply small_u64 in Hs.
  unfold LinuxParseAnnouncement, announcement_sub. rewrite WriteStringField_app.
  rewrite <- (app_nil_r (WriteStringField kAnnFieldContentHash hash [])).
  destruct Ht as [->|[->| ->]]; (rewrite WriteEnumField_uint by closed_or_hyp; do 2 known_field; done).
Qed.

Lemma parse_provide_sub hash data : small hash -> small data ->
  LinuxParseProvideData (provide_sub hash data) = Done (Build_LinuxProvideData hash data).
Proof.
  intros Hh Hd. apply small_u64 in Hh, Hd.
  unfold LinuxParseProvideData, provide_sub. rewrite WriteBytesField_app.
  rewrite <- (app_nil_r (WriteBytesField kPDFieldData data [])).
  do 2 known_field. done.
Qed.

(** The sub-messages are not empty, so the handlers look at them. *)
Lemma clipboard_sub_present ty payload : listed ty -> present (Some (clipboard_sub ty payload)) = Some (clipboard_sub ty payload).
Proof.
  intros [->|[->| ->]]; unfold clipboard_sub; by rewrite WriteBytesField_app.
Qed.
Lemma announcement_sub_present ty hash : listed ty -> present (Some (announcement_sub ty hash)) = Some (announcement_sub ty hash).
Proof.
  intros [->|[->| ->]]; unfold announcement_sub; by rewrite WriteStringField_app.
Qed.

(** ** Properties *)

Lemma sub_small ty payload : Zlen payload < 2 ^ 31 -> listed ty -> small (clipboard_sub ty payload).
Proof.
  intros Hp Ht. unfold small, clipboard_sub. rewrite WriteBytesField_app, Zlen_app.
  assert (Zlen (WriteEnumField kCDFieldContentType (content_type_value ty) []) = 2)
    by (destruct Ht as [->|[->| ->]]; reflexivity).
  assert (Zlen (WriteBytesField kCDFieldPayload payload []) <= 20 + Zlen payload)
    by (apply bytes_field_size; [tag_ok_tac|unfold small; lia]). lia.
Qed.
Lemma ann_small ty hash : Zlen hash < 2 ^ 31 -> listed ty -> small (announcement_sub ty hash).
Proof.
  intros Hp Ht. unfold small, announcement_sub. rewrite WriteStringField_app, Zlen_app.
  assert (Zlen (WriteEnumField kAnnFieldContentType (content_type_value ty) []) = 2)
    by (destruct Ht as [->|[->| ->]]; reflexivity).
  assert (Zlen (WriteStringField kAnnFieldContentHash hash []) <= 20 + Zlen hash)
    by (apply string_field_size; [tag_ok_tac|unfold small; lia]). lia.
Qed.
Lemma provide_small hash data : Zlen hash < 2 ^ 30 -> Zlen data < 2 ^ 31 -> small (provide_sub hash data).
Proof.
  intros Hh Hd. unfold small, provide_sub. rewrite WriteBytesField_app, Zlen_app.
  assert (Zlen (WriteStringField kPDFieldContentHash hash []) <= 20 + Zlen hash)
    by (apply string_field_size; [tag_ok_tac|unfold small; lia]).
  assert (Zlen (WriteBytesField kPDFieldData data []) <= 20 + Zlen data)
    by (apply bytes_field_size; [tag_ok_tac|unfold small; lia]). lia.
Qed.
Lemma provide_sub_present hash data : hash <> [] -> present (Some (provide_sub hash data)) = Some (provide_sub hash data).
Proof.
  intros Hh. unfold present. destruct (provide_sub hash data) eqn:E; [|done]. exfalso. apply Hh.
  unfold provide_sub in E. rewrite WriteBytesField_app in E. apply app_eq_nil in E as [E _].
  destruct hash as [|c hash]; [done|]. unfold WriteStringField in E. by apply app_eq_nil in E as [_ ?].
Qed.

(** ** Replies *)

Definition error_message : ParsedHelperMessage := Build_ParsedHelperMessage Error None None None None None.

Lemma parse_error message clock :
  is_u64 clock -> Zlen message < 2 ^ 64 -> ParseHelperMessage (LinuxEncodeError message clock) = Done error_message.
Proof.
  intros Hc Hm. unfold LinuxEncodeError, ParseHelperMessage, empty_ParsedHelperMessage.
  rewrite WriteUint64Field_app. destruct message as [|c message].
  - rewrite WriteEnumField_uint by closed_or_hyp. known_field. by rewrite parse_timestamp.
  - rewrite WriteStringField_app, <- app_assoc, WriteEnumField_uint by closed_or_hyp. known_field.
    rewrite WriteStringField_sub, WriteSubMessageField_encode.
    erewrite (parse_skip_field ParseHelperMessage_round);
      [by rewrite parse_timestamp|reflexivity|split; [split; vm_compute; congruence|done]|reflexivity].
Qed.

(** What a peer may receive in answer to a request. *)
Definition reply_typed (reply : list Z) : Prop :=
  reply = [] \/ ParseHelperMessage reply = Done error_message \/
  exists text cd,
    ParseHelperMessage reply = Done (Build_ParsedHelperMessage ClipboardContent (Some (clipboard_sub Text text)) None None None None) /\
    LinuxParseClipboardData (clipboard_sub Text text) = Done cd /\ lcd_content_type cd = Text /\
    default [] (lcd_payload cd) = text.

Lemma error_typed message clock : is_u64 clock -> Zlen message < 2 ^ 64 -> reply_typed (LinuxEncodeError message clock).
Proof. intros Hc Hm. right. left. by apply parse_error. Qed.

Lemma content_typed text clock : is_u64 clock -> Zlen text < 2 ^ 31 -> reply_typed (EncodeClipboardContentText text clock).
Proof.
  intros Hc Ht. assert (Hl : listed Text) by (by left). pose proof (sub_small Text text Ht Hl) as Hs.
  destruct (parse_clipboard_sub Text text Hl) as (cd & ? & ? & ?); [unfold small; lia|].
  right. right. exists text, cd. split_and!; try done.
  replace (EncodeClipboardContentText text clock)
    with (EncodeClipboardEnvelope ClipboardContent (clipboard_sub Text text) clock) by (by destruct text).
  apply envelope_clipboard; [done|auto|by apply small_u64].
Qed.

(** What a handler leaves alone. *)
Definition same_wiring {S} (d d' : LinuxDispatcher S) : Prop :=
  socket_ d' = socket_ d /\ attached_ d' = attached_ d /\ (clipboard_ d' = None <-> clipboard_ d = None).
Definition typed_handled {S} (d : LinuxDispatcher S) (h : Handled S) : Prop :=
  reply_typed h.1.1 /\ same_wiring d h.1.2.

Section Typed.
Context {S : Type} `{ClipboardManager S} (clock : Z) (Hclock : is_u64 clock).

Lemma replied_typed reply (d : LinuxDispatcher S) : reply_typed reply -> typed_handled d (replied reply d).
Proof. intros Hr. split; [done|]. by split_and!. Qed.
Lemma backend_typed f (d : LinuxDispatcher S) : typed_handled d (replied [] (on_backend f d)).
Proof. split; [by left|]. split_and!; [done|done|]. cbn. by destruct (clipboard_ d). Qed.

Lemma error_reply_typed message (d : LinuxDispatcher S) :
  Zlen message < 2 ^ 64 -> typed_handled d (replied (LinuxEncodeError message clock) d).
Proof using Hclock. intros Hm. apply replied_typed. by apply error_typed. Qed.
End Typed.

(** The backend operation a text, image or files request of the two kinds
    stands for. *)
Definition set_operation {S} `{ClipboardManager S} (ty : ClipboardContentType) (payload : list Z) : S -> S :=
  match ty with Image => SetClipboardImage payload | _ => SetClipboardText payload end.
Definition announce_operation {S} `{ClipboardManager S} (ty : ClipboardContentType) (hash : list Z) : S -> S :=
  match ty with
  | Image => AnnounceDelayedImage hash
  | Files => AnnounceDelayedFiles hash
  | _ => AnnounceDelayedText hash
  end.

(** An announcement frame and a provision frame. *)
Lemma handle_announcement {S} `{ClipboardManager S} (s : S) (d : LinuxDispatcher S) ty hash clock :
  clipboard_ d = Some s -> listed ty -> Zlen hash < 2 ^ 31 -> is_u64 clock ->
  LinuxHandle (request_frame AnnounceDelayed kFieldAnnouncement (announcement_sub ty hash) clock) clock d =
    ([], on_backend (announce_operation ty hash) d, false).
Proof.
  intros Hd Ht Hh Hclock. pose proof (ann_small ty hash Hh Ht) as Hs.
  unfold LinuxHandle. rewrite request_announce by done. cbn [lm_type lm_announcement]. unfold LinuxHandleAnnounceDelayed.
  rewrite announcement_sub_present, parse_announcement_sub, Hd by (first [done | (unfold small; lia)]).
  by destruct Ht as [->|[->| ->]].
Qed.

Lemma handle_provision {S} `{ClipboardManager S} (d : LinuxDispatcher S) hash data clock :
  hash <> [] -> Zlen hash < 2 ^ 30 -> Zlen data < 2 ^ 31 -> is_u64 clock ->
  LinuxHandle (request_frame ProvideData kFieldProvideData (provide_sub hash data) clock) clock d =
    ([], on_backend (ManagerProvideData hash data) d, false).
Proof.
  intros Hne Hh Hdata Hclock. pose proof (provide_small hash data Hh Hdata) as Hs.
  unfold LinuxHandle. rewrite request_provide by done. cbn [lm_type lm_provide_data]. unfold LinuxHandleProvideData.
  by rewrite provide_sub_present, parse_provide_sub by (first [done | (unfold small; lia)]).
Qed.

(** C27: over any backend, each request of the protocol has exactly its effect:
    SET_CLIPBOARD of text or an image sets exactly those bytes, an
    announcement of any of the three types records exactly that hash with
    that type, PROVIDE_DATA hands over exactly that hash and data, all with
    an empty reply and no other backend call; GET_CLIPBOARD changes nothing
    and its reply decodes, with the peer's own decoder, to a
    CLIPBOARD_CONTENT holding the backend's text. *)
Theorem linux_requests_end_to_end {S} `{ClipboardManager S} (s : S) (d : LinuxDispatcher S) ty hash data clock :
  clipboard_ d = Some s -> listed ty -> hash <> [] ->
  Zlen hash < 2 ^ 30 -> Zlen data < 2 ^ 31 -> is_u64 clock ->
  let text := default [] (GetClipboardText s) in
  Zlen text < 2 ^ 31 ->
  (ty <> Files ->
   LinuxHandle (request_frame SetClipboard kFieldClipboardData (clipboard_sub ty data) clock) clock d =
     ([], on_backend (set_operation ty data) d, false)) /\
  LinuxHandle (request_frame AnnounceDelayed kFieldAnnouncement (announcement_sub ty hash) clock) clock d =
    ([], on_backend (announce_operation ty hash) d, false) /\
  LinuxHandle (request_frame ProvideData kFieldProvideData (provide_sub hash data) clock) clock d =
    ([], on_backend (ManagerProvideData hash data) d, false) /\
  exists reply,
    LinuxHandle (WriteEnumField kFieldType (message_type_value GetClipboard) []) clock d = (reply, d, false) /\
    ParseHelperMessage reply =
      Done (Build_ParsedHelperMessage ClipboardContent (Some (clipboard_sub Text text)) None None None None) /\
    exists cd, LinuxParseClipboardData (clipboard_sub Text text) = Done cd /\
      lcd_content_type cd = Text /\ default [] (lcd_payload cd) = text.
Proof.
  intros Hd Ht Hne Hh Hdata Hclock text Htext.
  assert (Hl : listed Text) by (by left).
  pose proof (sub_small ty data Hdata Ht) as Hs1. pose proof (sub_small Text text Htext Hl) as Hs4.
  split_and!.
  - intros Hfiles. unfold LinuxHandle. rewrite request_clipboard by done. cbn [lm_type lm_clipboard_data].
    destruct (parse_clipboard_sub ty data Ht) as (cd & E & Hty & Hpl); [unfold small; lia|].
    unfold LinuxHandleSetClipboard. rewrite clipboard_sub_present, E, Hd, Hty, Hpl by done.
    by destruct Ht as [->|[->| ->]].
  - by apply (handle_announcement s); [..|lia|].
  - by apply handle_provision.
  - exists (EncodeClipboardContentText text clock). split_and!.
    + unfold LinuxHandle. change (LinuxParseHelperMessage _) with (Done (Build_LinuxHelperMessage GetClipboard None None None None None)).
      cbn [lm_type]. unfold LinuxHandleGetClipboard. by rewrite Hd.
    + replace (EncodeClipboardContentText text clock)
        with (EncodeClipboardEnvelope ClipboardContent (clipboard_sub Text text) clock) by (by destruct text).
      apply envelope_clipboard; [done|auto|by apply small_u64].
    + apply parse_clipboard_sub; [done|unfold small; lia].
Qed.

Lemma linux_requests_end_to_end_witness :
  LinuxHandle (request_frame AnnounceDelayed kFieldAnnouncement (announcement_sub Files (str "h1")) 7) 7
    {| clipboard_ := Some MakeStubManager; socket_ := true; on_shutdown_request_ := true; attached_ := false |} =
  ([], on_backend (announce_operation Files (str "h1"))
         {| clipboard_ := Some MakeStubManager; socket_ := true; on_shutdown_request_ := true; attached_ := false |}, false).
Proof.
  apply (linux_requests_end_to_end MakeStubManager
    {| clipboard_ := Some MakeStubManager; socket_ := true; on_shutdown_request_ := true; attached_ := false |}
    Files (str "h1") [1] 7); try done.
  by right; right.
Defined.

(** A handler's reply is typed; the only one whose size is not bounded by its
    request is the answer to GET_CLIPBOARD. *)
Lemma handle_typed {S} `{ClipboardManager S} frame clock (d : LinuxDispatcher S) :
  is_u64 clock ->
  (forall s, clipboard_ d = Some s -> let text := default [] (GetClipboardText s) in
     (LinuxHandle frame clock d).1.1 = EncodeClipboardContentText text clock -> Zlen text < 2 ^ 31) ->
  typed_handled d (LinuxHandle frame clock d).
Proof.
  intros Hc Htext.
  unfold LinuxHandle, LinuxHandleSetClipboard, LinuxHandleAnnounceDelayed, LinuxHandleProvideData, LinuxHandleGetClipboard,
    LinuxHandleShutdown in *.
  repeat case_match; try (by apply error_reply_typed); try apply backend_typed;
    try (apply replied_typed; by left); try (split; [by left|by split_and!]).
  apply replied_typed. apply content_typed; [done|]. by apply Htext.
Qed.

Lemma parse_ready clock :
  is_u64 clock -> ParseHelperMessage (LinuxEncodeReady clock) = Done (Build_ParsedHelperMessage Ready None None None None None).
Proof.
  intros Hc. unfold LinuxEncodeReady, ParseHelperMessage, empty_ParsedHelperMessage. rewrite WriteUint64Field_app.
  rewrite WriteEnumField_uint by closed_or_hyp. known_field. by rewrite parse_timestamp.
Qed.

(** The two events, as the peer decodes them. *)
Lemma parse_changed utf8 clock :
  is_u64 clock -> Zlen utf8 < 2 ^ 31 ->
  ParseHelperMessage (EncodeClipboardChangedText utf8 [] clock) =
    Done (Build_ParsedHelperMessage ClipboardChanged (Some (clipboard_sub Text utf8)) None None None None).
Proof.
  intros Hc Ht. assert (Hl : listed Text) by (by left). pose proof (sub_small Text utf8 Ht Hl) as Hs.
  replace (EncodeClipboardChangedText utf8 [] clock)
    with (EncodeClipboardEnvelope ClipboardChanged (clipboard_sub Text utf8) clock) by (by destruct utf8).
  apply envelope_clipboard; [done|auto|by apply small_u64].
Qed.

Lemma parse_data_request hash clock :
  is_u64 clock -> Zlen hash < 2 ^ 31 ->
  ParseHelperMessage (LinuxEncodeDataRequest hash Text clock) =
    Done (Build_ParsedHelperMessage DataRequest None None None None None).
Proof.
  intros Hc Hh. unfold LinuxEncodeDataRequest. set (inner := WriteEnumField _ _ _).
  assert (Hi : Zlen inner < 2 ^ 64).
  { unfold inner. rewrite WriteEnumField_app, Zlen_app. change (Zlen (WriteEnumField _ _ [])) with 2.
    destruct hash as [|c hash]; [reflexivity|].
    pose proof (string_field_size kReqFieldContentHash (c :: hash) ltac:(tag_ok_tac)) as Hs. unfold small in Hs. lia. }
  unfold ParseHelperMessage, empty_ParsedHelperMessage. rewrite WriteUint64Field_app, WriteSubMessageField_app, <- app_assoc.
  rewrite WriteEnumField_uint by closed_or_hyp. known_field. rewrite WriteSubMessageField_encode.
  erewrite (parse_skip_field ParseHelperMessage_round);
    [by rewrite parse_timestamp|reflexivity|split; [split; vm_compute; congruence|done]|reflexivity].
Qed.

(** Every reply is a message of the protocol.  Whatever bytes a frame holds,
    the reply is empty, or the peer's decoder accepts it as an ERROR without
    sub-messages or as a CLIPBOARD_CONTENT whose data decodes to a text; the
    greeting decodes to READY; and no handler changes the wiring of the
    dispatcher. *)
Theorem linux_replies_typed {S} `{ClipboardManager S} frame clock (d : LinuxDispatcher S) :
  is_u64 clock -> (forall s, clipboard_ d = Some s -> Zlen (default [] (GetClipboardText s)) < 2 ^ 31) ->
  typed_handled d (LinuxHandle frame clock d) /\
  ParseHelperMessage (OnConnect clock) = Done (Build_ParsedHelperMessage Ready None None None None None).
Proof.
  intros Hc Htext. split; [|by apply parse_ready]. apply handle_typed; [done|]. intros s Hd text _. by apply Htext.
Qed.

Lemma linux_replies_typed_witness :
  typed_handled {| clipboard_ := Some MakeStubManager; socket_ := true; on_shutdown_request_ := true; attached_ := true |}
    (LinuxHandle [255; 255] 7
       {| clipboard_ := Some MakeStubManager; socket_ := true; on_shutdown_request_ := true; attached_ := true |}).
Proof.
  apply (linux_replies_typed [255; 255] 7); [split; [discriminate|reflexivity]|]. intros s [= <-]. reflexivity.
Defined.
