(* ===== verification/UriList.v ===== *)
(** * UriList: file paths as clipboard payloads

    [linux/src/uri_list_format.cpp]: the percent-encoder, the splitter of the
    PROVIDE_DATA payload and the two MIME formatters the Linux backends share. *)

From S2P Require Import Prelude.

(** ** The formatters *)

Definition IsUriPathSafe (c : Z) : bool :=
  ((65 <=? c) && (c <=? 90)) || ((97 <=? c) && (c <=? 122)) || ((48 <=? c) && (c <=? 57)) ||
  (c =? 45) || (c =? 95) || (c =? 46) || (c =? 126) || (c =? 47).

(** A digit of [%02X]. *)
Definition hex_digit (d : Z) : Z := if d <? 10 then 48 + d else 55 + d.

Fixpoint PercentEncodePath (path : list Z) : list Z :=
  match path with
  | [] => []
  | c :: rest =>
      (if IsUriPathSafe c then [c] else [37; hex_digit (c / 16); hex_digit (c mod 16)]) ++ PercentEncodePath rest
  end.

(** [path_bytes.find('\n', start)]. *)
Fixpoint find_newline (s : list Z) : option Z :=
  match s with
  | [] => None
  | c :: rest => if c =? 10 then Some 0 else option_map Z.succ (find_newline rest)
  end.
Definition find_newline_from (start : Z) (s : list Z) : option Z :=
  option_map (Z.add start) (find_newline (drop (Z.to_nat start) s)).

Definition substr (start len : Z) (s : list Z) : list Z := take (Z.to_nat len) (drop (Z.to_nat start) s).

(** [if (!line.empty() && line.back() == '\r') line.remove_suffix(1)]. *)
Definition strip_cr (line : list Z) : list Z :=
  match last line with Some 13 => removelast line | _ => line end.

(** The [while] loop; every round moves [start] past a newline. *)
Fixpoint split_loop (fuel : nat) (start : Z) (path_bytes : list Z) (out : list (list Z)) : option (list (list Z)) :=
  match fuel with
  | O => None
  | S fuel' =>
      if start <=? Zlen path_bytes then
        let end_ := default (Zlen path_bytes) (find_newline_from start path_bytes) in
        let line := strip_cr (substr start (end_ - start) path_bytes) in
        let out := match line with [] => out | _ => out ++ [line] end in
        if end_ >=? Zlen path_bytes then Some out else split_loop fuel' (end_ + 1) path_bytes out
      else Some out
  end.
Definition SplitPaths (path_bytes : list Z) : option (list (list Z)) :=
  split_loop (S (length path_bytes)) 0 path_bytes [].

Definition MakeFileUri (path : list Z) : list Z := str "file://" ++ PercentEncodePath path.

Definition FormatTextUriList (paths : list (list Z)) : list Z :=
  foldl (fun out p => out ++ MakeFileUri p ++ [13; 10]) [] paths.

Definition FormatGnomeCopiedFiles (paths : list (list Z)) : list Z :=
  foldl (fun out p => out ++ [10] ++ MakeFileUri p) (str "copy") paths.

Definition FormatForMime (path_bytes mime : list Z) : option (list Z) :=
  paths ← SplitPaths path_bytes;
  Some (if bytes_eqb mime (str "x-special/gnome-copied-files")
        then FormatGnomeCopiedFiles paths else FormatTextUriList paths).

(** ** Reference definitions

    A splitter by structural recursion, and the readers a paste target has. *)

Fixpoint split_on (sep : Z) (s : list Z) : list (list Z) :=
  match s with
  | [] => [[]]
  | c :: rest =>
      match split_on sep rest with
      | [] => [[c]]
      | l :: ls => if c =? sep then [] :: l :: ls else (c :: l) :: ls
      end
  end.

(** A line without the carriage return it may end in. *)
Definition chomp (line : list Z) : list Z :=
  if decide (last line = Some 13) then take (length line - 1) line else line.

Definition nonempty (l : list Z) : Prop := l <> [].
#[export] Instance nonempty_dec l : Decision (nonempty l).
Proof. destruct l; [right|left]; unfold nonempty; [tauto|discriminate]. Defined.

(** The paths a payload names: its lines, the empty ones dropped. *)
Definition paste_lines (payload : list Z) : list (list Z) :=
  filter nonempty (map chomp (split_on 10 payload)).

(** The value of a hexadecimal digit. *)
Definition unhex (c : Z) : option Z :=
  if (48 <=? c) && (c <=? 57) then Some (c - 48)
  else if (65 <=? c) && (c <=? 70) then Some (c - 55)
  else if (97 <=? c) && (c <=? 102) then Some (c - 87)
  else None.

(** The characters a URI path has outside escapes: printable, without [?] and
    [#], which would end the path. *)
Definition path_char (c : Z) : bool := (32 <? c) && (c <? 127) && negb (c =? 63) && negb (c =? 35).

Fixpoint percent_decode (s : list Z) : option (list Z) :=
  match s with
  | [] => Some []
  | c :: rest =>
      if c =? 37 then
        match rest with
        | h :: l :: rest' => d ← unhex h; e ← unhex l; p ← percent_decode rest'; Some (16 * d + e :: p)
        | _ => None
        end
      else if path_char c then p ← percent_decode rest; Some (c :: p)
      else None
  end.

(** The scheme and the path; any other line is refused. *)
Definition read_uri (line : list Z) : option (list Z) :=
  match line with
  | 102 :: 105 :: 108 :: 101 :: 58 :: 47 :: 47 :: path => percent_decode path
  | _ => None
  end.

(** Lines each ended by CRLF, [cur] being the line so far. *)
Fixpoint crlf_lines (cur s : list Z) : option (list (list Z)) :=
  match s with
  | [] => if decide (cur = []) then Some [] else None
  | c :: rest =>
      if c =? 13 then
        match rest with
        | d :: rest' => if d =? 10 then ls ← crlf_lines [] rest'; Some (cur :: ls) else None
        | [] => None
        end
      else crlf_lines (cur ++ [c]) rest
  end.

Definition read_uri_list (s : list Z) : option (list (list Z)) := ls ← crlf_lines [] s; mapM read_uri ls.

(** The operation [copy] on a line of its own, then a URI a line. *)
Definition read_gnome (s : list Z) : option (list (list Z)) :=
  match split_on 10 s with
  | [99; 111; 112; 121] :: uris => mapM read_uri uris
  | _ => None
  end.

Definition read_files (mime : list Z) : list Z -> option (list (list Z)) :=
  if decide (mime = str "x-special/gnome-copied-files") then read_gnome else read_uri_list.

(** What the peer sends: the paths joined by newlines. *)
Fixpoint join_paths (paths : list (list Z)) : list Z :=
  match paths with
  | [] => []
  | [p] => p
  | p :: rest => p ++ 10 :: join_paths rest
  end.

(** ** Splitting *)

Lemma split_on_cons_nonnil sep s : exists l ls, split_on sep s = l :: ls.
Proof.
  destruct s as [|c s]; simpl; [eauto|]. destruct (split_on sep s); [eauto|]. case_tests; eauto.
Qed.

Lemma split_on_plain sep a : sep ∉ a -> split_on sep a = [a].
Proof.
  induction a as [|c a IH]; intros Hn; simpl; [done|].
  apply not_elem_of_cons in Hn as [Hc Hn]. rewrite (IH Hn). by destruct (Z.eqb_spec c sep).
Qed.
Lemma split_on_sep sep a b : sep ∉ a -> split_on sep (a ++ sep :: b) = a :: split_on sep b.
Proof.
  induction a as [|c a IH]; intros Hn; simpl.
  - destruct (split_on_cons_nonnil sep b) as (l & ls & ->). by rewrite Z.eqb_refl.
  - apply not_elem_of_cons in Hn as [Hc Hn]. rewrite (IH Hn). by destruct (Z.eqb_spec c sep).
Qed.

Lemma find_newline_none s : find_newline s = None -> 10 ∉ s.
Proof.
  induction s as [|c s IH]; simpl; [intros _; apply not_elem_of_nil|].
  destruct (Z.eqb_spec c 10); [done|]. destruct (find_newline s); [done|]. intros _.
  apply not_elem_of_cons. split; [done|by apply IH].
Qed.
Lemma find_newline_some s i : find_newline s = Some i ->
  exists a b, s = a ++ 10 :: b /\ 10 ∉ a /\ i = Zlen a.
Proof.
  revert i. induction s as [|c s IH]; intros i; simpl; [done|].
  destruct (Z.eqb_spec c 10) as [->|Hc].
  - intros [= <-]. exists [], s. split_and!; [done|apply not_elem_of_nil|done].
  - destruct (find_newline s) as [j|]; [|done]. intros [= <-].
    destruct (IH j eq_refl) as (a & b & -> & Ha & ->). exists (c :: a), b.
    split_and!; [done|by apply not_elem_of_cons|rewrite Zlen_cons; lia].
Qed.


Definition keep (out : list (list Z)) (line : list Z) : list (list Z) :=
  match line with [] => out | _ => out ++ [line] end.
Lemma keep_filter out line : keep out line = out ++ filter nonempty [line].
Proof. destruct line; simpl; [by rewrite app_nil_r|done]. Qed.

(** The index loop is the structural splitter. *)
Lemma split_loop_spec fuel pre rest out :
  (length rest < fuel)%nat ->
  split_loop fuel (Zlen pre) (pre ++ rest) out =
  Some (out ++ filter nonempty (map strip_cr (split_on 10 rest))).
Proof.
  revert pre rest out. induction fuel as [|fuel IH]; intros pre rest out Hf; [lia|]. simpl.
  pose proof (Zlen_nonneg rest) as Hr. rewrite Zlen_app.
  replace (Zlen pre <=? Zlen pre + Zlen rest) with true by (symmetry; apply Z.leb_le; lia).
  unfold find_newline_from, substr. rewrite drop_Zlen.
  destruct (find_newline rest) as [i|] eqn:E; simpl.
  - apply find_newline_some in E as (a & b & -> & Ha & ->).
    replace (Zlen pre + Zlen a - Zlen pre) with (Zlen a) by lia. rewrite take_Zlen.
    rewrite Zlen_app, Zlen_cons. pose proof (Zlen_nonneg b).
    replace (Zlen pre + Zlen a >=? Zlen pre + (Zlen a + (1 + Zlen b))) with false
      by (symmetry; rewrite Z.geb_leb; apply Z.leb_gt; lia).
    replace (pre ++ a ++ 10 :: b) with ((pre ++ a ++ [10]) ++ b) by (by rewrite <- !app_assoc).
    replace (Zlen pre + Zlen a + 1) with (Zlen (pre ++ a ++ [10])) by (rewrite !Zlen_app, Zlen_cons, Zlen_nil; lia).
    rewrite IH by (rewrite length_app in Hf; simpl in Hf; lia).
    fold (keep out (strip_cr a)). rewrite keep_filter, split_on_sep, map_cons by done.
    by rewrite <- app_assoc, <- filter_app.
  - replace (Zlen pre + Zlen rest - Zlen pre) with (Zlen rest) by lia.
    rewrite Zlen_to_nat, firstn_all.
    replace (Zlen pre + Zlen rest >=? Zlen pre + Zlen rest) with true
      by (symmetry; rewrite Z.geb_leb; apply Z.leb_le; lia).
    fold (keep out (strip_cr rest)). rewrite keep_filter, split_on_plain by (by apply find_newline_none). done.
Qed.

Lemma SplitPaths_spec s : SplitPaths s = Some (filter nonempty (map strip_cr (split_on 10 s))).
Proof. apply (split_loop_spec (S (length s)) [] s []). lia. Qed.

Lemma split_join paths : Forall (fun p => 10 ∉ p) paths -> paths <> [] -> split_on 10 (join_paths paths) = paths.
Proof.
  intros H. induction H as [|p paths Hp Hps IH]; [done|]. intros _. destruct paths as [|q paths].
  - by apply split_on_plain.
  - change (join_paths (p :: q :: paths)) with (p ++ 10 :: join_paths (q :: paths)).
    rewrite split_on_sep by done. by rewrite IH.
Qed.

(** ** Encoding *)

Ltac safe_cases :=
  unfold IsUriPathSafe in *;
  repeat match goal with
         | H : (_ || _)%bool = true |- _ => apply orb_prop in H as [H|H]
         | H : (_ || _)%bool = false |- _ => apply orb_false_elim in H as [? H]
         end; zbool.

Lemma unhex_digit d : 0 <= d < 16 -> unhex (hex_digit d) = Some d.
Proof.
  intros Hd. unfold unhex, hex_digit. destruct (Z.ltb_spec d 10).
  - replace ((48 <=? 48 + d) && (48 + d <=? 57)) with true by lia. f_equal. lia.
  - replace ((48 <=? 55 + d) && (55 + d <=? 57)) with false by lia.
    replace ((65 <=? 55 + d) && (55 + d <=? 70)) with true by lia. f_equal. lia.
Qed.

Lemma percent_roundtrip path : Forall is_byte path -> percent_decode (PercentEncodePath path) = Some path.
Proof.
  intros H. induction H as [|c path Hc _ IH]; [done|]. cbn [PercentEncodePath].
  destruct (IsUriPathSafe c) eqn:E; cbn [app percent_decode].
  - replace (c =? 37) with false by (symmetry; apply Z.eqb_neq; safe_cases; lia).
    replace (path_char c) with true by (symmetry; unfold path_char; safe_cases; lia). by rewrite IH.
  - cbn. rewrite IH. unfold is_byte in Hc.
    rewrite !unhex_digit by (Z.to_euclidean_division_equations; lia). cbn. do 2 f_equal.
    Z.to_euclidean_division_equations. lia.
Qed.

(** Only the unreserved characters, [/] and [%] come out. *)
Lemma hex_digit_safe d : 0 <= d < 16 -> IsUriPathSafe (hex_digit d) = true.
Proof.
  intros Hd. assert (Hall : forallb (fun i => IsUriPathSafe (hex_digit i)) (seqZ 0 16) = true) by reflexivity.
  rewrite forallb_forall in Hall. apply Hall, list_elem_of_In, elem_of_seqZ. lia.
Qed.
Lemma encoded_safe path : Forall is_byte path ->
  Forall (fun c => IsUriPathSafe c = true \/ c = 37) (PercentEncodePath path).
Proof.
  intros H. induction H as [|c path Hc _ IH]; [constructor|]. cbn [PercentEncodePath].
  unfold is_byte in Hc. apply Forall_app. split; [|done].
  destruct (IsUriPathSafe c) eqn:E.
  - by apply Forall_cons_2; [left|apply Forall_nil_2].
  - apply Forall_cons_2; [by right|].
    apply Forall_cons_2; [|apply Forall_cons_2; [|apply Forall_nil_2]];
      left; apply hex_digit_safe; Z.to_euclidean_division_equations; lia.
Qed.

Lemma uri_plain path c : c = 10 \/ c = 13 -> Forall is_byte path -> c ∉ MakeFileUri path.
Proof.
  intros Hc Hp Hin. unfold MakeFileUri in Hin. apply elem_of_app in Hin as [Hin|Hin].
  - change (c ∈ [102; 105; 108; 101; 58; 47; 47]) in Hin. destruct Hc as [-> | ->]; set_solver.
  - apply encoded_safe in Hp. rewrite Forall_forall in Hp. destruct Hc as [-> | ->]; by destruct (Hp _ Hin).
Qed.

Lemma read_uri_make path : Forall is_byte path -> read_uri (MakeFileUri path) = Some path.
Proof. intros Hp. unfold read_uri, MakeFileUri. cbn. by apply percent_roundtrip. Qed.

Lemma read_uris paths : Forall (Forall is_byte) paths -> mapM read_uri (map MakeFileUri paths) = Some paths.
Proof. induction 1 as [|p paths Hp _ IH]; [done|]. cbn [map mapM]. rewrite read_uri_make by done. cbn. by rewrite IH. Qed.

(** The code's trimming of a line, and what the lines of bytes are. *)
Lemma strip_cr_chomp l : strip_cr l = chomp l.
Proof.
  unfold strip_cr, chomp.
  destruct (last l) as [c|]; [|done]. destruct (decide (c = 13)) as [->|Hc].
  - rewrite decide_True by done. rewrite Nat.sub_1_r. apply removelast_firstn_len.
  - rewrite decide_False by congruence. repeat case_match; congruence.
Qed.

Lemma split_on_bytes s : Forall is_byte s -> Forall (Forall is_byte) (split_on 10 s).
Proof.
  induction 1 as [|c s Hc _ IH]; simpl; [by apply Forall_singleton, Forall_nil|].
  destruct (split_on 10 s) as [|l ls]; [by apply Forall_singleton, Forall_singleton|].
  apply Forall_cons in IH as [Hl Hls]. destruct (c =? 10).
  - apply Forall_cons. split; [by apply Forall_nil|by apply Forall_cons].
  - apply Forall_cons. split; [by apply Forall_cons|done].
Qed.

Lemma paste_lines_bytes s : Forall is_byte s -> Forall (Forall is_byte) (paste_lines s).
Proof.
  intros Hs. apply Forall_forall. intros l Hin. unfold paste_lines in Hin. apply list_elem_of_filter in Hin as [_ Hin].
  apply list_elem_of_fmap in Hin as (l' & -> & Hin). apply split_on_bytes in Hs. rewrite Forall_forall in Hs.
  unfold chomp. destruct (decide _); [apply Forall_take|]; by apply Hs.
Qed.

Lemma crlf_line cur a rest : 13 ∉ a -> crlf_lines cur (a ++ 13 :: 10 :: rest) =
  ls ← crlf_lines [] rest; Some ((cur ++ a) :: ls).
Proof.
  revert cur. induction a as [|c a IH]; intros cur Ha; [by rewrite app_nil_r|].
  apply not_elem_of_cons in Ha as [Hc Ha]. cbn [app crlf_lines].
  destruct (Z.eqb_spec c 13); [congruence|]. rewrite IH by done. by rewrite <- app_assoc.
Qed.

Lemma uri_list_lines paths : Forall (Forall is_byte) paths ->
  read_uri_list (FormatTextUriList paths) = Some paths.
Proof.
  intros Hp. unfold read_uri_list, FormatTextUriList.
  assert (Hfold : forall acc, foldl (fun out p => out ++ MakeFileUri p ++ [13; 10]) acc paths =
            acc ++ concat (map (fun p => MakeFileUri p ++ [13; 10]) paths)).
  { clear Hp. induction paths as [|p paths IH]; intros acc; cbn [foldl map concat]; [by rewrite app_nil_r|].
    rewrite IH. by rewrite <- !app_assoc. }
  rewrite Hfold. cbn [app].
  assert (Hlines : crlf_lines [] (concat (map (fun p => MakeFileUri p ++ [13; 10]) paths)) =
            Some (map MakeFileUri paths)).
  { clear Hfold. induction Hp as [|p paths Hp _ IH]; [done|]. cbn [map concat]. rewrite <- app_assoc.
    change ([13; 10] ++ ?r) with (13 :: 10 :: r). rewrite crlf_line, IH by (apply uri_plain; [by right|done]). done. }
  rewrite Hlines. cbn. by apply read_uris.
Qed.

Lemma gnome_lines paths : Forall (Forall is_byte) paths -> read_gnome (FormatGnomeCopiedFiles paths) = Some paths.
Proof.
  intros Hp. unfold FormatGnomeCopiedFiles, read_gnome.
  assert (Hfold : forall acc, foldl (fun out p => out ++ [10] ++ MakeFileUri p) acc paths =
            acc ++ concat (map (fun p => 10 :: MakeFileUri p) paths)).
  { clear Hp. induction paths as [|p paths IH]; intros acc; cbn [foldl map concat]; [by rewrite app_nil_r|].
    rewrite IH. by rewrite <- !app_assoc. }
  rewrite Hfold.
  assert (Hsplit : forall a, 10 ∉ a -> split_on 10 (a ++ concat (map (fun p => 10 :: MakeFileUri p) paths)) =
            a :: map MakeFileUri paths).
  { clear Hfold. induction Hp as [|p paths Hp _ IH]; intros a Ha; cbn [map concat].
    - rewrite app_nil_r. by apply split_on_plain.
    - cbn [app]. rewrite split_on_sep by done. by rewrite IH by (apply uri_plain; [by left|done]). }
  rewrite Hsplit by (intros Hin; change (10 ∈ [99; 111; 112; 121]) in Hin; set_solver).
  change (str "copy") with [99; 111; 112; 121]. cbn. by apply read_uris.
Qed.

(** ** Properties *)

(** A path that is a line of its own in a newline-joined payload. *)
Definition carried (p : list Z) : Prop := p <> [] /\ 10 ∉ p /\ last p <> Some 13.

Lemma paste_lines_join paths : Forall carried paths -> paste_lines (join_paths paths) = paths.
Proof.
  intros Hp. unfold paste_lines. destruct (decide (paths = [])) as [->|Hne]; [done|].
  rewrite split_join; [|eapply Forall_impl; [exact Hp|by intros ? (_ & ? & _)]|done].
  clear Hne. induction Hp as [|p paths (Hne & _ & Hcr) _ IH]; [done|]. cbn [map].
  unfold chomp at 1. rewrite decide_False, filter_cons_True by done. by rewrite IH.
Qed.

(** C36: What a files paste gives for a payload of any bytes: the splitting
    loop ends, and a strict reader of either MIME type (a line per file, ended
    by CRLF in [text/uri-list], after a line [copy] in the GNOME one; the
    scheme [file://]; percent escapes) accepts the output and gets exactly the
    non-empty lines of the payload, each without the carriage return it may
    end in, in order.  So it gets back the paths the peer joined with newlines,
    whatever else they contain, if none is empty, contains a newline or ends
    in a carriage return. *)
Theorem files_paste_roundtrip payload mime :
  Forall is_byte payload ->
  exists out, FormatForMime payload mime = Some out /\
    read_files mime out = Some (paste_lines payload) /\
    (forall paths, Forall carried paths -> payload = join_paths paths -> paste_lines payload = paths).
Proof.
  intros Hb. unfold FormatForMime. rewrite SplitPaths_spec, (map_ext _ _ strip_cr_chomp). cbn.
  fold (paste_lines payload). pose proof (paste_lines_bytes _ Hb) as Hl. eexists. split; [done|]. split.
  - unfold read_files. destruct (decide _) as [->|Hm].
    + replace (bytes_eqb _ _) with true; [by apply gnome_lines|]. symmetry. by apply bytes_eqb_eq.
    + replace (bytes_eqb _ _) with false; [by apply uri_list_lines|]. symmetry. apply not_true_is_false.
      by rewrite bytes_eqb_eq.
  - intros paths Hp ->. by apply paste_lines_join.
Qed.

Lemma files_paste_roundtrip_witness :
  exists out, FormatForMime (join_paths [str "/tmp/a b"; str "/tmp/50%"]) (str "text/uri-list") = Some out /\
    read_files (str "text/uri-list") out = Some [str "/tmp/a b"; str "/tmp/50%"].
Proof.
  destruct (files_paste_roundtrip (join_paths [str "/tmp/a b"; str "/tmp/50%"]) (str "text/uri-list"))
    as (out & H1 & H2 & _).
  - vm_compute. repeat (apply Forall_cons_2; [split; [discriminate|reflexivity]|]). apply Forall_nil_2.
  - exists out. split; [exact H1|]. refine (eq_trans H2 _). vm_compute. reflexivity.
Defined.
