(* ===== verification/ExtManager.v ===== *)
(** * ExtManager: the Wayland data-control backend

    [linux/src/clipboard_manager_ext.cpp] ([clipboard_manager_wayland.cpp] is
    the same text over the wlr protocol).  Three kinds of threads share
    [ExtState]: callers of the [ClipboardManager] methods, the Qt main thread,
    which owns the Wayland objects, and the detached workers.  The model is
    one transition system whose steps are the lock-protected regions and the
    stretches of single-thread code between them.  Wayland objects and file
    descriptors are numbers, with the sets of those that exist, so that a
    second destroy or close is visible. *)

From S2P Require Import Prelude UriList LinuxDispatch.

(** ** Reading and writing a descriptor *)

(** One round of [WriteAll]: [write] took [n] bytes, EINTR, EAGAIN with the
    result of [poll], or another error. *)
Inductive WriteAnswer :=
| WaWrote (n : Z)
| WaEintr
| WaAgain (pr : Z)
| WaError.

(** The bytes written and the result; [None] when the answers run out. *)
Fixpoint WriteAll (answers : list WriteAnswer) (data : list Z) : list Z * option bool :=
  match data with
  | [] => ([], Some true)
  | _ =>
      match answers with
      | [] => ([], None)
      | WaWrote n :: rest =>
          if (0 <? n) && (n <=? Zlen data)
          then let (w, ok) := WriteAll rest (drop (Z.to_nat n) data) in (take (Z.to_nat n) data ++ w, ok)
          else ([], Some false)
      | WaEintr :: rest => WriteAll rest data
      | WaAgain pr :: rest => if pr <=? 0 then ([], Some false) else WriteAll rest data
      | WaError :: _ => ([], Some false)
      end
  end.

(** One [read]: bytes, end of file, EINTR or another error. *)
Inductive ReadAnswer :=
| RaBytes (bs : list Z)
| RaEof
| RaEintr
| RaError.

(** [None] when the answers run out; a [read] returns no more than was asked. *)
Fixpoint DrainFd (answers : list ReadAnswer) (out : list Z) (cap : Z) : option (list Z * bool) :=
  if Zlen out >=? cap then Some (out, true)
  else match answers with
       | [] => None
       | RaBytes bs :: rest =>
           if (0 <? Zlen bs) && (Zlen bs <=? Z.min 4096 (cap - Zlen out)) then DrainFd rest (out ++ bs) cap
           else None
       | RaEof :: _ => Some (out, true)
       | RaEintr :: rest => DrainFd rest out cap
       | RaError :: _ => Some (out, false)
       end.
Definition kDrainCap : Z := 16 * 1024 * 1024.

(** ** Content kinds *)

Inductive ContentKind := KText | KImage | KFiles.
#[export] Instance ContentKind_eq_dec : EqDecision ContentKind.
Proof. solve_decision. Defined.

Definition kTextMimeTypes : list (list Z) :=
  [str "text/plain;charset=utf-8"; str "UTF8_STRING"; str "text/plain"; str "TEXT"; str "STRING"].
Definition kImageMimeTypes : list (list Z) := [str "image/png"; str "image/bmp"; str "image/x-bmp"].
Definition kFilesMimeTypes : list (list Z) := [str "text/uri-list"; str "x-special/gnome-copied-files"].
Definition mimes_of (kind : ContentKind) : list (list Z) :=
  match kind with KImage => kImageMimeTypes | KFiles => kFilesMimeTypes | KText => kTextMimeTypes end.

(** libwebp and Qt's image writer. *)
Inductive ImageFormat := FmtPng | FmtBmp.
Class ImageCodec := {
  Picture : Type;
  DecodeWebP : list Z -> option Picture;
  QImage_save : Picture -> ImageFormat -> option (list Z)
}.

Section Materialise.
Context {codec : ImageCodec}.

Definition ConvertImageForMime (webp_bytes mime : list Z) : list Z :=
  match webp_bytes with
  | [] => []
  | _ =>
      match DecodeWebP webp_bytes with
      | None => []
      | Some img =>
          let fmt := if bytes_eqb mime (str "image/png") then Some FmtPng
                     else if bytes_eqb mime (str "image/bmp") || bytes_eqb mime (str "image/x-bmp") then Some FmtBmp
                     else None in
          match fmt with
          | None => []
          | Some fmt => default [] (QImage_save img fmt)
          end
      end
  end.

(** What a paste target asking for [mime] is given of [bytes]. *)
Definition materialise (kind : ContentKind) (bytes mime : list Z) : list Z :=
  match kind with
  | KImage => ConvertImageForMime bytes (c_str mime)
  | KFiles => default [] (FormatForMime bytes (c_str mime))
  | KText => bytes
  end.
End Materialise.

(** ** State *)

Record ExtState := {
  stop : bool;
  current_hash : list Z;
  content_kind : ContentKind;
  pending_data : option (list Z);
  pending_data_hash : list Z;
  cached_clipboard_text : option (list Z);
  on_changed : bool;
  on_request : bool
}.

(** What the main thread owns; [offer_mimes_] by proxy.  [wl_live] are the
    offer proxies that exist, [wl_sources] the source proxies, [wl_offered]
    the MIME types offered on the current one, in order, [wl_selected] the
    sources passed to [set_selection], [wl_misused] is set when a proxy
    that does not exist is destroyed. *)
Record Wayland := {
  device_ : bool;
  current_source_ : option Z;
  offer_mimes_ : gmap Z (gset (list Z));
  wl_next : Z;
  wl_live : gset Z;
  wl_sources : gset Z;
  wl_offered : list (list Z);
  wl_selected : list Z;
  wl_misused : bool
}.

(** The main thread between events, about to write a paste, about to ask for
    the data and start a worker. *)
Inductive MainPc :=
| MIdle
| MWrite (fd : Z) (hash mime payload : list Z)
| MRequest (fd : Z) (hash mime : list Z).

(** [WaitAndWriteOnWorker] before and after its wait,
    [DrainAndDispatchOnWorker] before and after the drain and after the locked
    region, a worker that has returned. *)
Inductive Worker :=
| WWait (fd : Z) (hash mime : list Z)
| WWrite (fd : Z) (hash mime payload : list Z)
| WDrain (fd : Z)
| WDispatch (text : list Z)
| WCallback (text : list Z)
| WDone.

(** What leaves the helper: DATA_REQUEST, the bytes of a paste,
    CLIPBOARD_CHANGED. *)
Inductive Output :=
| OutRequest (hash : list Z)
| OutPaste (fd : Z) (hash mime bytes : list Z)
| OutChanged (text : list Z).

Record ExtManager := {
  m_state : ExtState;
  m_wl : Wayland;
  m_main : MainPc;
  m_invoking : list ContentKind;   (* callers between the lock and InvokeOnMain *)
  m_queue : list ContentKind;      (* RecreateSource calls queued on the main thread *)
  m_workers : list Worker;
  m_fds : gset Z;                  (* open descriptors *)
  m_misclosed : bool;              (* a descriptor was closed twice *)
  (* history *)
  m_outputs : list Output;
  m_accepted : list (list Z * ContentKind * list Z)   (* hash and kind in force, data taken for them *)
}.

(** [Init] has succeeded. *)
Definition init_ExtManager : ExtManager :=
  {| m_state := {| stop := false; current_hash := []; content_kind := KText; pending_data := None;
                   pending_data_hash := []; cached_clipboard_text := None; on_changed := false; on_request := false |};
     m_wl := {| device_ := true; current_source_ := None; offer_mimes_ := ∅; wl_next := 0; wl_live := ∅;
                wl_sources := ∅; wl_offered := []; wl_selected := []; wl_misused := false |};
     m_main := MIdle; m_invoking := []; m_queue := []; m_workers := []; m_fds := ∅; m_misclosed := false;
     m_outputs := []; m_accepted := [] |}.

Definition set_state (x : ExtState) (s : ExtManager) : ExtManager :=
  {| m_state := x; m_wl := m_wl s; m_main := m_main s; m_invoking := m_invoking s; m_queue := m_queue s;
     m_workers := m_workers s; m_fds := m_fds s; m_misclosed := m_misclosed s; m_outputs := m_outputs s;
     m_accepted := m_accepted s |}.
Definition set_wl (w : Wayland) (s : ExtManager) : ExtManager :=
  {| m_state := m_state s; m_wl := w; m_main := m_main s; m_invoking := m_invoking s; m_queue := m_queue s;
     m_workers := m_workers s; m_fds := m_fds s; m_misclosed := m_misclosed s; m_outputs := m_outputs s;
     m_accepted := m_accepted s |}.
Definition set_main (pc : MainPc) (s : ExtManager) : ExtManager :=
  {| m_state := m_state s; m_wl := m_wl s; m_main := pc; m_invoking := m_invoking s; m_queue := m_queue s;
     m_workers := m_workers s; m_fds := m_fds s; m_misclosed := m_misclosed s; m_outputs := m_outputs s;
     m_accepted := m_accepted s |}.
Definition set_queues (invoking queue : list ContentKind) (s : ExtManager) : ExtManager :=
  {| m_state := m_state s; m_wl := m_wl s; m_main := m_main s; m_invoking := invoking; m_queue := queue;
     m_workers := m_workers s; m_fds := m_fds s; m_misclosed := m_misclosed s; m_outputs := m_outputs s;
     m_accepted := m_accepted s |}.
Definition set_workers (ws : list Worker) (s : ExtManager) : ExtManager :=
  {| m_state := m_state s; m_wl := m_wl s; m_main := m_main s; m_invoking := m_invoking s; m_queue := m_queue s;
     m_workers := ws; m_fds := m_fds s; m_misclosed := m_misclosed s; m_outputs := m_outputs s;
     m_accepted := m_accepted s |}.
Definition output (o : Output) (s : ExtManager) : ExtManager :=
  {| m_state := m_state s; m_wl := m_wl s; m_main := m_main s; m_invoking := m_invoking s; m_queue := m_queue s;
     m_workers := m_workers s; m_fds := m_fds s; m_misclosed := m_misclosed s; m_outputs := m_outputs s ++ [o];
     m_accepted := m_accepted s |}.
Definition open_fd (fd : Z) (s : ExtManager) : ExtManager :=
  {| m_state := m_state s; m_wl := m_wl s; m_main := m_main s; m_invoking := m_invoking s; m_queue := m_queue s;
     m_workers := m_workers s; m_fds := {[fd]} ∪ m_fds s; m_misclosed := m_misclosed s; m_outputs := m_outputs s;
     m_accepted := m_accepted s |}.
Definition close_fd (fd : Z) (s : ExtManager) : ExtManager :=
  {| m_state := m_state s; m_wl := m_wl s; m_main := m_main s; m_invoking := m_invoking s; m_queue := m_queue s;
     m_workers := m_workers s; m_fds := m_fds s ∖ {[fd]};
     m_misclosed := m_misclosed s || negb (bool_decide (fd ∈ m_fds s)); m_outputs := m_outputs s;
     m_accepted := m_accepted s |}.
Definition accept (hash : list Z) (kind : ContentKind) (data : list Z) (s : ExtManager) : ExtManager :=
  {| m_state := m_state s; m_wl := m_wl s; m_main := m_main s; m_invoking := m_invoking s; m_queue := m_queue s;
     m_workers := m_workers s; m_fds := m_fds s; m_misclosed := m_misclosed s; m_outputs := m_outputs s;
     m_accepted := m_accepted s ++ [(hash, kind, data)] |}.

(** ** The ClipboardManager methods: their locked regions *)

Definition ext_set (hash : list Z) (kind : ContentKind) (data : option (list Z)) (data_hash : list Z) (x : ExtState) : ExtState :=
  {| stop := stop x; current_hash := hash; content_kind := kind; pending_data := data;
     pending_data_hash := data_hash; cached_clipboard_text := cached_clipboard_text x;
     on_changed := on_changed x; on_request := on_request x |}.
Definition set_cached (text : option (list Z)) (x : ExtState) : ExtState :=
  {| stop := stop x; current_hash := current_hash x; content_kind := content_kind x; pending_data := pending_data x;
     pending_data_hash := pending_data_hash x; cached_clipboard_text := text;
     on_changed := on_changed x; on_request := on_request x |}.
Definition set_callbacks (changed request : bool) (x : ExtState) : ExtState :=
  {| stop := stop x; current_hash := current_hash x; content_kind := content_kind x; pending_data := pending_data x;
     pending_data_hash := pending_data_hash x; cached_clipboard_text := cached_clipboard_text x;
     on_changed := changed; on_request := request |}.
Definition set_stopped (x : ExtState) : ExtState :=
  {| stop := true; current_hash := current_hash x; content_kind := content_kind x; pending_data := pending_data x;
     pending_data_hash := pending_data_hash x; cached_clipboard_text := cached_clipboard_text x;
     on_changed := on_changed x; on_request := on_request x |}.

Definition enqueue (kind : ContentKind) (s : ExtManager) : ExtManager :=
  set_queues (m_invoking s ++ [kind]) (m_queue s) s.

(** Text and images set eagerly are their own hash. *)
Definition SetClipboard (kind : ContentKind) (data : list Z) (s : ExtManager) : ExtManager :=
  enqueue kind (accept data kind data (set_state (ext_set data kind (Some data) data (m_state s)) s)).
Definition ExtSetClipboardText (utf8 : list Z) : ExtManager -> ExtManager := SetClipboard KText utf8.
Definition ExtSetClipboardImage (webp_bytes : list Z) : ExtManager -> ExtManager := SetClipboard KImage webp_bytes.

Definition AnnounceDelayed (kind : ContentKind) (content_hash : list Z) (s : ExtManager) : ExtManager :=
  enqueue kind (set_state (ext_set content_hash kind None [] (m_state s)) s).
Definition ExtAnnounceDelayedText : list Z -> ExtManager -> ExtManager := AnnounceDelayed KText.
Definition ExtAnnounceDelayedImage : list Z -> ExtManager -> ExtManager := AnnounceDelayed KImage.
Definition ExtAnnounceDelayedFiles : list Z -> ExtManager -> ExtManager := AnnounceDelayed KFiles.

Definition ExtProvideData (content_hash data : list Z) (s : ExtManager) : ExtManager :=
  let x := m_state s in
  if bytes_eqb (current_hash x) content_hash
  then accept content_hash (content_kind x) data
         (set_state (ext_set (current_hash x) (content_kind x) (Some data) content_hash x) s)
  else s.

Definition ExtGetClipboardText (s : ExtManager) : option (list Z) := cached_clipboard_text (m_state s).

(** ** The main thread *)

Definition set_offers (offers : gmap Z (gset (list Z))) (live : gset Z) (misused : bool) (w : Wayland) : Wayland :=
  {| device_ := device_ w; current_source_ := current_source_ w; offer_mimes_ := offers; wl_next := wl_next w;
     wl_live := live; wl_sources := wl_sources w; wl_offered := wl_offered w; wl_selected := wl_selected w;
     wl_misused := misused |}.
Definition set_source (source : option Z) (next : Z) (sources : gset Z) (offered : list (list Z)) (selected : list Z)
    (misused : bool) (w : Wayland) : Wayland :=
  {| device_ := device_ w; current_source_ := source; offer_mimes_ := offer_mimes_ w; wl_next := next;
     wl_live := wl_live w; wl_sources := sources; wl_offered := offered; wl_selected := selected;
     wl_misused := misused |}.

(** [ext_data_control_offer_v1_destroy] on each of [offers]. *)
Definition destroy_offers (offers : gset Z) (w : Wayland) : Wayland :=
  set_offers (offer_mimes_ w) (wl_live w ∖ offers) (wl_misused w || negb (bool_decide (offers ⊆ wl_live w))) w.

Definition destroy_source (w : Wayland) : Wayland :=
  match current_source_ w with
  | None => w
  | Some src => set_source None (wl_next w) (wl_sources w ∖ {[src]}) [] (wl_selected w)
                  (wl_misused w || negb (bool_decide (src ∈ wl_sources w))) w
  end.

(** The MIME types are offered in order before [set_selection]; [created]:
    [create_data_source] returned a proxy. *)
Definition RecreateSource (kind : ContentKind) (created : bool) (w : Wayland) : Wayland :=
  if negb (device_ w) then w
  else let w := destroy_source w in
       if negb created then w
       else let src := wl_next w in
            set_source (Some src) (src + 1) ({[src]} ∪ wl_sources w) (mimes_of kind) (wl_selected w ++ [src]) (wl_misused w) w.

Definition DrainOtherOffers (keep : option Z) (w : Wayland) : gset (list Z) * Wayland :=
  let others := match keep with Some o => dom (offer_mimes_ w) ∖ {[o]} | None => dom (offer_mimes_ w) end in
  (match keep with Some o => default ∅ (offer_mimes_ w !! o) | None => ∅ end,
   set_offers (filter (fun e => e.1 ∉ others) (offer_mimes_ w))
     (wl_live (destroy_offers others w)) (wl_misused (destroy_offers others w)) w).

Definition OnDeviceDataOffer (o : Z) (w : Wayland) : Wayland :=
  set_offers (<[o := ∅]> (offer_mimes_ w)) ({[o]} ∪ wl_live w) (wl_misused w) w.

Definition OnOfferMime (o : Z) (mime : list Z) (w : Wayland) : Wayland :=
  match offer_mimes_ w !! o with
  | Some ms => set_offers (<[o := {[mime]} ∪ ms]> (offer_mimes_ w)) (wl_live w) (wl_misused w) w
  | None => w
  end.

(** The first MIME type of the list that is among [mimes]. *)
Definition choose_mime (mimes : gset (list Z)) : option (list Z) :=
  head (filter (fun m => m ∈ mimes) kTextMimeTypes).

(** [pipe]: the read end [pipe2] gives; its write end goes to the compositor
    and is closed at once. *)
Definition OnDeviceSelection (offer : option Z) (pipe : option Z) (s : ExtManager) : ExtManager :=
  let w := m_wl s in
  match offer with
  | None => set_wl (DrainOtherOffers None w).2 (set_state (set_cached None (m_state s)) s)
  | Some o =>
      match current_source_ w with
      | Some _ => set_wl (DrainOtherOffers None w).2 s
      | None =>
          let (mimes, w) := DrainOtherOffers (Some o) w in
          let w := set_offers (delete o (offer_mimes_ w)) (wl_live w) (wl_misused w) w in
          let w := destroy_offers {[o]} w in
          match choose_mime mimes, pipe with
          | Some _, Some fd => set_workers (m_workers s ++ [WDrain fd]) (open_fd fd (set_wl w s))
          | _, _ => set_wl w s
          end
      end
  end.

(** [S_DevicePrimarySelection] does not touch [offer_mimes_]. *)
Definition OnDevicePrimarySelection (o : Z) (w : Wayland) : Wayland := destroy_offers {[o]} w.

Definition TeardownWaylandObjects (w : Wayland) : Wayland :=
  let w := destroy_offers (dom (offer_mimes_ w)) w in
  let w := set_offers ∅ (wl_live w) (wl_misused w) w in
  let w := destroy_source w in
  {| device_ := false; current_source_ := current_source_ w; offer_mimes_ := offer_mimes_ w; wl_next := wl_next w;
     wl_live := wl_live w; wl_sources := wl_sources w; wl_offered := wl_offered w; wl_selected := wl_selected w;
     wl_misused := wl_misused w |}.

(** ** Steps *)

Inductive ExtLabel :=
| XlSetText (utf8 : list Z)
| XlSetImage (webp_bytes : list Z)
| XlAnnounce (kind : ContentKind) (content_hash : list Z)
| XlProvide (content_hash data : list Z)
| XlCallbacks (changed request : bool)
| XlInvoke
| XlMain (created : bool)
| XlSend (mime : list Z) (fd : Z)
| XlMainWrite (answers : list WriteAnswer)
| XlMainRequest
| XlCancelled
| XlOffer (o : Z)
| XlOfferMime (o : Z) (mime : list Z)
| XlSelection (offer pipe : option Z)
| XlPrimary (offer : option Z)
| XlDestroy
| XlWake (i : nat) (timed_out : bool)
| XlWrite (i : nat) (answers : list WriteAnswer)
| XlDrain (i : nat) (answers : list ReadAnswer)
| XlCache (i : nat)
| XlCallback (i : nat).

Section Steps.
Context {codec : ImageCodec}.

(** [state_->pending_data && state_->pending_data_hash == hash]. *)
Definition provided (hash : list Z) (x : ExtState) : option (list Z) :=
  match pending_data x with
  | Some data => if bytes_eqb (pending_data_hash x) hash then Some data else None
  | None => None
  end.

(** [OnSourceSend] up to the end of its first locked region. *)
Definition OnSourceSend (mime : list Z) (fd : Z) (s : ExtManager) : ExtManager :=
  let x := m_state s in
  let hash := current_hash x in
  set_main (match provided hash x with
            | Some eager => MWrite fd hash mime (materialise (content_kind x) eager mime)
            | None => MRequest fd hash mime
            end) (open_fd fd s).

Inductive WaitOutcome := Stopping | Stale | Timeout | Wrote (payload : list Z).

(** [WaitAndWriteOnWorker]'s locked region once [wait_for] returns;
    [got_signal] is the predicate's value at that point. *)
Definition wait_outcome (hash mime : list Z) (x : ExtState) : WaitOutcome :=
  let got_signal := stop x || bool_decide (is_Some (provided hash x)) in
  if stop x then Stopping
  else match (if got_signal then provided hash x else None) with
       | Some bytes => Wrote (materialise (content_kind x) bytes mime)
       | None => if got_signal then Stale else Timeout
       end.

(** [wait_for] returns when its predicate holds or the time is up. *)
Definition WaitAndWriteOnWorker (timed_out : bool) (fd : Z) (hash mime : list Z) (x : ExtState) : option Worker :=
  if stop x || bool_decide (is_Some (provided hash x)) || timed_out
  then Some (WWrite fd hash mime (match wait_outcome hash mime x with Wrote payload => payload | _ => [] end))
  else None.

Definition set_worker (i : nat) (w : Worker) (s : ExtManager) : ExtManager :=
  set_workers (<[i := w]> (m_workers s)) s.

(** Write a paste and close its descriptor. *)
Definition finish_paste (fd : Z) (hash mime payload : list Z) (answers : list WriteAnswer) (s : ExtManager)
  : option ExtManager :=
  match WriteAll answers payload with
  | (written, Some _) => Some (close_fd fd (output (OutPaste fd hash mime written) s))
  | (_, None) => None
  end.

Definition main_idle (s : ExtManager) : bool :=
  match m_main s with MIdle => negb (stop (m_state s)) | _ => false end.

Definition ext_exec (l : ExtLabel) (s : ExtManager) : option ExtManager :=
  match l with
  (* callers of the ClipboardManager methods, while the manager exists *)
  | XlSetText utf8 => if stop (m_state s) then None else Some (ExtSetClipboardText utf8 s)
  | XlSetImage webp => if stop (m_state s) then None else Some (ExtSetClipboardImage webp s)
  | XlAnnounce kind hash => if stop (m_state s) then None else Some (AnnounceDelayed kind hash s)
  | XlProvide hash data => if stop (m_state s) then None else Some (ExtProvideData hash data s)
  | XlCallbacks changed request =>
      if stop (m_state s) then None else Some (set_state (set_callbacks changed request (m_state s)) s)
  | XlInvoke =>
      match m_invoking s with
      | kind :: rest => Some (set_queues rest (m_queue s ++ [kind]) s)
      | [] => None
      end
  (* the main thread *)
  | XlMain created =>
      match m_queue s with
      | kind :: rest =>
          if main_idle s then Some (set_wl (RecreateSource kind created (m_wl s)) (set_queues (m_invoking s) rest s))
          else None
      | [] => None
      end
  | XlSend mime fd =>
      if main_idle s && negb (bool_decide (fd ∈ m_fds s)) then Some (OnSourceSend mime fd s) else None
  | XlMainWrite answers =>
      match m_main s with
      | MWrite fd hash mime payload => option_map (set_main MIdle) (finish_paste fd hash mime payload answers s)
      | _ => None
      end
  | XlMainRequest =>
      match m_main s with
      | MRequest fd hash mime =>
          let s := if on_request (m_state s) then output (OutRequest hash) s else s in
          Some (set_main MIdle (set_workers (m_workers s ++ [WWait fd hash mime]) s))
      | _ => None
      end
  | XlCancelled => if main_idle s then Some (set_wl (destroy_source (m_wl s)) s) else None
  | XlOffer o =>
      if main_idle s && negb (bool_decide (o ∈ wl_live (m_wl s))) then Some (set_wl (OnDeviceDataOffer o (m_wl s)) s)
      else None
  | XlOfferMime o mime => if main_idle s then Some (set_wl (OnOfferMime o mime (m_wl s)) s) else None
  | XlSelection offer pipe =>
      if main_idle s && (match offer with Some o => bool_decide (o ∈ wl_live (m_wl s)) | None => true end)
         && (match pipe with Some fd => negb (bool_decide (fd ∈ m_fds s)) | None => true end)
      then Some (OnDeviceSelection offer pipe s) else None
  | XlPrimary offer =>
      match offer with
      | None => Some s
      | Some o => if main_idle s && bool_decide (o ∈ wl_live (m_wl s))
                  then Some (set_wl (OnDevicePrimarySelection o (m_wl s)) s) else None
      end
  | XlDestroy =>
      if main_idle s then Some (set_wl (TeardownWaylandObjects (m_wl s)) (set_state (set_stopped (m_state s)) s))
      else None
  (* the workers *)
  | XlWake i timed_out =>
      match m_workers s !! i with
      | Some (WWait fd hash mime) =>
          option_map (fun w => set_worker i w s) (WaitAndWriteOnWorker timed_out fd hash mime (m_state s))
      | _ => None
      end
  | XlWrite i answers =>
      match m_workers s !! i with
      | Some (WWrite fd hash mime payload) => option_map (set_worker i WDone) (finish_paste fd hash mime payload answers s)
      | _ => None
      end
  | XlDrain i answers =>
      match m_workers s !! i with
      | Some (WDrain fd) =>
          match DrainFd answers [] kDrainCap with
          | Some (buf, ok) =>
              Some (set_worker i (if negb ok || stop (m_state s) then WDone else WDispatch buf) (close_fd fd s))
          | None => None
          end
      | _ => None
      end
  | XlCache i =>
      match m_workers s !! i with
      | Some (WDispatch text) =>
          Some (set_worker i (if on_changed (m_state s) then WCallback text else WDone)
                  (set_state (set_cached (Some text) (m_state s)) s))
      | _ => None
      end
  | XlCallback i =>
      match m_workers s !! i with
      | Some (WCallback text) => Some (set_worker i WDone (output (OutChanged text) s))
      | _ => None
      end
  end.

Definition run_ext : list ExtLabel -> ExtManager -> option ExtManager := run_exec ext_exec.
End Steps.

(** ** Writing and draining *)

Lemma WriteAll_prefix answers data :
  (WriteAll answers data).1 `prefix_of` data /\
  ((WriteAll answers data).2 = Some true -> (WriteAll answers data).1 = data).
Proof.
  revert data. induction answers as [|a answers IH]; intros data; destruct data as [|c data].
  1,3: by split. 1: split; [apply prefix_nil|done].
  destruct a as [n| |pr|]; cbn -[Z.to_nat take drop Zlen].
  - destruct ((0 <? n) && (n <=? Zlen (c :: data))) eqn:E; [|split; [apply prefix_nil|done]].
    specialize (IH (drop (Z.to_nat n) (c :: data))).
    destruct (WriteAll answers (drop (Z.to_nat n) (c :: data))) as [w ok]. cbn [fst snd] in *.
    destruct IH as [Hpre Hok]. split.
    + rewrite <- (take_drop (Z.to_nat n) (c :: data)) at 2. by apply prefix_app.
    + intros Ht. rewrite Hok by done. apply take_drop.
  - apply IH.
  - destruct (pr <=? 0); [split; [apply prefix_nil|done]|apply IH].
  - split; [apply prefix_nil|done].
Qed.

(** Success means the end of the stream or exactly [cap] bytes. *)
Definition stream_of (answers : list ReadAnswer) : list Z :=
  concat (map (fun a => match a with RaBytes bs => bs | _ => [] end) answers).
Lemma DrainFd_spec answers out cap buf ok :
  DrainFd answers out cap = Some (buf, ok) -> Zlen out <= cap ->
  Zlen buf <= cap /\ exists rest, out ++ stream_of answers = buf ++ rest.
Proof.
  revert out. induction answers as [|a answers IH]; intros out H Hcap; cbn in H.
  - destruct (Zlen out >=? cap); [|done]. simplify_eq. split; [done|]. by exists [].
  - destruct (Zlen out >=? cap) eqn:E; [simplify_eq; split; [done|]; by exists (stream_of (a :: answers))|].
    rewrite Z.geb_leb in E. zbool.
    destruct a as [bs| | |]; [|simplify_eq; split; [done|]; by exists (stream_of answers)| |
      simplify_eq; split; [done|]; by exists (stream_of answers)].
    + destruct ((0 <? Zlen bs) && (Zlen bs <=? Z.min 4096 (cap - Zlen out))) eqn:E2; [|done]. zbool.
      destruct (IH _ H) as (Hb & rest & Hr); [rewrite Zlen_app; lia|]. split; [done|]. exists rest.
      rewrite <- Hr. unfold stream_of. cbn [map concat]. by rewrite app_assoc.
    + destruct (IH _ H Hcap) as (Hb & rest & Hr). split; [done|]. by exists rest.
Qed.

(** ** Invariants *)

Section Invariants.
Context {codec : ImageCodec}.

(** A representation of data accepted for [hash] under the kind announced with
    it. *)
Definition justified (s : ExtManager) (hash mime payload : list Z) : Prop :=
  exists kind data, (hash, kind, data) ∈ m_accepted s /\ payload = materialise kind data mime.

Definition payload_ok (s : ExtManager) (hash mime payload : list Z) : Prop := payload = [] \/ justified s hash mime payload.

Definition worker_ok (s : ExtManager) (w : Worker) : Prop :=
  match w with WWrite _ hash mime payload => payload_ok s hash mime payload | _ => True end.
Definition output_ok (s : ExtManager) (o : Output) : Prop :=
  match o with
  | OutPaste _ hash mime bytes => exists payload, payload_ok s hash mime payload /\ bytes `prefix_of` payload
  | _ => True
  end.
Definition main_ok (s : ExtManager) (pc : MainPc) : Prop :=
  match pc with MWrite _ hash mime payload => payload_ok s hash mime payload | _ => True end.
Definition pending_ok (s : ExtManager) (x : ExtState) : Prop :=
  match pending_data x with
  | Some data => pending_data_hash x = current_hash x /\ (current_hash x, content_kind x, data) ∈ m_accepted s
  | None => True
  end.

Record paste_inv (s : ExtManager) : Prop := {
  pi_pending : pending_ok s (m_state s);
  pi_main : main_ok s (m_main s);
  pi_workers : Forall (worker_ok s) (m_workers s);
  pi_outputs : Forall (output_ok s) (m_outputs s)
}.

(** The invariant speaks of the accepted data only, which grows. *)
Lemma payload_ok_mono s s' hash mime payload :
  m_accepted s ⊆ m_accepted s' -> payload_ok s hash mime payload -> payload_ok s' hash mime payload.
Proof. intros Hsub [->|(kind & data & Hin & ->)]; [by left|]. right. exists kind, data. auto. Qed.

Lemma paste_inv_mono s s' :
  m_accepted s ⊆ m_accepted s' -> paste_inv s -> m_main s' = m_main s -> m_workers s' = m_workers s ->
  m_outputs s' = m_outputs s -> pending_ok s' (m_state s') -> paste_inv s'.
Proof.
  intros Hsub [_ Hm Hw Ho] Em Ew Eo Hp. split; [done| | |].
  - rewrite Em. destruct (m_main s); simpl in *; eauto using payload_ok_mono.
  - rewrite Ew. eapply Forall_impl; [exact Hw|]. intros [] H; simpl in *; eauto using payload_ok_mono.
  - rewrite Eo. eapply Forall_impl; [exact Ho|]. intros [] H; simpl in *; [done| |done].
    destruct H as (payload & Hp' & Hpre). eauto using payload_ok_mono.
Qed.

(** What is pending for [hash] is data accepted for it. *)
Lemma provided_ok s hash mime bytes :
  pending_ok s (m_state s) -> provided hash (m_state s) = Some bytes ->
  payload_ok s hash mime (materialise (content_kind (m_state s)) bytes mime).
Proof.
  unfold pending_ok, provided. destruct (pending_data (m_state s)) as [data|]; [|done].
  intros [Hh Hin]. destruct (bytes_eqb (pending_data_hash (m_state s)) hash) eqn:E; [|done].
  apply bytes_eqb_eq in E. intros [= ->]. right. exists (content_kind (m_state s)), bytes. split; [|done]. congruence.
Qed.

Lemma wait_outcome_ok s hash mime payload :
  pending_ok s (m_state s) -> wait_outcome hash mime (m_state s) = Wrote payload -> payload_ok s hash mime payload.
Proof.
  unfold wait_outcome. intros Hp H. destruct (stop (m_state s)); [done|].
  destruct (provided hash (m_state s)) as [bytes|] eqn:E; cbn in H; [|done].
  injection H as <-. by apply provided_ok.
Qed.

Lemma finish_paste_ok fd hash mime payload answers s s' :
  paste_inv s -> payload_ok s hash mime payload -> finish_paste fd hash mime payload answers s = Some s' -> paste_inv s'.
Proof.
  intros [Hp Hm Hw Ho] Hpay H. unfold finish_paste in H. pose proof (WriteAll_prefix answers payload) as [Hpre _].
  destruct (WriteAll answers payload) as [written [ok|]]; [|done]. injection H as <-.
  split; cbn; try done. apply Forall_app. split; [done|]. apply Forall_cons_2; [|by apply Forall_nil_2].
  simpl. eauto.
Qed.

Lemma set_worker_ok i w s : paste_inv s -> worker_ok s w -> paste_inv (set_worker i w s).
Proof. intros [Hp Hm Hw Ho] Hok. split; cbn; try done. by apply Forall_insert. Qed.
Lemma add_worker_ok w s : paste_inv s -> worker_ok s w -> paste_inv (set_workers (m_workers s ++ [w]) s).
Proof. intros [Hp Hm Hw Ho] Hok. split; cbn; try done. apply Forall_app. split; [done|]. by apply Forall_singleton. Qed.
Lemma set_main_ok pc s : paste_inv s -> main_ok s pc -> paste_inv (set_main pc s).
Proof. intros [Hp Hm Hw Ho] Hok. by split. Qed.
Lemma output_plain_ok o s : paste_inv s -> output_ok s o -> paste_inv (output o s).
Proof. intros [Hp Hm Hw Ho] Hok. split; cbn; try done. apply Forall_app. split; [done|]. by apply Forall_singleton. Qed.
Lemma set_state_ok x s : paste_inv s -> pending_ok s x -> paste_inv (set_state x s).
Proof. intros [Hp Hm Hw Ho] Hok. by split. Qed.
Lemma set_wl_ok w s : paste_inv s -> paste_inv (set_wl w s).
Proof. intros []. by split. Qed.
Lemma set_queues_ok a b s : paste_inv s -> paste_inv (set_queues a b s).
Proof. intros []. by split. Qed.
Lemma open_fd_ok fd s : paste_inv s -> paste_inv (open_fd fd s).
Proof. intros []. by split. Qed.
Lemma close_fd_ok fd s : paste_inv s -> paste_inv (close_fd fd s).
Proof. intros []. by split. Qed.

Lemma SetClipboard_ok kind data s : paste_inv s -> paste_inv (SetClipboard kind data s).
Proof.
  intros Hi. eapply (paste_inv_mono s); try done; cbn; [set_solver|].
  split; [done|]. apply elem_of_app. right. by left.
Qed.
Lemma AnnounceDelayed_ok kind hash s : paste_inv s -> paste_inv (AnnounceDelayed kind hash s).
Proof. intros Hi. by eapply (paste_inv_mono s). Qed.
Lemma ExtProvideData_ok hash data s : paste_inv s -> paste_inv (ExtProvideData hash data s).
Proof.
  intros Hi. unfold ExtProvideData. destruct (bytes_eqb (current_hash (m_state s)) hash) eqn:E; [|done].
  apply bytes_eqb_eq in E. eapply (paste_inv_mono s); try done; cbn; [set_solver|].
  split; [done|]. rewrite E. apply elem_of_app. right. by left.
Qed.

Lemma OnDeviceSelection_ok offer pipe s : paste_inv s -> paste_inv (OnDeviceSelection offer pipe s).
Proof.
  intros Hi. unfold OnDeviceSelection. destruct offer as [o|].
  - destruct (current_source_ (m_wl s)); [by apply set_wl_ok|].
    destruct (DrainOtherOffers (Some o) (m_wl s)) as [mimes w].
    destruct (choose_mime mimes), pipe; try by apply set_wl_ok.
    apply (add_worker_ok (WDrain _) (open_fd _ (set_wl _ s))); [|done]. by apply open_fd_ok, set_wl_ok.
  - apply set_wl_ok, set_state_ok; [done|]. apply (pi_pending _ Hi).
Qed.

Lemma paste_inv_step l s s' : ext_exec l s = Some s' -> paste_inv s -> paste_inv s'.
Proof.
  intros H Hi. destruct l; cbn [ext_exec] in H; repeat case_match; try discriminate H; try (apply (inj Some) in H; subst s');
    eauto using SetClipboard_ok, AnnounceDelayed_ok, ExtProvideData_ok, OnDeviceSelection_ok, set_wl_ok, set_queues_ok.
  - apply set_state_ok; [done|]. apply (pi_pending _ Hi).
  - (* XlSend *) apply set_main_ok; [by apply open_fd_ok|]. destruct (provided _ _) eqn:E; [|done].
    apply (provided_ok s); [apply (pi_pending _ Hi)|done].
  - (* XlMainWrite *) destruct (finish_paste _ _ _ _ _ s) as [s1|] eqn:E; [|discriminate H]. apply (inj Some) in H. subst s'.
    apply set_main_ok; [|done]. eapply finish_paste_ok; [done| |done].
    pose proof (pi_main _ Hi) as Hm. match goal with E : m_main s = _ |- _ => by rewrite E in Hm end.
  - apply set_main_ok; [|done]. apply (add_worker_ok (WWait _ _ _) (output _ s)); [|done]. by apply output_plain_ok.
  - apply set_main_ok; [|done]. by apply add_worker_ok.
  - apply set_wl_ok, set_state_ok; [done|]. apply (pi_pending _ Hi).
  - (* XlWake *) destruct (WaitAndWriteOnWorker _ _ _ _ _) as [wk|] eqn:E; [|discriminate H]. apply (inj Some) in H. subst s'.
    apply set_worker_ok; [done|]. unfold WaitAndWriteOnWorker in E. destruct (_ || timed_out); [|discriminate E].
    injection E as <-. cbn. destruct (wait_outcome hash mime (m_state s)) eqn:Eo; try by left.
    eapply wait_outcome_ok; [apply (pi_pending _ Hi)|done].
  - (* XlWrite *) destruct (finish_paste _ _ _ _ _ s) as [s1|] eqn:E; [|discriminate H]. apply (inj Some) in H. subst s'.
    apply set_worker_ok; [|done]. eapply finish_paste_ok; [done| |done].
    pose proof (pi_workers _ Hi) as Hw. rewrite Forall_lookup in Hw.
    match goal with E : m_workers s !! i = _ |- _ => by apply (Hw _ _ E) end.
  - apply set_worker_ok; [|done]. by apply close_fd_ok.
  - apply set_worker_ok; [|done]. by apply close_fd_ok.
  - apply set_worker_ok; [|done]. apply set_state_ok; [done|]. apply (pi_pending _ Hi).
  - apply set_worker_ok; [|done]. apply set_state_ok; [done|]. apply (pi_pending _ Hi).
  - apply set_worker_ok; [|done]. by apply output_plain_ok.
Qed.
End Invariants.

(** ** Descriptors *)

Definition worker_fds (w : Worker) : list Z :=
  match w with WWait fd _ _ => [fd] | WWrite fd _ _ _ => [fd] | WDrain fd => [fd] | _ => [] end.
Definition main_fds (pc : MainPc) : list Z :=
  match pc with MIdle => [] | MWrite fd _ _ _ => [fd] | MRequest fd _ _ => [fd] end.

(** The descriptors some thread will close. *)
Definition owned (s : ExtManager) : list Z := main_fds (m_main s) ++ concat (map worker_fds (m_workers s)).

Definition fds_ok (own : list Z) (fds : gset Z) (bad : bool) : Prop :=
  NoDup own /\ (forall fd, fd ∈ fds <-> fd ∈ own) /\ bad = false.

Lemma fds_ok_perm own own' fds bad : own ≡ₚ own' -> fds_ok own fds bad -> fds_ok own' fds bad.
Proof. intros Hp (Hn & Hf & Hb). split_and!; [by rewrite <- Hp|intros fd; by rewrite Hf, Hp|done]. Qed.
Lemma fds_ok_open fd own own' fds bad :
  own' ≡ₚ fd :: own -> fd ∉ fds -> fds_ok own fds bad -> fds_ok own' ({[fd]} ∪ fds) bad.
Proof.
  intros Hp Hfd (Hn & Hf & Hb). split_and!; [|intros x|done].
  - rewrite Hp. apply NoDup_cons. split; [by rewrite <- Hf|done].
  - rewrite Hp. rewrite elem_of_union, elem_of_singleton, elem_of_cons, Hf. done.
Qed.
Lemma fds_ok_close fd own own' fds bad :
  own ≡ₚ fd :: own' -> fds_ok own fds bad ->
  fds_ok own' (fds ∖ {[fd]}) (bad || negb (bool_decide (fd ∈ fds))).
Proof.
  intros Hp (Hn & Hf & ->). rewrite Hp in Hn. apply NoDup_cons in Hn as [Hnin Hn].
  split_and!; [done|intros x|].
  - rewrite elem_of_difference, elem_of_singleton, Hf, Hp, elem_of_cons. split; [tauto|].
    intros Hx. split; [by right|]. by intros ->.
  - simpl. rewrite bool_decide_eq_true_2; [done|]. rewrite Hf, Hp. by left.
Qed.

Section Descriptors.
Context {codec : ImageCodec}.

Definition fd_inv (s : ExtManager) : Prop := fds_ok (owned s) (m_fds s) (m_misclosed s).

(** A step that touches neither threads nor descriptors. *)
Lemma fd_inv_same s s' :
  m_main s' = m_main s -> m_workers s' = m_workers s -> m_fds s' = m_fds s -> m_misclosed s' = m_misclosed s ->
  fd_inv s -> fd_inv s'.
Proof. unfold fd_inv, owned. by intros -> -> -> ->. Qed.

Lemma fd_inv_set_worker i w w' s :
  m_workers s !! i = Some w -> worker_fds w' ≡ₚ worker_fds w -> fd_inv s -> fd_inv (set_worker i w' s).
Proof.
  intros Hi Hw. destruct (concat_map_split worker_fds _ _ _ Hi) as (rest & H1 & H2). apply fds_ok_perm.
  unfold owned. cbn. by rewrite H1, H2, Hw.
Qed.

(** A worker closes its descriptor. *)
Lemma fd_inv_worker_closes i w w' fd s s1 :
  m_workers s !! i = Some w -> worker_fds w = [fd] -> worker_fds w' = [] -> fd_inv s ->
  m_main s1 = m_main s -> m_workers s1 = m_workers s -> m_fds s1 = m_fds s -> m_misclosed s1 = m_misclosed s ->
  fd_inv (set_worker i w' (close_fd fd s1)).
Proof.
  intros Hi Hw Hw' Hinv E1 E2 E3 E4. unfold fd_inv, owned. cbn. rewrite E1, E2, E3, E4.
  destruct (concat_map_split worker_fds _ _ _ Hi) as (rest & H1 & H2).
  eapply fds_ok_close; [|exact Hinv]. unfold owned. rewrite H1, H2, Hw, Hw'. cbn.
  by rewrite <- Permutation_middle.
Qed.

Lemma finish_paste_shape fd hash mime payload answers s s1 :
  finish_paste fd hash mime payload answers s = Some s1 ->
  exists written, s1 = close_fd fd (output (OutPaste fd hash mime written) s).
Proof.
  unfold finish_paste. destruct (WriteAll answers payload) as [written [ok|]]; [|done].
  intros H. apply (inj Some) in H. eauto.
Qed.

Lemma fd_inv_selection offer pipe s :
  m_main s = MIdle -> (forall fd, pipe = Some fd -> fd ∉ m_fds s) -> fd_inv s -> fd_inv (OnDeviceSelection offer pipe s).
Proof.
  intros Hm Hp Hi. unfold OnDeviceSelection. destruct offer as [o|]; [|by eapply fd_inv_same, Hi].
  destruct (current_source_ (m_wl s)); [by eapply fd_inv_same, Hi|].
  destruct (DrainOtherOffers (Some o) (m_wl s)) as [mimes w].
  destruct (choose_mime mimes), pipe as [fd|]; try (by eapply fd_inv_same, Hi).
  unfold fd_inv, owned. cbn. eapply fds_ok_open; [|by apply Hp|exact Hi]. unfold owned. rewrite Hm.
  rewrite map_app, concat_app. cbn. by rewrite <- Permutation_cons_append.
Qed.

Lemma main_idle_pc s : main_idle s = true -> m_main s = MIdle.
Proof. unfold main_idle. by destruct (m_main s). Qed.

Lemma fd_inv_step l s s' : ext_exec l s = Some s' -> fd_inv s -> fd_inv s'.
Proof.
  intros H Hi. destruct l; cbn [ext_exec] in H; repeat case_match; try discriminate H;
    try (apply (inj Some) in H; subst s'); try done;
    try (by (eapply fd_inv_same; [| | | |exact Hi])).
  - (* XlProvide *) unfold ExtProvideData. destruct (bytes_eqb _ _); [by (eapply fd_inv_same; [| | | |exact Hi])|done].
  - (* XlSend *) match goal with E : (main_idle s && _)%bool = true |- _ => apply andb_prop in E as [Hm Hfd] end.
    apply negb_true_iff, bool_decide_eq_false in Hfd. apply main_idle_pc in Hm.
    unfold fd_inv, owned. cbn. eapply fds_ok_open; [|done|exact Hi].
    unfold owned. rewrite Hm. by destruct (provided _ _).
  - (* XlMainWrite *) destruct (finish_paste _ _ _ _ _ s) as [s1|] eqn:E; [|discriminate H].
    apply (inj Some) in H. subst s'. apply finish_paste_shape in E as (written & ->).
    unfold fd_inv, owned. cbn. eapply fds_ok_close; [|exact Hi]. unfold owned. by rewrite H0.
  - unfold fd_inv. eapply fds_ok_perm; [|exact Hi]. unfold owned. cbn. rewrite H0, map_app, concat_app. cbn.
    by rewrite <- Permutation_cons_append.
  - unfold fd_inv. eapply fds_ok_perm; [|exact Hi]. unfold owned. cbn. rewrite H0, map_app, concat_app. cbn.
    by rewrite <- Permutation_cons_append.
  - match goal with E : (main_idle s && _ && _)%bool = true |- _ =>
      apply andb_prop in E as [E Hfd]; apply andb_prop in E as [Hm _] end.
    apply fd_inv_selection; [by apply main_idle_pc| |done]. intros fd [= <-].
    by apply negb_true_iff, bool_decide_eq_false in Hfd.
  - match goal with E : (main_idle s && _ && _)%bool = true |- _ =>
      apply andb_prop in E as [E _]; apply andb_prop in E as [Hm _] end.
    apply fd_inv_selection; [by apply main_idle_pc|done|done].
  - (* XlWake *) destruct (WaitAndWriteOnWorker _ _ _ _ _) as [wk|] eqn:E; [|discriminate H].
    apply (inj Some) in H. subst s'. eapply fd_inv_set_worker; [done| |done].
    unfold WaitAndWriteOnWorker in E. destruct (_ || timed_out); [|discriminate E]. by injection E as <-.
  - (* XlWrite *) destruct (finish_paste _ _ _ _ _ s) as [s1|] eqn:E; [|discriminate H].
    apply (inj Some) in H. subst s'. apply finish_paste_shape in E as (written & ->).
    by eapply (fd_inv_worker_closes i _ WDone fd s (output _ s)).
  - by eapply (fd_inv_worker_closes i _ WDone fd s s).
  - by eapply (fd_inv_worker_closes i _ (WDispatch l) fd s s).
  - by eapply (fd_inv_set_worker i (WDispatch text) (WCallback text) (set_state _ s)).
  - by eapply (fd_inv_set_worker i (WDispatch text) WDone (set_state _ s)).
  - by eapply (fd_inv_set_worker i (WCallback text) WDone (output _ s)).
Qed.
End Descriptors.

(** ** Wayland objects *)

(** The compositor has not sent a primary-selection event with an offer. *)
Definition no_primary (l : ExtLabel) : bool := match l with XlPrimary (Some _) => false | _ => true end.

Record wl_inv (w : Wayland) : Prop := {
  wl_tracked : wl_live w = dom (offer_mimes_ w);
  wl_one_source : wl_sources w = match current_source_ w with Some src => {[src]} | None => ∅ end;
  wl_fresh : NoDup (wl_selected w) /\ Forall (fun src => src < wl_next w) (wl_selected w);
  wl_used_well : wl_misused w = false
}.

Lemma destroy_tracked (offers : gset Z) w :
  wl_inv w -> offers ⊆ dom (offer_mimes_ w) -> wl_misused (destroy_offers offers w) = false.
Proof. intros [Ht _ _ Hu] Hsub. cbn. rewrite Hu, Ht. by rewrite bool_decide_eq_true_2. Qed.

Lemma wl_inv_destroy_source w : wl_inv w -> wl_inv (destroy_source w).
Proof.
  intros Hi. unfold destroy_source. destruct (current_source_ w) as [src|] eqn:E; [|done].
  destruct Hi as [Ht Hs Hf Hu]. rewrite E in Hs. split; cbn; [done| |done|]; rewrite Hs; [set_solver|]. rewrite Hu, bool_decide_eq_true_2 by set_solver. done.
Qed.

Lemma wl_inv_offers w offers live bad :
  wl_inv w -> live = dom offers -> bad = false -> wl_inv (set_offers offers live bad w).
Proof. intros [Ht Hs Hf Hu] -> ->. by split. Qed.

Lemma dom_drained (m : gmap Z (gset (list Z))) (others : gset Z) :
  dom (filter (fun e => e.1 ∉ others) m) = dom m ∖ others.
Proof.
  apply set_eq. intros o. rewrite elem_of_difference, !elem_of_dom. split.
  - intros [ms H]. apply map_lookup_filter_Some in H as [H Hn]. split; [by eexists|done].
  - intros [[ms H] Hn]. exists ms. by apply map_lookup_filter_Some.
Qed.

Lemma wl_inv_drain keep w : wl_inv w -> wl_inv (DrainOtherOffers keep w).2.
Proof.
  intros Hi. unfold DrainOtherOffers. cbn [snd]. apply wl_inv_offers; [done| |].
  - rewrite dom_drained. cbn. by rewrite (wl_tracked _ Hi).
  - apply destroy_tracked; [done|]. destruct keep; set_solver.
Qed.

Lemma wl_inv_recreate kind created w : wl_inv w -> wl_inv (RecreateSource kind created w).
Proof.
  intros Hi. unfold RecreateSource. destruct (device_ w); cbn [negb]; [|done].
  apply wl_inv_destroy_source in Hi. destruct created; cbn [negb]; [|done].
  destruct Hi as [Ht Hs [Hn Hf] Hu].
  assert (Hnone : current_source_ (destroy_source w) = None).
  { unfold destroy_source. by destruct (current_source_ w) eqn:E. }
  rewrite Hnone in Hs. split; cbn; [done|rewrite Hs; set_solver| |done]. split.
  - apply NoDup_app. split_and!; [done| |apply NoDup_singleton]. intros src Hin Hin'.
    apply list_elem_of_singleton in Hin'. rewrite Forall_forall in Hf. specialize (Hf _ Hin). lia.
  - apply Forall_app. split; [|apply Forall_singleton; lia]. eapply Forall_impl; [exact Hf|]. intros src Hlt. cbn in Hlt. lia.
Qed.

Lemma wl_inv_selection offer pipe s :
  wl_inv (m_wl s) -> (forall o, offer = Some o -> o ∈ wl_live (m_wl s)) -> wl_inv (m_wl (OnDeviceSelection offer pipe s)).
Proof.
  intros Hi Hlive. unfold OnDeviceSelection. destruct offer as [o|]; [|by apply wl_inv_drain].
  destruct (current_source_ (m_wl s)); [by apply wl_inv_drain|].
  specialize (Hlive o eq_refl). pose proof (wl_inv_drain (Some o) _ Hi) as Hd.
  rewrite (wl_tracked _ Hi) in Hlive.
  destruct (DrainOtherOffers (Some o) (m_wl s)) as [mimes w] eqn:E. cbn [snd] in Hd.
  assert (Ho : o ∈ wl_live w).
  { injection E as _ <-. cbn. rewrite (wl_tracked _ Hi). set_solver. }
  assert (Hw : wl_inv (destroy_offers {[o]} (set_offers (delete o (offer_mimes_ w)) (wl_live w) (wl_misused w) w))).
  { apply (wl_inv_offers w (delete o (offer_mimes_ w)) (wl_live w ∖ {[o]})
      (wl_misused w || negb (bool_decide ({[o]} ⊆ wl_live w)))); [done| |].
    - by rewrite dom_delete_L, (wl_tracked _ Hd).
    - rewrite (wl_used_well _ Hd), bool_decide_eq_true_2; [done|set_solver]. }
  by destruct (choose_mime mimes), pipe.
Qed.

Lemma wl_inv_teardown w : wl_inv w -> wl_inv (TeardownWaylandObjects w).
Proof.
  intros Hi. unfold TeardownWaylandObjects.
  assert (H1 : wl_inv (set_offers ∅ (wl_live (destroy_offers (dom (offer_mimes_ w)) w))
                 (wl_misused (destroy_offers (dom (offer_mimes_ w)) w)) w)).
  { apply wl_inv_offers; [done| |by apply destroy_tracked]. cbn. rewrite (wl_tracked _ Hi), dom_empty_L. set_solver. }
  apply wl_inv_destroy_source in H1. destruct H1 as [Ht Hs Hf Hu]. split; cbn in *; done.
Qed.

Section Objects.
Context {codec : ImageCodec}.

Lemma wl_inv_step l s s' :
  no_primary l = true -> ext_exec l s = Some s' -> wl_inv (m_wl s) -> wl_inv (m_wl s').
Proof.
  intros Hp H Hi. destruct l; cbn [ext_exec no_primary] in H, Hp; repeat case_match; try discriminate H;
    try discriminate Hp; try (apply (inj Some) in H; subst s'); try done;
    try (by apply wl_inv_recreate); try (by apply wl_inv_destroy_source); try (by apply wl_inv_teardown).
  - unfold ExtProvideData. by destruct (bytes_eqb _ _).
  - destruct (finish_paste _ _ _ _ _ s) as [s1|] eqn:E; [|discriminate H].
    apply (inj Some) in H. subst s'. by apply finish_paste_shape in E as (written & ->).
  - (* XlOffer *) cbn. apply wl_inv_offers; [done| |by destruct Hi]. by rewrite dom_insert_L, (wl_tracked _ Hi).
  - (* XlOfferMime *) cbn. unfold OnOfferMime. destruct (offer_mimes_ (m_wl s) !! o) eqn:E; [|done].
    apply wl_inv_offers; [done| |by destruct Hi]. rewrite dom_insert_L, (wl_tracked _ Hi).
    apply elem_of_dom_2 in E. set_solver.
  - apply wl_inv_selection; [done|]. intros o [= <-].
    match goal with E : (main_idle s && _ && _)%bool = true |- _ => apply andb_prop in E as [E _]; apply andb_prop in E as [_ E];
      by apply bool_decide_eq_true in E end.
  - apply wl_inv_selection; [done|]. intros o [= <-].
    match goal with E : (main_idle s && _ && _)%bool = true |- _ => apply andb_prop in E as [E _]; apply andb_prop in E as [_ E];
      by apply bool_decide_eq_true in E end.
  - by apply wl_inv_selection.
  - by apply wl_inv_selection.
  - destruct (WaitAndWriteOnWorker _ _ _ _ _) as [wk|]; [|discriminate H]. by apply (inj Some) in H; subst s'.
  - destruct (finish_paste _ _ _ _ _ s) as [s1|] eqn:E; [|discriminate H].
    apply (inj Some) in H. subst s'. by apply finish_paste_shape in E as (written & ->).
Qed.

Lemma run_ext_invariant (I : ExtManager -> Prop) (P : ExtLabel -> bool) :
  (forall l s s', P l = true -> ext_exec l s = Some s' -> I s -> I s') ->
  forall ls s s', forallb P ls = true -> run_ext ls s = Some s' -> I s -> I s'.
Proof.
  intros Hstep ls s s' Hl. apply (run_exec_invariant ext_exec I (fun l => P l = true) Hstep).
  induction ls as [|l ls IH]; [done|]. apply andb_prop in Hl as [Hl Hls]. constructor; auto.
Qed.
Lemma forallb_true (ls : list ExtLabel) : forallb (fun _ => true) ls = true.
Proof. by induction ls. Qed.

Lemma paste_inv_reachable ls s : run_ext ls init_ExtManager = Some s -> paste_inv s.
Proof.
  intros H. eapply (run_ext_invariant paste_inv (fun _ => true)); [|apply forallb_true|exact H|].
  - intros l s0 s1 _. apply paste_inv_step.
  - split; cbn; try done; by apply Forall_nil_2.
Qed.
Lemma fd_inv_reachable ls s : run_ext ls init_ExtManager = Some s -> fd_inv s.
Proof.
  intros H. eapply (run_ext_invariant fd_inv (fun _ => true)); [|apply forallb_true|exact H|].
  - intros l s0 s1 _. apply fd_inv_step.
  - split_and!; cbn; [by apply NoDup_nil_2|set_solver|done].
Qed.
Lemma wl_inv_reachable ls s :
  forallb no_primary ls = true -> run_ext ls init_ExtManager = Some s -> wl_inv (m_wl s).
Proof.
  intros Hl H. eapply (run_ext_invariant (fun s => wl_inv (m_wl s)) no_primary); [|exact Hl|exact H|].
  - intros l s0 s1. apply wl_inv_step.
  - split; cbn; try done; by (split; [apply NoDup_nil_2|apply Forall_nil_2]).
Qed.

(** *** The announcements, the data and the requests of a run *)

(** The hash and kind a call puts in force; texts and images set eagerly are
    their own hash. *)
Definition puts_in_force (l : ExtLabel) : option (list Z * ContentKind) :=
  match l with
  | XlSetText utf8 => Some (utf8, KText)
  | XlSetImage webp => Some (webp, KImage)
  | XlAnnounce kind hash => Some (hash, kind)
  | _ => None
  end.
Definition in_force (ls : list ExtLabel) : list Z * ContentKind := default ([], KText) (last (omap puts_in_force ls)).

(** [data] came for [hash] while [hash] was in force, announced as [kind]. *)
Definition offered (ls : list ExtLabel) (hash : list Z) (kind : ContentKind) (data : list Z) : Prop :=
  (exists before after, ls = before ++ XlProvide hash data :: after /\ in_force before = (hash, kind)) \/
  (hash = data /\ ((kind = KText /\ XlSetText data ∈ ls) \/ (kind = KImage /\ XlSetImage data ∈ ls))).

(** The compositor asked for [mime] on [fd] while [hash] was in force. *)
Definition requested (ls : list ExtLabel) (p : Z * list Z * list Z) : Prop :=
  let '(fd, hash, mime) := p in
  exists before after, ls = before ++ XlSend mime fd :: after /\ (in_force before).1 = hash.

Lemma in_force_snoc ls l : in_force (ls ++ [l]) = default (in_force ls) (puts_in_force l).
Proof.
  unfold in_force. rewrite omap_app. cbn. destruct (puts_in_force l) as [p|]; cbn; [by rewrite last_snoc|by rewrite app_nil_r].
Qed.
Lemma offered_snoc ls l hash kind data : offered ls hash kind data -> offered (ls ++ [l]) hash kind data.
Proof.
  intros [(before & after & -> & Hf)|(-> & H)]; [left|right].
  - exists before, (after ++ [l]). split; [by rewrite <- app_assoc|done].
  - rewrite !elem_of_app. naive_solver.
Qed.
Lemma requested_snoc ls l p : requested ls p -> requested (ls ++ [l]) p.
Proof.
  destruct p as [[fd hash] mime]. intros (before & after & -> & Hf). exists before, (after ++ [l]).
  split; [by rewrite <- app_assoc|done].
Qed.

(** The pastes under way and done. *)
Definition main_pastes (pc : MainPc) : list (Z * list Z * list Z) :=
  match pc with MIdle => [] | MWrite fd hash mime _ | MRequest fd hash mime => [(fd, hash, mime)] end.
Definition worker_pastes (w : Worker) : list (Z * list Z * list Z) :=
  match w with WWait fd hash mime | WWrite fd hash mime _ => [(fd, hash, mime)] | _ => [] end.
Definition output_pastes (o : Output) : list (Z * list Z * list Z) :=
  match o with OutPaste fd hash mime _ => [(fd, hash, mime)] | _ => [] end.
Definition pastes (s : ExtManager) : list (Z * list Z * list Z) :=
  main_pastes (m_main s) ++ (m_workers s ≫= worker_pastes) ++ (m_outputs s ≫= output_pastes).

(** Data a step may take for the announcement in force. *)
Definition takes (l : ExtLabel) (x : ExtState) (a : list Z * ContentKind * list Z) : Prop :=
  let '(hash, kind, data) := a in
  (l = XlProvide hash data /\ hash = current_hash x /\ kind = content_kind x) \/
  (hash = data /\ ((kind = KText /\ l = XlSetText data) \/ (kind = KImage /\ l = XlSetImage data))).

Record step_history (l : ExtLabel) (s s' : ExtManager) : Prop := {
  sh_force : (current_hash (m_state s'), content_kind (m_state s')) =
             default (current_hash (m_state s), content_kind (m_state s)) (puts_in_force l);
  sh_accepted : forall a, a ∈ m_accepted s' -> a ∈ m_accepted s \/ takes l (m_state s) a;
  sh_pastes : forall p, p ∈ pastes s' -> p ∈ pastes s \/
                exists mime fd, l = XlSend mime fd /\ p = (fd, current_hash (m_state s), mime)
}.

Lemma worker_pastes_insert ws i w w' p :
  ws !! i = Some w -> (forall q, q ∈ worker_pastes w' -> q ∈ worker_pastes w) ->
  p ∈ (<[i := w']> ws) ≫= worker_pastes -> p ∈ ws ≫= worker_pastes.
Proof.
  intros Hi Hw. rewrite !list_elem_of_bind. intros (x & Hp & Hx). apply list_elem_of_lookup in Hx as [j Hj].
  destruct (decide (i = j)) as [<-|Hne].
  - rewrite list_lookup_insert_eq in Hj by (by eapply lookup_lt_Some). injection Hj as <-.
    exists w. split; [by apply Hw|by eapply list_elem_of_lookup_2].
  - rewrite list_lookup_insert_ne in Hj by done. exists x. split; [done|by eapply list_elem_of_lookup_2].
Qed.

Lemma history_same l s s' :
  puts_in_force l = None -> (current_hash (m_state s'), content_kind (m_state s')) = (current_hash (m_state s), content_kind (m_state s)) ->
  m_accepted s' = m_accepted s -> (forall p, p ∈ pastes s' -> p ∈ pastes s) -> step_history l s s'.
Proof. intros Hl Hx Ha Hp. split; [by rewrite Hl|rewrite Ha; auto|auto]. Qed.

(** A worker goes on, with the pastes it had. *)
Lemma history_worker l i w w' s s1 :
  puts_in_force l = None -> m_workers s !! i = Some w -> (forall q, q ∈ worker_pastes w' -> q ∈ worker_pastes w) ->
  (current_hash (m_state s1), content_kind (m_state s1)) = (current_hash (m_state s), content_kind (m_state s)) ->
  m_accepted s1 = m_accepted s -> m_main s1 = m_main s -> m_workers s1 = m_workers s ->
  (forall p, p ∈ m_outputs s1 ≫= output_pastes -> p ∈ m_outputs s ≫= output_pastes \/ p ∈ worker_pastes w) ->
  step_history l s (set_worker i w' s1).
Proof.
  intros Hl Hi Hw Hx Ha Hm Hws Ho. apply history_same; [done|done|done|]. intros p. unfold pastes. cbn.
  rewrite Hm, Hws, !elem_of_app. intros [Hp|[Hp|Hp]]; [auto|right; left; by eapply worker_pastes_insert|].
  destruct (Ho _ Hp); [auto|]. right. left. apply list_elem_of_bind. exists w. split; [done|by eapply list_elem_of_lookup_2].
Qed.

Lemma history_selection l offer pipe s : puts_in_force l = None -> step_history l s (OnDeviceSelection offer pipe s).
Proof.
  intros Hl. unfold OnDeviceSelection. destruct offer as [o|]; [|by apply history_same].
  destruct (current_source_ (m_wl s)); [by apply history_same|]. destruct (DrainOtherOffers _ _) as [mimes w].
  destruct (choose_mime mimes), pipe; try by apply history_same. apply history_same; [done|done|done|]. intros p. unfold pastes. cbn.
  rewrite bind_app. cbn. by rewrite app_nil_r.
Qed.

Lemma ext_exec_history l s s' : ext_exec l s = Some s' -> step_history l s s'.
Proof.
  intros H. destruct l; cbn [ext_exec] in H; repeat case_match; try discriminate H; try (apply (inj Some) in H; subst s');
    try (by apply history_same); try (by apply history_selection).
  - (* XlSetText *) split; cbn; [done| |by left]. intros a [?| ->%list_elem_of_singleton]%elem_of_app; [by left|right].
    right. eauto.
  - (* XlSetImage *) split; cbn; [done| |by left]. intros a [?| ->%list_elem_of_singleton]%elem_of_app; [by left|right].
    right. eauto.
  - (* XlAnnounce *) split; cbn; [done|by left|by left].
  - (* XlProvide *) unfold ExtProvideData. destruct (bytes_eqb (current_hash (m_state s)) content_hash) eqn:E; [|by apply history_same].
    apply bytes_eqb_eq in E. split; cbn; [done| |by left].
    intros a [?| ->%list_elem_of_singleton]%elem_of_app; [by left|right]. left. by rewrite E.
  - (* XlSend *) match goal with E : (main_idle s && _)%bool = true |- _ => apply andb_prop in E as [Hm _] end.
    apply main_idle_pc in Hm. split; cbn; [done|by left|]. intros p. unfold pastes. cbn. rewrite Hm, !elem_of_app.
    intros [Hp|Hp]; [|by left; right]. right. exists mime, fd. split; [done|].
    destruct (provided _ _); by apply list_elem_of_singleton in Hp.
  - (* XlMainWrite *) destruct (finish_paste _ _ _ _ _ s) as [s1|] eqn:E; [|discriminate H]. apply (inj Some) in H. subst s'.
    apply finish_paste_shape in E as (written & ->). apply history_same; [done|done|done|]. intros p. unfold pastes. cbn.
    match goal with E : m_main s = _ |- _ => rewrite E end. rewrite bind_app, !elem_of_app. cbn. set_solver.
  - (* XlMainRequest *) apply history_same; [done|done|done|]. intros p. unfold pastes. cbn.
    match goal with E : m_main s = _ |- _ => rewrite E end. rewrite !bind_app, !elem_of_app. cbn. set_solver.
  - apply history_same; [done|done|done|]. intros p. unfold pastes. cbn.
    match goal with E : m_main s = _ |- _ => rewrite E end. rewrite !bind_app, !elem_of_app. cbn. set_solver.
  - (* XlWake *) destruct (WaitAndWriteOnWorker _ _ _ _ _) as [wk|] eqn:E; [|discriminate H]. apply (inj Some) in H. subst s'.
    unfold WaitAndWriteOnWorker in E. destruct (_ || timed_out); [|discriminate E]. injection E as <-.
    eapply history_worker; try done. by left.
  - (* XlWrite *) destruct (finish_paste _ _ _ _ _ s) as [s1|] eqn:E; [|discriminate H]. apply (inj Some) in H. subst s'.
    apply finish_paste_shape in E as (written & ->). eapply history_worker; try done; cbn; [intros q Hq; by apply elem_of_nil in Hq|].
    intros p. rewrite bind_app, elem_of_app. cbn. intros [?|?]; [by left|by right].
  - eapply history_worker; try done. by left.
  - eapply history_worker; try done. by left.
  - eapply history_worker; try done. by left.
  - eapply history_worker; try done. by left.
  - eapply history_worker; try done. intros p. cbn. rewrite bind_app, elem_of_app. cbn. intros [?|?]; [by left|]. set_solver.
Qed.

Record history_ok (ls : list ExtLabel) (s : ExtManager) : Prop := {
  ho_force : in_force ls = (current_hash (m_state s), content_kind (m_state s));
  ho_accepted : forall hash kind data, (hash, kind, data) ∈ m_accepted s -> offered ls hash kind data;
  ho_pastes : forall p, p ∈ pastes s -> requested ls p
}.

Lemma takes_offered ls l s hash kind data :
  in_force ls = (current_hash (m_state s), content_kind (m_state s)) -> takes l (m_state s) (hash, kind, data) ->
  offered (ls ++ [l]) hash kind data.
Proof.
  intros Hf [(-> & -> & ->)|(-> & H)]; [left; by exists ls, []|right]. split; [done|].
  destruct H as [[-> ->]|[-> ->]]; [left|right]; (split; [done|]); apply elem_of_app; right; apply list_elem_of_here.
Qed.

Lemma history_reachable ls s : run_ext ls init_ExtManager = Some s -> history_ok ls s.
Proof.
  revert s. induction ls as [|l ls IH] using rev_ind; intros s H.
  - cbn in H. apply (inj Some) in H. subst s. split; [done| |]; [intros ? ? ? Hin|intros ? Hin]; by apply elem_of_nil in Hin.
  - unfold run_ext in *. rewrite run_exec_app in H. destruct (run_exec ext_exec ls init_ExtManager) as [s1|] eqn:E; [|done].
    cbn in H. destruct (ext_exec l s1) as [s2|] eqn:E2; [|done]. cbn in H. apply (inj Some) in H. subst s2.
    destruct (IH _ eq_refl) as [Hf Ha Hp]. destruct (ext_exec_history _ _ _ E2) as [Hf' Ha' Hp'].
    split.
    + by rewrite in_force_snoc, Hf', Hf.
    + intros hash kind data Hin. destruct (Ha' _ Hin) as [Hin'|Ht]; [by apply offered_snoc, Ha|by eapply takes_offered].
    + intros p Hin. destruct (Hp' _ Hin) as [Hin'|(mime & fd & -> & ->)]; [by apply requested_snoc, Hp|].
      exists ls, []. split; [done|]. by rewrite Hf.
Qed.

(** PROVIDE_DATA for the announced hash, the wake-up and the write. *)
Lemma provide_releases s i fd hash mime data answers :
  stop (m_state s) = false -> m_workers s !! i = Some (WWait fd hash mime) -> current_hash (m_state s) = hash ->
  let payload := materialise (content_kind (m_state s)) data mime in
  WriteAll answers payload = (payload, Some true) ->
  exists s', run_ext [XlProvide hash data; XlWake i false; XlWrite i answers] s = Some s' /\
    m_outputs s' = m_outputs s ++ [OutPaste fd hash mime payload] /\
    fd ∉ m_fds s' /\ m_workers s' !! i = Some WDone.
Proof.
  intros Hstop Hi <- payload Hw. pose proof (lookup_lt_Some _ _ _ Hi) as Hlt.
  cbn [run_ext run_exec ext_exec]. rewrite Hstop. unfold ExtProvideData. rewrite bytes_eqb_refl.
  cbn [set_state accept m_workers]. rewrite Hi.
  unfold WaitAndWriteOnWorker, wait_outcome, provided. cbn. rewrite Hstop, bytes_eqb_refl. cbn.
  rewrite list_lookup_insert_eq by done. fold payload. unfold finish_paste. rewrite Hw. cbn.
  eexists. split; [reflexivity|]. cbn. split_and!; [done|set_solver|].
  rewrite list_lookup_insert_eq; [done|]. by rewrite length_insert.
Qed.

(** ** Properties *)

(** C4: No stale paste.  In every interleaving of the callers, the compositor's
    events and the workers, a paste that received bytes was asked for while
    some hash was in force, the last that a call before had announced or set;
    and the bytes are a prefix of one representation, for the MIME type asked,
    of data that a PROVIDE_DATA brought for this very hash while it was in
    force, under the kind announced with it, or that was set eagerly and is its
    own hash.  Data provided for another hash than the one in force is never
    written.  (The other case is an empty paste.) *)
Theorem ext_no_stale_paste ls s fd hash mime bytes :
  run_ext ls init_ExtManager = Some s -> OutPaste fd hash mime bytes ∈ m_outputs s ->
  (exists before after, ls = before ++ XlSend mime fd :: after /\ (in_force before).1 = hash) /\
  (bytes = [] \/
   exists kind data, bytes `prefix_of` materialise kind data mime /\
     ((exists before after, ls = before ++ XlProvide hash data :: after /\ in_force before = (hash, kind)) \/
      (hash = data /\ ((kind = KText /\ XlSetText data ∈ ls) \/ (kind = KImage /\ XlSetImage data ∈ ls))))).
Proof.
  intros H Hin. pose proof (pi_outputs _ (paste_inv_reachable _ _ H)) as Ho. rewrite Forall_forall in Ho.
  destruct (history_reachable _ _ H) as [_ Hacc Hp]. split.
  - apply (Hp (fd, hash, mime)). unfold pastes. rewrite !elem_of_app. right. right. apply list_elem_of_bind.
    eexists. split; [|exact Hin]. apply list_elem_of_here.
  - destruct (Ho _ Hin) as (payload & [->|(kind & data & Ha & ->)] & Hpre).
    + left. by apply prefix_nil_inv.
    + right. exists kind, data. split; [done|]. by apply Hacc.
Qed.

(** A waiting paste is released.  When a PROVIDE_DATA for the announced hash
    arrives, every worker waiting for that hash is woken without a time-out
    and holds exactly the representation of that data for its MIME type; if
    the pipe takes all of it, the paste target gets exactly those bytes, its
    descriptor is closed and the worker is gone. *)
Theorem ext_provide_releases_paste ls s i fd hash mime data answers :
  run_ext ls init_ExtManager = Some s -> stop (m_state s) = false ->
  m_workers s !! i = Some (WWait fd hash mime) -> current_hash (m_state s) = hash ->
  let payload := materialise (content_kind (m_state s)) data mime in
  WriteAll answers payload = (payload, Some true) ->
  exists s', run_ext [XlProvide hash data; XlWake i false; XlWrite i answers] s = Some s' /\
    m_outputs s' = m_outputs s ++ [OutPaste fd hash mime payload] /\
    fd ∉ m_fds s' /\ m_workers s' !! i = Some WDone.
Proof. intros _. apply provide_releases. Qed.

(** C26: resources.  In every interleaving each descriptor that is open is owned
    by exactly one thread that will close it, none is closed twice, and when
    no thread owns one none is open; and as long as the compositor sends no
    primary-selection offer, the offer proxies that exist are exactly those
    tracked in [offer_mimes_], at most one source proxy exists and it is
    [current_source_], every source is selected at most once (the protocol's
    rule), and no proxy is destroyed twice. *)
Theorem ext_resources_balanced ls s :
  run_ext ls init_ExtManager = Some s ->
  NoDup (owned s) /\ (forall fd, fd ∈ m_fds s <-> fd ∈ owned s) /\ m_misclosed s = false /\
  (forallb no_primary ls = true ->
   wl_live (m_wl s) = dom (offer_mimes_ (m_wl s)) /\
   wl_sources (m_wl s) = match current_source_ (m_wl s) with Some src => {[src]} | None => ∅ end /\
   NoDup (wl_selected (m_wl s)) /\ wl_misused (m_wl s) = false).
Proof.
  intros H. destruct (fd_inv_reachable _ _ H) as (Hn & Hf & Hb). split_and!; [done|done|done|].
  intros Hl. destruct (wl_inv_reachable _ _ Hl H) as [Ht Hs [Hsel _] Hu]. by split_and!.
Qed.

(** A primary selection breaks this: the offer it names is destroyed but
    stays in [offer_mimes_], so the next clipboard event destroys it a second
    time, from every state in which the main thread handles events. *)
Theorem ext_primary_selection_double_destroy s o :
  main_idle s = true -> o ∉ wl_live (m_wl s) ->
  exists s', run_ext [XlOffer o; XlPrimary (Some o); XlSelection None None] s = Some s' /\ wl_misused (m_wl s') = true.
Proof.
  intros Hm Ho. cbn [run_ext run_exec ext_exec]. rewrite Hm, bool_decide_eq_false_2 by done. cbn [negb andb].
  change (main_idle (set_wl (OnDeviceDataOffer o (m_wl s)) s)) with (main_idle s). rewrite Hm.
  cbn [m_wl set_wl]. rewrite (bool_decide_eq_true_2 (o ∈ wl_live (OnDeviceDataOffer o (m_wl s)))) by (cbn; set_solver).
  cbn [andb].
  set (s2 := set_wl (OnDevicePrimarySelection o (OnDeviceDataOffer o (m_wl s)))
               (set_wl (OnDeviceDataOffer o (m_wl s)) s)).
  change (main_idle s2) with (main_idle s). rewrite Hm. cbn [andb]. eexists. split; [reflexivity|].
  cbn. rewrite orb_true_iff. right. apply negb_true_iff, bool_decide_eq_false_2.
  rewrite dom_insert_L. intros Hsub. specialize (Hsub o). set_solver.
Qed.

(** A superseded paste is not released early: the Stale outcome does not
    exist, and a worker waiting for a hash that is no longer announced stays
    asleep through every notification and returns only at the ten-second
    time-out (or when the helper stops), with an empty paste. *)
Theorem ext_superseded_paste_waits ls s i fd hash mime :
  run_ext ls init_ExtManager = Some s -> stop (m_state s) = false ->
  m_workers s !! i = Some (WWait fd hash mime) -> current_hash (m_state s) <> hash ->
  (forall x, wait_outcome hash mime x <> Stale) /\
  ext_exec (XlWake i false) s = None /\
  ext_exec (XlWake i true) s = Some (set_worker i (WWrite fd hash mime []) s).
Proof.
  intros H Hstop Hi Hne. pose proof (pi_pending _ (paste_inv_reachable _ _ H)) as Hp.
  assert (Hnone : provided hash (m_state s) = None).
  { unfold provided. unfold pending_ok in Hp. destruct (pending_data (m_state s)); [|done]. destruct Hp as [-> _].
    by rewrite (proj2 (bytes_eqb_neq _ _)). }
  split; [|split].
  - intros x. unfold wait_outcome. destruct (stop x); [done|]. by destruct (provided hash x).
  - cbn. rewrite Hi. cbn. unfold WaitAndWriteOnWorker. by rewrite Hstop, Hnone.
  - cbn. rewrite Hi. cbn. unfold WaitAndWriteOnWorker, wait_outcome. by rewrite Hstop, Hnone.
Qed.
End Objects.

(** ** The backend the dispatcher drives

    The methods as the dispatcher's interface sees them: its callbacks send the
    outputs of the model. *)
#[export] Instance ext_manager : ClipboardManager ExtManager := {
  SetClipboardText := ExtSetClipboardText;
  SetClipboardImage := ExtSetClipboardImage;
  AnnounceDelayedText := ExtAnnounceDelayedText;
  AnnounceDelayedImage := ExtAnnounceDelayedImage;
  AnnounceDelayedFiles := ExtAnnounceDelayedFiles;
  ManagerProvideData := ExtProvideData;
  GetClipboardText := ExtGetClipboardText;
  SetOnClipboardChanged := fun cb s =>
    set_state (set_callbacks (bool_decide (is_Some cb)) (on_request (m_state s)) (m_state s)) s;
  SetOnDataRequest := fun cb s =>
    set_state (set_callbacks (on_changed (m_state s)) (bool_decide (is_Some cb)) (m_state s)) s
}.

(** *** Witnesses *)

(** A codec that decodes nothing. *)
Definition no_codec : ImageCodec := {| Picture := unit; DecodeWebP := fun _ => None; QImage_save := fun _ _ => None |}.

(** A text announcement, a paste of it, and the state in which its worker
    waits; then the paste served, and the announcement replaced instead. *)
Definition announced_run : list ExtLabel :=
  [XlCallbacks true true; XlAnnounce KText (str "h1"); XlInvoke; XlMain true; XlSend (str "TEXT") 5; XlMainRequest].
Definition reached (ls : list ExtLabel) (s : ExtManager) : ExtManager := default s (@run_ext no_codec ls s).
Definition waiting_ext : ExtManager := Eval vm_compute in reached announced_run init_ExtManager.
Definition served_run : list ExtLabel := announced_run ++ [XlProvide (str "h1") [1; 2]; XlWake 0 false; XlWrite 0 [WaEintr; WaWrote 2]].
Definition served_ext : ExtManager := Eval vm_compute in reached served_run init_ExtManager.
Definition superseded_run : list ExtLabel := announced_run ++ [XlAnnounce KText (str "h2"); XlProvide (str "h1") [9]].
Definition superseded_ext : ExtManager := Eval vm_compute in reached superseded_run init_ExtManager.

Lemma ext_no_stale_paste_witness :
  @run_ext no_codec served_run init_ExtManager = Some served_ext /\
  OutPaste 5 (str "h1") (str "TEXT") [1; 2] ∈ m_outputs served_ext /\
  (exists before after, served_run = before ++ XlSend (str "TEXT") 5 :: after /\ (in_force before).1 = str "h1").
Proof.
  assert (H : @run_ext no_codec served_run init_ExtManager = Some served_ext) by (vm_compute; reflexivity).
  assert (Hin : OutPaste 5 (str "h1") (str "TEXT") [1; 2] ∈ m_outputs served_ext) by (right; left; reflexivity).
  split; [exact H|]. split; [exact Hin|]. apply (@ext_no_stale_paste no_codec _ _ _ _ _ _ H Hin).
Defined.

Lemma ext_provide_releases_paste_witness :
  exists s', @run_ext no_codec [XlProvide (str "h1") [1; 2]; XlWake 0 false; XlWrite 0 [WaWrote 2]] waiting_ext = Some s' /\
    m_outputs s' = m_outputs waiting_ext ++ [OutPaste 5 (str "h1") (str "TEXT") [1; 2]] /\
    5 ∉ m_fds s' /\ m_workers s' !! 0%nat = Some WDone.
Proof.
  apply (@ext_provide_releases_paste no_codec announced_run waiting_ext 0 5 (str "h1") (str "TEXT") [1; 2] [WaWrote 2]);
    vm_compute; reflexivity.
Defined.

Lemma ext_resources_balanced_witness :
  @run_ext no_codec announced_run init_ExtManager = Some waiting_ext /\
  NoDup (owned waiting_ext) /\ (forall fd, fd ∈ m_fds waiting_ext <-> fd ∈ owned waiting_ext) /\
  owned waiting_ext = [5].
Proof.
  assert (H : @run_ext no_codec announced_run init_ExtManager = Some waiting_ext) by (vm_compute; reflexivity).
  destruct (@ext_resources_balanced no_codec announced_run waiting_ext H) as (H1 & H2 & _).
  split; [exact H|]. split; [exact H1|]. split; [exact H2|]. reflexivity.
Defined.

Lemma ext_primary_selection_double_destroy_witness :
  exists s', @run_ext no_codec [XlOffer 1; XlPrimary (Some 1); XlSelection None None] init_ExtManager = Some s' /\
    wl_misused (m_wl s') = true.
Proof.
  apply (@ext_primary_selection_double_destroy no_codec init_ExtManager 1); [reflexivity|].
  apply not_elem_of_empty.
Defined.

Lemma ext_superseded_paste_waits_witness :
  @ext_exec no_codec (XlWake 0 false) superseded_ext = None.
Proof.
  apply (@ext_superseded_paste_waits no_codec superseded_run superseded_ext 0 5 (str "h1") (str "TEXT"));
    [vm_compute; reflexivity|reflexivity|reflexivity|discriminate].
Defined.

(** Two selections in a row, the first pipe drained last: the cached text is
    the older one. *)
Example drains_out_of_order :
  option_map (fun s => ExtGetClipboardText s)
    (@run_ext no_codec
      [XlOffer 1; XlOfferMime 1 (str "TEXT"); XlSelection (Some 1) (Some 5);
       XlOffer 2; XlOfferMime 2 (str "TEXT"); XlSelection (Some 2) (Some 6);
       XlDrain 1 [RaBytes (str "new"); RaEof]; XlCache 1; XlDrain 0 [RaBytes (str "old"); RaEof]; XlCache 0]
      init_ExtManager) = Some (Some (str "old")).
Proof. vm_compute. reflexivity. Qed.
