(* ===== verification/ExtPastes.v ===== *)
(** * ExtPastes: every paste and every selection is dealt with

    Liveness of the Wayland backend of [ExtManager]: the steps of the workers
    and of the main thread inside a paste come to an end whatever the
    announcements do meanwhile, and each paste request of the compositor is
    answered exactly once, on the descriptor that came with it. *)

From S2P Require Import Prelude UriList LinuxDispatch ExtManager.

(** ** The steps already due *)

(** The steps of the workers, their ten-second time-out included, and of the
    main thread once it has begun a paste. *)
Definition due (l : ExtLabel) : bool :=
  match l with
  | XlMainWrite _ | XlMainRequest | XlWake _ _ | XlWrite _ _ | XlDrain _ _ | XlCache _ | XlCallback _ => true
  | _ => false
  end.

Definition worker_todo (w : Worker) : nat :=
  match w with WWait _ _ _ => 2 | WWrite _ _ _ _ => 1 | WDrain _ => 3 | WDispatch _ => 2 | WCallback _ => 1 | WDone => 0 end.
Definition main_todo (pc : MainPc) : nat := match pc with MIdle => 0 | MWrite _ _ _ _ => 1 | MRequest _ _ _ => 3 end.
Definition paste_todo (s : ExtManager) : nat := main_todo (m_main s) + sum_list_with worker_todo (m_workers s).

(** ** Requests and answers *)

(** The paste requests of the compositor, and the answers written. *)
Definition paste_requests (ls : list ExtLabel) : list (Z * list Z) :=
  omap (fun l => match l with XlSend mime fd => Some (fd, mime) | _ => None end) ls.
Definition paste_answers (s : ExtManager) : list (Z * list Z) :=
  omap (fun o => match o with OutPaste fd _ mime _ => Some (fd, mime) | _ => None end) (m_outputs s).
Definition worker_paste (w : Worker) : list (Z * list Z) :=
  match w with WWait fd _ mime => [(fd, mime)] | WWrite fd _ mime _ => [(fd, mime)] | _ => [] end.
Definition main_paste (pc : MainPc) : list (Z * list Z) :=
  match pc with MIdle => [] | MWrite fd _ mime _ => [(fd, mime)] | MRequest fd _ mime => [(fd, mime)] end.
Definition pastes_under_way (s : ExtManager) : list (Z * list Z) :=
  main_paste (m_main s) ++ concat (map worker_paste (m_workers s)).

#[export] Instance Worker_eq_dec : EqDecision Worker.
Proof. solve_decision. Defined.
#[export] Instance ext_MainPc_eq_dec : EqDecision MainPc.
Proof. solve_decision. Defined.

Section Pastes.
Context {codec : ImageCodec}.

Lemma set_worker_todo i w w' s s1 :
  m_workers s !! i = Some w -> m_workers s1 = m_workers s -> m_main s1 = m_main s -> (worker_todo w' < worker_todo w)%nat ->
  (paste_todo (set_worker i w' s1) < paste_todo s)%nat.
Proof.
  intros Hi E1 E2 Hw. unfold paste_todo. cbn. rewrite E1, E2. pose proof (sum_insert worker_todo _ _ _ w' Hi). lia.
Qed.

(** Each of these steps makes progress. *)
Lemma due_step l s s' : due l = true -> ext_exec l s = Some s' -> (paste_todo s' < paste_todo s)%nat.
Proof.
  intros Hl E. destruct l; try done; cbn [ext_exec] in E.
  - destruct (m_main s) eqn:Em; try discriminate E. destruct (finish_paste _ _ _ _ _ _) as [s1|] eqn:Ef; [|done].
    apply (inj Some) in E. subst s'. apply finish_paste_shape in Ef as (w & ->). unfold paste_todo. cbn. rewrite Em. cbn. lia.
  - destruct (m_main s) eqn:Em; try discriminate E. apply (inj Some) in E. subst s'. unfold paste_todo.
    destruct (on_request (m_state s)); cbn; rewrite Em, sum_list_with_app; cbn; lia.
  - destruct (m_workers s !! i) as [[fd hash mime| | | | |]|] eqn:Ei; try discriminate E.
    unfold WaitAndWriteOnWorker in E. destruct (_ || timed_out); [|done]. apply (inj Some) in E. subst s'.
    by eapply set_worker_todo; [exact Ei|..]; cbn; try lia.
  - destruct (m_workers s !! i) as [[|fd hash mime payload| | | |]|] eqn:Ei; try discriminate E.
    destruct (finish_paste _ _ _ _ _ _) as [s1|] eqn:Ef; [|done].
    apply (inj Some) in E. subst s'. apply finish_paste_shape in Ef as (w & ->). by eapply set_worker_todo; [exact Ei|..]; cbn; try lia.
  - destruct (m_workers s !! i) as [[| |fd| | |]|] eqn:Ei; try discriminate E.
    destruct (DrainFd _ _ _) as [[buf ok]|]; [|done]. apply (inj Some) in E. subst s'.
    eapply set_worker_todo; [exact Ei|done|done|]. destruct (_ || _); cbn; lia.
  - destruct (m_workers s !! i) as [[| | |text| |]|] eqn:Ei; try discriminate E. apply (inj Some) in E. subst s'.
    eapply set_worker_todo; [exact Ei|done|done|]. destruct (on_changed _); cbn; lia.
  - destruct (m_workers s !! i) as [[| | | |text|]|] eqn:Ei; try discriminate E. apply (inj Some) in E. subst s'.
    eapply set_worker_todo; [exact Ei|done|done|]. cbn. lia.
Qed.

Lemma write_ends payload : exists w ok, WriteAll [WaError] payload = (w, Some ok).
Proof. destruct payload; eauto. Qed.

(** While anything is under way one of them can be taken. *)
Lemma due_exists s : m_main s <> MIdle \/ Exists (fun w => w <> WDone) (m_workers s) ->
  exists l, due l = true /\ is_Some (ext_exec l s).
Proof.
  intros [Hm|Hw].
  - destruct (m_main s) eqn:Em; [done| |].
    + exists (XlMainWrite [WaError]). split; [done|]. cbn. rewrite Em. unfold finish_paste.
      destruct (write_ends payload) as (w & ok & ->). by eexists.
    + exists XlMainRequest. split; [done|]. cbn. rewrite Em. by eexists.
  - apply Exists_exists in Hw as (w & Hin & Hw). apply list_elem_of_lookup in Hin as [i Hi]. destruct w; [..|done].
    + exists (XlWake i true). split; [done|]. cbn. rewrite Hi. unfold WaitAndWriteOnWorker. rewrite orb_true_r. by eexists.
    + exists (XlWrite i [WaError]). split; [done|]. cbn. rewrite Hi. unfold finish_paste.
      destruct (write_ends payload) as (w & ok & ->). by eexists.
    + exists (XlDrain i [RaEof]). split; [done|]. cbn. rewrite Hi. by eexists.
    + exists (XlCache i). split; [done|]. cbn. rewrite Hi. by eexists.
    + exists (XlCallback i). split; [done|]. cbn. rewrite Hi. by eexists.
Qed.

#[export] Instance pastes_rest : ComesToRest ext_exec.
Proof.
  refine {| rest_due := fun l _ => due l = true; rest_todo := paste_todo; rest_kept := fun _ => True;
            rest_at := fun s => m_main s = MIdle /\ Forall (fun w => w = WDone) (m_workers s) |}.
  - intros l s s' Hl E _. split; [done|]. by eapply due_step.
  - intros s _ Hn. apply due_exists. destruct (decide (m_main s = MIdle)) as [Hm|]; [right|by left].
    apply not_Forall_Exists; [solve_decision|]. by intros Hw; apply Hn.
Defined.

(** *** Every request is under way or answered *)

Lemma paste_answers_output o s : paste_answers (output o s) = paste_answers s ++ paste_answers (output o init_ExtManager).
Proof. unfold paste_answers. cbn. by rewrite omap_app. Qed.

Definition accounted (requests : list (Z * list Z)) (s : ExtManager) : Prop := requests ≡ₚ paste_answers s ++ pastes_under_way s.

Lemma accounted_same reqs s s' :
  m_main s' = m_main s -> m_workers s' = m_workers s -> m_outputs s' = m_outputs s -> accounted reqs s -> accounted reqs s'.
Proof. unfold accounted, paste_answers, pastes_under_way. by intros -> -> ->. Qed.

Lemma accounted_worker reqs i w w' s s1 :
  m_workers s !! i = Some w -> m_workers s1 = m_workers s -> m_main s1 = m_main s ->
  paste_answers s1 ++ worker_paste w' ≡ₚ paste_answers s ++ worker_paste w -> accounted reqs s -> accounted reqs (set_worker i w' s1).
Proof.
  intros Hi E1 E2 Hp Ha. unfold accounted, pastes_under_way in *. cbn. rewrite E1, E2.
  change (paste_answers (set_worker i w' s1)) with (paste_answers s1).
  destruct (concat_map_split worker_paste _ _ _ Hi) as (rest & H1 & H2). rewrite H2, Ha, H1.
  assert (Hmove : forall a b : list (Z * list Z), a ++ main_paste (m_main s) ++ b ++ rest ≡ₚ (a ++ b) ++ main_paste (m_main s) ++ rest).
  { intros a b. rewrite <- app_assoc. apply Permutation_app_head. rewrite !app_assoc. apply Permutation_app_tail, Permutation_app_comm. }
  by rewrite !Hmove, Hp.
Qed.

Lemma accounted_new_worker reqs w s : worker_paste w = [] -> accounted reqs s -> accounted reqs (set_workers (m_workers s ++ [w]) s).
Proof.
  intros Hw. unfold accounted, pastes_under_way. cbn. rewrite map_app, concat_app. cbn. by rewrite Hw, !app_nil_r.
Qed.

Lemma accounted_selection reqs offer pipe s : accounted reqs s -> accounted reqs (OnDeviceSelection offer pipe s).
Proof.
  intros Ha. unfold OnDeviceSelection. destruct offer as [o|]; [|by eapply accounted_same, Ha].
  destruct (current_source_ (m_wl s)); [by eapply accounted_same, Ha|].
  destruct (DrainOtherOffers (Some o) (m_wl s)) as [mimes w].
  destruct (choose_mime mimes), pipe as [fd|]; try (by eapply accounted_same, Ha).
  eapply accounted_same; [..|apply (accounted_new_worker reqs (WDrain fd) s); [done|exact Ha]]; done.
Qed.

Lemma accounted_step reqs l s s' :
  ext_exec l s = Some s' -> accounted reqs s -> accounted (reqs ++ paste_requests [l]) s'.
Proof.
  intros E Ha. assert (Hnil : reqs ++ [] = reqs) by apply app_nil_r.
  destruct l; cbn [ext_exec paste_requests omap list_omap] in *; rewrite ?Hnil; repeat case_match; try discriminate E;
    try (apply (inj Some) in E; subst s'); try done; try (by (eapply accounted_same; [| | |exact Ha])).
  - unfold ExtProvideData. destruct (bytes_eqb _ _); [by eapply accounted_same, Ha|done].
  - (* XlSend *) match goal with E : (main_idle s && _)%bool = true |- _ => apply andb_prop in E as [Hm _] end.
    apply main_idle_pc in Hm. unfold accounted, pastes_under_way in *. rewrite Ha, Hm. cbn.
    rewrite <- app_assoc. apply Permutation_app_head. rewrite Permutation_app_comm. by destruct (provided _ _).
  - (* XlMainWrite *) destruct (finish_paste _ _ _ _ _ s) as [s1|] eqn:Ef; [|done]. apply (inj Some) in E. subst s'.
    apply finish_paste_shape in Ef as (written & ->). unfold accounted, pastes_under_way in *. rewrite Ha. cbn.
    match goal with E : m_main s = MWrite _ _ _ _ |- _ => rewrite E end. unfold paste_answers. cbn.
    by rewrite omap_app, <- app_assoc.
  - (* XlMainRequest *) unfold accounted, pastes_under_way in *. rewrite Ha. unfold paste_answers. cbn.
    match goal with E : m_main s = MRequest _ _ _ |- _ => rewrite E end.
    rewrite omap_app, map_app, concat_app. cbn. rewrite app_nil_r. apply Permutation_app_head, Permutation_cons_append.
  - unfold accounted, pastes_under_way in *. rewrite Ha. unfold paste_answers. cbn.
    match goal with E : m_main s = MRequest _ _ _ |- _ => rewrite E end.
    rewrite map_app, concat_app. cbn. apply Permutation_app_head, Permutation_cons_append.
  - by apply accounted_selection.
  - by apply accounted_selection.
  - (* XlWake *) destruct (WaitAndWriteOnWorker _ _ _ _ _) as [wk|] eqn:Ew; [|done]. apply (inj Some) in E. subst s'.
    unfold WaitAndWriteOnWorker in Ew. destruct (_ || _); [|done]. apply (inj Some) in Ew. subst wk.
    by eapply accounted_worker.
  - (* XlWrite *) destruct (finish_paste _ _ _ _ _ s) as [s1|] eqn:Ef; [|done]. apply (inj Some) in E. subst s'.
    apply finish_paste_shape in Ef as (written & ->). eapply accounted_worker; [eassumption|done..| |exact Ha].
    unfold paste_answers. cbn. by rewrite omap_app, app_nil_r.
  - by eapply accounted_worker.
  - by eapply accounted_worker.
  - by eapply accounted_worker.
  - by eapply accounted_worker.
  - eapply accounted_worker; [eassumption|done..| |exact Ha]. unfold paste_answers. cbn. by rewrite omap_app, app_nil_r.
Qed.

Lemma accounted_run ls reqs s s' : run_ext ls s = Some s' -> accounted reqs s -> accounted (reqs ++ paste_requests ls) s'.
Proof.
  revert reqs s. induction ls as [|l ls IH]; intros reqs s E Ha; cbn [run_ext run_exec] in E.
  - apply (inj Some) in E. subst. by rewrite app_nil_r.
  - destruct (ext_exec l s) as [s1|] eqn:E1; [|done]. pose proof (IH _ _ E (accounted_step _ _ _ _ E1 Ha)) as Hr.
    rewrite <- app_assoc in Hr. change (paste_requests (l :: ls)) with (paste_requests ([l] ++ ls)).
    unfold paste_requests in *. by rewrite omap_app.
Qed.

Lemma due_requests ls : forallb due ls = true -> paste_requests ls = [].
Proof.
  induction ls as [|l ls IH]; [done|]. cbn. intros [Hl Hls]%andb_prop. unfold paste_requests in *. cbn.
  rewrite IH by done. by destruct l.
Qed.

Lemma all_done {B} (f : Worker -> list B) ws : f WDone = [] -> Forall (fun w => w = WDone) ws -> concat (map f ws) = [].
Proof. intros Hf Hw. induction Hw as [|w ws -> _ IH]; [done|]. cbn. by rewrite Hf, IH. Qed.

(** C14: Pastes end.  From every state the backend can be in, whatever was
    announced, superseded, provided or destroyed before, the steps that the
    workers and the main thread have due are at most [paste_todo] many in any
    order; and when none is left every thread is through, every descriptor is
    closed, and every paste request of the compositor since the start has been
    answered exactly once, on its own descriptor. *)
Theorem ext_pastes_end ls s ls' s' :
  run_ext ls init_ExtManager = Some s -> forallb due ls' = true -> run_ext ls' s = Some s' ->
  (length ls' <= paste_todo s)%nat /\
  ((forall l, due l = true -> ext_exec l s' = None) ->
   m_main s' = MIdle /\ Forall (fun w => w = WDone) (m_workers s') /\ m_fds s' = ∅ /\
   paste_requests ls ≡ₚ paste_answers s').
Proof.
  intros E Hl E'. destruct (comes_to_rest ext_exec ls' s s') as [Hn Hrest]; [done|by apply (due_all_static _ due)|done|].
  split; [done|]. intros [Hm Hw]%Hrest.
  assert (Hrun : run_ext (ls ++ ls') init_ExtManager = Some s') by (unfold run_ext in *; by rewrite run_exec_app, E).
  split_and!; [done|done| |].
  - destruct (fd_inv_reachable _ _ Hrun) as (_ & Hf & _). apply set_eq. intros fd. rewrite Hf. unfold owned.
    rewrite Hm, all_done by done. set_solver.
  - pose proof (accounted_run _ [] _ _ Hrun (Permutation_refl [])) as Ha.
    unfold accounted, pastes_under_way in Ha. rewrite Hm, all_done, !app_nil_r in Ha by done.
    assert (Happ : paste_requests (ls ++ ls') = paste_requests ls ++ paste_requests ls') by apply omap_app.
    by rewrite Happ, (due_requests ls' Hl), app_nil_r in Ha.
Qed.
End Pastes.

(** A paste waiting for data of a superseded announcement while a foreign
    selection is drained. *)
#[local] Existing Instance no_codec.
Definition busy_run : list ExtLabel :=
  [XlCallbacks true true; XlAnnounce KText (str "h1"); XlSend (str "TEXT") 9; XlMainRequest; XlAnnounce KText (str "h2");
   XlOffer 1; XlOfferMime 1 (str "TEXT"); XlSelection (Some 1) (Some 11); XlSend (str "STRING") 10].
Definition ending_run : list ExtLabel :=
  [XlMainRequest; XlWake 0 true; XlDrain 1 [RaBytes [65]; RaEof]; XlWrite 0 []; XlCache 1; XlCallback 1; XlWake 2 true; XlWrite 2 []].

Lemma ext_pastes_end_witness :
  exists s s', run_ext busy_run init_ExtManager = Some s /\ run_ext ending_run s = Some s' /\
    Forall (fun w => w = WDone) (m_workers s') /\ paste_answers s' = [(9, str "TEXT"); (10, str "STRING")] /\
    (length ending_run <= paste_todo s)%nat.
Proof.
  do 2 eexists. split; [vm_compute; reflexivity|]. split; [vm_compute; reflexivity|].
  split; [by repeat constructor|]. split; [reflexivity|].
  eapply (ext_pastes_end busy_run); vm_compute; reflexivity.
Defined.
