(* ===== verification/X11Manager.v ===== *)
(** * X11Manager: the X11 backend and its echo suppression

    [linux/src/clipboard_manager_x11.cpp] and [linux/src/echo_suppressor.cpp].
    The wire handler's thread calls the [ClipboardManager] methods; everything
    that touches [QClipboard] runs on the Qt main thread, where a paste blocks
    inside [retrieveData].  The model is one executable transition system; the
    main thread's call stack is a list of frames, because [retrieveData] can be
    entered from Qt's event loop (a paste) or from [text()] inside
    [OnClipboardChanged].  What Qt decides is in the labels: when [dataChanged]
    is emitted, which MIME types are asked for and in which order. *)

From S2P Require Import Prelude UriList LinuxDispatch ExtManager.

(** ** Qt values *)

(** [QString] with its UTF-8 conversions, and [QMimeData::hasText] as a function
    of what [formats()] lists. *)
Class QtText := {
  QString : Type;
  fromUtf8 : list Z -> QString;
  toUtf8 : QString -> list Z;
  formats_hasText : list (list Z) -> bool
}.

Inductive QMetaType := TyQString | TyQImage | TyOther.
#[export] Instance QMetaType_eq_dec : EqDecision QMetaType.
Proof. solve_decision. Defined.

Section Qt.
Context {codec : ImageCodec} {qt : QtText}.

Inductive QVariant :=
| VNull
| VString (s : QString)
| VBytes (bs : list Z)
| VImage (img : Picture).

(** ** DelayedClipboardMimeData: formats and materialisation *)

Definition DelayedClipboardMimeData_formats (kind_ : ContentKind) : list (list Z) :=
  match kind_ with
  | KImage => [str "image/png"; str "image/bmp"; str "image/x-bmp"; str "application/x-qt-image"]
  | KFiles => [str "text/uri-list"; str "x-special/gnome-copied-files"]
  | KText => [str "text/plain;charset=utf-8"; str "text/plain"; str "UTF8_STRING"; str "STRING"; str "TEXT"]
  end.

Definition MaterialiseText (bytes : list Z) (type : QMetaType) : QVariant :=
  if decide (type = TyQString) then VString (fromUtf8 bytes) else VBytes bytes.

(** [FormatForMime] is total; see [UriList.SplitPaths_spec]. *)
Definition FormatFilesBytesForMime (path_bytes mime : list Z) : list Z := default [] (FormatForMime path_bytes mime).
Definition MaterialiseFiles (path_bytes mimeType : list Z) : QVariant :=
  VBytes (FormatFilesBytesForMime path_bytes mimeType).

Definition MaterialiseImage (webp_bytes mimeType : list Z) (type : QMetaType) : QVariant :=
  match DecodeWebP webp_bytes with
  | None => VNull
  | Some img =>
      if bool_decide (type = TyQImage) || bytes_eqb mimeType (str "application/x-qt-image") then VImage img
      else
        let fmt := if bytes_eqb mimeType (str "image/png") then Some FmtPng
                   else if bytes_eqb mimeType (str "image/bmp") || bytes_eqb mimeType (str "image/x-bmp") then Some FmtBmp
                   else None in
        match fmt with
        | None => VNull
        | Some fmt => match QImage_save img fmt with Some out => VBytes out | None => VNull end
        end
  end.

Definition Materialise (kind_ : ContentKind) (bytes mimeType : list Z) (type : QMetaType) : QVariant :=
  match kind_ with
  | KImage => MaterialiseImage bytes mimeType type
  | KFiles => MaterialiseFiles bytes mimeType
  | KText => MaterialiseText bytes type
  end.

(** ** State *)

(** [std::function] members are present or not; a call is an output. *)
Record DelayedState := {
  ds_stop : bool;
  ds_current_hash : list Z;
  ds_content_kind : ContentKind;
  ds_pending_data : option (list Z);
  ds_pending_data_hash : list Z;
  ds_cached_clipboard_text : option (list Z);
  ds_on_changed : bool;
  ds_on_request : bool
}.

(** A [QMimeData] object has an identity; the [QPointer] is the identity it
    holds, dropped when the object is destroyed. *)
Record EchoSuppressor := {
  last_set_text_ : option (list Z);
  announced_mime_ : option Z
}.

Inductive Mime :=
| MimeText (text : QString)                          (* setText *)
| MimeImage (img : Picture)                          (* setImageData *)
| MimeDelayed (hash_ : list Z) (kind_ : ContentKind) (* DelayedClipboardMimeData *)
| MimeForeign (text : option QString).               (* another application's *)

(** Lambdas posted by [InvokeOnMain]. *)
Inductive Lambda :=
| LambdaText (text : QString) (utf8 : list Z)
| LambdaImage (img : Picture)
| LambdaAnnounce (content_hash : list Z) (kind : ContentKind).

(** The main thread's frames, the innermost first: after [setMimeData] in a
    lambda; inside [mime->text()] of a delayed object; about to call [cb_fn];
    in [WaitForBytes] before the request and in [wait_for]. *)
Inductive Frame :=
| FRecordText (utf8 : list Z)
| FRecordMime (mime : Z)
| FText (mime : Z)
| FCallback (utf8 : list Z)
| FRequest (hash_ : list Z) (kind_ : ContentKind) (mimeType : list Z) (type : QMetaType)
| FWait (hash_ : list Z) (kind_ : ContentKind) (mimeType : list Z) (type : QMetaType).

(** DATA_REQUEST, what a paste got, CLIPBOARD_CHANGED. *)
Inductive XOutput :=
| XoRequest (hash : list Z)
| XoPaste (hash : list Z) (kind : ContentKind) (mimeType : list Z) (type : QMetaType) (v : QVariant)
| XoChanged (utf8 : list Z).

Record X11ClipboardManager := {
  x_state : DelayedState;
  x_echo : EchoSuppressor;
  x_alive : bool;
  x_clipboard : option (Z * Mime);   (* QClipboard::mimeData and its identity *)
  x_next : Z;                        (* the next object's identity *)
  x_posting : list Lambda;           (* a caller is between its lock and InvokeOnMain *)
  x_queue : list Lambda;
  x_main : list Frame;
  (* history *)
  x_outputs : list XOutput;
  x_accepted : list (list Z * list Z)  (* data taken for a hash *)
}.

Definition set_ds (d : DelayedState) (s : X11ClipboardManager) : X11ClipboardManager :=
  {| x_state := d; x_echo := x_echo s; x_alive := x_alive s; x_clipboard := x_clipboard s; x_next := x_next s;
     x_posting := x_posting s; x_queue := x_queue s; x_main := x_main s; x_outputs := x_outputs s;
     x_accepted := x_accepted s |}.
Definition set_echo (e : EchoSuppressor) (s : X11ClipboardManager) : X11ClipboardManager :=
  {| x_state := x_state s; x_echo := e; x_alive := x_alive s; x_clipboard := x_clipboard s; x_next := x_next s;
     x_posting := x_posting s; x_queue := x_queue s; x_main := x_main s; x_outputs := x_outputs s;
     x_accepted := x_accepted s |}.
Definition set_clip (clip : option (Z * Mime)) (next : Z) (s : X11ClipboardManager) : X11ClipboardManager :=
  {| x_state := x_state s; x_echo := x_echo s; x_alive := x_alive s; x_clipboard := clip; x_next := next;
     x_posting := x_posting s; x_queue := x_queue s; x_main := x_main s; x_outputs := x_outputs s;
     x_accepted := x_accepted s |}.
Definition set_posted (posting queue : list Lambda) (s : X11ClipboardManager) : X11ClipboardManager :=
  {| x_state := x_state s; x_echo := x_echo s; x_alive := x_alive s; x_clipboard := x_clipboard s; x_next := x_next s;
     x_posting := posting; x_queue := queue; x_main := x_main s; x_outputs := x_outputs s;
     x_accepted := x_accepted s |}.
Definition set_frames (frames : list Frame) (s : X11ClipboardManager) : X11ClipboardManager :=
  {| x_state := x_state s; x_echo := x_echo s; x_alive := x_alive s; x_clipboard := x_clipboard s; x_next := x_next s;
     x_posting := x_posting s; x_queue := x_queue s; x_main := frames; x_outputs := x_outputs s;
     x_accepted := x_accepted s |}.
Definition x_output (o : XOutput) (s : X11ClipboardManager) : X11ClipboardManager :=
  {| x_state := x_state s; x_echo := x_echo s; x_alive := x_alive s; x_clipboard := x_clipboard s; x_next := x_next s;
     x_posting := x_posting s; x_queue := x_queue s; x_main := x_main s; x_outputs := x_outputs s ++ [o];
     x_accepted := x_accepted s |}.
Definition x_accept (hash data : list Z) (s : X11ClipboardManager) : X11ClipboardManager :=
  {| x_state := x_state s; x_echo := x_echo s; x_alive := x_alive s; x_clipboard := x_clipboard s; x_next := x_next s;
     x_posting := x_posting s; x_queue := x_queue s; x_main := x_main s; x_outputs := x_outputs s;
     x_accepted := x_accepted s ++ [(hash, data)] |}.
Definition set_dead (s : X11ClipboardManager) : X11ClipboardManager :=
  {| x_state := x_state s; x_echo := x_echo s; x_alive := false; x_clipboard := x_clipboard s; x_next := x_next s;
     x_posting := x_posting s; x_queue := x_queue s; x_main := x_main s; x_outputs := x_outputs s;
     x_accepted := x_accepted s |}.

(** [MakeX11Manager]: [Init] fails without a [QGuiApplication] or a clipboard. *)
Definition X11_Init (gui_app has_clipboard : bool) : bool := gui_app && has_clipboard.
Definition init_DelayedState : DelayedState :=
  {| ds_stop := false; ds_current_hash := []; ds_content_kind := KText; ds_pending_data := None;
     ds_pending_data_hash := []; ds_cached_clipboard_text := None; ds_on_changed := false; ds_on_request := false |}.
Definition MakeX11Manager (gui_app has_clipboard : bool) (clip : option (Z * Mime)) (next : Z)
  : option X11ClipboardManager :=
  if X11_Init gui_app has_clipboard
  then Some {| x_state := init_DelayedState; x_echo := {| last_set_text_ := None; announced_mime_ := None |};
               x_alive := true; x_clipboard := clip; x_next := next; x_posting := []; x_queue := []; x_main := [];
               x_outputs := []; x_accepted := [] |}
  else None.
(** ** EchoSuppressor *)

Definition RecordEagerSetText (utf8 : list Z) (e : EchoSuppressor) : EchoSuppressor :=
  {| last_set_text_ := Some utf8; announced_mime_ := announced_mime_ e |}.

Definition RecordAnnouncedMime (mime : Z) (e : EchoSuppressor) : EchoSuppressor :=
  {| last_set_text_ := last_set_text_ e; announced_mime_ := Some mime |}.

(** The object is destroyed: the [QPointer] to it becomes null. *)
Definition QPointer_destroyed (mime : Z) (e : EchoSuppressor) : EchoSuppressor :=
  {| last_set_text_ := last_set_text_ e;
     announced_mime_ := if bool_decide (announced_mime_ e = Some mime) then None else announced_mime_ e |}.

Definition IsAnnouncedMime (current_mime : Z) (e : EchoSuppressor) : bool :=
  bool_decide (announced_mime_ e = Some current_mime).

Definition ConsumeEagerSetTextEcho (current_text : list Z) (e : EchoSuppressor) : bool * EchoSuppressor :=
  match last_set_text_ e with
  | Some t => if bytes_eqb t current_text
              then (true, {| last_set_text_ := None; announced_mime_ := announced_mime_ e |}) else (false, e)
  | None => (false, e)
  end.

(** ** The ClipboardManager methods: their locked regions *)

Definition ds_set (hash : list Z) (kind : ContentKind) (data : option (list Z)) (data_hash : list Z) (d : DelayedState)
  : DelayedState :=
  {| ds_stop := ds_stop d; ds_current_hash := hash; ds_content_kind := kind; ds_pending_data := data;
     ds_pending_data_hash := data_hash; ds_cached_clipboard_text := ds_cached_clipboard_text d;
     ds_on_changed := ds_on_changed d; ds_on_request := ds_on_request d |}.
Definition ds_set_cached (text : list Z) (d : DelayedState) : DelayedState :=
  {| ds_stop := ds_stop d; ds_current_hash := ds_current_hash d; ds_content_kind := ds_content_kind d;
     ds_pending_data := ds_pending_data d; ds_pending_data_hash := ds_pending_data_hash d;
     ds_cached_clipboard_text := Some text; ds_on_changed := ds_on_changed d; ds_on_request := ds_on_request d |}.
Definition ds_set_callbacks (changed request : bool) (d : DelayedState) : DelayedState :=
  {| ds_stop := ds_stop d; ds_current_hash := ds_current_hash d; ds_content_kind := ds_content_kind d;
     ds_pending_data := ds_pending_data d; ds_pending_data_hash := ds_pending_data_hash d;
     ds_cached_clipboard_text := ds_cached_clipboard_text d; ds_on_changed := changed; ds_on_request := request |}.
Definition ds_set_stop (d : DelayedState) : DelayedState :=
  {| ds_stop := true; ds_current_hash := ds_current_hash d; ds_content_kind := ds_content_kind d;
     ds_pending_data := ds_pending_data d; ds_pending_data_hash := ds_pending_data_hash d;
     ds_cached_clipboard_text := ds_cached_clipboard_text d; ds_on_changed := ds_on_changed d;
     ds_on_request := ds_on_request d |}.

Definition post (l : Lambda) (s : X11ClipboardManager) : X11ClipboardManager :=
  set_posted (x_posting s ++ [l]) (x_queue s) s.

Definition X11SetClipboardText (utf8 : list Z) (s : X11ClipboardManager) : X11ClipboardManager :=
  post (LambdaText (fromUtf8 utf8) utf8) (set_ds (ds_set_cached utf8 (x_state s)) s).

(** Nothing is posted for an image libwebp refuses. *)
Definition X11SetClipboardImage (webp_bytes : list Z) (s : X11ClipboardManager) : X11ClipboardManager :=
  match DecodeWebP webp_bytes with
  | None => s
  | Some img => post (LambdaImage img) s
  end.

Definition X11AnnounceDelayed (content_hash : list Z) (kind : ContentKind) (s : X11ClipboardManager)
  : X11ClipboardManager :=
  post (LambdaAnnounce content_hash kind) (set_ds (ds_set content_hash kind None [] (x_state s)) s).
Definition X11AnnounceDelayedText (h : list Z) : X11ClipboardManager -> X11ClipboardManager := X11AnnounceDelayed h KText.
Definition X11AnnounceDelayedImage (h : list Z) : X11ClipboardManager -> X11ClipboardManager := X11AnnounceDelayed h KImage.
Definition X11AnnounceDelayedFiles (h : list Z) : X11ClipboardManager -> X11ClipboardManager := X11AnnounceDelayed h KFiles.

Definition X11ProvideData (content_hash data : list Z) (s : X11ClipboardManager) : X11ClipboardManager :=
  let d := x_state s in
  if bytes_eqb (ds_current_hash d) content_hash
  then x_accept content_hash data
         (set_ds (ds_set (ds_current_hash d) (ds_content_kind d) (Some data) content_hash d) s)
  else s.

Definition X11GetClipboardText (s : X11ClipboardManager) : option (list Z) := ds_cached_clipboard_text (x_state s).

(** ** The main thread *)

(** [setMimeData]: Qt destroys the object it replaces. *)
Definition setMimeData (m : Mime) (s : X11ClipboardManager) : X11ClipboardManager :=
  let e := match x_clipboard s with Some (old, _) => QPointer_destroyed old (x_echo s) | None => x_echo s end in
  set_clip (Some (x_next s, m)) (x_next s + 1) (set_echo e s).

(** [QClipboard::clear]. *)
Definition clear_clipboard (s : X11ClipboardManager) : X11ClipboardManager :=
  let e := match x_clipboard s with Some (old, _) => QPointer_destroyed old (x_echo s) | None => x_echo s end in
  set_clip None (x_next s) (set_echo e s).

Definition hasText (m : Mime) : bool :=
  match m with
  | MimeText _ => true
  | MimeImage _ => false
  | MimeDelayed _ kind_ => formats_hasText (DelayedClipboardMimeData_formats kind_)
  | MimeForeign t => bool_decide (is_Some t)
  end.

(** [OnClipboardChanged] once [text()] has returned. *)
Definition OnClipboardChanged_text (text : QString) (s : X11ClipboardManager) : X11ClipboardManager :=
  let utf8 := toUtf8 text in
  let (echo, e) := ConsumeEagerSetTextEcho utf8 (x_echo s) in
  let s := set_echo e s in
  if echo then s
  else let s := set_ds (ds_set_cached utf8 (x_state s)) s in
       if ds_on_changed (x_state s) then set_frames (FCallback utf8 :: x_main s) s else s.

(** [OnClipboardChanged]; [text()] of a delayed object is a call into Qt. *)
Definition OnClipboardChanged (s : X11ClipboardManager) : X11ClipboardManager :=
  match x_clipboard s with
  | None => s
  | Some (id, m) =>
      if IsAnnouncedMime id (x_echo s) then s
      else if negb (hasText m) then s
      else match m with
           | MimeText t => OnClipboardChanged_text t s
           | MimeForeign (Some t) => OnClipboardChanged_text t s
           | MimeForeign None => s
           | MimeImage _ => s
           | MimeDelayed _ _ => set_frames (FText id :: x_main s) s
           end
  end.

(** A lambda up to its [Record] call; [sync]: Qt emits [dataChanged] before
    [setMimeData] returns. *)
Definition run_lambda (l : Lambda) (sync : bool) (s : X11ClipboardManager) : X11ClipboardManager :=
  let (m, frame) := match l with
                    | LambdaText text utf8 => (MimeText text, FRecordText utf8)
                    | LambdaImage img => (MimeImage img, FRecordMime (x_next s))
                    | LambdaAnnounce hash kind => (MimeDelayed hash kind, FRecordMime (x_next s))
                    end in
  let s := set_frames (frame :: x_main s) (setMimeData m s) in
  if sync then OnClipboardChanged s else s.

(** [state_->pending_data && state_->pending_data_hash == hash_]. *)
Definition ds_provided (hash_ : list Z) (d : DelayedState) : option (list Z) :=
  match ds_pending_data d with
  | Some data => if bytes_eqb (ds_pending_data_hash d) hash_ then Some data else None
  | None => None
  end.

(** [retrieveData] returns [v] to the frame below: to the paste that asked, or
    to [text()]. *)
Definition deliver (hash_ : list Z) (kind_ : ContentKind) (mimeType : list Z) (type : QMetaType) (v : QVariant)
    (below : list Frame) (s : X11ClipboardManager) : X11ClipboardManager :=
  let s := set_frames below s in
  match below with
  | [] => x_output (XoPaste hash_ kind_ mimeType type v) s
  | _ => s
  end.

(** [retrieveData] up to the end of [WaitForBytes]' first locked region. *)
Definition retrieveData (hash_ : list Z) (kind_ : ContentKind) (mimeType : list Z) (type : QMetaType)
    (s : X11ClipboardManager) : X11ClipboardManager :=
  match ds_provided hash_ (x_state s) with
  | Some bytes => deliver hash_ kind_ mimeType type (Materialise kind_ bytes mimeType type) (x_main s) s
  | None => set_frames (FRequest hash_ kind_ mimeType type :: x_main s) s
  end.

(** [WaitForBytes] after [wait_for] has returned. *)
Definition WaitForBytes_result (hash_ : list Z) (d : DelayedState) : option (list Z) :=
  let got := ds_stop d || bool_decide (is_Some (ds_provided hash_ d)) in
  if ds_stop d || negb got then None else ds_provided hash_ d.

(** ** Steps *)

Inductive X11Label :=
| XSetText (utf8 : list Z)
| XSetImage (webp_bytes : list Z)
| XAnnounce (content_hash : list Z) (kind : ContentKind)
| XProvide (content_hash data : list Z)
| XCallbacks (changed request : bool)
| XPost
| XRun (sync : bool)
| XRecord
| XDataChanged
| XForeign (text : option QString)
| XRetrieve (mimeType : list Z) (type : QMetaType)
| XAsk
| XWake (timed_out : bool)
| XTextReturns (text : QString)
| XCallback
| XDestroy.

Definition x_idle (s : X11ClipboardManager) : bool :=
  match x_main s with [] => x_alive s | _ => false end.

Definition x11_exec (l : X11Label) (s : X11ClipboardManager) : option X11ClipboardManager :=
  match l with
  (* the wire handler's thread *)
  | XSetText utf8 => if x_alive s then Some (X11SetClipboardText utf8 s) else None
  | XSetImage webp => if x_alive s then Some (X11SetClipboardImage webp s) else None
  | XAnnounce hash kind => if x_alive s then Some (X11AnnounceDelayed hash kind s) else None
  | XProvide hash data => if x_alive s then Some (X11ProvideData hash data s) else None
  | XCallbacks changed request =>
      if x_alive s then Some (set_ds (ds_set_callbacks changed request (x_state s)) s) else None
  | XPost =>
      match x_posting s with
      | l :: rest => Some (set_posted rest (x_queue s ++ [l]) s)
      | [] => None
      end
  (* Qt's event loop *)
  | XRun sync =>
      match x_queue s with
      | l :: rest => if x_idle s then Some (run_lambda l sync (set_posted (x_posting s) rest s)) else None
      | [] => None
      end
  | XRecord =>
      match x_main s with
      | FRecordText utf8 :: below => Some (set_echo (RecordEagerSetText utf8 (x_echo s)) (set_frames below s))
      | FRecordMime mime :: below => Some (set_echo (RecordAnnouncedMime mime (x_echo s)) (set_frames below s))
      | _ => None
      end
  | XDataChanged => if x_idle s then Some (OnClipboardChanged s) else None
  | XForeign text => if x_idle s then Some (setMimeData (MimeForeign text) s) else None
  (* a paste from the event loop, or text() from OnClipboardChanged, asks the object on the clipboard *)
  | XRetrieve mimeType type =>
      match x_clipboard s, x_main s with
      | Some (id, MimeDelayed hash kind), [] =>
          if x_alive s then Some (retrieveData hash kind mimeType type s) else None
      | Some (id, MimeDelayed hash kind), FText id' :: _ =>
          if id =? id' then Some (retrieveData hash kind mimeType type s) else None
      | _, _ => None
      end
  | XAsk =>
      match x_main s with
      | FRequest hash kind mimeType type :: below =>
          let s := set_frames (FWait hash kind mimeType type :: below) s in
          Some (if ds_on_request (x_state s) then x_output (XoRequest hash) s else s)
      | _ => None
      end
  | XWake timed_out =>
      match x_main s with
      | FWait hash kind mimeType type :: below =>
          if ds_stop (x_state s) || bool_decide (is_Some (ds_provided hash (x_state s))) || timed_out
          then Some (deliver hash kind mimeType type
                 (match WaitForBytes_result hash (x_state s) with
                  | Some bytes => Materialise kind bytes mimeType type
                  | None => VNull
                  end) below s)
          else None
      | _ => None
      end
  | XTextReturns text =>
      match x_main s with
      | FText _ :: below => Some (OnClipboardChanged_text text (set_frames below s))
      | _ => None
      end
  | XCallback =>
      match x_main s with
      | FCallback utf8 :: below => Some (x_output (XoChanged utf8) (set_frames below s))
      | _ => None
      end
  (* ~X11ClipboardManager, on the main thread; lambdas anchored on the object are cancelled *)
  | XDestroy =>
      if x_idle s
      then Some (set_dead (set_posted (x_posting s) [] (clear_clipboard (set_ds (ds_set_stop (x_state s)) s))))
      else None
  end.

Definition run_x11 : list X11Label -> X11ClipboardManager -> option X11ClipboardManager := run_exec x11_exec.

(** The clipboard as the helper finds it. *)
Definition init_X11 : X11ClipboardManager :=
  {| x_state := init_DelayedState; x_echo := {| last_set_text_ := None; announced_mime_ := None |};
     x_alive := true; x_clipboard := None; x_next := 0; x_posting := []; x_queue := []; x_main := [];
     x_outputs := []; x_accepted := [] |}.

(** ** The content a paste receives *)

Definition paste_ok (acc : list (list Z * list Z)) (o : XOutput) : Prop :=
  match o with
  | XoPaste hash kind mimeType type v =>
      v = VNull \/ exists data, (hash, data) ∈ acc /\ v = Materialise kind data mimeType type
  | _ => True
  end.
Definition held_ok (acc : list (list Z * list Z)) (d : DelayedState) : Prop :=
  match ds_pending_data d with Some data => (ds_pending_data_hash d, data) ∈ acc | None => True end.

Record x_paste_inv (s : X11ClipboardManager) : Prop := {
  xp_held : held_ok (x_accepted s) (x_state s);
  xp_outputs : Forall (paste_ok (x_accepted s)) (x_outputs s)
}.

Lemma paste_ok_mono acc acc' o : acc ⊆ acc' -> paste_ok acc o -> paste_ok acc' o.
Proof. destruct o; try done. intros Hsub [->|(data & Hin & ->)]; [by left|]. right. eauto. Qed.

Lemma ds_provided_ok acc hash d data : held_ok acc d -> ds_provided hash d = Some data -> (hash, data) ∈ acc.
Proof.
  unfold held_ok, ds_provided. destruct (ds_pending_data d) as [x|]; [|done]. intros Hin.
  destruct (bytes_eqb (ds_pending_data_hash d) hash) eqn:E; [|done]. apply bytes_eqb_eq in E as <-. by intros [= <-].
Qed.

Lemma WaitForBytes_result_ok acc hash d data :
  held_ok acc d -> WaitForBytes_result hash d = Some data -> (hash, data) ∈ acc.
Proof. unfold WaitForBytes_result. destruct (ds_stop d || _); [done|]. apply ds_provided_ok. Qed.

(** A step that neither takes data nor finishes a paste. *)
Lemma x_paste_inv_same s s' :
  x_accepted s' = x_accepted s -> x_outputs s' = x_outputs s ->
  ds_pending_data (x_state s') = ds_pending_data (x_state s) ->
  ds_pending_data_hash (x_state s') = ds_pending_data_hash (x_state s) -> x_paste_inv s -> x_paste_inv s'.
Proof. intros Ea Eo Ed Eh [Hh Ho]. split; unfold held_ok in *; by rewrite ?Ea, ?Eo, ?Ed, ?Eh. Qed.

Lemma x_paste_inv_output o s : paste_ok (x_accepted s) o -> x_paste_inv s -> x_paste_inv (x_output o s).
Proof. intros H [Hh Ho]. split; [done|]. cbn. apply Forall_app. by rewrite Forall_singleton. Qed.

Lemma x_paste_inv_deliver hash kind mt ty v below s :
  v = VNull \/ (exists data, (hash, data) ∈ x_accepted s /\ v = Materialise kind data mt ty) ->
  x_paste_inv s -> x_paste_inv (deliver hash kind mt ty v below s).
Proof.
  intros Hv Hi. unfold deliver. destruct below; [apply x_paste_inv_output; [exact Hv|]|]; by apply (x_paste_inv_same s).
Qed.

Lemma OnClipboardChanged_text_same t s :
  let s' := OnClipboardChanged_text t s in
  x_accepted s' = x_accepted s /\ x_outputs s' = x_outputs s /\
  ds_pending_data (x_state s') = ds_pending_data (x_state s) /\
  ds_pending_data_hash (x_state s') = ds_pending_data_hash (x_state s).
Proof.
  unfold OnClipboardChanged_text. destruct (ConsumeEagerSetTextEcho (toUtf8 t) (x_echo s)) as [[] e]; [done|].
  cbn. by destruct (ds_on_changed (x_state s)).
Qed.

Lemma OnClipboardChanged_same s :
  let s' := OnClipboardChanged s in
  x_accepted s' = x_accepted s /\ x_outputs s' = x_outputs s /\
  ds_pending_data (x_state s') = ds_pending_data (x_state s) /\
  ds_pending_data_hash (x_state s') = ds_pending_data_hash (x_state s).
Proof.
  unfold OnClipboardChanged. destruct (x_clipboard s) as [[id m]|]; [|done].
  destruct (IsAnnouncedMime id (x_echo s)); [done|]. destruct (hasText m); cbn [negb]; [|done].
  destruct m as [t|img|h k|[t|]]; try done; apply OnClipboardChanged_text_same.
Qed.

Lemma x_paste_inv_changed s : x_paste_inv s -> x_paste_inv (OnClipboardChanged s).
Proof. destruct (OnClipboardChanged_same s) as (? & ? & ? & ?). by apply x_paste_inv_same. Qed.

Lemma x_paste_inv_text t s : x_paste_inv s -> x_paste_inv (OnClipboardChanged_text t s).
Proof. destruct (OnClipboardChanged_text_same t s) as (? & ? & ? & ?). by apply x_paste_inv_same. Qed.

Lemma x_paste_inv_lambda l sync s : x_paste_inv s -> x_paste_inv (run_lambda l sync s).
Proof.
  intros Hi. unfold run_lambda. destruct l; (destruct sync; [apply x_paste_inv_changed|]); by apply (x_paste_inv_same s).
Qed.

Lemma x_paste_inv_retrieve hash kind mt ty s : x_paste_inv s -> x_paste_inv (retrieveData hash kind mt ty s).
Proof.
  intros Hi. unfold retrieveData. destruct (ds_provided hash (x_state s)) as [data|] eqn:E; [|by apply (x_paste_inv_same s)].
  apply x_paste_inv_deliver; [|done]. right. exists data. split; [|done]. eapply ds_provided_ok; [apply Hi|done].
Qed.

Lemma x_paste_inv_announce hash kind s : x_paste_inv s -> x_paste_inv (X11AnnounceDelayed hash kind s).
Proof. intros Hi. split; [exact I|apply Hi]. Qed.
Lemma x_paste_inv_provide hash data s : x_paste_inv s -> x_paste_inv (X11ProvideData hash data s).
Proof.
  intros Hi. unfold X11ProvideData. destruct (bytes_eqb _ _); [|done]. split; cbn.
  - unfold held_ok. cbn. apply elem_of_app. right. by left.
  - eapply Forall_impl; [apply Hi|]. intros o. apply paste_ok_mono. set_solver.
Qed.

Lemma x_paste_inv_step l s s' : x11_exec l s = Some s' -> x_paste_inv s -> x_paste_inv s'.
Proof.
  intros H Hi. destruct l; cbn [x11_exec] in H; repeat case_match; try discriminate H; apply (inj Some) in H; subst s';
    try (by apply (x_paste_inv_same s));
    auto using x_paste_inv_changed, x_paste_inv_retrieve, x_paste_inv_announce, x_paste_inv_provide.
  - unfold X11SetClipboardImage. destruct (DecodeWebP webp_bytes); [|done]. by apply (x_paste_inv_same s).
  - apply x_paste_inv_lambda. by apply (x_paste_inv_same s).
  - apply x_paste_inv_output; [exact I|by apply (x_paste_inv_same s)].
  - (* XWake *) apply x_paste_inv_deliver; [|done]. right. eexists. split; [|done].
    eapply WaitForBytes_result_ok; [apply Hi|done].
  - apply x_paste_inv_deliver; [by left|done].
  - apply x_paste_inv_text. by apply (x_paste_inv_same s).
  - apply x_paste_inv_output; [exact I|by apply (x_paste_inv_same s)].
Qed.

Lemma x_paste_inv_reachable ls s : run_x11 ls init_X11 = Some s -> x_paste_inv s.
Proof.
  intros H. eapply (run_exec_invariant x11_exec x_paste_inv (fun _ => True)); [|by apply Forall_true|exact H|].
  - intros l s0 s1 _. apply x_paste_inv_step.
  - split; [exact I|apply Forall_nil_2].
Qed.

(** ** Echo suppression *)

(** What a clipboard change may report: the text of another application's
    object, or the text of an eager set. *)
Definition reported (ls : list X11Label) (utf8 : list Z) : Prop :=
  (exists t, XForeign (Some t) ∈ ls /\ utf8 = toUtf8 t) \/ (exists u, XSetText u ∈ ls /\ utf8 = toUtf8 (fromUtf8 u)).

(** What [text()] returned while the main thread was inside the [setMimeData] of
    a lambda, on the object being set. *)
Definition read_inside (ls : list X11Label) (utf8 : list Z) : Prop :=
  exists before after text id s0, ls = before ++ XTextReturns text :: after /\
    run_x11 before init_X11 = Some s0 /\ x_main s0 = [FText id; FRecordMime id] /\ utf8 = toUtf8 text.

(** Whether Qt emitted [dataChanged] inside the last [setMimeData] of a lambda. *)
Definition last_sync (ls : list X11Label) : option bool :=
  last (omap (fun l => match l with XRun sync => Some sync | _ => None end) ls).

Lemma reported_snoc ls l utf8 : reported ls utf8 -> reported (ls ++ [l]) utf8.
Proof. intros [(t & Ht & ->)|(u & Hu & ->)]; [left|right]; eexists; (split; [apply elem_of_app; by left|done]). Qed.
Lemma read_inside_snoc ls l utf8 : read_inside ls utf8 -> read_inside (ls ++ [l]) utf8.
Proof.
  intros (before & after & text & id & s0 & -> & H). exists before, (after ++ [l]), text, id, s0.
  split; [by rewrite <- app_assoc|done].
Qed.
Lemma last_sync_snoc ls l :
  last_sync (ls ++ [l]) = match l with XRun sync => Some sync | _ => last_sync ls end.
Proof. unfold last_sync. rewrite omap_app. destruct l; cbn; rewrite ?app_nil_r, ?last_snoc; done. Qed.

Definition lambda_from (ls : list X11Label) (l : Lambda) : Prop :=
  match l with LambdaText t u => XSetText u ∈ ls /\ t = fromUtf8 u | _ => True end.
Definition mime_from (ls : list X11Label) (m : Mime) : Prop :=
  match m with
  | MimeText t => exists u, XSetText u ∈ ls /\ t = fromUtf8 u
  | MimeForeign (Some t) => XForeign (Some t) ∈ ls
  | _ => True
  end.

(** The call stacks that occur: idle; in a lambda after [setMimeData]; reporting
    a change; in [text()] of the object a lambda is setting; in a retrieval,
    for a paste or for that [text()]. *)
Inductive set_stack : list Frame -> Prop :=
| ss_idle : set_stack []
| ss_record_text utf8 : set_stack [FRecordText utf8]
| ss_record_mime mime : set_stack [FRecordMime mime].
Inductive asking_stack : list Frame -> Prop :=
| as_paste : asking_stack []
| as_text id : asking_stack [FText id; FRecordMime id].
Inductive main_stack : list Frame -> Prop :=
| ms_set fs : set_stack fs -> main_stack fs
| ms_callback utf8 fs : set_stack fs -> main_stack (FCallback utf8 :: fs)
| ms_asking fs : asking_stack fs -> main_stack fs
| ms_request hash kind mt ty fs : asking_stack fs -> main_stack (FRequest hash kind mt ty :: fs)
| ms_wait hash kind mt ty fs : asking_stack fs -> main_stack (FWait hash kind mt ty :: fs).

(** The object the stack is about to record. *)
Definition recording (fs : list Frame) : option Z :=
  match last fs with Some (FRecordMime id) => Some id | _ => None end.
Lemma recording_cons f fs : set_stack fs -> (forall id, f <> FRecordMime id) -> recording (f :: fs) = recording fs.
Proof. intros Hs Hf. destruct Hs; cbn; try done. unfold recording. cbn. destruct f; try done. by destruct (Hf mime). Qed.
Lemma recording_ask f fs : asking_stack fs -> (forall id, f <> FRecordMime id) -> recording (f :: fs) = recording fs.
Proof. intros Hs Hf. destruct Hs; cbn; try done. unfold recording. cbn. destruct f; try done. by destruct (Hf mime). Qed.

Definition report_from (ls : list X11Label) (utf8 : list Z) : Prop := reported ls utf8 \/ read_inside ls utf8.
Definition frame_from (ls : list X11Label) (f : Frame) : Prop :=
  match f with FCallback utf8 => report_from ls utf8 | _ => True end.
Definition output_from (ls : list X11Label) (o : XOutput) : Prop :=
  match o with XoChanged utf8 => report_from ls utf8 | _ => True end.

(** The object on the clipboard when it is one the peer announced: recorded,
    or about to be. *)
Definition announced_ok (s : X11ClipboardManager) : Prop :=
  match x_clipboard s with
  | Some (id, m) =>
      (forall mime, recording (x_main s) = Some mime -> mime = id) /\
      match m with
      | MimeDelayed _ _ => announced_mime_ (x_echo s) = Some id \/ recording (x_main s) = Some id
      | _ => True
      end
  | None => True
  end.

Record echo_inv (ls : list X11Label) (s : X11ClipboardManager) : Prop := {
  ei_stack : main_stack (x_main s);
  ei_announced : announced_ok s;
  ei_clip : match x_clipboard s with Some (_, m) => mime_from ls m | None => True end;
  ei_lambdas : Forall (lambda_from ls) (x_posting s ++ x_queue s);
  ei_frames : Forall (frame_from ls) (x_main s);
  ei_outputs : Forall (output_from ls) (x_outputs s)
}.

Lemma mime_from_snoc ls l m : mime_from ls m -> mime_from (ls ++ [l]) m.
Proof.
  destruct m as [t| | |[t|]]; cbn; try done.
  - intros (u & Hu & ->). exists u. split; [apply elem_of_app; by left|done].
  - intros Ht. apply elem_of_app; by left.
Qed.
Lemma echo_inv_snoc ls l s : echo_inv ls s -> echo_inv (ls ++ [l]) s.
Proof.
  assert (Hr : forall u, report_from ls u -> report_from (ls ++ [l]) u).
  { intros u [?|?]; [left; by apply reported_snoc|right; by apply read_inside_snoc]. }
  intros [H1 H2 H3 H4 H5 H6]. split; try done.
  - destruct (x_clipboard s) as [[id m]|]; [|done]. by apply mime_from_snoc.
  - eapply Forall_impl; [exact H4|]. intros []; cbn; try done. intros [Hu ->]. split; [apply elem_of_app; by left|done].
  - eapply Forall_impl; [exact H5|]. intros []; cbn; auto.
  - eapply Forall_impl; [exact H6|]. intros []; cbn; auto.
Qed.

(** A step that touches neither the clipboard nor the main thread. *)
Lemma echo_inv_same ls s s' :
  x_main s' = x_main s -> x_clipboard s' = x_clipboard s -> announced_mime_ (x_echo s') = announced_mime_ (x_echo s) ->
  x_outputs s' = x_outputs s -> Forall (lambda_from ls) (x_posting s' ++ x_queue s') ->
  echo_inv ls s -> echo_inv ls s'.
Proof.
  intros Em Ec Ea Eo Hl [H1 H2 H3 H4 H5 H6].
  split; unfold announced_ok in *; rewrite ?Em, ?Ec, ?Ea, ?Eo; assumption.
Qed.

Lemma echo_inv_output ls o s : output_from ls o -> echo_inv ls s -> echo_inv ls (x_output o s).
Proof. intros Ho [H1 H2 H3 H4 H5 H6]. split; try done. cbn. apply Forall_app. by rewrite Forall_singleton. Qed.

(** Leaving or entering a call that is not a record. *)
Lemma echo_inv_frames ls frames s :
  main_stack frames -> Forall (frame_from ls) frames -> recording frames = recording (x_main s) ->
  echo_inv ls s -> echo_inv ls (set_frames frames s).
Proof. intros Hq Hf Hr [H1 H2 H3 H4 H5 H6]. split; try done. unfold announced_ok in *. cbn. by rewrite Hr. Qed.

(** The text of the object on the clipboard is examined. *)
Lemma echo_inv_text ls t s :
  set_stack (x_main s) -> report_from ls (toUtf8 t) -> echo_inv ls s -> echo_inv ls (OnClipboardChanged_text t s).
Proof.
  intros Hm Hrep Hi. unfold OnClipboardChanged_text.
  destruct (ConsumeEagerSetTextEcho (toUtf8 t) (x_echo s)) as [b e] eqn:E.
  assert (Ea : announced_mime_ e = announced_mime_ (x_echo s)).
  { unfold ConsumeEagerSetTextEcho in E. destruct (last_set_text_ (x_echo s)); [|by simplify_eq].
    destruct (bytes_eqb _ _); by simplify_eq. }
  destruct b; [by apply (echo_inv_same _ s); [..|apply Hi|]|].
  cbn. assert (H1 : echo_inv ls (set_ds (ds_set_cached (toUtf8 t) (x_state s)) (set_echo e s))).
  { by apply (echo_inv_same _ s); [..|apply Hi|]. }
  destruct (ds_on_changed (x_state s)); [|done]. apply echo_inv_frames; [by constructor| | |done].
  - apply Forall_cons. split; [exact Hrep|]. apply (ei_frames _ _ Hi).
  - cbn. by apply recording_cons.
Qed.

(** Installing a new object. *)
Lemma echo_inv_set ls m frames s :
  x_main s = [] -> mime_from ls m ->
  (frames = [] /\ (forall h k, m <> MimeDelayed h k) \/
   (exists u, frames = [FRecordText u] /\ forall h k, m <> MimeDelayed h k) \/ frames = [FRecordMime (x_next s)]) ->
  echo_inv ls s -> echo_inv ls (set_frames frames (setMimeData m s)).
Proof.
  intros Hm Hfrom Hf [H1 H2 H3 H4 H5 H6]. split; cbn; try done.
  - apply ms_set. destruct Hf as [[-> _]|[(u & -> & _)| ->]]; constructor.
  - unfold announced_ok. cbn. split.
    + destruct Hf as [[-> _]|[(u & -> & _)| ->]]; cbn; intros mime [= <-]; done.
    + destruct m; try done. destruct Hf as [[_ Hd]|[(u & _ & Hd)| ->]]; [by destruct (Hd hash_ kind_)..|]. by right.
  - destruct Hf as [[-> _]|[(u & -> & _)| ->]]; by repeat constructor.
Qed.

(** [OnClipboardChanged] calls [text()] on an announced object only while it is
    being set. *)
Lemma echo_inv_changed ls s :
  set_stack (x_main s) -> echo_inv ls s ->
  echo_inv ls (OnClipboardChanged s) /\
  (x_main (OnClipboardChanged s) = x_main s \/
   (exists u, x_main (OnClipboardChanged s) = FCallback u :: x_main s) \/
   exists id, x_main s = [FRecordMime id] /\ x_main (OnClipboardChanged s) = [FText id; FRecordMime id]).
Proof.
  intros Hm Hi. pose proof (ei_announced _ _ Hi) as Ha. pose proof (ei_clip _ _ Hi) as Hc.
  assert (Htext : forall t, report_from ls (toUtf8 t) -> echo_inv ls (OnClipboardChanged_text t s) /\
    (x_main (OnClipboardChanged_text t s) = x_main s \/
     (exists u, x_main (OnClipboardChanged_text t s) = FCallback u :: x_main s) \/
     exists id, x_main s = [FRecordMime id] /\ x_main (OnClipboardChanged_text t s) = [FText id; FRecordMime id])).
  { intros t Ht. split; [by apply echo_inv_text|]. unfold OnClipboardChanged_text.
    destruct (ConsumeEagerSetTextEcho _ _) as [[] e]; cbn; [by left|]. destruct (ds_on_changed _); cbn; eauto. }
  unfold announced_ok, OnClipboardChanged, IsAnnouncedMime in *.
  destruct (x_clipboard s) as [[id m]|]; [|by split; [|left]]. destruct Ha as [Hid Ha].
  case_bool_decide as E; [by split; [|left]|]. destruct (hasText m); cbn [negb]; [|by split; [|left]].
  destruct m as [t|img|h k|[t|]]; try (by split; [|left]).
  - apply Htext. left. right. destruct Hc as (u & Hu & ->). eauto.
  - destruct Ha as [Ha|Ha]; [done|].
    assert (Em : x_main s = [FRecordMime id]).
    { unfold recording in Ha. destruct Hm as [| |mime]; cbn in Ha; try done. by injection Ha as ->. }
    cbn. rewrite Em. split; [|right; right; by exists id]. apply echo_inv_frames; [apply ms_asking; constructor|by repeat constructor| |done].
    by rewrite Em.
  - apply Htext. left. left. eauto.
Qed.

Lemma echo_inv_retrieve ls hash kind mt ty s :
  asking_stack (x_main s) -> echo_inv ls s -> echo_inv ls (retrieveData hash kind mt ty s).
Proof.
  intros Hm Hi. pose proof (ei_frames _ _ Hi) as Hf. unfold retrieveData. destruct (ds_provided hash (x_state s)).
  - unfold deliver. destruct (x_main s) eqn:Em.
    + apply echo_inv_output; [exact I|]. apply echo_inv_frames; [by repeat constructor|done|by rewrite Em|done].
    + rewrite <- Em in *. apply echo_inv_frames; [by apply ms_asking|done|done|done].
  - apply echo_inv_frames; [by constructor|by constructor|by apply recording_ask|done].
Qed.

Lemma idle_main s : x_idle s = true -> x_main s = [].
Proof. unfold x_idle. by destruct (x_main s). Qed.

(** The lambda's own part, up to the return of [setMimeData] without a signal. *)
Lemma echo_inv_lambda ls l sync s :
  x_main s = [] -> lambda_from ls l -> echo_inv ls s -> echo_inv ls (run_lambda l sync s).
Proof.
  intros Hm Hl Hi. unfold run_lambda.
  assert (Hset : forall m frame, set_stack [frame] -> echo_inv ls (set_frames [frame] (setMimeData m s)) ->
            echo_inv ls (let s := set_frames (frame :: x_main s) (setMimeData m s) in if sync then OnClipboardChanged s else s)).
  { intros m frame Hst Hi'. cbv zeta. rewrite Hm. destruct sync; [|done]. by apply echo_inv_changed. }
  destruct l; [apply (Hset (MimeText _) (FRecordText _))|apply (Hset (MimeImage _) (FRecordMime _))|
    apply (Hset (MimeDelayed _ _) (FRecordMime _))]; 
    first [apply echo_inv_set; [done| | |done]; cbn in *; eauto 10|by constructor].
Qed.

Lemma echo_inv_post ls lam s : lambda_from ls lam -> echo_inv ls s -> echo_inv ls (post lam s).
Proof.
  intros Hlam Hi. apply (echo_inv_same _ s); try done. cbn. pose proof (ei_lambdas _ _ Hi) as Hl.
  rewrite <- app_assoc. apply Forall_app in Hl as [??]. apply Forall_app. split; [done|]. by apply Forall_cons.
Qed.

Lemma stack_record fs f below :
  main_stack fs -> fs = f :: below -> (exists u, f = FRecordText u) \/ (exists id, f = FRecordMime id) -> below = [].
Proof.
  intros Hs -> Hf. inversion Hs as [? H|? ? H|? H|? ? ? ? ? H|? ? ? ? ? H]; subst; try (by destruct Hf as [[? ?]|[? ?]]).
  - by inversion H.
  - inversion H; subst. by destruct Hf as [[? ?]|[? ?]].
Qed.
Lemma stack_callback u below : main_stack (FCallback u :: below) -> set_stack below.
Proof. inversion 1 as [? H'|? ? H'|? H'| |]; subst; [by inversion H'|done|by inversion H']. Qed.
Lemma stack_text id below : main_stack (FText id :: below) -> below = [FRecordMime id].
Proof. inversion 1 as [? H'|? ? H'|? H'| |]; subst; [by inversion H'|by inversion H']. Qed.
Lemma stack_text_in id fs : main_stack fs -> FText id ∈ fs -> exists above, fs = above ++ [FText id; FRecordMime id].
Proof.
  intros Hs Hin. destruct Hs as [fs Hb|u fs Hb|fs Hb|h k mt ty fs Hb|h k mt ty fs Hb]; destruct Hb;
    repeat (apply elem_of_cons in Hin as [Hin|Hin]); try done; try (by apply elem_of_nil in Hin);
    injection Hin as ->; (by exists []) || (by eexists [_]).
Qed.
Lemma stack_retrieval f hash kind mt ty below :
  f = FRequest hash kind mt ty \/ f = FWait hash kind mt ty -> main_stack (f :: below) -> asking_stack below.
Proof.
  intros Hf Hs. inversion Hs as [? H'|? ? H'|? H'|? ? ? ? ? H'|? ? ? ? ? H']; subst; try done;
    try (by destruct Hf); by inversion H'; subst; destruct Hf.
Qed.

Lemma echo_inv_record ls s s' : x11_exec XRecord s = Some s' -> echo_inv ls s -> echo_inv ls s'.
Proof.
  cbn [x11_exec]. intros H Hi. destruct (x_main s) as [|f below] eqn:Em; [done|].
  pose proof (ei_stack _ _ Hi) as Hq. rewrite Em in Hq.
  assert (Hb : (exists u, f = FRecordText u) \/ (exists id, f = FRecordMime id)) by (destruct f; try done; eauto).
  apply (stack_record _ f below) in Hq as ->; [|done|done]. clear Hb.
  pose proof (ei_announced _ _ Hi) as Ha. unfold announced_ok in Ha. rewrite Em in Ha.
  destruct Hi as [H1 H2 H3 H4 H5 H6].
  destruct f; try done; apply (inj Some) in H; subst s';
    (split; [apply ms_set; constructor| |done|done|apply Forall_nil_2|done]); unfold announced_ok;
    cbn; (destruct (x_clipboard s) as [[id m]|]; [|done]); destruct Ha as [Hmime Ha]; (split; [done|]); destruct m; try done; left.
  by rewrite (Hmime mime eq_refl).
Qed.

(** Another application takes the clipboard. *)
Lemma echo_inv_foreign ls text s s' :
  (forall t, text = Some t -> XForeign (Some t) ∈ ls) ->
  x11_exec (XForeign text) s = Some s' -> echo_inv ls s -> echo_inv ls s'.
Proof.
  cbn [x11_exec]. intros Hl H Hi.
  destruct (x_idle s) eqn:Em; [|done]. apply idle_main in Em. apply (inj Some) in H; subst s'.
  pose proof (echo_inv_set ls (MimeForeign text) [] s Em) as Hset.
  assert (E : set_frames [] (setMimeData (MimeForeign text) s) = setMimeData (MimeForeign text) s).
  { unfold set_frames, setMimeData, set_clip, set_echo. cbn. by rewrite Em. }
  rewrite E in Hset. apply Hset; [destruct text; [by apply Hl|done]|left; split; [done|by intros]|done].
Qed.

Lemma echo_inv_posted ls s s' : x11_exec XPost s = Some s' -> echo_inv ls s -> echo_inv ls s'.
Proof.
  cbn [x11_exec]. intros H Hi. destruct (x_posting s) as [|lam rest] eqn:Ep; [done|]. apply (inj Some) in H; subst s'.
  apply (echo_inv_same _ s); try done. cbn.
  assert (Hperm : rest ++ x_queue s ++ [lam] ≡ₚ (lam :: rest) ++ x_queue s).
  { cbn. rewrite app_assoc. by rewrite <- Permutation_cons_append. }
  rewrite Hperm, <- Ep. apply (ei_lambdas _ _ Hi).
Qed.

(** A retrieval goes on, and ends. *)
Lemma echo_inv_ask ls s s' : x11_exec XAsk s = Some s' -> echo_inv ls s -> echo_inv ls s'.
Proof.
  cbn [x11_exec]. intros H Hi. pose proof (ei_stack _ _ Hi) as Hq. pose proof (ei_frames _ _ Hi) as Hf.
  destruct (x_main s) as [|f below] eqn:Em; [done|]. destruct f; try done. apply (inj Some) in H; subst s'.
  eapply stack_retrieval in Hq; [|by left].
  assert (Hs : echo_inv ls (set_frames (FWait hash_ kind_ mimeType type :: below) s)).
  { apply echo_inv_frames; [by constructor| | |done].
    - apply Forall_cons in Hf as [_ Hf]. by constructor.
    - rewrite Em. rewrite !recording_ask; done. }
  case_tests; [by apply echo_inv_output|done].
Qed.

Lemma echo_inv_wake ls timed_out s s' : x11_exec (XWake timed_out) s = Some s' -> echo_inv ls s -> echo_inv ls s'.
Proof.
  cbn [x11_exec]. intros H Hi. pose proof (ei_stack _ _ Hi) as Hq. pose proof (ei_frames _ _ Hi) as Hf.
  destruct (x_main s) as [|f below] eqn:Em; [done|]. destruct f; try done.
  destruct (ds_stop (x_state s) || _ || timed_out); [|discriminate H]. apply (inj Some) in H; subst s'.
  eapply stack_retrieval in Hq; [|by right]. apply Forall_cons in Hf as [_ Hf].
  assert (Hs : echo_inv ls (set_frames below s)).
  { apply echo_inv_frames; [by apply ms_asking|done| |done]. rewrite Em. by rewrite recording_ask. }
  unfold deliver. destruct below; [by apply echo_inv_output|done].
Qed.

Lemma echo_inv_step ls l s s' :
  run_x11 ls init_X11 = Some s -> x11_exec l s = Some s' -> echo_inv ls s -> echo_inv (ls ++ [l]) s'.
Proof.
  intros Hrun H Hi0. pose proof (echo_inv_snoc ls l s Hi0) as Hi. clear Hi0.
  pose proof (ei_lambdas _ _ Hi) as Hlam. pose proof (ei_stack _ _ Hi) as Hq. pose proof (ei_frames _ _ Hi) as Hfr.
  assert (Hin : l ∈ ls ++ [l]) by (apply elem_of_app; right; apply list_elem_of_here).
  destruct l; try (first [by eapply echo_inv_posted|by eapply echo_inv_record|by eapply echo_inv_ask|by eapply echo_inv_wake]);
    cbn [x11_exec] in H.
  - (* XSetText *) destruct (x_alive s); [|done]. apply (inj Some) in H; subst s'.
    apply echo_inv_post; [done|]. by apply (echo_inv_same _ s).
  - destruct (x_alive s); [|done]. apply (inj Some) in H; subst s'.
    unfold X11SetClipboardImage. destruct (DecodeWebP webp_bytes); [|done]. by apply echo_inv_post.
  - destruct (x_alive s); [|done]. apply (inj Some) in H; subst s'.
    apply echo_inv_post; [done|]. by apply (echo_inv_same _ s).
  - destruct (x_alive s); [|done]. apply (inj Some) in H; subst s'.
    unfold X11ProvideData. destruct (bytes_eqb _ _); [|done]. by apply (echo_inv_same _ s).
  - destruct (x_alive s); [|done]. apply (inj Some) in H; subst s'. by apply (echo_inv_same _ s).
  - (* XRun *) destruct (x_queue s) as [|lam rest] eqn:Eq; [done|].
    destruct (x_idle s) eqn:Em; [|done]. apply idle_main in Em. apply (inj Some) in H; subst s'.
    apply Forall_app in Hlam as [Hp Hr]. apply Forall_cons in Hr as [Hlam Hr].
    apply echo_inv_lambda; [done|done|]. apply (echo_inv_same _ s); try done. by apply Forall_app.
  - destruct (x_idle s) eqn:Em; [|done]. apply idle_main in Em. apply (inj Some) in H; subst s'.
    apply echo_inv_changed; [rewrite Em; constructor|done].
  - eapply echo_inv_foreign; [|exact H|exact Hi]. by intros t ->.
  - (* XRetrieve *) destruct (x_clipboard s) as [[id m]|]; [|done]. destruct m; try done.
    destruct (x_main s) as [|f below] eqn:Em.
    + destruct (x_alive s); [|done]. apply (inj Some) in H; subst s'. apply echo_inv_retrieve; [rewrite Em; constructor|done].
    + destruct f as [| |m'| | |]; try done. apply stack_text in Hq as ->.
      destruct (id =? m'); [|done]. apply (inj Some) in H; subst s'. apply echo_inv_retrieve; [rewrite Em; constructor|done].
  - (* XTextReturns *) destruct (x_main s) as [|f below] eqn:Em; [done|]. destruct f as [| |m'| | |]; try done.
    apply stack_text in Hq as ->. apply (inj Some) in H; subst s'. apply Forall_cons in Hfr as [_ Hfr].
    apply echo_inv_text; [constructor| |].
    + right. exists ls, [], text, m', s. by split_and!.
    + apply echo_inv_frames; [apply ms_set; constructor|done|by rewrite Em|done].
  - (* XCallback *) destruct (x_main s) as [|f below] eqn:Em; [done|].
    destruct f; try done. apply stack_callback in Hq. apply (inj Some) in H; subst s'. apply Forall_cons in Hfr as [Hrep Hfr].
    apply echo_inv_output; [exact Hrep|]. apply echo_inv_frames; [by constructor|done| |done]. rewrite Em. by rewrite recording_cons.
  - (* XDestroy *) destruct (x_idle s) eqn:Em; [|done]. apply idle_main in Em. apply (inj Some) in H; subst s'.
    destruct Hi as [H1 H2 H3 H4 H5 H6]. split; try done. cbn. apply Forall_app in H4 as [? _]. by rewrite app_nil_r.
Qed.

(** [text()] runs only when Qt emitted inside the last [setMimeData]. *)
Definition text_inside (ls : list X11Label) (s : X11ClipboardManager) : Prop :=
  forall id, FText id ∈ x_main s -> last_sync ls = Some true.

Lemma text_frames_step l s s' ls :
  echo_inv ls s -> x11_exec l s = Some s' -> (forall id, FText id ∈ x_main s' -> FText id ∈ x_main s \/ l = XRun true) /\
  (forall sync, l = XRun sync -> x_main s = []).
Proof.
  intros Hi H. destruct l; cbn [x11_exec] in H.
  all: try (repeat case_match; try discriminate H; apply (inj Some) in H; subst s'; split; [|discriminate]; by left).
  - repeat case_match; try discriminate H. apply (inj Some) in H; subst s'. split; [|discriminate]. left.
    revert H. unfold X11SetClipboardImage. by destruct (DecodeWebP _).
  - repeat case_match; try discriminate H. apply (inj Some) in H; subst s'. split; [|discriminate]. left.
    revert H. unfold X11ProvideData. by destruct (bytes_eqb _ _).
  - destruct (x_queue s) as [|lam rest] eqn:Eq; [done|]. destruct (x_idle s) eqn:Em; [|done]. apply idle_main in Em.
    split; [|done]. apply (inj Some) in H; subst s'. destruct sync; [by right|]. unfold run_lambda.
    intros id Hin. exfalso. destruct lam; cbn in Hin; rewrite Em in Hin; set_solver.
  - destruct (x_main s) as [|[] below] eqn:Em; try done; apply (inj Some) in H; subst s'; (split; [|discriminate]); cbn; set_solver.
  - destruct (x_idle s) eqn:Em; [|done]. apply idle_main in Em. apply (inj Some) in H; subst s'. split; [|discriminate].
    intros id Hin. exfalso.
    destruct (echo_inv_changed ls s) as [_ [E|[[u E]|(id' & E & _)]]]; [rewrite Em; constructor|done| | |congruence];
      rewrite E, Em in Hin; set_solver.
  - split; [|discriminate]. destruct (x_clipboard s) as [[id' []]|]; try done.
    intros id Hin. left. assert (E : exists h k, s' = retrieveData h k mimeType type s).
    { repeat case_match; try discriminate H; apply (inj Some) in H; subst s'; eauto. }
    destruct E as (h & k & ->). revert Hin. unfold retrieveData, deliver. destruct (ds_provided _ _); [destruct (x_main s)|]; cbn; set_solver.
  - destruct (x_main s) as [|[] below] eqn:Em; try done; apply (inj Some) in H; subst s'. split; [|discriminate].
    intros id. case_tests; cbn; set_solver.
  - destruct (x_main s) as [|[] below] eqn:Em; try done. destruct (_ || _ || _); [|done]. apply (inj Some) in H; subst s'.
    split; [|discriminate]. intros id. unfold deliver. destruct below; cbn; set_solver.
  - destruct (x_main s) as [|[] below] eqn:Em; try done. apply (inj Some) in H; subst s'. split; [|discriminate].
    intros id. unfold OnClipboardChanged_text. destruct (ConsumeEagerSetTextEcho _ _) as [[] e]; cbn; [set_solver|].
    destruct (ds_on_changed _); cbn; set_solver.
  - destruct (x_main s) as [|[] below] eqn:Em; try done. apply (inj Some) in H; subst s'. split; [|discriminate]. cbn. set_solver.
Qed.

Lemma echo_reachable ls s : run_x11 ls init_X11 = Some s -> echo_inv ls s /\ text_inside ls s.
Proof.
  revert s. induction ls as [|l ls IH] using rev_ind; intros s H.
  - cbn in H. apply (inj Some) in H. subst s. split; [|by intros id Hin; apply elem_of_nil in Hin].
    split; cbn; try done; [apply ms_set; constructor|apply Forall_nil_2..].
  - unfold run_x11 in *. rewrite run_exec_app in H. destruct (run_exec x11_exec ls init_X11) as [s1|] eqn:E; [|done].
    cbn in H. destruct (x11_exec l s1) as [s2|] eqn:E2; [|done]. cbn in H. apply (inj Some) in H. subst s2.
    destruct (IH _ eq_refl) as [Hi Ht]. split; [by eapply echo_inv_step|].
    intros id Hin. destruct (text_frames_step _ _ _ _ Hi E2) as [Hfr Hrun]. rewrite last_sync_snoc.
    destruct (Hfr id Hin) as [Hin'| ->]; [|done]. specialize (Ht id Hin'). destruct l; try done.
    rewrite (Hrun sync eq_refl) in Hin'. by apply elem_of_nil in Hin'.
Qed.

(** ** A paste of a superseded announcement *)

(** Nothing has been provided for [hash], nor can be. *)
Definition superseded (hash : list Z) (d : DelayedState) : Prop :=
  ds_current_hash d <> hash /\ ds_provided hash d = None /\ ds_stop d = false.

(** The main thread waits in [frames] and the clipboard is [clip]. *)
Definition blocked_on (hash : list Z) (frames : list Frame) (clip : option (Z * Mime)) (s : X11ClipboardManager) : Prop :=
  superseded hash (x_state s) /\ x_main s = frames /\ x_clipboard s = clip.

(** Neither a new announcement of [hash] nor the time-out. *)
Definition not_releasing (hash : list Z) (l : X11Label) : Prop :=
  match l with XAnnounce h _ => h <> hash | XWake timed_out => timed_out = false | _ => True end.

Lemma superseded_provide hash h data d :
  superseded hash d -> ds_current_hash d = h -> superseded hash (ds_set (ds_current_hash d) (ds_content_kind d) (Some data) h d).
Proof.
  intros (Hne & _ & Hs) <-. split; [done|split; [|done]]. unfold ds_provided. cbn. by rewrite (proj2 (bytes_eqb_neq _ _)).
Qed.

Lemma blocked_step hash kind mt ty below clip l s s' :
  not_releasing hash l -> x11_exec l s = Some s' -> blocked_on hash (FWait hash kind mt ty :: below) clip s ->
  blocked_on hash (FWait hash kind mt ty :: below) clip s'.
Proof.
  intros Hl H ((Hne & Hp & Hs) & Hm & Hc).
  assert (Hidle : x_idle s = false) by (unfold x_idle; by rewrite Hm).
  destruct l; cbn [x11_exec not_releasing] in H, Hl; rewrite ?Hidle, ?Hm in H; try discriminate H.
  - destruct (x_alive s); [|done]. by apply (inj Some) in H; subst s'.
  - destruct (x_alive s); [|done]. apply (inj Some) in H; subst s'. unfold X11SetClipboardImage. by destruct (DecodeWebP webp_bytes).
  - destruct (x_alive s); [|done]. by apply (inj Some) in H; subst s'.
  - destruct (x_alive s); [|done]. apply (inj Some) in H; subst s'. unfold X11ProvideData.
    destruct (bytes_eqb (ds_current_hash (x_state s)) content_hash) eqn:E; [|by split_and!]. apply bytes_eqb_eq in E.
    split; [by apply superseded_provide|done].
  - destruct (x_alive s); [|done]. by apply (inj Some) in H; subst s'.
  - destruct (x_posting s); [done|]. by apply (inj Some) in H; subst s'.
  - by destruct (x_queue s).
  - by destruct (x_clipboard s) as [[id []]|].
  - subst timed_out. by rewrite Hs, Hp in H.
Qed.

(** ** [OnClipboardChanged] on an object with text *)

Definition mime_text (m : Mime) (t : QString) : Prop := m = MimeText t \/ m = MimeForeign (Some t).

Lemma changed_text id m t s :
  x_clipboard s = Some (id, m) -> mime_text m t -> announced_mime_ (x_echo s) <> Some id ->
  OnClipboardChanged s = OnClipboardChanged_text t s.
Proof.
  intros Hc Hm Ha. unfold OnClipboardChanged, IsAnnouncedMime. rewrite Hc, bool_decide_eq_false_2 by done.
  by destruct Hm as [->| ->].
Qed.

Lemma changed_swallowed id m t s :
  x_clipboard s = Some (id, m) -> mime_text m t -> announced_mime_ (x_echo s) <> Some id ->
  last_set_text_ (x_echo s) = Some (toUtf8 t) ->
  OnClipboardChanged s = set_echo {| last_set_text_ := None; announced_mime_ := announced_mime_ (x_echo s) |} s.
Proof.
  intros Hc Hm Ha Hl. rewrite (changed_text _ _ _ _ Hc Hm Ha).
  unfold OnClipboardChanged_text, ConsumeEagerSetTextEcho. by rewrite Hl, bytes_eqb_refl.
Qed.

Lemma changed_reported id m t s :
  x_clipboard s = Some (id, m) -> mime_text m t -> announced_mime_ (x_echo s) <> Some id ->
  last_set_text_ (x_echo s) = None -> ds_on_changed (x_state s) = true ->
  OnClipboardChanged s =
    set_frames (FCallback (toUtf8 t) :: x_main s) (set_ds (ds_set_cached (toUtf8 t) (x_state s)) (set_echo (x_echo s) s)).
Proof.
  intros Hc Hm Ha Hl Hon. rewrite (changed_text _ _ _ _ Hc Hm Ha).
  unfold OnClipboardChanged_text, ConsumeEagerSetTextEcho. rewrite Hl. cbn. by rewrite Hon.
Qed.

Lemma setMimeData_last m s : last_set_text_ (x_echo (setMimeData m s)) = last_set_text_ (x_echo s).
Proof. cbn. by destruct (x_clipboard s) as [[]|]. Qed.

(** The [QPointer] holds what it held, or nothing. *)
Lemma setMimeData_announced m s :
  announced_mime_ (x_echo (setMimeData m s)) = announced_mime_ (x_echo s) \/
  announced_mime_ (x_echo (setMimeData m s)) = None.
Proof. cbn. destruct (x_clipboard s) as [[]|]; cbn; [|by left]. case_bool_decide; auto. Qed.

Lemma setMimeData_fresh m n s :
  announced_mime_ (x_echo s) <> Some n -> announced_mime_ (x_echo (setMimeData m s)) <> Some n.
Proof. by destruct (setMimeData_announced m s) as [->| ->]. Qed.

(** A text lambda up to the emission. *)
Lemma run_text_lambda s t utf8 rest :
  x_idle s = true -> x_queue s = LambdaText t utf8 :: rest -> last_set_text_ (x_echo s) = None ->
  (forall id, announced_mime_ (x_echo s) = Some id -> id < x_next s) ->
  exists s1, (forall sync, x11_exec (XRun sync) s = Some (if sync then OnClipboardChanged s1 else s1)) /\
    x_clipboard s1 = Some (x_next s, MimeText t) /\ x_main s1 = [FRecordText utf8] /\ last_set_text_ (x_echo s1) = None /\
    (forall n, x_next s <= n -> announced_mime_ (x_echo s1) <> Some n) /\ x_next s1 = x_next s + 1 /\
    x_alive s1 = true /\ x_state s1 = x_state s /\ x_outputs s1 = x_outputs s.
Proof.
  intros Hidle Hq Hl Hfresh. pose proof (idle_main _ Hidle) as Hm.
  eexists (set_frames (FRecordText utf8 :: x_main s) (setMimeData (MimeText t) (set_posted (x_posting s) rest s))).
  split; [intros sync; cbn [x11_exec]; by rewrite Hq, Hidle|].
  split_and!; try done.
  - cbn. by rewrite Hm.
  - etrans; [apply (setMimeData_last (MimeText t) (set_posted (x_posting s) rest s))|done].
  - intros n Hn. apply (setMimeData_fresh (MimeText t) n (set_posted (x_posting s) rest s)). intros E. apply Hfresh in E. lia.
  - cbn. unfold x_idle in Hidle. by rewrite Hm in Hidle.
Qed.

(** ** Properties *)

(** No stale paste on X11.  In every interleaving, whatever a paste receives is
    nothing, or the representation for its MIME type, under the kind its own
    object was announced with, of data the backend accepted for exactly the
    hash of that object. *)
Theorem x11_no_stale_paste ls s hash kind mimeType type v :
  run_x11 ls init_X11 = Some s -> XoPaste hash kind mimeType type v ∈ x_outputs s ->
  v = VNull \/ exists data, (hash, data) ∈ x_accepted s /\ v = Materialise kind data mimeType type.
Proof.
  intros H Hin. pose proof (xp_outputs _ (x_paste_inv_reachable _ _ H)) as Ho. rewrite Forall_forall in Ho.
  apply (Ho _ Hin).
Qed.

(** C18: Echo suppression, whenever Qt emits [dataChanged].  In every
    interleaving the main thread is inside [text()] of an object only within
    the [setMimeData] that is setting this very object, when Qt emitted inside
    that call ([last_sync]) and before the object is recorded: never later on
    an object the peer announced.  A DATA_REQUEST or its ten-second wait comes
    from a paste or from such a [text()].  Every CLIPBOARD_CHANGED carries text
    another application copied, text an eager SET_CLIPBOARD put there, or what
    such a [text()] returned.  So when Qt never emits inside [setMimeData],
    announced content is never asked for but by a paste, nor reported back. *)
Theorem x11_announcements_not_echoed ls s :
  run_x11 ls init_X11 = Some s ->
  (forall id, FText id ∈ x_main s ->
     last_sync ls = Some true /\ exists above, x_main s = above ++ [FText id; FRecordMime id]) /\
  (forall f hash kind mimeType type below,
     f = FRequest hash kind mimeType type \/ f = FWait hash kind mimeType type -> x_main s = f :: below ->
     below = [] \/ (last_sync ls = Some true /\ exists id, below = [FText id; FRecordMime id])) /\
  (forall utf8, XoChanged utf8 ∈ x_outputs s ->
     reported ls utf8 \/ (read_inside ls utf8 /\ XRun true ∈ ls)) /\
  (XRun true ∉ ls ->
     (forall id, FText id ∉ x_main s) /\ (forall utf8, XoChanged utf8 ∈ x_outputs s -> reported ls utf8)).
Proof.
  intros H. destruct (echo_reachable _ _ H) as [Hi Ht].
  assert (Hsync : forall ls' , last_sync ls' = Some true -> XRun true ∈ ls').
  { intros ls' E. apply last_Some_elem_of, list_elem_of_omap in E as (l & Hl & E). destruct l; try done. by injection E as ->. }
  assert (Hout : forall utf8, XoChanged utf8 ∈ x_outputs s -> reported ls utf8 \/ (read_inside ls utf8 /\ XRun true ∈ ls)).
  { intros utf8 Hin. pose proof (ei_outputs _ _ Hi) as Ho. rewrite Forall_forall in Ho.
    destruct (Ho _ Hin) as [?|Hr]; [by left|]. right. split; [done|].
    destruct Hr as (before & after & text & id & s0 & -> & Hs0 & Em & _). apply elem_of_app. left.
    apply Hsync, (proj2 (echo_reachable _ _ Hs0) id). rewrite Em. apply list_elem_of_here. }
  pose proof (ei_stack _ _ Hi) as Hq. split_and!; [| |exact Hout|].
  - intros id Hin. split; [by apply (Ht id)|by apply stack_text_in].
  - intros f hash kind mt ty below Hf Em. rewrite Em in Hq. eapply stack_retrieval in Hq; [|exact Hf].
    destruct Hq as [|id]; [by left|right]. split; [|eauto]. apply (Ht id). rewrite Em. set_solver.
  - intros Hno. split; [|by intros utf8 Hin; destruct (Hout utf8 Hin) as [?|[_ ?]]].
    intros id Hin. by apply Hno, Hsync, (Ht id).
Qed.

(** The order of the emission decides.  When Qt emits [dataChanged] inside
    [setMimeData], the object is not recorded yet: the announcement of a kind
    whose formats count as text makes the main thread call [text()] on it, and
    the first format Qt asks for sends DATA_REQUEST for the peer's own
    announcement and blocks the main thread. *)
Theorem x11_sync_emission_requests s hash kind rest mimeType type :
  x_idle s = true -> x_queue s = LambdaAnnounce hash kind :: rest ->
  formats_hasText (DelayedClipboardMimeData_formats kind) = true ->
  announced_mime_ (x_echo s) <> Some (x_next s) ->
  ds_provided hash (x_state s) = None -> ds_stop (x_state s) = false -> ds_on_request (x_state s) = true ->
  exists s', run_x11 [XRun true; XRetrieve mimeType type; XAsk] s = Some s' /\
    x_main s' = [FWait hash kind mimeType type; FText (x_next s); FRecordMime (x_next s)] /\
    x_outputs s' = x_outputs s ++ [XoRequest hash] /\ x11_exec (XWake false) s' = None.
Proof.
  intros Hidle Hq Ht Ha Hp Hs Hr. pose proof (idle_main _ Hidle) as Hm.
  unfold run_x11. cbn [run_exec x11_exec]. rewrite Hq, Hidle. unfold run_lambda, OnClipboardChanged, IsAnnouncedMime. cbn.
  rewrite bool_decide_eq_false_2.
  - rewrite Ht. cbn. rewrite Z.eqb_refl. unfold retrieveData. cbn. rewrite Hp. cbn. rewrite Hr, Hm.
    eexists. split; [reflexivity|]. cbn. split_and!; [done|done|]. by rewrite Hs, Hp.
  - cbn. destruct (x_clipboard s) as [[old m]|]; cbn; [|done]. by case_bool_decide.
Qed.

(** The same order for an eager text that survives the conversion: emitted
    later, the echo is swallowed, sends nothing and leaves the expectation
    empty; emitted inside [setMimeData], the text is reported back to the
    peer, and the expectation that remains swallows the next copy of that text
    from another application. *)
Theorem x11_eager_text_echo s utf8 rest foreign :
  x_idle s = true -> x_queue s = LambdaText (fromUtf8 utf8) utf8 :: rest ->
  toUtf8 (fromUtf8 utf8) = utf8 -> toUtf8 foreign = utf8 -> ds_on_changed (x_state s) = true ->
  last_set_text_ (x_echo s) = None -> (forall id, announced_mime_ (x_echo s) = Some id -> id < x_next s) ->
  (exists s', run_x11 [XRun false; XRecord; XDataChanged] s = Some s' /\ x_idle s' = true /\
     x_outputs s' = x_outputs s /\ last_set_text_ (x_echo s') = None) /\
  (exists s', run_x11 [XRun true; XCallback; XRecord; XForeign (Some foreign); XDataChanged] s = Some s' /\
     x_idle s' = true /\ x_outputs s' = x_outputs s ++ [XoChanged utf8]).
Proof.
  intros Hidle Hq Hrt Hf Hc Hl Hfresh.
  destruct (run_text_lambda s (fromUtf8 utf8) utf8 rest Hidle Hq Hl Hfresh)
    as (s1 & Hrun & Hc1 & Hm1 & Hl1 & Ha1 & Hn1 & Hal1 & Hst1 & Ho1).
  assert (Hon : ds_on_changed (x_state s1) = true) by (by rewrite Hst1).
  unfold run_x11. split; cbn [run_exec]; rewrite Hrun; clear Hrun.
  - cbn [x11_exec]. rewrite Hm1. unfold x_idle. cbn [x_main x_alive set_echo set_frames]. rewrite Hal1.
    rewrite (changed_swallowed (x_next s) (MimeText (fromUtf8 utf8)) (fromUtf8 utf8));
      [|done|by left|by apply (Ha1 (x_next s)); lia|cbn; by rewrite Hrt].
    eexists. split; [reflexivity|]. by cbn.
  - rewrite (changed_reported (x_next s) (MimeText (fromUtf8 utf8)) (fromUtf8 utf8));
      [|done|by left|by apply (Ha1 (x_next s)); lia|done|done].
    rewrite Hrt, Hm1. cbn [x11_exec x_main set_frames x_output set_echo set_ds].
    unfold x_idle. do 2 (cbn [x_main x_alive set_echo set_frames x_output set_ds setMimeData set_clip]; rewrite Hal1).
    rewrite (changed_swallowed (x_next s1) (MimeForeign (Some foreign)) foreign); [|done|by right| |].
    + eexists. split; [reflexivity|]. cbn. rewrite Ho1. split; [done|done].
    + cbn. rewrite Hc1. cbn. case_bool_decide; [done|]. apply Ha1. lia.
    + cbn. rewrite Hc1. cbn. by rewrite Hf.
Qed.

(** A waiting paste is released.  PROVIDE_DATA for the announced hash wakes the
    main thread without the time-out, and the paste gets exactly the
    representation of that data. *)
Theorem x11_provide_releases_paste s hash kind mimeType type data :
  x_main s = [FWait hash kind mimeType type] -> x_alive s = true -> ds_stop (x_state s) = false ->
  ds_current_hash (x_state s) = hash ->
  exists s', run_x11 [XProvide hash data; XWake false] s = Some s' /\ x_idle s' = true /\
    x_outputs s' = x_outputs s ++ [XoPaste hash kind mimeType type (Materialise kind data mimeType type)].
Proof.
  intros Hm Hal Hs <-. unfold run_x11. cbn [run_exec x11_exec]. rewrite Hal. unfold X11ProvideData. rewrite bytes_eqb_refl.
  cbn [x_main x_accept set_ds x_state]. rewrite Hm. unfold ds_provided, WaitForBytes_result. cbn. rewrite Hs, bytes_eqb_refl. cbn.
  eexists. split; [reflexivity|]. unfold x_idle. cbn. by rewrite Hal.
Qed.

(** A superseded paste blocks everything.  While the main thread waits in
    [retrieveData] for a hash that is no longer announced, no step of any
    thread but its own ten-second time-out (or an announcement of that same
    hash) gets it out: the newer announcement stays queued and the clipboard
    keeps offering the old one. *)
Theorem x11_superseded_paste_blocks ls s s' hash kind mimeType type below :
  x_main s = FWait hash kind mimeType type :: below -> superseded hash (x_state s) ->
  Forall (not_releasing hash) ls -> run_x11 ls s = Some s' ->
  x_main s' = FWait hash kind mimeType type :: below /\ x_clipboard s' = x_clipboard s.
Proof.
  intros Hm Hsup Hl H.
  pose proof (run_exec_invariant x11_exec (blocked_on hash (FWait hash kind mimeType type :: below) (x_clipboard s))
    (not_releasing hash)) as Hinv.
  destruct (Hinv (fun l a b => blocked_step _ _ _ _ _ _ l a b) ls s s' Hl H) as (_ & ? & ?); [done|by split].
Qed.

(** ** The backend the dispatcher drives *)
#[export] Instance x11_manager : ClipboardManager X11ClipboardManager := {
  SetClipboardText := X11SetClipboardText;
  SetClipboardImage := X11SetClipboardImage;
  AnnounceDelayedText := X11AnnounceDelayedText;
  AnnounceDelayedImage := X11AnnounceDelayedImage;
  AnnounceDelayedFiles := X11AnnounceDelayedFiles;
  ManagerProvideData := X11ProvideData;
  GetClipboardText := X11GetClipboardText;
  SetOnClipboardChanged := fun cb s =>
    set_ds (ds_set_callbacks (bool_decide (is_Some cb)) (ds_on_request (x_state s)) (x_state s)) s;
  SetOnDataRequest := fun cb s =>
    set_ds (ds_set_callbacks (ds_on_changed (x_state s)) (bool_decide (is_Some cb)) (x_state s)) s
}.
End Qt.

(** *** Witnesses *)

(** Strings of bytes, and text offered as plain text or as URIs. *)
Definition plain_qt : QtText := {|
  QString := list Z; fromUtf8 := fun u => u; toUtf8 := fun u => u;
  formats_hasText := fun l => bool_decide (str "text/plain" ∈ l) || bool_decide (str "text/uri-list" ∈ l)
|}.
Definition plain_init : @X11ClipboardManager no_codec plain_qt := init_X11.
Definition plain_run (ls : list (@X11Label plain_qt)) (s : @X11ClipboardManager no_codec plain_qt)
  : option (@X11ClipboardManager no_codec plain_qt) := run_x11 ls s.

(** A text announcement pasted and provided; a foreign copy in between. *)
Definition x11_paste_run : list (@X11Label plain_qt) :=
  [XCallbacks true true; @XForeign plain_qt (Some (str "old")); XDataChanged; XCallback;
   XAnnounce (str "h1") KText; XPost; XRun false; XRecord; XDataChanged;
   XRetrieve (str "TEXT") TyOther; XAsk].
Definition x11_waiting : @X11ClipboardManager no_codec plain_qt :=
  Eval vm_compute in default plain_init (plain_run x11_paste_run plain_init).
Definition x11_served_run : list (@X11Label plain_qt) := x11_paste_run ++ [XProvide (str "h1") [1; 2]; XWake false].
Definition x11_served : @X11ClipboardManager no_codec plain_qt :=
  Eval vm_compute in default plain_init (plain_run x11_served_run plain_init).
Definition x11_announced : @X11ClipboardManager no_codec plain_qt :=
  Eval vm_compute in default plain_init (plain_run [XCallbacks true true; XAnnounce (str "h1") KText; XPost] plain_init).
Definition x11_texted : @X11ClipboardManager no_codec plain_qt :=
  Eval vm_compute in default plain_init (plain_run [XCallbacks true true; XSetText (str "hi"); XPost] plain_init).
Definition x11_superseded : @X11ClipboardManager no_codec plain_qt :=
  Eval vm_compute in default plain_init (plain_run (x11_paste_run ++ [XAnnounce (str "h2") KText; XPost]) plain_init).

Lemma x11_no_stale_paste_witness :
  @Materialise no_codec plain_qt KText [1; 2] (str "TEXT") TyOther = VBytes [1; 2] /\
  (@VBytes no_codec plain_qt [1; 2] = VNull \/
   exists data, (str "h1", data) ∈ x_accepted x11_served /\
     VBytes [1; 2] = @Materialise no_codec plain_qt KText data (str "TEXT") TyOther).
Proof.
  split; [reflexivity|].
  apply (@x11_no_stale_paste no_codec plain_qt x11_served_run x11_served (str "h1") KText (str "TEXT") TyOther (VBytes [1; 2]));
    [vm_compute; reflexivity|].
  apply list_elem_of_In. vm_compute. tauto.
Defined.

(** The announcement with the signal inside [setMimeData]: [text()] reads it,
    gets data the peer provides, and reports it back. *)
Definition x11_echo_run : list (@X11Label plain_qt) :=
  [XCallbacks true true; XAnnounce (str "h1") KText; XPost; XRun true; XRetrieve (str "text/plain") TyQString; XAsk].
Definition x11_asking : @X11ClipboardManager no_codec plain_qt :=
  Eval vm_compute in default plain_init (plain_run x11_echo_run plain_init).

Lemma x11_announcements_not_echoed_witness :
  x_main x11_asking = [FWait (str "h1") KText (str "text/plain") TyQString; FText 0; FRecordMime 0] /\
  last_sync x11_echo_run = Some true.
Proof.
  split; [reflexivity|].
  destruct (@x11_announcements_not_echoed no_codec plain_qt x11_echo_run x11_asking) as [Htext _]; [vm_compute; reflexivity|].
  apply (Htext 0). right. left.
Defined.

Lemma x11_sync_emission_requests_witness :
  exists s', plain_run [XRun true; XRetrieve (str "text/plain") TyQString; XAsk] x11_announced = Some s' /\
    x_main s' = [FWait (str "h1") KText (str "text/plain") TyQString; FText 0; FRecordMime 0] /\
    x_outputs s' = [XoRequest (str "h1")] /\ @x11_exec no_codec plain_qt (XWake false) s' = None.
Proof.
  apply (@x11_sync_emission_requests no_codec plain_qt x11_announced (str "h1") KText [] (str "text/plain") TyQString);
    try reflexivity; try discriminate.
Defined.

Lemma x11_eager_text_echo_witness :
  (exists s', plain_run [XRun false; XRecord; XDataChanged] x11_texted = Some s' /\ x_idle s' = true /\
     x_outputs s' = x_outputs x11_texted /\ last_set_text_ (x_echo s') = None) /\
  (exists s', plain_run [XRun true; XCallback; XRecord; @XForeign plain_qt (Some (str "hi")); XDataChanged] x11_texted = Some s' /\
     x_idle s' = true /\ x_outputs s' = x_outputs x11_texted ++ [XoChanged (str "hi")]).
Proof.
  apply (@x11_eager_text_echo no_codec plain_qt x11_texted (str "hi") [] (str "hi")); try reflexivity. discriminate.
Defined.

Lemma x11_provide_releases_paste_witness :
  exists s', plain_run [XProvide (str "h1") [7]; XWake false] x11_waiting = Some s' /\ x_idle s' = true /\
    x_outputs s' = x_outputs x11_waiting ++ [XoPaste (str "h1") KText (str "TEXT") TyOther (VBytes [7])].
Proof.
  apply (@x11_provide_releases_paste no_codec plain_qt x11_waiting (str "h1") KText (str "TEXT") TyOther [7]); reflexivity.
Defined.

Lemma x11_superseded_paste_blocks_witness :
  exists s', plain_run [XProvide (str "h2") [9]; XWake false; XDataChanged] x11_superseded = None /\
    plain_run [XProvide (str "h2") [9]; XAnnounce (str "h3") KFiles; XPost] x11_superseded = Some s' /\
    x_main s' = [FWait (str "h1") KText (str "TEXT") TyOther] /\ x_clipboard s' = x_clipboard x11_superseded.
Proof.
  set (ls := [XProvide (str "h2") [9]; XAnnounce (str "h3") KFiles; XPost]).
  eexists. split; [vm_compute; reflexivity|]. split; [vm_compute; reflexivity|].
  apply (@x11_superseded_paste_blocks no_codec plain_qt ls x11_superseded _ (str "h1") KText (str "TEXT") TyOther []).
  - reflexivity.
  - split; [discriminate|split; reflexivity].
  - repeat (apply Forall_cons_2; [try exact I; discriminate|]). apply Forall_nil_2.
  - vm_compute. reflexivity.
Defined.
