(* ===== verification/X11Pastes.v ===== *)
(** * X11Pastes: the main thread comes back

    Liveness of the X11 backend of [X11Manager], where a paste waits on the
    main thread itself: the steps that are due there are bounded, and every
    paste request from the event loop is answered exactly once. *)

From S2P Require Import Prelude UriList LinuxDispatch ExtManager X11Manager.

Section Pastes.
Context {codec : ImageCodec} {qt : QtText}.

(** ** The steps already due *)

(** The steps of the main thread inside a lambda, a notification or a paste,
    the ten-second time-out included. *)
Definition x_due (l : X11Label) : bool :=
  match l with XRecord | XAsk | XWake _ | XTextReturns _ | XCallback => true | _ => false end.

Definition frame_todo (f : Frame) : nat :=
  match f with FRequest _ _ _ _ => 2 | FText _ => 2 | _ => 1 end.
Definition x_todo (s : X11ClipboardManager) : nat := sum_list_with frame_todo (x_main s).

(** ** Requests and answers *)

(** A paste, by the object asked and what it was asked for; a request made by
    [text()] of a delayed object is the helper's own. *)
Definition paste_of (f : Frame) : list (list Z * list Z) :=
  match f with FRequest hash _ mime _ => [(hash, mime)] | FWait hash _ mime _ => [(hash, mime)] | _ => [] end.

(** The paste the main thread is in, if its lowest frame is one. *)
Definition lowest_paste (frames : list Frame) : list (list Z * list Z) :=
  match last frames with Some f => paste_of f | None => [] end.
Definition x_under_way (s : X11ClipboardManager) : list (list Z * list Z) := lowest_paste (x_main s).

Definition x_answers (s : X11ClipboardManager) : list (list Z * list Z) :=
  omap (fun o => match o with XoPaste hash _ mime _ _ => Some (hash, mime) | _ => None end) (x_outputs s).

(** The paste request a step is, if it is one. *)
Definition x_request (l : X11Label) (s : X11ClipboardManager) : list (list Z * list Z) :=
  match l, x_main s, x_clipboard s with
  | XRetrieve mime _, [], Some (_, MimeDelayed hash _) => [(hash, mime)]
  | _, _, _ => []
  end.
Fixpoint x_requests (ls : list X11Label) (s : X11ClipboardManager) : list (list Z * list Z) :=
  match ls with
  | [] => []
  | l :: ls' => match x11_exec l s with Some s' => x_request l s ++ x_requests ls' s' | None => [] end
  end.

(** Each due step makes progress. *)
Lemma x_due_step l s s' : x_due l = true -> x11_exec l s = Some s' -> (x_todo s' < x_todo s)%nat.
Proof.
  intros Hl E. destruct l; try done; cbn [x11_exec] in E; unfold x_todo.
  - destruct (x_main s) as [|[] below] eqn:Em; try discriminate E; apply (inj Some) in E; subst s'; cbn; lia.
  - destruct (x_main s) as [|[] below] eqn:Em; try discriminate E; apply (inj Some) in E; subst s'.
    destruct (ds_on_request _); cbn; lia.
  - destruct (x_main s) as [|[] below] eqn:Em; try discriminate E. destruct (_ || timed_out); [|done].
    apply (inj Some) in E; subst s'. unfold deliver. destruct below; cbn; lia.
  - destruct (x_main s) as [|[] below] eqn:Em; try discriminate E. apply (inj Some) in E; subst s'.
    unfold OnClipboardChanged_text. destruct (ConsumeEagerSetTextEcho _ _) as [[] e]; cbn; [lia|]. destruct (ds_on_changed _); cbn; lia.
  - destruct (x_main s) as [|[] below] eqn:Em; try discriminate E; apply (inj Some) in E; subst s'; cbn; lia.
Qed.

(** While the main thread is inside one of them, one can be taken. *)
Lemma x_due_exists s : x_main s <> [] -> exists l, x_due l = true /\ is_Some (x11_exec l s).
Proof.
  destruct (x_main s) as [|f below] eqn:Em; [done|]. intros _.
  destruct f as [utf8|mime|mime|utf8|hash kind mt ty|hash kind mt ty].
  - exists XRecord. split; [done|]. cbn. rewrite Em. by eexists.
  - exists XRecord. split; [done|]. cbn. rewrite Em. by eexists.
  - exists (XTextReturns (fromUtf8 [])). split; [done|]. cbn. rewrite Em. by eexists.
  - exists XCallback. split; [done|]. cbn. rewrite Em. by eexists.
  - exists XAsk. split; [done|]. cbn. rewrite Em. by eexists.
  - exists (XWake true). split; [done|]. cbn. rewrite Em, orb_true_r. by eexists.
Qed.

#[export] Instance x11_rest : ComesToRest x11_exec.
Proof.
  refine {| rest_due := fun l _ => x_due l = true; rest_todo := x_todo; rest_kept := fun _ => True;
            rest_at := fun s => x_main s = [] |}.
  - intros l s s' Hl E _. split; [done|]. by eapply x_due_step.
  - intros s _ Hn. by apply x_due_exists.
Defined.

(** *** Every request is under way or answered *)

Lemma lowest_above f frames : paste_of f = [] \/ frames <> [] -> lowest_paste (f :: frames) = lowest_paste frames.
Proof. unfold lowest_paste. destruct frames as [|g frames]; [by intros [?|[]]|done]. Qed.

Definition x_accounted (reqs : list (list Z * list Z)) (s : X11ClipboardManager) : Prop := reqs = x_answers s ++ x_under_way s.

Lemma x_accounted_same reqs s s' :
  x_outputs s' = x_outputs s -> x_under_way s' = x_under_way s -> x_accounted reqs s -> x_accounted reqs s'.
Proof. unfold x_accounted, x_answers. by intros -> ->. Qed.

Lemma accounted_text reqs text s : x_accounted reqs s -> x_accounted reqs (OnClipboardChanged_text text s).
Proof.
  unfold OnClipboardChanged_text. destruct (ConsumeEagerSetTextEcho _ _) as [[] e]; [by apply x_accounted_same|].
  destruct (ds_on_changed _); [|by apply x_accounted_same]. apply x_accounted_same; [done|]. apply lowest_above. by left.
Qed.

Lemma accounted_changed reqs s : x_accounted reqs s -> x_accounted reqs (OnClipboardChanged s).
Proof.
  intros Ha. unfold OnClipboardChanged. destruct (x_clipboard s) as [[id m]|]; [|done].
  destruct (IsAnnouncedMime _ _); [done|]. destruct (negb _); [done|].
  destruct m as [t|img|hash kind|[t|]]; try done; [by apply accounted_text| |by apply accounted_text].
  revert Ha. apply x_accounted_same; [done|]. apply lowest_above. by left.
Qed.

Lemma accounted_lambda reqs l sync s : x_accounted reqs s -> x_accounted reqs (run_lambda l sync s).
Proof.
  intros Ha. unfold run_lambda.
  assert (Hs : forall m f, paste_of f = [] -> x_accounted reqs (set_frames (f :: x_main s) (setMimeData m s))).
  { intros m f Hf. revert Ha. apply x_accounted_same; [done|]. apply lowest_above. by left. }
  destruct l; (destruct sync; [apply accounted_changed|]; by apply Hs).
Qed.

(** Asking the object: answered at once, or under way. *)
Lemma accounted_retrieve reqs hash kind mime type s :
  x_accounted reqs s -> x_accounted (reqs ++ match x_main s with [] => [(hash, mime)] | _ => [] end) (retrieveData hash kind mime type s).
Proof.
  unfold x_accounted, x_under_way, retrieveData. intros ->. destruct (ds_provided hash (x_state s)) as [bytes|].
  - unfold deliver. destruct (x_main s) as [|f below] eqn:Em; [|by rewrite app_nil_r].
    unfold x_answers. cbn. by rewrite omap_app, !app_nil_r.
  - cbn. destruct (x_main s) as [|f below] eqn:Em; [by rewrite <- app_assoc|]. rewrite app_nil_r. done.
Qed.

Lemma accounted_deliver reqs hash kind mime type v below s :
  x_main s = FWait hash kind mime type :: below -> x_accounted reqs s -> x_accounted reqs (deliver hash kind mime type v below s).
Proof.
  unfold x_accounted, x_under_way, deliver. intros Em ->. rewrite Em. destruct below as [|f below]; [|done].
  unfold x_answers. cbn. by rewrite omap_app, app_nil_r.
Qed.

Lemma x_accounted_step reqs l s s' :
  x11_exec l s = Some s' -> x_accounted reqs s -> x_accounted (reqs ++ x_request l s) s'.
Proof.
  intros E Ha. assert (Hnil : x_accounted (reqs ++ []) s) by (by rewrite app_nil_r).
  destruct l; cbn [x11_exec x_request] in *; rewrite ?app_nil_r.
  1-5: destruct (x_alive s); [|done]; apply (inj Some) in E; subst s'; try by eapply x_accounted_same, Ha.
  - unfold X11SetClipboardImage. destruct (DecodeWebP webp_bytes); [by eapply x_accounted_same, Ha|done].
  - unfold X11ProvideData. destruct (bytes_eqb _ _); [by eapply x_accounted_same, Ha|done].
  - destruct (x_posting s); [done|]. apply (inj Some) in E; subst s'. by eapply x_accounted_same, Ha.
  - destruct (x_queue s); [done|]. destruct (x_idle s); [|done]. apply (inj Some) in E; subst s'. by apply accounted_lambda.
  - destruct (x_main s) as [|f below] eqn:Em; [done|].
    destruct f; try done; apply (inj Some) in E; subst s'; (revert Ha; apply x_accounted_same; [done|]);
      unfold x_under_way; rewrite Em; symmetry; apply lowest_above; by left.
  - destruct (x_idle s); [|done]. apply (inj Some) in E; subst s'. by apply accounted_changed.
  - destruct (x_idle s); [|done]. apply (inj Some) in E; subst s'. by eapply x_accounted_same, Ha.
  - destruct (x_clipboard s) as [[id [| |hash kind|]]|]; try done. pose proof (accounted_retrieve reqs hash kind mimeType type s Ha) as Hr.
    destruct (x_main s) as [|f below]; [destruct (x_alive s)|destruct f; try done; destruct (_ =? _)]; try done; apply (inj Some) in E; by subst s'.
  - destruct (x_main s) as [|f below] eqn:Em; [done|]. destruct f; try done. apply (inj Some) in E; subst s'.
    assert (Hs : x_accounted reqs (set_frames (FWait hash_ kind_ mimeType type :: below) s)).
    { revert Ha. apply x_accounted_same; [done|]. unfold x_under_way. rewrite Em. cbn. by destruct below. }
    destruct (ds_on_request _); [|done]. revert Hs. unfold x_accounted, x_answers. intros ->. cbn. by rewrite omap_app, app_nil_r.
  - destruct (x_main s) as [|f below] eqn:Em; [done|]. destruct f; try done. destruct (_ || timed_out); [|done].
    apply (inj Some) in E; subst s'. by apply accounted_deliver.
  - destruct (x_main s) as [|f below] eqn:Em; [done|]. destruct f; try done. apply (inj Some) in E; subst s'. apply accounted_text.
    revert Ha. apply x_accounted_same; [done|]. unfold x_under_way. rewrite Em. symmetry. apply lowest_above. by left.
  - destruct (x_main s) as [|f below] eqn:Em; [done|]. destruct f; try done. apply (inj Some) in E; subst s'.
    assert (Hs : x_accounted reqs (set_frames below s)).
    { revert Ha. apply x_accounted_same; [done|]. unfold x_under_way. rewrite Em. symmetry. apply lowest_above. by left. }
    revert Hs. unfold x_accounted, x_answers. intros ->. cbn. by rewrite omap_app, app_nil_r.
  - destruct (x_idle s); [|done]. apply (inj Some) in E; subst s'. by eapply x_accounted_same, Ha.
Qed.

Lemma x_accounted_run ls reqs s s' : run_x11 ls s = Some s' -> x_accounted reqs s -> x_accounted (reqs ++ x_requests ls s) s'.
Proof.
  revert reqs s. induction ls as [|l ls IH]; intros reqs s E Ha; cbn [x_requests run_x11 run_exec] in *.
  - apply (inj Some) in E. subst. by rewrite app_nil_r.
  - destruct (x11_exec l s) as [s1|] eqn:E1; [|done]. rewrite app_assoc. apply IH; [done|]. by eapply x_accounted_step.
Qed.

Lemma x_due_requests ls s : forallb x_due ls = true -> x_requests ls s = [].
Proof.
  revert s. induction ls as [|l ls IH]; intros s Hl; cbn in *; [done|]. apply andb_prop in Hl as [Hl Hls].
  destruct (x11_exec l s); [|done]. rewrite IH by done. by destruct l.
Qed.

(** C15: Pastes end on X11.  From every state the backend can be in, whatever was
    announced, superseded or provided before, the steps the main thread has
    due inside a paste, a notification or a lambda are at most [x_todo] many;
    and when none is left it is back in its event loop, and the paste requests
    made from there since the start have been answered, each once and in
    order. *)
Theorem x11_pastes_end ls s ls' s' :
  run_x11 ls init_X11 = Some s -> forallb x_due ls' = true -> run_x11 ls' s = Some s' ->
  (length ls' <= x_todo s)%nat /\
  ((forall l, x_due l = true -> x11_exec l s' = None) -> x_main s' = [] /\ x_answers s' = x_requests ls init_X11).
Proof.
  intros E Hl E'. destruct (comes_to_rest x11_exec ls' s s') as [Hn Hrest]; [done|by apply (due_all_static _ x_due)|done|].
  split; [done|]. intros Hm%Hrest. cbn in Hm.
  split; [done|]. pose proof (x_accounted_run ls [] _ _ E eq_refl) as Ha. pose proof (x_accounted_run ls' _ _ _ E' Ha) as Ha'.
  rewrite (x_due_requests ls' s Hl), app_nil_r in Ha'. unfold x_accounted, x_under_way in Ha'. rewrite Hm in Ha'. cbn in Ha'. by rewrite app_nil_r in Ha'.
Qed.
End Pastes.

(** A paste of a superseded announcement, and one served at once. *)
#[local] Existing Instance no_codec.
#[local] Existing Instance plain_qt.
Definition x_busy_run : list X11Label :=
  [XCallbacks true true; XAnnounce (str "h1") KText; XPost; XRun false; XRecord; XAnnounce (str "h2") KText;
   XRetrieve (str "text/plain") TyOther].
Definition x_ending_run : list X11Label := [XAsk; XWake true].

Lemma x11_pastes_end_witness :
  exists s s', run_x11 x_busy_run init_X11 = Some s /\ run_x11 x_ending_run s = Some s' /\ x_main s' = [] /\
    x_answers s' = [(str "h1", str "text/plain")] /\ (length x_ending_run <= x_todo s)%nat.
Proof.
  do 2 eexists. split; [vm_compute; reflexivity|]. split; [vm_compute; reflexivity|].
  split; [reflexivity|]. split; [reflexivity|].
  eapply (x11_pastes_end x_busy_run); vm_compute; reflexivity.
Defined.
