(* ===== verification/PasteBackend.v ===== *)
(** * PasteBackend: what a session needs of a clipboard backend

    The dispatcher drives a backend through [ClipboardManager]; the backend's
    own threads and event loop run in between.  [PasteBackend] is what the
    session theorems use of it: its own steps, the callbacks it makes, the
    data it takes from callers; [PasteBackendLaws] says that data enters only
    through the methods, and each backend's file discharges it. *)

From S2P Require Import Prelude HelperProto WinCodec LinuxCodec LinuxDispatch.

(** A call of one of the two callbacks [Attach] installs. *)
Inductive CallbackCall :=
| CallRequest (hash : list Z)
| CallChanged (utf8 : list Z).

(** [backend_exec] runs the steps no caller makes, those of [backend_on_main] on
    the Qt main thread, which is [backend_main_idle] between events;
    [backend_accepted] is the history of the data taken from callers, each with
    the hash it is for; [backend_calls] the history of callback calls. *)
Class PasteBackend (S L : Type) `{ClipboardManager S} := {
  backend_exec : L -> S -> option S;
  backend_destroys : L -> bool;
  backend_on_main : L -> bool;
  backend_main_idle : S -> bool;
  backend_alive : S -> bool;
  backend_calls : S -> list CallbackCall;
  backend_accepted : S -> list (list Z * list Z);
  backend_ok : S -> Prop
}.

(** Nothing new, or one entry. *)
Definition grows {A} (x : A) (l l' : list A) : Prop := l' = l \/ l' = l ++ [x].

(** A method that takes no data. *)
Definition takes_nothing {S L} `{PasteBackend S L} (f : S -> S) : Prop :=
  forall s, backend_accepted (f s) = backend_accepted s /\ backend_calls (f s) = backend_calls s /\
    backend_alive (f s) = backend_alive s /\ (backend_ok s -> backend_ok (f s)).
(** A method that may take [data] for [hash]. *)
Definition takes {S L} `{PasteBackend S L} (hash data : list Z) (f : S -> S) : Prop :=
  forall s, grows (hash, data) (backend_accepted s) (backend_accepted (f s)) /\ backend_calls (f s) = backend_calls s /\
    backend_alive (f s) = backend_alive s /\ (backend_ok s -> backend_ok (f s)).

Class PasteBackendLaws (S L : Type) `{PasteBackend S L} := {
  own_accepts l s s' : backend_exec l s = Some s' -> backend_accepted s' = backend_accepted s;
  own_ok l s s' : backend_exec l s = Some s' -> backend_ok s -> backend_ok s';
  own_calls l s s' : backend_exec l s = Some s' -> backend_calls s `prefix_of` backend_calls s';
  own_alive l s s' : backend_exec l s = Some s' -> backend_destroys l = false -> backend_alive s' = backend_alive s;
  destroys_on_main l : backend_destroys l = true -> backend_on_main l = true;
  text_takes utf8 : takes utf8 utf8 (SetClipboardText utf8);
  image_takes webp : takes webp webp (SetClipboardImage webp);
  announce_text_takes hash : takes_nothing (AnnounceDelayedText hash);
  announce_image_takes hash : takes_nothing (AnnounceDelayedImage hash);
  announce_files_takes hash : takes_nothing (AnnounceDelayedFiles hash);
  provide_takes hash data : takes hash data (ManagerProvideData hash data);
  on_changed_takes cb : takes_nothing (SetOnClipboardChanged cb);
  on_request_takes cb : takes_nothing (SetOnDataRequest cb)
}.

(** ** Sessions *)

Inductive SessionLabel (L : Type) :=
| SFrame (frame : list Z) (clock : Z)
| SBackend (l : L).
Arguments SFrame {L} frame clock.
Arguments SBackend {L} l.

(** The data a frame hands over, as the decoder of the helper reads it: for a
    hash, or eagerly, where the data is its own hash. *)
Definition carries (frame hash data : list Z) : Prop :=
  exists msg, LinuxParseHelperMessage frame = Done msg /\
    ((lm_type msg = ProvideData /\ exists sub pd, lm_provide_data msg = Some sub /\ LinuxParseProvideData sub = Done pd /\
        lpd_content_hash pd = hash /\ lpd_data pd = data) \/
     (lm_type msg = HelperProto.SetClipboard /\ exists sub cd, lm_clipboard_data msg = Some sub /\ LinuxParseClipboardData sub = Done cd /\
        default [] (lcd_payload cd) = data /\ hash = data)).

Section Session.
Context {S L : Type} `{PasteBackendLaws S L}.

Definition with_backend (s : S) (d : LinuxDispatcher S) : LinuxDispatcher S := on_backend (fun _ => s) d.

(** The socket server is stopped before the backend is destroyed. *)
Definition session_exec (l : SessionLabel L) (d : LinuxDispatcher S) : option (LinuxDispatcher S) :=
  match clipboard_ d with
  | None => None
  | Some s =>
      match l with
      | SFrame frame clock =>
          if backend_alive s then let '(_, d', _) := LinuxHandle frame clock d in Some d' else None
      | SBackend l => option_map (fun s' => with_backend s' d) (backend_exec l s)
      end
  end.
Definition run_session : list (SessionLabel L) -> LinuxDispatcher S -> option (LinuxDispatcher S) :=
  run_exec session_exec.

(** The dispatcher [main] builds over a backend, once [Attach] has run. *)
Definition attached_session (s : S) : LinuxDispatcher S :=
  {| clipboard_ := Some (SetOnDataRequest (Some (on_request_callback true))
                           (SetOnClipboardChanged (Some (on_changed_callback true)) s));
     socket_ := true; on_shutdown_request_ := true; attached_ := true |}.

Lemma attached_session_Attach s :
  Attach {| clipboard_ := Some s; socket_ := true; on_shutdown_request_ := true; attached_ := false |} =
    Some (attached_session s).
Proof. done. Qed.

(** ** Each frame is at most one call of the backend *)

(** What a frame does to the backend: nothing, or one call. *)
Inductive frame_call (frame : list Z) (s : S) : S -> Prop :=
| call_none : frame_call frame s s
| call_quiet f : takes_nothing f -> frame_call frame s (f s)
| call_takes hash data f : takes hash data f -> carries frame hash data -> frame_call frame s (f s).

Lemma present_some p data : present p = Some data -> p = Some data.
Proof. destruct p as [[|c rest]|]; try done. Qed.

Lemma handle_call frame clock d s reply d' sd :
  clipboard_ d = Some s -> LinuxHandle frame clock d = (reply, d', sd) ->
  exists s', clipboard_ d' = Some s' /\ frame_call frame s s'.
Proof.
  intros Hd E. unfold LinuxHandle in E.
  assert (Hnone : forall r, (reply, d', sd) = replied r d -> exists s', clipboard_ d' = Some s' /\ frame_call frame s s').
  { intros r [= -> -> ->]. exists s. split; [done|constructor]. }
  destruct (LinuxParseHelperMessage frame) as [msg| |] eqn:Em; [|by eapply Hnone..].
  destruct (lm_type msg) eqn:Et; try (by eapply Hnone).
  - (* SetClipboard *) unfold LinuxHandleSetClipboard in E. destruct (present (lm_clipboard_data msg)) as [sub|] eqn:Ep; [|by eapply Hnone].
    apply present_some in Ep. destruct (LinuxParseClipboardData sub) as [cd| |] eqn:Ec; [|by eapply Hnone..]. rewrite Hd in E.
    assert (Hc : carries frame (default [] (lcd_payload cd)) (default [] (lcd_payload cd))).
    { exists msg. split; [done|]. right. split; [done|]. exists sub, cd. by split_and!. }
    destruct (lcd_content_type cd); try (by eapply Hnone); injection E as <- <- <-; cbn; rewrite Hd; cbn;
      (eexists; split; [reflexivity|]); eapply call_takes; eauto using text_takes, image_takes.
  - (* AnnounceDelayed *) unfold LinuxHandleAnnounceDelayed in E. destruct (present (lm_announcement msg)) as [sub|]; [|by eapply Hnone].
    destruct (LinuxParseAnnouncement sub) as [ann| |]; [|by eapply Hnone..]. rewrite Hd in E.
    destruct (lann_content_type ann); try (by eapply Hnone); injection E as <- <- <-; cbn; rewrite Hd; cbn;
      (eexists; split; [reflexivity|]);
      apply call_quiet; auto using announce_text_takes, announce_image_takes, announce_files_takes.
  - (* ProvideData *) unfold LinuxHandleProvideData in E. destruct (present (lm_provide_data msg)) as [sub|] eqn:Ep; [|by eapply Hnone].
    apply present_some in Ep. destruct (LinuxParseProvideData sub) as [pd| |] eqn:Ec; [|by eapply Hnone..].
    injection E as <- <- <-. cbn. rewrite Hd. cbn. eexists. split; [reflexivity|].
    eapply call_takes; [apply provide_takes|]. exists msg. split; [done|]. left. split; [done|]. exists sub, pd. by split_and!.
  - unfold LinuxHandleGetClipboard in E. destruct (clipboard_ d); by eapply Hnone.
  - unfold LinuxHandleShutdown in E. injection E as <- <- <-. exists s. split; [done|constructor].
Qed.

(** ** Where accepted data comes from *)

(** All data in the backend was carried by one of [frames]. *)
Definition from_frames (frames : list (list Z)) (s : S) : Prop :=
  forall hash data, (hash, data) ∈ backend_accepted s -> exists frame, frame ∈ frames /\ carries frame hash data.

Lemma frame_call_accepts frames frame s s' :
  frame ∈ frames -> frame_call frame s s' -> from_frames frames s -> from_frames frames s'.
Proof.
  intros Hin Hc Hf. destruct Hc as [|f Ht|hash data f Ht Hc]; [done| |].
  - intros h dt Hh. rewrite (proj1 (Ht s)) in Hh. eauto.
  - intros h dt Hh. destruct (proj1 (Ht s)) as [E|E]; rewrite E in Hh; [eauto|].
    apply elem_of_app in Hh as [Hh|Hh]; [eauto|]. apply list_elem_of_singleton in Hh. simplify_eq. eauto.
Qed.

Lemma frame_call_ok frame s s' : frame_call frame s s' -> backend_ok s -> backend_ok s'.
Proof. destruct 1 as [|f Ht|hash data f Ht _]; [done| |]; apply (Ht s). Qed.

Lemma frame_call_calls frame s s' :
  frame_call frame s s' -> backend_calls s' = backend_calls s /\ backend_alive s' = backend_alive s.
Proof. destruct 1 as [|f Ht|hash data f Ht _]; [done| |]; destruct (Ht s) as (_ & ? & ? & _); done. Qed.

Definition session_frames (ls : list (SessionLabel L)) : list (list Z) :=
  omap (fun l => match l with SFrame frame _ => Some frame | SBackend _ => None end) ls.

Definition session_inv (frames : list (list Z)) (d : LinuxDispatcher S) : Prop :=
  exists s, clipboard_ d = Some s /\ backend_ok s /\ from_frames frames s.

Lemma session_frame_inv frames frame clock d reply d' sd :
  frame ∈ frames -> LinuxHandle frame clock d = (reply, d', sd) -> session_inv frames d -> session_inv frames d'.
Proof.
  intros Hin E (s & Hd & Hok & Hf). destruct (handle_call _ _ _ _ _ _ _ Hd E) as (s' & Hd' & Hc).
  exists s'. split_and!; eauto using frame_call_ok, frame_call_accepts.
Qed.

Lemma session_own_inv frames l s s' d :
  clipboard_ d = Some s -> backend_exec l s = Some s' -> session_inv frames d -> session_inv frames (with_backend s' d).
Proof.
  intros Hd E (s0 & Hd0 & Hok & Hf). rewrite Hd in Hd0. injection Hd0 as <-. exists s'. split; [cbn; by rewrite Hd|].
  split; [by eapply own_ok|]. intros h dt Hh. rewrite (own_accepts _ _ _ E) in Hh. eauto.
Qed.

Lemma session_step frames l d d' :
  (match l with SFrame frame _ => frame ∈ frames | SBackend _ => True end) ->
  session_exec l d = Some d' -> session_inv frames d -> session_inv frames d'.
Proof.
  intros Hin E Hi. pose proof Hi as (s & Hd & _). unfold session_exec in E. rewrite Hd in E. destruct l as [frame clock|l].
  - destruct (backend_alive s); [|discriminate E].
    destruct (LinuxHandle frame clock d) as [[reply d1] sd] eqn:EH. apply (inj Some) in E. subst d1.
    by eapply session_frame_inv.
  - destruct (backend_exec l s) as [s'|] eqn:EB; [|discriminate E]. apply (inj Some) in E. subst d'. by eapply session_own_inv.
Qed.

Lemma attached_session_inv s : backend_ok s -> backend_accepted s = [] -> session_inv [] (attached_session s).
Proof.
  intros Hok Ha. destruct (on_changed_takes (Some (on_changed_callback true)) s) as (Ha1 & _ & _ & Hok1).
  destruct (on_request_takes (Some (on_request_callback true)) (SetOnClipboardChanged (Some (on_changed_callback true)) s))
    as (Ha2 & _ & _ & Hok2).
  eexists. split; [reflexivity|]. split; [auto|]. intros h dt Hh. rewrite Ha2, Ha1, Ha in Hh. by apply elem_of_nil in Hh.
Qed.

Lemma session_inv_mono frames frames' d : frames ⊆ frames' -> session_inv frames d -> session_inv frames' d.
Proof.
  intros Hsub (s & Hd & Hok & Hf). exists s. split_and!; [done|done|]. intros h dt Hh.
  destruct (Hf _ _ Hh) as (frame & ? & ?). eauto.
Qed.

(** In every session the backend is well formed and holds only data that one of
    the session's frames carried. *)
Lemma session_reachable ls s d :
  backend_ok s -> backend_accepted s = [] -> run_session ls (attached_session s) = Some d ->
  session_inv (session_frames ls) d.
Proof.
  intros Hok Ha E.
  eapply (run_exec_invariant session_exec (session_inv (session_frames ls))
            (fun l => match l with SFrame frame _ => frame ∈ session_frames ls | SBackend _ => True end)); [| |exact E|].
  - intros l d0 d1. apply session_step.
  - apply Forall_forall. intros [frame clock|l] Hin; [|done]. apply list_elem_of_omap. by exists (SFrame frame clock).
  - eapply session_inv_mono; [|by apply attached_session_inv]. apply list_subseteq_nil.
Qed.

End Session.
