(* ===== verification/LinuxSession.v ===== *)
(** * LinuxSession: the dispatcher over the Wayland, X11 and stub backends

    What [main] wires together on Linux: frames of the peer go through
    [LinuxHandle] to the backend of [ExtManager.v] or [X11Manager.v], whose
    threads and event loop run in between.  Each backend is an instance of
    [PasteBackend], which carries the session lemmas; here is what a session
    means for the applications that paste. *)

From S2P Require Import Prelude HelperProto WinCodec LinuxCodec LinuxDispatch UriList ExtManager X11Manager PasteBackend.

(** ** The Wayland backend as a [PasteBackend] *)
Section Ext.
Context {codec : ImageCodec}.

(** The methods of [ClipboardManager] are called by frames only. *)
Definition own_step (l : ExtLabel) : bool :=
  match l with XlSetText _ | XlSetImage _ | XlAnnounce _ _ | XlProvide _ _ | XlCallbacks _ _ => false | _ => true end.
Definition ext_own (l : ExtLabel) (s : ExtManager) : option ExtManager := if own_step l then ext_exec l s else None.

Definition ext_calls (s : ExtManager) : list CallbackCall :=
  omap (fun o => match o with
                 | OutRequest hash => Some (CallRequest hash)
                 | OutChanged text => Some (CallChanged text)
                 | OutPaste _ _ _ _ => None
                 end) (m_outputs s).
Definition ext_accepted (s : ExtManager) : list (list Z * list Z) := map (fun a => (a.1.1, a.2)) (m_accepted s).

#[export] Instance ext_backend : PasteBackend ExtManager ExtLabel := {
  backend_exec := ext_own;
  backend_destroys := fun l => match l with XlDestroy => true | _ => false end;
  backend_on_main := fun l =>
    match l with XlInvoke | XlWake _ _ | XlWrite _ _ | XlDrain _ _ | XlCache _ | XlCallback _ => false | _ => true end;
  backend_main_idle := main_idle;
  backend_alive := fun s => negb (stop (m_state s));
  backend_calls := ext_calls;
  backend_accepted := ext_accepted;
  backend_ok := paste_inv
}.

Lemma ext_own_spec l s s' : ext_own l s = Some s' -> own_step l = true /\ ext_exec l s = Some s'.
Proof. unfold ext_own. by destruct (own_step l). Qed.

(** An own step takes no data, makes its outputs after the earlier ones, and
    only the destructor sets [stop]. *)
Lemma own_step_history l s s' : own_step l = true -> ext_exec l s = Some s' ->
  m_accepted s' = m_accepted s /\ m_outputs s `prefix_of` m_outputs s' /\
  (stop (m_state s') = stop (m_state s) \/ l = XlDestroy).
Proof.
  intros Ho E. destruct l; cbn [own_step] in Ho; try discriminate Ho; cbn [ext_exec] in E; repeat case_match; try discriminate E;
    try (destruct (finish_paste _ _ _ _ _ s) as [s1|] eqn:EF; [|discriminate E]; apply finish_paste_shape in EF as (written & ->));
    try (destruct (WaitAndWriteOnWorker _ _ _ _ _); [|discriminate E]);
    try (apply (inj Some) in E; subst s'); unfold OnDeviceSelection; repeat case_match; cbn;
    split_and!; auto using prefix_app_r.
Qed.

Lemma omap_prefix {A B} (f : A -> option B) l l' : l `prefix_of` l' -> omap f l `prefix_of` omap f l'.
Proof. intros [k ->]. rewrite omap_app. by apply prefix_app_r. Qed.

#[export] Instance ext_backend_laws : PasteBackendLaws ExtManager ExtLabel.
Proof.
  split; cbn.
  - intros l s s' (Ho & E)%ext_own_spec. unfold ext_accepted. by rewrite (proj1 (own_step_history _ _ _ Ho E)).
  - intros l s s' (Ho & E)%ext_own_spec. exact (paste_inv_step _ _ _ E).
  - intros l s s' (Ho & E)%ext_own_spec. apply omap_prefix. apply (own_step_history _ _ _ Ho E).
  - intros l s s' (Ho & E)%ext_own_spec Hl. destruct (own_step_history _ _ _ Ho E) as (_ & _ & [-> | ->]); done.
  - by intros [].
  - intros utf8 s. split_and!; [right; unfold ext_accepted; cbn; by rewrite map_app|done|done|apply SetClipboard_ok].
  - intros webp s. split_and!; [right; unfold ext_accepted; cbn; by rewrite map_app|done|done|apply SetClipboard_ok].
  - intros hash s. split_and!; [done|done|done|apply AnnounceDelayed_ok].
  - intros hash s. split_and!; [done|done|done|apply AnnounceDelayed_ok].
  - intros hash s. split_and!; [done|done|done|apply AnnounceDelayed_ok].
  - intros hash data s. split_and!; [| | |apply ExtProvideData_ok]; cbn; unfold ExtProvideData;
      (destruct (bytes_eqb _ _); [|by (done || left)]); [|done|done]. right. unfold ext_accepted. cbn. by rewrite map_app.
  - intros cb s. split_and!; [done|done|done|]. intros Hi. apply set_state_ok; [done|apply (pi_pending _ Hi)].
  - intros cb s. split_and!; [done|done|done|]. intros Hi. apply set_state_ok; [done|apply (pi_pending _ Hi)].
Qed.
End Ext.

(** ** The stub as a [PasteBackend]

    [main] falls back to it; it has no threads, and nobody pastes from it. *)
Record StubObject := { so_manager : StubClipboardManager; so_alive : bool }.

Definition on_stub (f : StubClipboardManager -> StubClipboardManager) (o : StubObject) : StubObject :=
  {| so_manager := f (so_manager o); so_alive := so_alive o |}.

#[export] Instance stub_object_manager : ClipboardManager StubObject := {
  SetClipboardText := fun utf8 => on_stub (SetClipboardText utf8);
  SetClipboardImage := fun webp => on_stub (SetClipboardImage webp);
  AnnounceDelayedText := fun hash => on_stub (AnnounceDelayedText hash);
  AnnounceDelayedImage := fun hash => on_stub (AnnounceDelayedImage hash);
  AnnounceDelayedFiles := fun hash => on_stub (AnnounceDelayedFiles hash);
  ManagerProvideData := fun hash data => on_stub (ManagerProvideData hash data);
  GetClipboardText := fun o => GetClipboardText (so_manager o);
  SetOnClipboardChanged := fun cb => on_stub (SetOnClipboardChanged cb);
  SetOnDataRequest := fun cb => on_stub (SetOnDataRequest cb)
}.

(** Its only step of its own is the destructor. *)
#[export] Instance stub_backend : PasteBackend StubObject unit := {
  backend_exec := fun _ o => if so_alive o then Some {| so_manager := so_manager o; so_alive := false |} else None;
  backend_destroys := fun _ => true;
  backend_on_main := fun _ => true;
  backend_main_idle := so_alive;
  backend_alive := so_alive;
  backend_calls := fun _ => [];
  backend_accepted := fun _ => [];
  backend_ok := fun _ => True
}.

#[export] Instance stub_backend_laws : PasteBackendLaws StubObject unit.
Proof. split; cbn; try done; unfold takes, takes_nothing; intros; split_and!; try done; by left. Qed.

(** ** The X11 backend as a [PasteBackend] *)
Section X11.
Context {codec : ImageCodec} {qt : QtText}.

Definition x11_own_step (l : X11Label) : bool :=
  match l with XSetText _ | XSetImage _ | XAnnounce _ _ | XProvide _ _ | XCallbacks _ _ => false | _ => true end.
Definition x11_own (l : X11Label) (s : X11ClipboardManager) : option X11ClipboardManager :=
  if x11_own_step l then x11_exec l s else None.

Definition x11_calls (s : X11ClipboardManager) : list CallbackCall :=
  omap (fun o => match o with
                 | XoRequest hash => Some (CallRequest hash)
                 | XoChanged utf8 => Some (CallChanged utf8)
                 | XoPaste _ _ _ _ _ => None
                 end) (x_outputs s).

#[export] Instance x11_backend : PasteBackend X11ClipboardManager X11Label := {
  backend_exec := x11_own;
  backend_destroys := fun l => match l with XDestroy => true | _ => false end;
  backend_on_main := fun l => match l with XPost => false | _ => true end;
  backend_main_idle := x_idle;
  backend_alive := x_alive;
  backend_calls := x11_calls;
  backend_accepted := x_accepted;
  backend_ok := x_paste_inv
}.

Lemma x11_own_spec l s s' : x11_own l s = Some s' -> x11_own_step l = true /\ x11_exec l s = Some s'.
Proof. unfold x11_own. by destruct (x11_own_step l). Qed.

(** The part of the state a session looks at. *)
Definition x_history (s s' : X11ClipboardManager) : Prop :=
  x_accepted s' = x_accepted s /\ x_outputs s `prefix_of` x_outputs s' /\ x_alive s' = x_alive s.

Lemma text_history t s : x_history s (OnClipboardChanged_text t s).
Proof.
  destruct (OnClipboardChanged_text_same t s) as (Ea & Eo & _). split_and!; [done|by rewrite Eo|].
  unfold OnClipboardChanged_text. by repeat case_match.
Qed.
Lemma changed_history s : x_history s (OnClipboardChanged s).
Proof.
  destruct (OnClipboardChanged_same s) as (Ea & Eo & _). split_and!; [done|by rewrite Eo|].
  unfold OnClipboardChanged, OnClipboardChanged_text. by repeat case_match.
Qed.
Lemma deliver_history hash kind mt ty v below s : x_history s (deliver hash kind mt ty v below s).
Proof. unfold deliver. destruct below; split_and!; cbn; auto using prefix_app_r. Qed.
Lemma history_trans s s1 s2 : x_history s s1 -> x_history s1 s2 -> x_history s s2.
Proof. intros (? & ? & ?) (? & ? & ?). split_and!; [congruence|by etrans|congruence]. Qed.
Lemma history_plain s s' : x_accepted s' = x_accepted s -> x_outputs s' = x_outputs s -> x_alive s' = x_alive s -> x_history s s'.
Proof. intros ? E ?. split_and!; [done|by rewrite E|done]. Qed.

Lemma retrieve_history hash kind mt ty s : x_history s (retrieveData hash kind mt ty s).
Proof. unfold retrieveData. case_match; [apply deliver_history|by apply history_plain]. Qed.
Lemma lambda_history l sync posting queue s : x_history s (run_lambda l sync (set_posted posting queue s)).
Proof.
  unfold run_lambda. destruct l, sync; try (by apply history_plain);
    (eapply history_trans; [|apply changed_history]); by apply history_plain.
Qed.

Lemma x11_own_history l s s' : x11_own_step l = true -> x11_exec l s = Some s' ->
  x_history s s' \/ l = XDestroy /\ x_accepted s' = x_accepted s /\ x_outputs s' = x_outputs s.
Proof.
  intros Ho E. destruct l; cbn [x11_own_step] in Ho; try discriminate Ho; cbn [x11_exec] in E; repeat case_match; try discriminate E;
    apply (inj Some) in E; subst s'; try (by right);
    left; try (by apply history_plain);
    try first [apply changed_history | apply deliver_history | apply retrieve_history | apply lambda_history];
    try (by (split_and!; cbn; auto using prefix_app_r)).
  eapply history_trans; [|apply text_history]. by apply history_plain.
Qed.

#[export] Instance x11_backend_laws : PasteBackendLaws X11ClipboardManager X11Label.
Proof.
  split; cbn.
  - intros l s s' (Ho & E)%x11_own_spec. by destruct (x11_own_history _ _ _ Ho E) as [(? & _)|(_ & ? & _)].
  - intros l s s' (Ho & E)%x11_own_spec. exact (x_paste_inv_step _ _ _ E).
  - intros l s s' (Ho & E)%x11_own_spec. apply omap_prefix.
    destruct (x11_own_history _ _ _ Ho E) as [(_ & ? & _)|(_ & _ & ->)]; done.
  - intros l s s' (Ho & E)%x11_own_spec Hl. by destruct (x11_own_history _ _ _ Ho E) as [(_ & _ & ?)|(-> & _)].
  - by intros [].
  - intros utf8 s. split_and!; [by left|done|done|]. by apply x_paste_inv_same.
  - intros webp s. unfold X11SetClipboardImage. destruct (DecodeWebP webp); split_and!; try done; try (by left).
    by apply x_paste_inv_same.
  - intros hash s. split_and!; [done|done|done|apply x_paste_inv_announce].
  - intros hash s. split_and!; [done|done|done|apply x_paste_inv_announce].
  - intros hash s. split_and!; [done|done|done|apply x_paste_inv_announce].
  - intros hash data s. split_and!; [| | |apply x_paste_inv_provide]; unfold X11ProvideData;
      (destruct (bytes_eqb _ _); [|by (done || left)]); [by right|done|done].
  - intros cb s. split_and!; [done|done|done|]. by apply x_paste_inv_same.
  - intros cb s. split_and!; [done|done|done|]. by apply x_paste_inv_same.
Qed.
End X11.

(** ** What applications are given *)
Section Pastes.
Context {codec : ImageCodec}.

(** A well-formed backend whose data all came from [frames]. *)
Lemma ext_pastes_carried frames d s fd hash mime bytes :
  session_inv (S := ExtManager) (L := ExtLabel) frames d -> clipboard_ d = Some s -> OutPaste fd hash mime bytes ∈ m_outputs s ->
  bytes = [] \/
  exists frame kind data, frame ∈ frames /\ carries frame hash data /\ bytes `prefix_of` materialise kind data mime.
Proof.
  intros (s' & Hd' & Hp & Hf) Hd Hin. rewrite Hd in Hd'. injection Hd' as <-.
  pose proof (pi_outputs _ Hp) as Ho. rewrite Forall_forall in Ho.
  destruct (Ho _ Hin) as (payload & [->|(kind & data & Hacc & ->)] & Hpre); [left; by apply prefix_nil_inv|right].
  destruct (Hf hash data) as (frame & Hfr & Hc); [|by exists frame, kind, data].
  apply list_elem_of_fmap. by exists (hash, kind, data).
Qed.

Lemma x11_pastes_carried {qt : QtText} frames d s hash kind mimeType type v :
  session_inv (S := X11ClipboardManager) (L := X11Label) frames d -> clipboard_ d = Some s ->
  XoPaste hash kind mimeType type v ∈ x_outputs s ->
  v = VNull \/ exists frame data, frame ∈ frames /\ carries frame hash data /\ v = Materialise kind data mimeType type.
Proof.
  intros (s' & Hd' & Hp & Hf) Hd Hin. rewrite Hd in Hd'. injection Hd' as <-.
  pose proof (xp_outputs _ Hp) as Ho. rewrite Forall_forall in Ho.
  destruct (Ho _ Hin) as [->|(data & Hacc & ->)]; [by left|right].
  destruct (Hf hash data Hacc) as (frame & Hfr & Hc). by exists frame, data.
Qed.

(** *** The Wayland selection after an announcement *)

(** The helper owns the selection with an object of [kind]: a source that
    exists, offers exactly the MIME types of [kind] and was the last one passed
    to [set_selection]. *)
Definition owns_selection (kind : ContentKind) (w : Wayland) : Prop :=
  exists src, current_source_ w = Some src /\ src ∈ wl_sources w /\ wl_offered w = mimes_of kind /\
    last (wl_selected w) = Some src.

(** Another application taking the selection, and a source that cannot be made. *)
Definition keeps_selection (l : ExtLabel) : bool :=
  match l with XlMain created => created | XlCancelled | XlDestroy => false | _ => true end.

(** The newest announcement is still to be made, or the selection is its. *)
Definition selection_inv (kind : ContentKind) (s : ExtManager) : Prop :=
  device_ (m_wl s) = true /\
  (last (m_queue s ++ m_invoking s) = Some kind \/ (m_queue s ++ m_invoking s = [] /\ owns_selection kind (m_wl s))).

Lemma recreate_owns kind w : device_ w = true -> owns_selection kind (RecreateSource kind true w).
Proof.
  intros Hd. unfold RecreateSource. rewrite Hd. cbn. eexists. split_and!; [reflexivity| |reflexivity|]; cbn; [set_solver|].
  by rewrite last_snoc.
Qed.
Lemma recreate_device kind created w : device_ (RecreateSource kind created w) = device_ w.
Proof.
  unfold RecreateSource. destruct (device_ w) eqn:E; cbn [negb]; [|done]. unfold destroy_source.
  destruct created; cbn [negb]; by destruct (current_source_ w).
Qed.

Lemma selection_inv_same kind s s' :
  m_queue s' ++ m_invoking s' = m_queue s ++ m_invoking s -> device_ (m_wl s') = device_ (m_wl s) ->
  (owns_selection kind (m_wl s) -> owns_selection kind (m_wl s')) -> selection_inv kind s -> selection_inv kind s'.
Proof. intros Eq Ed Ho [Hd [Hl|[Hq Hs]]]; (split; [by rewrite Ed|]); rewrite Eq; [by left|right]; split; [done|auto]. Qed.

Lemma selection_inv_offer kind offer pipe s : selection_inv kind s -> selection_inv kind (OnDeviceSelection offer pipe s).
Proof.
  unfold OnDeviceSelection, DrainOtherOffers. intros Hi. destruct offer as [o|]; [|by apply (selection_inv_same kind s)].
  destruct (current_source_ (m_wl s)) eqn:Ec; [by apply (selection_inv_same kind s)|].
  destruct (choose_mime _), pipe; by apply (selection_inv_same kind s).
Qed.

Lemma selection_step kind l s s' :
  own_step l = true -> keeps_selection l = true -> ext_exec l s = Some s' -> selection_inv kind s -> selection_inv kind s'.
Proof.
  intros Ho Hk E Hi. destruct l; cbn [own_step keeps_selection] in Ho, Hk; try discriminate Ho; try discriminate Hk; cbn [ext_exec] in E;
    repeat case_match; try discriminate E;
    try (destruct (finish_paste _ _ _ _ _ s) as [s1|] eqn:EF; [|discriminate E]; apply finish_paste_shape in EF as (written & ->));
    try (destruct (WaitAndWriteOnWorker _ _ _ _ _); [|discriminate E]); apply (inj Some) in E; subst s';
    try (by apply (selection_inv_same kind s));
    try (by apply selection_inv_offer);
    try (by (unfold OnOfferMime in *; repeat case_match; apply (selection_inv_same kind s))).
  - (* XlInvoke *) apply (selection_inv_same kind s); try done. cbn.
    match goal with H : m_invoking s = _ |- _ => rewrite H end. by rewrite <- app_assoc.
  - (* XlMain *) subst. destruct Hi as [Hd Hq]. split; cbn; [by rewrite recreate_device|].
    match goal with H : m_queue s = _ |- _ => rewrite H in Hq end. cbn in Hq. destruct Hq as [Hq|[Hq _]]; [|done].
    match goal with |- context [?a ++ m_invoking s] => destruct (a ++ m_invoking s) as [|k rest] eqn:Er end; [|by left].
    right. split; [done|]. cbn in Hq. injection Hq as ->. by apply recreate_owns.
Qed.

(** *** The stages of a paste *)

(** Steps that neither stop the helper nor let a worker's ten seconds pass. *)
Definition calm_own (l : ExtLabel) : Prop := match l with XlDestroy | XlWake _ true => False | _ => True end.

(** [hash] is announced with [kind], and [pend] is the data there is for it. *)
Record in_force_with (hash : list Z) (kind : ContentKind) (pend : option (list Z)) (x : ExtState) : Prop := {
  if_hash : current_hash x = hash;
  if_kind : content_kind x = kind;
  if_stop : stop x = false;
  if_request : on_request x = true;
  if_pend : provided hash x = pend
}.

(** An output made since [base]. *)
Definition since (base : list Output) (s : ExtManager) (o : Output) : Prop :=
  exists new, m_outputs s = base ++ new /\ o ∈ new.

(** A paste of [hash] into [fd] by worker [i]: the request is to be sent, the
    worker waits, it has the representation of the data, it has written what
    the pipe took of it. *)
Inductive paste_stage (ls : list ExtLabel) (base : list Output) (fd : Z) (hash mime : list Z) (kind : ContentKind)
    (pend : option (list Z)) (i : nat) (s : ExtManager) : Prop :=
| ps_asking : m_main s = MRequest fd hash mime -> i = length (m_workers s) -> base `prefix_of` m_outputs s ->
    paste_stage ls base fd hash mime kind pend i s
| ps_waiting : m_workers s !! i = Some (WWait fd hash mime) -> since base s (OutRequest hash) ->
    paste_stage ls base fd hash mime kind pend i s
| ps_writing data : pend = Some data -> m_workers s !! i = Some (WWrite fd hash mime (materialise kind data mime)) ->
    since base s (OutRequest hash) -> paste_stage ls base fd hash mime kind pend i s
| ps_done data answers written ok : pend = Some data -> XlWrite i answers ∈ ls ->
    WriteAll answers (materialise kind data mime) = (written, Some ok) ->
    since base s (OutRequest hash) -> since base s (OutPaste fd hash mime written) ->
    paste_stage ls base fd hash mime kind pend i s.

Lemma since_mono base s s' o : m_outputs s `prefix_of` m_outputs s' -> since base s o -> since base s' o.
Proof.
  intros [k E] (new & En & Hin). exists (new ++ k). split; [by rewrite E, En, <- app_assoc|]. apply elem_of_app. by left.
Qed.
Lemma since_here base s o : base `prefix_of` m_outputs s -> since base (output o s) o.
Proof.
  intros [k E]. exists (k ++ [o]). cbn. rewrite E, <- app_assoc. split; [done|]. apply elem_of_app. right. apply list_elem_of_here.
Qed.

(** Own steps leave the announcement and its data alone. *)
Lemma own_step_state hash kind pend l s s' :
  own_step l = true -> calm_own l -> ext_exec l s = Some s' ->
  in_force_with hash kind pend (m_state s) -> in_force_with hash kind pend (m_state s').
Proof.
  intros Ho Hc E [H1 H2 H3 H4 H5]. destruct l; cbn [own_step calm_own] in Ho, Hc; try discriminate Ho; try done; cbn [ext_exec] in E;
    repeat case_match; try discriminate E;
    try (destruct (finish_paste _ _ _ _ _ s) as [s1|] eqn:EF; [|discriminate E]; apply finish_paste_shape in EF as (written & ->));
    try (destruct (WaitAndWriteOnWorker _ _ _ _ _); [|discriminate E]);
    apply (inj Some) in E; subst s'; unfold OnDeviceSelection; repeat case_match; by split.
Qed.

(** The worker a step is of. *)
Definition step_worker (l : ExtLabel) : option nat :=
  match l with XlWake i _ | XlWrite i _ | XlDrain i _ | XlCache i | XlCallback i => Some i | _ => None end.

Lemma own_step_worker l s s' i w :
  own_step l = true -> ext_exec l s = Some s' -> step_worker l <> Some i -> m_workers s !! i = Some w -> m_workers s' !! i = Some w.
Proof.
  intros Ho E Hne Hi. destruct l; cbn [own_step step_worker] in Ho, Hne; try discriminate Ho; cbn [ext_exec] in E;
    repeat case_match; try discriminate E;
    try (destruct (finish_paste _ _ _ _ _ s) as [s1|] eqn:EF; [|discriminate E]; apply finish_paste_shape in EF as (written & ->));
    try (destruct (WaitAndWriteOnWorker _ _ _ _ _); [|discriminate E]);
    apply (inj Some) in E; subst s'; unfold OnDeviceSelection; repeat case_match; cbn;
    try done; try (rewrite list_lookup_insert_ne by congruence; done); by apply lookup_app_l_Some.
Qed.

(** While the main thread is to send the request, no worker is started. *)
Lemma own_step_asking l s s' fd hash mime :
  own_step l = true -> calm_own l -> l <> XlMainRequest -> ext_exec l s = Some s' -> m_main s = MRequest fd hash mime ->
  m_main s' = MRequest fd hash mime /\ length (m_workers s') = length (m_workers s).
Proof.
  intros Ho Hc Hne E Hm. assert (Hidle : main_idle s = false) by (unfold main_idle; by rewrite Hm).
  destruct l; cbn [own_step calm_own] in Ho, Hc; try discriminate Ho; try done; cbn [ext_exec] in E; rewrite ?Hidle, ?Hm in E;
    repeat case_match; try discriminate E;
    try (destruct (finish_paste _ _ _ _ _ s) as [s1|] eqn:EF; [|discriminate E]; apply finish_paste_shape in EF as (written & ->));
    try (destruct (WaitAndWriteOnWorker _ _ _ _ _); [|discriminate E]);
    apply (inj Some) in E; subst s'; cbn; rewrite ?length_insert; done.
Qed.

Lemma paste_stage_step ls base fd hash mime kind pend i l s s' :
  own_step l = true -> calm_own l -> ext_exec l s = Some s' -> in_force_with hash kind pend (m_state s) ->
  paste_stage ls base fd hash mime kind pend i s -> paste_stage (ls ++ [l]) base fd hash mime kind pend i s'.
Proof.
  intros Ho Hc E Hx Hs. destruct (own_step_history _ _ _ Ho E) as (_ & Hout & _).
  destruct Hs as [Hm Hi Hb|Hi Hr|data Hp Hi Hr|data answers written ok Hp Hin Hw Hr Hd].
  - destruct (match l with XlMainRequest => true | _ => false end) eqn:El.
    + destruct l; try discriminate El. cbn [ext_exec] in E. rewrite Hm, (if_request _ _ _ _ Hx) in E. apply (inj Some) in E. subst s'.
      apply ps_waiting; cbn; [by rewrite Hi, lookup_app_r, Nat.sub_diag by done|]. by apply since_here.
    + destruct (own_step_asking _ _ _ _ _ _ Ho Hc ltac:(by intros ->) E Hm) as [Hm' Hlen].
      apply ps_asking; [done|by rewrite Hlen|by etrans].
  - destruct (decide (step_worker l = Some i)) as [Hl|Hl];
      [|apply ps_waiting; [by eapply own_step_worker|by eapply since_mono]].
    destruct l; cbn [step_worker] in Hl; try discriminate Hl; injection Hl as ->; cbn [ext_exec calm_own] in E, Hc; rewrite Hi in E; try discriminate E.
    destruct timed_out; [done|]. unfold WaitAndWriteOnWorker, wait_outcome in E.
    rewrite (if_stop _ _ _ _ Hx), (if_pend _ _ _ _ Hx), (if_kind _ _ _ _ Hx) in E. destruct pend as [data|]; cbn in E; [|discriminate E].
    apply (inj Some) in E. subst s'. apply (ps_writing _ _ _ _ _ _ _ _ _ data); [done| |done]. cbn.
    by apply list_lookup_insert_eq, (lookup_lt_Some _ _ _ Hi).
  - destruct (decide (step_worker l = Some i)) as [Hl|Hl];
      [|eapply ps_writing; [done|by eapply own_step_worker|by eapply since_mono]].
    destruct l; cbn [step_worker] in Hl; try discriminate Hl; injection Hl as ->; cbn [ext_exec] in E; rewrite Hi in E; try discriminate E.
    unfold finish_paste in E. destruct (WriteAll answers _) as [written [ok|]] eqn:EW; [|discriminate E]. apply (inj Some) in E. subst s'.
    eapply ps_done; [done|apply elem_of_app; right; apply list_elem_of_here|exact EW|by eapply since_mono|].
    destruct Hr as (new & Hr & _). apply (since_here _ s). by exists new.
  - eapply ps_done; [done|apply elem_of_app; by left|exact Hw|by eapply since_mono..].
Qed.

Lemma paste_stage_run own ls base fd hash mime kind pend i s s' :
  Forall (fun l => own_step l = true /\ calm_own l) own -> run_ext own s = Some s' -> in_force_with hash kind pend (m_state s) ->
  paste_stage ls base fd hash mime kind pend i s ->
  in_force_with hash kind pend (m_state s') /\ paste_stage (ls ++ own) base fd hash mime kind pend i s'.
Proof.
  intros Hl. revert ls s. induction Hl as [|l own [Ho Hc] _ IH]; intros ls s E Hx Hs; cbn in E.
  - apply (inj Some) in E. subst s'. by rewrite app_nil_r.
  - destruct (ext_exec l s) as [s1|] eqn:E1; [|discriminate E]. rewrite cons_middle, (assoc_L (++)).
    apply (IH (ls ++ [l]) s1); [done|by eapply own_step_state|by eapply paste_stage_step].
Qed.

(** The data arrives. *)
Lemma paste_stage_provide ls base fd hash mime kind data i s :
  in_force_with hash kind None (m_state s) -> paste_stage ls base fd hash mime kind None i s ->
  in_force_with hash kind (Some data) (m_state (ExtProvideData hash data s)) /\
  paste_stage ls base fd hash mime kind (Some data) i (ExtProvideData hash data s).
Proof.
  intros [H1 H2 H3 H4 _] Hs. unfold ExtProvideData. rewrite H1, bytes_eqb_refl. split.
  - split; try done. unfold provided. cbn. by rewrite bytes_eqb_refl.
  - destruct Hs as [| |? Hp|? ? ? ? Hp]; try done; by constructor.
Qed.

(** From each stage the paste can be completed, by at most three own steps. *)
Definition completes (fd : Z) (hash mime payload : list Z) (s : ExtManager) : Prop :=
  exists own s', (length own <= 3)%nat /\ forallb own_step own = true /\ run_ext own s = Some s' /\
    last (m_outputs s') = Some (OutPaste fd hash mime payload) /\ fd ∉ m_fds s'.

Lemma completes_step l s s1 fd hash mime payload n :
  own_step l = true -> ext_exec l s = Some s1 ->
  (exists own s', (length own <= n)%nat /\ forallb own_step own = true /\ run_ext own s1 = Some s' /\
    last (m_outputs s') = Some (OutPaste fd hash mime payload) /\ fd ∉ m_fds s') ->
  exists own s', (length own <= S n)%nat /\ forallb own_step own = true /\ run_ext own s = Some s' /\
    last (m_outputs s') = Some (OutPaste fd hash mime payload) /\ fd ∉ m_fds s'.
Proof.
  intros Hl E (own & s' & Hlen & Ho & Er & H). exists (l :: own), s'. cbn. rewrite E, Hl. split_and!; [lia|done|done|apply H..].
Qed.

Lemma completes_writing fd hash mime payload answers i s :
  m_workers s !! i = Some (WWrite fd hash mime payload) -> WriteAll answers payload = (payload, Some true) ->
  exists own s', (length own <= 1)%nat /\ forallb own_step own = true /\ run_ext own s = Some s' /\
    last (m_outputs s') = Some (OutPaste fd hash mime payload) /\ fd ∉ m_fds s'.
Proof.
  intros Hi Hw. exists [XlWrite i answers]. cbn. rewrite Hi. unfold finish_paste. rewrite Hw. cbn.
  eexists. split_and!; [lia|done|reflexivity|cbn; by rewrite last_snoc|cbn; set_solver].
Qed.

Lemma completes_waiting fd hash mime kind data answers i s :
  in_force_with hash kind (Some data) (m_state s) -> m_workers s !! i = Some (WWait fd hash mime) ->
  WriteAll answers (materialise kind data mime) = (materialise kind data mime, Some true) ->
  exists own s', (length own <= 2)%nat /\ forallb own_step own = true /\ run_ext own s = Some s' /\
    last (m_outputs s') = Some (OutPaste fd hash mime (materialise kind data mime)) /\ fd ∉ m_fds s'.
Proof.
  intros [_ Hk Hst _ Hp] Hi Hw. eapply (completes_step (XlWake i false)); [done| |].
  - cbn [ext_exec]. rewrite Hi. unfold WaitAndWriteOnWorker, wait_outcome. rewrite Hst, Hp, Hk. reflexivity.
  - apply (completes_writing _ _ _ _ answers i); [|done]. cbn. by apply list_lookup_insert_eq, (lookup_lt_Some _ _ _ Hi).
Qed.

Lemma paste_stage_completes ls base fd hash mime kind data answers i s :
  in_force_with hash kind (Some data) (m_state s) -> paste_stage ls base fd hash mime kind (Some data) i s ->
  WriteAll answers (materialise kind data mime) = (materialise kind data mime, Some true) ->
  (exists written, since base s (OutPaste fd hash mime written)) \/
  completes fd hash mime (materialise kind data mime) s.
Proof.
  intros Hx Hs Hw. destruct Hs as [Hm Hi Hb|Hi Hr|data' [= <-] Hi Hr|]; [| | |by left; eexists]; right.
  - eapply (completes_step XlMainRequest); [done|cbn [ext_exec]; rewrite Hm; reflexivity|].
    apply (completes_waiting _ _ _ kind data answers i); [| |done].
    + cbn. by destruct (on_request (m_state s)).
    + destruct (on_request (m_state s)); cbn; by rewrite Hi, lookup_app_r, Nat.sub_diag by done.
  - destruct (completes_waiting fd hash mime kind data answers i s) as (own & s' & ? & ?); [done..|]. exists own, s'. split; [lia|done].
  - destruct (completes_writing fd hash mime (materialise kind data mime) answers i s) as (own & s' & ? & ?); [done..|].
    exists own, s'. split; [lia|done].
Qed.

(** A frame that leaves the announcement of [hash] and its data alone: it does
    not parse, or is neither an announcement, an eager set nor data for
    [hash]. *)
Definition calm_frame (hash frame : list Z) : Prop :=
  forall msg, LinuxParseHelperMessage frame = Done msg ->
    match lm_type msg with
    | HelperProto.SetClipboard | HelperProto.AnnounceDelayed => False
    | HelperProto.ProvideData =>
        forall sub pd, lm_provide_data msg = Some sub -> LinuxParseProvideData sub = Done pd -> lpd_content_hash pd <> hash
    | _ => True
    end.
Definition calm (hash : list Z) (l : SessionLabel ExtLabel) : Prop :=
  match l with SFrame frame _ => calm_frame hash frame | SBackend l => calm_own l end.
Definition own_labels : list (SessionLabel ExtLabel) -> list ExtLabel :=
  omap (fun l => match l with SBackend l => Some l | SFrame _ _ => None end).

Lemma calm_frame_quiet hash frame clock d s reply d' sd :
  calm_frame hash frame -> clipboard_ d = Some s -> current_hash (m_state s) = hash ->
  LinuxHandle frame clock d = (reply, d', sd) -> clipboard_ d' = Some s.
Proof.
  intros Hc Hd Hh E. unfold LinuxHandle in E.
  assert (Hnone : forall r, (reply, d', sd) = replied r d -> clipboard_ d' = Some s) by (by intros r [= -> -> ->]).
  destruct (LinuxParseHelperMessage frame) as [msg| |] eqn:Em; [|by eapply Hnone..].
  specialize (Hc msg Em). destruct (lm_type msg); try done; try (by eapply Hnone).
  - unfold LinuxHandleProvideData in E. destruct (present (lm_provide_data msg)) as [sub|] eqn:Ep; [|by eapply Hnone].
    apply present_some in Ep. destruct (LinuxParseProvideData sub) as [pd| |] eqn:Ec; [|by eapply Hnone..].
    injection E as <- <- <-. cbn. rewrite Hd. cbn. unfold ExtProvideData. rewrite (proj2 (bytes_eqb_neq _ _)); [done|].
    rewrite Hh. intros Heq. by apply (Hc sub pd Ep Ec).
  - unfold LinuxHandleGetClipboard in E. rewrite Hd in E. by injection E as <- <- <-.
  - unfold LinuxHandleShutdown in E. by injection E as <- <- <-.
Qed.

(** A calm stretch of a session is a run of the backend's own steps. *)
Lemma run_session_calm hash kind pend ls d d' s :
  clipboard_ d = Some s -> in_force_with hash kind pend (m_state s) -> Forall (calm hash) ls -> run_session ls d = Some d' ->
  exists s', clipboard_ d' = Some s' /\ run_ext (own_labels ls) s = Some s' /\
    Forall (fun l => own_step l = true /\ calm_own l) (own_labels ls) /\ in_force_with hash kind pend (m_state s').
Proof.
  intros Hd Hx Hl. revert d s Hd Hx. induction Hl as [|l ls Hc _ IH]; intros d s Hd Hx E.
  - cbn in E. apply (inj Some) in E. subst d'. by exists s.
  - unfold run_session in E. cbn [run_exec] in E. unfold session_exec at 1 in E. rewrite Hd in E. destruct l as [frame clock|l].
    + destruct (backend_alive s); [|discriminate E].
      destruct (LinuxHandle frame clock d) as [[reply d1] sd] eqn:EH. cbn in E.
      apply (IH d1 s); [|done|exact E]. by apply (calm_frame_quiet hash frame clock d s reply d1 sd); [..|apply (if_hash _ _ _ _ Hx)|].
    + cbn [backend_exec ext_backend] in E. destruct (ext_own l s) as [s1|] eqn:EO; [|discriminate E].
      pose proof (ext_own_spec _ _ _ EO) as [Ho E1]. cbn in Hc, E.
      destruct (IH (with_backend s1 d) s1) as (s' & Hd' & Hrun & Hown & Hx'); [cbn; by rewrite Hd| |exact E|].
      * by eapply own_step_state.
      * exists s'. split; [done|]. split; [|split; [by constructor|done]]. cbn. by rewrite E1.
Qed.

(** The selection after a stretch in which nobody else takes it. *)
Lemma selection_run kind own s s' :
  Forall (fun l => own_step l = true /\ calm_own l) own -> forallb keeps_selection own = true -> run_ext own s = Some s' ->
  selection_inv kind s -> selection_inv kind s'.
Proof.
  intros Hl. revert s. induction Hl as [|l own [Ho _] _ IH]; intros s Hk E Hs; cbn in Hk, E; [by simplify_eq|].
  apply andb_prop in Hk as [Hk Hks]. destruct (ext_exec l s) as [s1|] eqn:E1; [|discriminate E].
  apply (IH s1); [done|done|by eapply selection_step].
Qed.

(** ** Properties *)

(** Every pasted byte came from the peer.  In every session, whatever frames
    arrive (malformed ones included) and however the compositor, the event
    loop and the workers interleave with them, the bytes written to a paste
    target are a prefix of a representation, for the MIME type asked, of data
    that one single received frame carried for exactly the hash that was
    announced when the paste began. *)
Theorem session_pastes_from_peer ls d s fd hash mime bytes :
  run_session ls (attached_session init_ExtManager) = Some d -> clipboard_ d = Some s ->
  OutPaste fd hash mime bytes ∈ m_outputs s ->
  bytes = [] \/
  exists frame kind data, frame ∈ session_frames ls /\ carries frame hash data /\ bytes `prefix_of` materialise kind data mime.
Proof.
  intros E. apply ext_pastes_carried. apply (session_reachable ls init_ExtManager); [|done|done].
  split; cbn; done || apply Forall_nil_2.
Qed.

(** The same over X11.  In every session what a paste receives is nothing, or
    the representation for its MIME type, under the kind its own object was
    announced with, of data that one received frame carried for exactly the
    hash of that object. *)
Theorem x11_session_pastes_from_peer {qt : QtText} ls d s hash kind mimeType type v :
  run_session ls (attached_session init_X11) = Some d -> clipboard_ d = Some s ->
  XoPaste hash kind mimeType type v ∈ x_outputs s ->
  v = VNull \/
  exists frame data, frame ∈ session_frames ls /\ carries frame hash data /\ v = Materialise kind data mimeType type.
Proof.
  intros E. apply x11_pastes_carried. apply (session_reachable ls init_X11); [|done|done].
  split; cbn; done || apply Forall_nil_2.
Qed.

(** The kind a listed content type announces. *)
Definition kind_of (ty : ClipboardContentType) : ContentKind :=
  match ty with Image => KImage | Files => KFiles | _ => KText end.

(** A session in its stages: an announcement, [l1], a paste, [l2], the data, [l3]. *)
Definition delayed_session (ty : ClipboardContentType) (hash data mime : list Z) (fd clock : Z)
    (l1 l2 l3 : list (SessionLabel ExtLabel)) : list (SessionLabel ExtLabel) :=
  SFrame (request_frame HelperProto.AnnounceDelayed kFieldAnnouncement (announcement_sub ty hash) clock) clock :: l1 ++
  SBackend (XlSend mime fd) :: l2 ++
  SFrame (request_frame HelperProto.ProvideData kFieldProvideData (provide_sub hash data) clock) clock :: l3.

(** C6: The whole delayed paste, from any state of a running backend and however
    other steps interleave: [l1], [l2] and [l3] are any steps of the
    compositor, of the event loop and of all workers, and any frames, as long
    as the helper is not stopped, the announcement not superseded, no other
    data sent for its hash and no worker's ten seconds pass.  Once the event
    loop has made the announced selection, and nobody has taken it since, the
    helper owns the selection with a source it last passed to [set_selection],
    offering exactly the MIME types of the kind.  After the data has come, the
    paste by worker [i] is in one of its stages: it is still to send its
    DATA_REQUEST, has sent it and waits, holds exactly the representation of
    the data for the MIME type asked, or has written of it what the pipe took,
    by the answers of its own write.  Until it has written, three own steps
    complete it, with exactly those bytes and its descriptor closed. *)
Theorem delayed_paste_end_to_end d s ty hash data mime fd clock l1 l2 l3 d' :
  clipboard_ d = Some s -> device_ (m_wl s) = true -> on_request (m_state s) = true ->
  listed ty -> hash <> [] -> Zlen hash < 2 ^ 30 -> Zlen data < 2 ^ 31 -> is_u64 clock ->
  Forall (calm hash) l1 -> Forall (calm hash) l2 -> Forall (calm hash) l3 ->
  run_session (delayed_session ty hash data mime fd clock l1 l2 l3) d = Some d' ->
  let payload := materialise (kind_of ty) data mime in
  exists s1 s' i, clipboard_ d' = Some s' /\
    run_ext (own_labels l1) (ExtManager.AnnounceDelayed (kind_of ty) hash s) = Some s1 /\
    (m_queue s1 ++ m_invoking s1 = [] -> forallb keeps_selection (own_labels l1) = true ->
       owns_selection (kind_of ty) (m_wl s1)) /\
    paste_stage (own_labels (l2 ++ l3)) (m_outputs s1) fd hash mime (kind_of ty) (Some data) i s' /\
    forall answers, WriteAll answers payload = (payload, Some true) ->
      (exists written, since (m_outputs s1) s' (OutPaste fd hash mime written)) \/ completes fd hash mime payload s'.
Proof.
  intros Hd Hdev Hreq Ht Hne Hh Hdata Hclock Hl1 Hl2 Hl3 E payload. unfold delayed_session in E.
  pose proof (handle_announcement s d ty hash clock Hd Ht ltac:(lia) Hclock) as Ha.
  pose proof (fun d : LinuxDispatcher ExtManager => handle_provision d hash data clock Hne Hh Hdata Hclock) as Hp.
  set (frame1 := request_frame HelperProto.AnnounceDelayed _ _ _) in *.
  set (frame2 := request_frame HelperProto.ProvideData _ _ _) in *. clearbody frame1 frame2.
  unfold run_session in E. cbn [run_exec] in E. unfold session_exec at 1 in E. rewrite Hd in E.
  destruct (backend_alive s) eqn:Halive; [|discriminate E]. rewrite Ha in E. cbv iota beta in E.
  cbn in Halive. apply negb_true_iff in Halive.
  set (s0 := ExtManager.AnnounceDelayed (kind_of ty) hash s). set (d1 := on_backend (announce_operation ty hash) d) in *.
  assert (Hd1 : clipboard_ d1 = Some s0) by (unfold d1; cbn; rewrite Hd; by destruct Ht as [->|[->| ->]]).
  rewrite run_exec_app in E. destruct (run_exec session_exec l1 d1) as [d2|] eqn:E1; [|discriminate E].
  assert (Hx0 : in_force_with hash (kind_of ty) None (m_state s0)) by by split.
  destruct (run_session_calm _ _ _ _ _ _ _ Hd1 Hx0 Hl1 E1) as (s1 & Hd2 & Hrun1 & Hown1 & Hx1).
  cbn [mbind option_bind run_exec] in E. unfold session_exec at 1 in E. rewrite Hd2 in E. cbn [backend_exec ext_backend] in E.
  destruct (ext_own (XlSend mime fd) s1) as [s2|] eqn:ES; [|discriminate E]. apply ext_own_spec in ES as [_ ES].
  cbn [option_map] in E. set (d3 := with_backend s2 d2) in *. assert (Hd3 : clipboard_ d3 = Some s2) by (cbn; by rewrite Hd2).
  cbn [ext_exec] in ES. destruct (main_idle s1 && _) eqn:Ei; [|discriminate ES]. apply (inj Some) in ES.
  assert (Hs2 : in_force_with hash (kind_of ty) None (m_state s2) /\
    paste_stage [] (m_outputs s1) fd hash mime (kind_of ty) None (length (m_workers s1)) s2).
  { subst s2. split; [done|]. destruct Hx1 as [<- _ _ _ Hnone]. apply ps_asking; cbn; [by rewrite Hnone|done|done]. }
  destruct Hs2 as [Hx2 Hs2]. rewrite run_exec_app in E.
  destruct (run_exec session_exec l2 d3) as [d4|] eqn:E2; [|discriminate E].
  destruct (run_session_calm _ _ _ _ _ _ _ Hd3 Hx2 Hl2 E2) as (s3 & Hd4 & Hrun2 & Hown2 & Hx3).
  destruct (paste_stage_run _ _ _ _ _ _ _ _ _ _ _ Hown2 Hrun2 Hx2 Hs2) as [_ Hs3].
  cbn [mbind option_bind run_exec] in E. unfold session_exec at 1 in E. rewrite Hd4 in E.
  destruct (backend_alive s3); [|discriminate E]. rewrite Hp in E. cbv iota beta in E.
  destruct (paste_stage_provide _ _ _ _ _ _ data _ _ Hx3 Hs3) as [Hx4 Hs4].
  set (d5 := on_backend (ManagerProvideData hash data) d4) in *.
  assert (Hd5 : clipboard_ d5 = Some (ExtProvideData hash data s3)) by (cbn; by rewrite Hd4).
  destruct (run_session_calm _ _ _ _ _ _ _ Hd5 Hx4 Hl3 E) as (s' & Hd' & Hrun3 & Hown3 & Hx5).
  destruct (paste_stage_run _ _ _ _ _ _ _ _ _ _ _ Hown3 Hrun3 Hx4 Hs4) as [_ Hs5].
  exists s1, s', (length (m_workers s1)). split_and!; [done|done| | |].
  - intros Hq Hk. assert (Hsel : selection_inv (kind_of ty) s1).
    { apply (selection_run _ _ _ _ Hown1 Hk Hrun1). split; [done|]. left. cbn. by rewrite (assoc_L (++)), last_snoc. }
    destruct Hsel as [_ [Hlast|[_ Hs]]]; [by rewrite Hq in Hlast|done].
  - unfold own_labels. rewrite omap_app. exact Hs5.
  - intros answers Hw. by eapply paste_stage_completes.
Qed.
End Pastes.

(** *** Witnesses *)

#[local] Existing Instance no_codec.
#[local] Existing Instance plain_qt.

Definition announce_frame : list Z :=
  Eval vm_compute in request_frame HelperProto.AnnounceDelayed kFieldAnnouncement (announcement_sub Text (str "h1")) 7.
Definition provide_frame : list Z :=
  Eval vm_compute in request_frame HelperProto.ProvideData kFieldProvideData (provide_sub (str "h1") [1; 2]) 7.
Definition attached_ext : LinuxDispatcher ExtManager := Eval vm_compute in attached_session init_ExtManager.
Definition paste_session : list (SessionLabel ExtLabel) :=
  [SFrame announce_frame 7; SBackend XlInvoke; SBackend (XlMain true); SBackend (XlSend (str "TEXT") 5); SBackend XlMainRequest;
   SFrame [255] 8; SFrame provide_frame 7; SBackend (XlWake 0 false); SBackend (XlWrite 0 [WaWrote 1; WaEintr; WaWrote 1])].
Definition pasted : LinuxDispatcher ExtManager :=
  Eval vm_compute in default attached_ext (run_session paste_session attached_ext).
Definition pasted_backend : ExtManager := Eval vm_compute in default init_ExtManager (clipboard_ pasted).

Lemma session_pastes_from_peer_witness :
  OutPaste 5 (str "h1") (str "TEXT") [1; 2] ∈ m_outputs pasted_backend /\
  ([1; 2] = @nil Z \/
   exists frame kind data, frame ∈ session_frames paste_session /\ carries frame (str "h1") data /\
     [1; 2] `prefix_of` materialise kind data (str "TEXT")).
Proof.
  assert (Hin : OutPaste 5 (str "h1") (str "TEXT") [1; 2] ∈ m_outputs pasted_backend) by (right; left; reflexivity).
  split; [exact Hin|].
  apply (session_pastes_from_peer paste_session pasted pasted_backend 5); [vm_compute; reflexivity|reflexivity|exact Hin].
Defined.

(** The same paste on X11. *)
Definition x11_session : list (SessionLabel X11Label) :=
  [SFrame announce_frame 7; SBackend XPost; SBackend (XRun false); SBackend XRecord; SBackend XDataChanged;
   SBackend (XRetrieve (str "TEXT") TyOther); SBackend XAsk; SFrame [255] 8; SFrame provide_frame 7; SBackend (XWake false)].
Definition x11_pasted : LinuxDispatcher X11ClipboardManager :=
  Eval vm_compute in default (attached_session init_X11) (run_session x11_session (attached_session init_X11)).
Definition x11_pasted_backend : X11ClipboardManager := Eval vm_compute in default init_X11 (clipboard_ x11_pasted).

Lemma x11_session_pastes_from_peer_witness :
  XoPaste (str "h1") KText (str "TEXT") TyOther (VBytes [1; 2]) ∈ x_outputs x11_pasted_backend /\
  (VBytes [1; 2] = VNull \/
   exists frame data, frame ∈ session_frames x11_session /\ carries frame (str "h1") data /\
     VBytes [1; 2] = Materialise KText data (str "TEXT") TyOther).
Proof.
  assert (Hin : XoPaste (str "h1") KText (str "TEXT") TyOther (VBytes [1; 2]) ∈ x_outputs x11_pasted_backend)
    by (right; left; reflexivity).
  split; [exact Hin|].
  apply (x11_session_pastes_from_peer x11_session x11_pasted x11_pasted_backend); [vm_compute; reflexivity|reflexivity|exact Hin].
Defined.

(** A frame of the peer does not parse before the selection is made; another
    application offers something while the worker waits; the data then wakes
    it. *)
Definition stretch1 : list (SessionLabel ExtLabel) := [SBackend XlInvoke; SFrame [255] 8; SBackend (XlMain true)].
Definition stretch2 : list (SessionLabel ExtLabel) := [SBackend XlMainRequest; SBackend (XlOffer 3)].
Definition stretch3 : list (SessionLabel ExtLabel) := [SBackend (XlWake 0 false)].
Definition half_pasted : LinuxDispatcher ExtManager :=
  Eval vm_compute in default attached_ext
    (run_session (delayed_session Text (str "h1") [1; 2] (str "TEXT") 5 7 stretch1 stretch2 stretch3) attached_ext).

Lemma delayed_paste_end_to_end_witness :
  exists s1 s' i, clipboard_ half_pasted = Some s' /\
    run_ext (own_labels stretch1) (ExtManager.AnnounceDelayed KText (str "h1") (default init_ExtManager (clipboard_ attached_ext))) = Some s1 /\
    (m_queue s1 ++ m_invoking s1 = [] -> forallb keeps_selection (own_labels stretch1) = true -> owns_selection KText (m_wl s1)) /\
    paste_stage (own_labels (stretch2 ++ stretch3)) (m_outputs s1) 5 (str "h1") (str "TEXT") KText (Some [1; 2]) i s' /\
    forall answers, WriteAll answers [1; 2] = ([1; 2], Some true) ->
      (exists written, since (m_outputs s1) s' (OutPaste 5 (str "h1") (str "TEXT") written)) \/
      completes 5 (str "h1") (str "TEXT") [1; 2] s'.
Proof.
  apply (delayed_paste_end_to_end attached_ext (default init_ExtManager (clipboard_ attached_ext))
    Text (str "h1") [1; 2] (str "TEXT") 5 7 stretch1 stretch2 stretch3 half_pasted); try reflexivity; try discriminate.
  - left. reflexivity.
  - split; [discriminate|reflexivity].
  - repeat (apply Forall_cons_2; [first [exact I|by intros msg]|]). apply Forall_nil_2.
  - repeat (apply Forall_cons_2; [exact I|]). apply Forall_nil_2.
  - repeat (apply Forall_cons_2; [exact I|]). apply Forall_nil_2.
Defined.
