(* ===== verification/LinuxHelper.v ===== *)
(** * LinuxHelper: the Linux helper from socket to paste

    What [main] leaves running: the socket server's worker thread
    ([SocketServer::WorkerLoop], split at every lock, call and read of
    [stop_]), the dispatcher it calls, a backend whose own threads call
    [SendFrame] through the dispatcher's callbacks while the worker greets,
    replies or closes, and [main]'s shutdown.  [client_mutex_] is held while a
    frame is written, in as many steps as the kernel takes; a callback whose
    [SendFrame] has not got it yet waits in [h_calls], and the Qt main thread
    does nothing else while one of its own does.  One transition system over
    any [PasteBackend]. *)

From S2P Require Import Prelude HelperProto ProtoWire WinCodec LinuxCodec LinuxDispatch Framing SocketServer.
From S2P Require Import UriList ExtManager X11Manager PasteBackend LinuxSession.

(** ** State *)

(** Where the worker is. *)
Inductive WorkerPc :=
| PcStart                                (* before listen_fd_ is read *)
| PcLoop (lfd : Z)                       (* the head of the accept loop *)
| PcAccept (lfd : Z)
| PcAcceptFailed
| PcConnect (fd : Z)                     (* client_fd_ is published *)
| PcGreet (fd : Z) (greet : list Z)
| PcGreeting (fd : Z)                    (* writing it *)
| PcServe (fd : Z)                       (* the head of the client loop *)
| PcRead (fd : Z)
| PcHandle (fd : Z) (frame : list Z)
| PcReply (fd : Z) (frame reply : list Z)
| PcReplying (fd : Z)
| PcRetract (fd : Z)
| PcClose (fd : Z)
| PcEnd (fire_disconnect : bool)
| PcStopped.

(** What a frame sent to the peer is for. *)
Inductive Origin :=
| SentReady
| SentReply (frame : list Z)
| SentCall (on_main : bool) (c : CallbackCall).   (* made by the Qt main thread or by another *)

(** [client_mutex_]: free, or held by a writer that has still to send the rest
    of the length prefix and of the payload. *)
Inductive ClientMutex :=
| Free
| Held (origin : Origin) (payload header body : list Z).

(** [main] in its event loop, in [SocketServer::Stop] before [client_mutex_],
    joining the worker, after [Detach], and once the destructors of the
    dispatcher and the server have run. *)
Inductive HelperMain := HmRunning | HmStopping | HmJoining | HmDetached | HmDestroyed.
#[export] Instance HelperMain_eq_dec : EqDecision HelperMain.
Proof. solve_decision. Defined.

Record LinuxHelper (S : Type) := {
  h_disp : LinuxDispatcher S;
  h_socket : SocketState;
  h_mutex : ClientMutex;
  h_worker : WorkerPc;
  h_main : HelperMain;
  h_quits : nat;                         (* calls of QuitAppSafely *)
  h_calls : list (bool * CallbackCall * list Z);  (* callbacks waiting for client_mutex_: thread, call, frame *)
  h_inbound : list Z;                    (* bytes of the peer not read yet *)
  h_wire : list Z;                       (* bytes sent to the peer *)
  h_listen_shut : bool;                  (* shutdown(2) of the listening socket: accept fails *)
  h_client_shut : bool;                  (* of the client's: read returns 0, send fails *)
  (* history *)
  h_frames : list (list Z);              (* frames read *)
  h_sent : list (Origin * list Z);       (* frames written whole *)
  h_torn : bool;                         (* a failed write left part of a frame on the wire *)
  h_closed : list Z;                     (* client descriptors closed *)
  h_misused : bool;                      (* a handler ran on a destroyed backend *)
  h_dangling : bool                      (* a callback ran on a destroyed dispatcher or server *)
}.
Arguments h_disp {S} _.
Arguments h_socket {S} _.
Arguments h_mutex {S} _.
Arguments h_worker {S} _.
Arguments h_main {S} _.
Arguments h_quits {S} _.
Arguments h_calls {S} _.
Arguments h_inbound {S} _.
Arguments h_wire {S} _.
Arguments h_listen_shut {S} _.
Arguments h_client_shut {S} _.
Arguments h_frames {S} _.
Arguments h_sent {S} _.
Arguments h_torn {S} _.
Arguments h_closed {S} _.
Arguments h_misused {S} _.
Arguments h_dangling {S} _.

Inductive HelperAccept := AccFd (fd : Z) | AccEintr | AccError.

Inductive HelperLabel (L : Type) :=
| YStep                                              (* a worker step without a call *)
| YAccept (a : HelperAccept)
| YConnect (clock : Z)
| YRead (alloc_ok : bool) (script : list SockAnswer)
| YHandle (clock : Z)
| YBackend (l : L) (clock : Z)
| YSend (i : nat)                                    (* the i-th waiting callback gets the mutex *)
| YWrite (script : list SockAnswer)                  (* whoever holds the mutex writes on *)
| YStop
| YShutdown
| YDetach
| YDestruct.                                         (* the destructors of the dispatcher and the server *)
Arguments YStep {L}.
Arguments YAccept {L} a.
Arguments YConnect {L} clock.
Arguments YRead {L} alloc_ok script.
Arguments YHandle {L} clock.
Arguments YBackend {L} l clock.
Arguments YSend {L} i.
Arguments YWrite {L} script.
Arguments YStop {L}.
Arguments YShutdown {L}.
Arguments YDetach {L}.
Arguments YDestruct {L}.

Section Updates.
Context {S : Type}.
Definition set_disp (d : LinuxDispatcher S) (h : LinuxHelper S) : LinuxHelper S :=
  {| h_disp := d; h_socket := h_socket h; h_mutex := h_mutex h; h_worker := h_worker h; h_main := h_main h;
     h_quits := h_quits h; h_calls := h_calls h; h_inbound := h_inbound h; h_wire := h_wire h;
     h_frames := h_frames h; h_sent := h_sent h; h_torn := h_torn h; h_closed := h_closed h;
     h_misused := h_misused h; h_dangling := h_dangling h;
     h_listen_shut := h_listen_shut h; h_client_shut := h_client_shut h |}.
Definition set_socket (s : SocketState) (h : LinuxHelper S) : LinuxHelper S :=
  {| h_disp := h_disp h; h_socket := s; h_mutex := h_mutex h; h_worker := h_worker h; h_main := h_main h;
     h_quits := h_quits h; h_calls := h_calls h; h_inbound := h_inbound h; h_wire := h_wire h;
     h_frames := h_frames h; h_sent := h_sent h; h_torn := h_torn h; h_closed := h_closed h;
     h_misused := h_misused h; h_dangling := h_dangling h;
     h_listen_shut := h_listen_shut h; h_client_shut := h_client_shut h |}.
Definition set_mutex (m : ClientMutex) (h : LinuxHelper S) : LinuxHelper S :=
  {| h_disp := h_disp h; h_socket := h_socket h; h_mutex := m; h_worker := h_worker h; h_main := h_main h;
     h_quits := h_quits h; h_calls := h_calls h; h_inbound := h_inbound h; h_wire := h_wire h;
     h_frames := h_frames h; h_sent := h_sent h; h_torn := h_torn h; h_closed := h_closed h;
     h_misused := h_misused h; h_dangling := h_dangling h;
     h_listen_shut := h_listen_shut h; h_client_shut := h_client_shut h |}.
Definition set_worker_pc (pc : WorkerPc) (h : LinuxHelper S) : LinuxHelper S :=
  {| h_disp := h_disp h; h_socket := h_socket h; h_mutex := h_mutex h; h_worker := pc; h_main := h_main h;
     h_quits := h_quits h; h_calls := h_calls h; h_inbound := h_inbound h; h_wire := h_wire h;
     h_frames := h_frames h; h_sent := h_sent h; h_torn := h_torn h; h_closed := h_closed h;
     h_misused := h_misused h; h_dangling := h_dangling h;
     h_listen_shut := h_listen_shut h; h_client_shut := h_client_shut h |}.
Definition set_hmain (pc : HelperMain) (h : LinuxHelper S) : LinuxHelper S :=
  {| h_disp := h_disp h; h_socket := h_socket h; h_mutex := h_mutex h; h_worker := h_worker h; h_main := pc;
     h_quits := h_quits h; h_calls := h_calls h; h_inbound := h_inbound h; h_wire := h_wire h;
     h_frames := h_frames h; h_sent := h_sent h; h_torn := h_torn h; h_closed := h_closed h;
     h_misused := h_misused h; h_dangling := h_dangling h;
     h_listen_shut := h_listen_shut h; h_client_shut := h_client_shut h |}.
Definition QuitAppSafely (asked : bool) (h : LinuxHelper S) : LinuxHelper S :=
  {| h_disp := h_disp h; h_socket := h_socket h; h_mutex := h_mutex h; h_worker := h_worker h; h_main := h_main h;
     h_quits := if asked then Datatypes.S (h_quits h) else h_quits h; h_calls := h_calls h; h_inbound := h_inbound h;
     h_wire := h_wire h; h_frames := h_frames h; h_sent := h_sent h; h_torn := h_torn h; h_closed := h_closed h;
     h_misused := h_misused h; h_dangling := h_dangling h;
     h_listen_shut := h_listen_shut h; h_client_shut := h_client_shut h |}.
Definition set_calls (calls : list (bool * CallbackCall * list Z)) (h : LinuxHelper S) : LinuxHelper S :=
  {| h_disp := h_disp h; h_socket := h_socket h; h_mutex := h_mutex h; h_worker := h_worker h; h_main := h_main h;
     h_quits := h_quits h; h_calls := calls; h_inbound := h_inbound h; h_wire := h_wire h; h_frames := h_frames h;
     h_sent := h_sent h; h_torn := h_torn h; h_closed := h_closed h; h_misused := h_misused h;
     h_dangling := h_dangling h;
     h_listen_shut := h_listen_shut h; h_client_shut := h_client_shut h |}.
Definition took (frame rest : list Z) (h : LinuxHelper S) : LinuxHelper S :=
  {| h_disp := h_disp h; h_socket := h_socket h; h_mutex := h_mutex h; h_worker := h_worker h; h_main := h_main h;
     h_quits := h_quits h; h_calls := h_calls h; h_inbound := rest; h_wire := h_wire h;
     h_frames := h_frames h ++ [frame]; h_sent := h_sent h; h_torn := h_torn h; h_closed := h_closed h;
     h_misused := h_misused h; h_dangling := h_dangling h;
     h_listen_shut := h_listen_shut h; h_client_shut := h_client_shut h |}.
Definition put (wire : list Z) (h : LinuxHelper S) : LinuxHelper S :=
  {| h_disp := h_disp h; h_socket := h_socket h; h_mutex := h_mutex h; h_worker := h_worker h; h_main := h_main h;
     h_quits := h_quits h; h_calls := h_calls h; h_inbound := h_inbound h; h_wire := wire; h_frames := h_frames h;
     h_sent := h_sent h; h_torn := h_torn h; h_closed := h_closed h; h_misused := h_misused h;
     h_dangling := h_dangling h;
     h_listen_shut := h_listen_shut h; h_client_shut := h_client_shut h |}.
Definition add_sent (origin : Origin) (payload : list Z) (h : LinuxHelper S) : LinuxHelper S :=
  {| h_disp := h_disp h; h_socket := h_socket h; h_mutex := h_mutex h; h_worker := h_worker h; h_main := h_main h;
     h_quits := h_quits h; h_calls := h_calls h; h_inbound := h_inbound h; h_wire := h_wire h;
     h_frames := h_frames h; h_sent := h_sent h ++ [(origin, payload)]; h_torn := h_torn h; h_closed := h_closed h;
     h_misused := h_misused h; h_dangling := h_dangling h;
     h_listen_shut := h_listen_shut h; h_client_shut := h_client_shut h |}.
Definition tear (torn : bool) (h : LinuxHelper S) : LinuxHelper S :=
  {| h_disp := h_disp h; h_socket := h_socket h; h_mutex := h_mutex h; h_worker := h_worker h; h_main := h_main h;
     h_quits := h_quits h; h_calls := h_calls h; h_inbound := h_inbound h; h_wire := h_wire h;
     h_frames := h_frames h; h_sent := h_sent h; h_torn := h_torn h || torn; h_closed := h_closed h;
     h_misused := h_misused h; h_dangling := h_dangling h;
     h_listen_shut := h_listen_shut h; h_client_shut := h_client_shut h |}.
Definition close_client (fd : Z) (h : LinuxHelper S) : LinuxHelper S :=
  {| h_disp := h_disp h; h_socket := h_socket h; h_mutex := h_mutex h; h_worker := h_worker h; h_main := h_main h;
     h_quits := h_quits h; h_calls := h_calls h; h_inbound := h_inbound h; h_wire := h_wire h;
     h_frames := h_frames h; h_sent := h_sent h; h_torn := h_torn h; h_closed := h_closed h ++ [fd];
     h_misused := h_misused h; h_dangling := h_dangling h;
     h_listen_shut := h_listen_shut h; h_client_shut := h_client_shut h |}.
Definition misuse (bad : bool) (h : LinuxHelper S) : LinuxHelper S :=
  {| h_disp := h_disp h; h_socket := h_socket h; h_mutex := h_mutex h; h_worker := h_worker h; h_main := h_main h;
     h_quits := h_quits h; h_calls := h_calls h; h_inbound := h_inbound h; h_wire := h_wire h;
     h_frames := h_frames h; h_sent := h_sent h; h_torn := h_torn h; h_closed := h_closed h;
     h_misused := h_misused h || bad; h_dangling := h_dangling h;
     h_listen_shut := h_listen_shut h; h_client_shut := h_client_shut h |}.
Definition dangle (bad : bool) (h : LinuxHelper S) : LinuxHelper S :=
  {| h_disp := h_disp h; h_socket := h_socket h; h_mutex := h_mutex h; h_worker := h_worker h; h_main := h_main h;
     h_quits := h_quits h; h_calls := h_calls h; h_inbound := h_inbound h; h_wire := h_wire h;
     h_frames := h_frames h; h_sent := h_sent h; h_torn := h_torn h; h_closed := h_closed h;
     h_misused := h_misused h; h_dangling := h_dangling h || bad;
     h_listen_shut := h_listen_shut h; h_client_shut := h_client_shut h |}.
(** [shutdown(fd, SHUT_RDWR)] on the listening socket and on the client's. *)
Definition shutdown_listening (fd : Z) (h : LinuxHelper S) : LinuxHelper S :=
  {| h_disp := h_disp h; h_socket := h_socket h; h_mutex := h_mutex h; h_worker := h_worker h; h_main := h_main h;
     h_quits := h_quits h; h_calls := h_calls h; h_inbound := h_inbound h; h_wire := h_wire h;
     h_frames := h_frames h; h_sent := h_sent h; h_torn := h_torn h; h_closed := h_closed h;
     h_misused := h_misused h; h_dangling := h_dangling h;
     h_listen_shut := h_listen_shut h || (0 <=? fd); h_client_shut := h_client_shut h |}.
Definition shutdown_client (fd : Z) (h : LinuxHelper S) : LinuxHelper S :=
  {| h_disp := h_disp h; h_socket := h_socket h; h_mutex := h_mutex h; h_worker := h_worker h; h_main := h_main h;
     h_quits := h_quits h; h_calls := h_calls h; h_inbound := h_inbound h; h_wire := h_wire h;
     h_frames := h_frames h; h_sent := h_sent h; h_torn := h_torn h; h_closed := h_closed h;
     h_misused := h_misused h; h_dangling := h_dangling h;
     h_listen_shut := h_listen_shut h; h_client_shut := h_client_shut h || (0 <=? fd) |}.
Definition set_client (fd : Z) (h : LinuxHelper S) : LinuxHelper S :=
  set_socket {| stop_ := stop_ (h_socket h); stopped_ := stopped_ (h_socket h); listen_fd_ := listen_fd_ (h_socket h);
                client_fd_ := fd |} h.
End Updates.

Section Helper.
Context {S L : Type} `{PasteBackend S L}.

(** ** Writing under [client_mutex_] *)

(** The writer returns: the worker goes on from its greeting or its reply. *)
Definition writer_returns (origin : Origin) (ok : bool) (h : LinuxHelper S) : LinuxHelper S :=
  match origin, h_worker h with
  | SentReady, PcGreeting fd => set_worker_pc (PcServe fd) h
  | SentReply _, PcReplying fd => set_worker_pc (if ok then PcServe fd else PcRetract fd) h
  | _, _ => h
  end.

(** [client_fd_ >= 0] and [WriteFrame] up to its first [send]; without a client
    nothing is written, which the reply does not take for a failure. *)
Definition lock_and_write (origin : Origin) (payload : list Z) (h : LinuxHelper S) : option (LinuxHelper S) :=
  match h_mutex h with
  | Held _ _ _ _ => None
  | Free =>
      Some (if client_fd_ (h_socket h) <? 0 then writer_returns origin true h
            else if Zlen payload >? kMaxFrameSize then writer_returns origin false h
            else set_mutex (Held origin payload (WriteLengthLE (u32 (Zlen payload))) payload) h)
  end.

Definition write_step (script : list SockAnswer) (h : LinuxHelper S) : option (LinuxHelper S) :=
  match h_mutex h with
  | Free => None
  | Held origin payload header body =>
      match write_on send_round script header body (h_wire h) with
      | (WriteOk, wire, _, _) =>
          Some (writer_returns origin true (set_mutex Free (add_sent origin payload (put wire h))))
      | (WriteFail, wire, header', body') =>
          Some (writer_returns origin false
                  (set_mutex Free (tear (negb (bool_decide (header' ++ body' = frame_bytes payload))) (put wire h))))
      | (WriteBlocked, wire, header', body') => Some (set_mutex (Held origin payload header' body') (put wire h))
      end
  end.

(** ** The backend's threads *)

(** The frame a callback of the dispatcher hands to [SendFrame]. *)
Definition call_frames (c : CallbackCall) (clock : Z) (d : LinuxDispatcher S) : list (list Z) :=
  match c with
  | CallRequest hash => on_request_callback (socket_ d) hash clock
  | CallChanged utf8 => on_changed_callback (socket_ d) utf8 clock
  end.

(** The Qt main thread is in a callback's [SendFrame]. *)
Definition main_sending (h : LinuxHelper S) : bool :=
  existsb (fun c => c.1.1) (h_calls h) || match h_mutex h with Held (SentCall on_main _) _ _ _ => on_main | _ => false end.

(** A step of the backend's own threads, with the callbacks it makes through
    [this] of the dispatcher and of the server.  The main thread takes its
    steps in its event loop, and the backend's destructor last. *)
Definition backend_enabled (l : L) (h : LinuxHelper S) : bool :=
  if backend_on_main l
  then negb (main_sending h) &&
       match h_main h with HmRunning => negb (backend_destroys l) | HmDestroyed => backend_destroys l | _ => false end
  else true.

Definition backend_step (l : L) (clock : Z) (h : LinuxHelper S) : option (LinuxHelper S) :=
  match clipboard_ (h_disp h) with
  | None => None
  | Some s =>
      match (if backend_enabled l h then backend_exec l s else None) with
      | None => None
      | Some s' =>
          let calls := drop (length (backend_calls s)) (backend_calls s') in
          let gone := match h_main h with HmDestroyed => true | _ => false end in
          Some (dangle (gone && negb (bool_decide (calls = [])))
                  (set_calls (h_calls h ++
                      (calls ≫= fun c => map (pair (backend_on_main l, c)) (call_frames c clock (h_disp h))))
                     (set_disp (with_backend s' (h_disp h)) h)))
      end
  end.

Definition backend_dead (h : LinuxHelper S) : bool :=
  match clipboard_ (h_disp h) with Some s => negb (backend_alive s) | None => false end.

(** [app.exec()] returns between events. *)
Definition main_returns (h : LinuxHelper S) : bool :=
  match clipboard_ (h_disp h) with Some s => backend_main_idle s | None => true end.

(** ** Steps *)

Definition worker_step (h : LinuxHelper S) : option (LinuxHelper S) :=
  match h_worker h with
  | PcStart =>
      let lfd := listen_fd_ (h_socket h) in
      Some (set_worker_pc (if lfd <? 0 then PcEnd true else PcLoop lfd) h)
  | PcLoop lfd => Some (set_worker_pc (if stop_ (h_socket h) then PcEnd true else PcAccept lfd) h)
  | PcAcceptFailed => Some (set_worker_pc (PcEnd (negb (stop_ (h_socket h)))) h)
  | PcGreet fd [] => Some (set_worker_pc (PcServe fd) h)
  | PcGreet fd greet => lock_and_write SentReady greet (set_worker_pc (PcGreeting fd) h)
  | PcServe fd => Some (set_worker_pc (if stop_ (h_socket h) then PcRetract fd else PcRead fd) h)
  | PcReply fd frame reply => lock_and_write (SentReply frame) reply (set_worker_pc (PcReplying fd) h)
  | PcRetract fd =>
      match h_mutex h with
      | Free => Some (set_worker_pc (PcClose fd) (set_client (-1) h))
      | Held _ _ _ _ => None
      end
  | PcClose fd => Some (set_worker_pc (PcEnd true) (close_client fd h))
  | PcEnd fire =>
      Some (set_worker_pc PcStopped
              (set_socket {| stop_ := stop_ (h_socket h); stopped_ := true; listen_fd_ := listen_fd_ (h_socket h);
                             client_fd_ := client_fd_ (h_socket h) |} (QuitAppSafely fire h)))
  | _ => None
  end.

Definition helper_exec (l : HelperLabel L) (h : LinuxHelper S) : option (LinuxHelper S) :=
  match l with
  | YStep => worker_step h
  | YAccept a =>
      match h_worker h, a, h_mutex h with
      | PcAccept lfd, AccEintr, _ => Some (set_worker_pc (PcLoop lfd) h)
      | PcAccept _, AccError, _ => Some (set_worker_pc PcAcceptFailed h)
      | PcAccept _, AccFd fd, Free => if fd <? 0 then None else Some (set_worker_pc (PcConnect fd) (set_client fd h))
      | _, _, _ => None
      end
  | YConnect clock =>
      match h_worker h with
      | PcConnect fd => Some (set_worker_pc (PcGreet fd (OnConnect clock)) h)
      | _ => None
      end
  | YRead alloc_ok script =>
      match h_worker h with
      | PcRead fd =>
          match ReadFrame alloc_ok script (h_inbound h) with
          | (ReadOk frame rest, _) => Some (set_worker_pc (PcHandle fd frame) (took frame rest h))
          | (ReadFail, _) => Some (set_worker_pc (PcRetract fd) h)
          | (ReadBlocked, _) => None
          end
      | _ => None
      end
  | YHandle clock =>
      match h_worker h with
      | PcHandle fd frame =>
          let '(reply, d, shutdown) := LinuxHandle frame clock (h_disp h) in
          Some (set_worker_pc (match reply with [] => PcServe fd | _ => PcReply fd frame reply end)
                  (QuitAppSafely shutdown (set_disp d (misuse (backend_dead h) h))))
      | _ => None
      end
  | YBackend l clock => backend_step l clock h
  | YSend i =>
      match h_calls h !! i with
      | Some (on_main, c, frame) => lock_and_write (SentCall on_main c) frame (set_calls (delete i (h_calls h)) h)
      | None => None
      end
  | YWrite script => write_step script h
  | YStop =>
      match h_main h with
      | HmRunning =>
          if main_sending h || negb (main_returns h) then None
          else
          Some (set_hmain HmStopping
                  (set_socket {| stop_ := true; stopped_ := stopped_ (h_socket h); listen_fd_ := -1;
                                 client_fd_ := client_fd_ (h_socket h) |}
                     (shutdown_listening (listen_fd_ (h_socket h)) h)))
      | _ => None
      end
  | YShutdown =>
      match h_main h, h_mutex h with
      | HmStopping, Free => Some (set_hmain HmJoining (shutdown_client (client_fd_ (h_socket h)) h))
      | _, _ => None
      end
  | YDetach =>
      match h_main h, h_worker h with
      | HmJoining, PcStopped => Some (set_hmain HmDetached (set_disp (Detach (h_disp h)) h))
      | _, _ => None
      end
  | YDestruct =>
      match h_main h with
      | HmDetached =>
          Some (set_hmain HmDestroyed
                  (dangle (negb (bool_decide (h_calls h = [])) || match h_mutex h with Free => false | _ => true end) h))
      | _ => None
      end
  end.
Definition run_helper : list (HelperLabel L) -> LinuxHelper S -> option (LinuxHelper S) := run_exec helper_exec.

(** [main] once [SocketServer::Start] has succeeded; [inbound] is all the peer
    will send. *)
Definition init_helper (s : S) (inbound : list Z) : LinuxHelper S :=
  {| h_disp := attached_session s;
     h_socket := {| stop_ := false; stopped_ := false; listen_fd_ := 3; client_fd_ := -1 |};
     h_mutex := Free; h_worker := PcStart; h_main := HmRunning; h_quits := 0; h_calls := []; h_inbound := inbound;
     h_wire := []; h_frames := []; h_sent := []; h_torn := false; h_closed := []; h_misused := false; h_dangling := false;
     h_listen_shut := false; h_client_shut := false |}.
End Helper.

(** ** Writing *)

(** The worker once a writer has returned. *)
Definition returned_pc (pc pc' : WorkerPc) : Prop :=
  pc' = pc \/ exists fd, (pc = PcGreeting fd \/ pc = PcReplying fd) /\ (pc' = PcServe fd \/ pc' = PcRetract fd).

Section Shapes.
Context {S L : Type} `{PasteBackend S L}.
Implicit Types h : LinuxHelper S.

Lemma writer_returns_shape origin ok h :
  exists pc, writer_returns origin ok h = set_worker_pc pc h /\ returned_pc (h_worker h) pc /\
    (match origin with SentCall _ _ => pc = h_worker h | _ => True end).
Proof.
  assert (Hsame : h = set_worker_pc (h_worker h) h) by (by destruct h).
  unfold writer_returns. destruct origin as [|frame|b c]; destruct (h_worker h) eqn:Ew;
    try (exists (h_worker h); rewrite Ew; split_and!; [done|by left|done]); rewrite ?Ew;
    eexists; (split; [reflexivity|]); (split; [|done]); right; eexists; (split; [by auto|]); try (by left). destruct ok; auto.
Qed.

Lemma lock_and_write_shape origin payload h h' :
  lock_and_write origin payload h = Some h' ->
  h_mutex h = Free /\
  ((exists ok, h' = writer_returns origin ok h) \/
   (0 <= client_fd_ (h_socket h) /\ Zlen payload <= kMaxFrameSize /\
    h' = set_mutex (Held origin payload (WriteLengthLE (Zlen payload)) payload) h)).
Proof.
  unfold lock_and_write. destruct (h_mutex h); [|done]. intros E. apply (inj Some) in E. subst h'. split; [done|].
  destruct (_ <? 0) eqn:Ec; [left; eauto|]. rewrite Z.gtb_ltb. destruct (_ <? Zlen payload) eqn:El; [left; eauto|].
  right. zbool. split_and!; [done|done|]. rewrite u32_small; [done|]. pose proof (Zlen_nonneg payload).
  unfold is_u32, kMaxFrameSize in *. lia.
Qed.
End Shapes.

(** ** What the peer receives *)

(** The peer's decoder on a frame of each origin. *)
Definition message_ok (origin : Origin) (payload : list Z) : Prop :=
  match origin with
  | SentReady => ParseHelperMessage payload = Done (Build_ParsedHelperMessage Ready None None None None None)
  | SentReply _ => reply_typed payload
  | SentCall _ (CallRequest hash) =>
      ParseHelperMessage payload = Done (Build_ParsedHelperMessage DataRequest None None None None None) /\
      exists clock, payload = LinuxEncodeDataRequest hash Text clock
  | SentCall _ (CallChanged utf8) =>
      ParseHelperMessage payload =
        Done (Build_ParsedHelperMessage ClipboardChanged (Some (clipboard_sub Text utf8)) None None None None) /\
      exists cd, LinuxParseClipboardData (clipboard_sub Text utf8) = Done cd /\ lcd_content_type cd = Text /\
        default [] (lcd_payload cd) = utf8
  end.

(** [WriteFrame] refuses the frames that are too long to say anything about. *)
Definition sized_ok (origin : Origin) (payload : list Z) : Prop :=
  Zlen payload <= kMaxFrameSize -> message_ok origin payload.

Lemma timestamp_contains clock w : Zlen w <= Zlen (WriteUint64Field kFieldTimestamp clock w).
Proof.
  rewrite WriteUint64Field_app, Zlen_app. pose proof (Zlen_nonneg (WriteUint64Field kFieldTimestamp clock [])). lia.
Qed.
Lemma sub_contains f s w : Zlen s <= Zlen (WriteSubMessageField f s w).
Proof.
  rewrite WriteSubMessageField_app, Zlen_app. pose proof (sub_field_contains f s). pose proof (Zlen_nonneg w). lia.
Qed.
Lemma clipboard_sub_contains ty text : Zlen text <= Zlen (clipboard_sub ty text).
Proof.
  unfold clipboard_sub. rewrite WriteBytesField_app, Zlen_app. pose proof (bytes_field_contains kCDFieldPayload text).
  pose proof (Zlen_nonneg (WriteEnumField kCDFieldContentType (content_type_value ty) [])). lia.
Qed.

Lemma content_contains text clock : Zlen text <= Zlen (EncodeClipboardContentText text clock).
Proof.
  replace (EncodeClipboardContentText text clock)
    with (EncodeClipboardEnvelope ClipboardContent (clipboard_sub Text text) clock) by (by destruct text).
  unfold EncodeClipboardEnvelope. etrans; [apply (clipboard_sub_contains Text)|]. etrans; [|apply timestamp_contains].
  apply sub_contains.
Qed.
Lemma changed_contains text clock : Zlen text <= Zlen (EncodeClipboardChangedText text [] clock).
Proof.
  replace (EncodeClipboardChangedText text [] clock)
    with (EncodeClipboardEnvelope ClipboardChanged (clipboard_sub Text text) clock) by (by destruct text).
  unfold EncodeClipboardEnvelope. etrans; [apply (clipboard_sub_contains Text)|]. etrans; [|apply timestamp_contains].
  apply sub_contains.
Qed.
Lemma request_contains hash clock : Zlen hash <= Zlen (LinuxEncodeDataRequest hash Text clock).
Proof.
  unfold LinuxEncodeDataRequest. etrans; [|apply timestamp_contains]. etrans; [|apply sub_contains].
  rewrite WriteEnumField_app, Zlen_app. pose proof (Zlen_nonneg (WriteEnumField kReqFieldContentType (content_type_value Text) [])).
  destruct hash as [|c hash]; [rewrite Zlen_nil; lia|]. pose proof (string_field_contains kReqFieldContentHash (c :: hash)). lia.
Qed.

Section Messages.
Context {S L : Type} `{PasteBackend S L}.

Lemma reply_sized frame clock (d : LinuxDispatcher S) :
  is_u64 clock -> sized_ok (SentReply frame) (LinuxHandle frame clock d).1.1.
Proof.
  intros Hc Hl. apply (handle_typed frame clock d Hc). intros s Hd text E.
  pose proof (content_contains text clock). rewrite E in Hl. unfold kMaxFrameSize in Hl. lia.
Qed.

Lemma call_sized on_main c clock frame (d : LinuxDispatcher S) :
  is_u64 clock -> frame ∈ call_frames c clock d -> sized_ok (SentCall on_main c) frame.
Proof.
  intros Hc Hin Hl. destruct c as [hash|utf8]; cbn in Hin; [unfold on_request_callback in Hin|unfold on_changed_callback in Hin];
    destruct (socket_ d); [|by apply elem_of_nil in Hin| |by apply elem_of_nil in Hin];
    apply list_elem_of_singleton in Hin; subst frame; cbn.
  - pose proof (request_contains hash clock). split; [|by exists clock].
    apply parse_data_request; [done|]. unfold kMaxFrameSize in Hl. lia.
  - pose proof (changed_contains utf8 clock). unfold kMaxFrameSize in Hl. split; [apply parse_changed; [done|lia]|].
    apply parse_clipboard_sub; [by left|unfold small; lia].
Qed.
End Messages.

(** ** The invariant of the streams *)

Definition handling (pc : WorkerPc) : list (list Z) :=
  match pc with PcHandle _ frame => [frame] | PcReply _ frame _ => [frame] | _ => [] end.
Definition answering (origin : Origin) : list (list Z) := match origin with SentReply frame => [frame] | _ => [] end.
Definition mutex_origin (m : ClientMutex) : list (list Z) :=
  match m with Held origin _ _ _ => answering origin | Free => [] end.

(** The requests answered, in the order of their replies. *)
Definition replied_frames (sent : list (Origin * list Z)) : list (list Z) := sent ≫= fun e => answering e.1.

(** The worker waits while it holds the mutex itself. *)
Definition holder (origin : Origin) (pc : WorkerPc) : Prop :=
  match origin with
  | SentReady => exists fd, pc = PcGreeting fd
  | SentReply _ => exists fd, pc = PcReplying fd
  | SentCall _ _ => True
  end.
Definition mutex_ok (m : ClientMutex) (pc : WorkerPc) : Prop :=
  match m with
  | Free => True
  | Held origin payload header body =>
      sized_ok origin payload /\ Zlen payload <= kMaxFrameSize /\ (exists w, w ++ header ++ body = frame_bytes payload) /\
      holder origin pc
  end.
Definition pc_ok (pc : WorkerPc) : Prop :=
  match pc with
  | PcGreet _ greet => sized_ok SentReady greet
  | PcReply _ frame reply => sized_ok (SentReply frame) reply
  | _ => True
  end.

Definition sent_bytes (sent : list (Origin * list Z)) : list Z := concat (map (fun e => frame_bytes e.2) sent).
(** Whole frames, and the part of one that its writer has sent so far. *)
Definition wire_ok (sent : list (Origin * list Z)) (m : ClientMutex) (wire : list Z) : Prop :=
  match m with
  | Free => wire = sent_bytes sent
  | Held _ payload header body => exists w, wire = sent_bytes sent ++ w /\ w ++ header ++ body = frame_bytes payload
  end.

#[local] Arguments sent_bytes : simpl never.
#[local] Arguments replied_frames : simpl never.

Section Streams.
Context {S L : Type} `{PasteBackendLaws S L}.
Implicit Types h : LinuxHelper S.

Record stream_inv (inbound : list Z) (h : LinuxHelper S) : Prop := {
  hi_bytes : byte_string (h_inbound h);
  hi_stream : inbound = concat (map frame_bytes (h_frames h)) ++ h_inbound h;
  hi_session : session_inv (h_frames h) (h_disp h);
  hi_order : replied_frames (h_sent h) ++ mutex_origin (h_mutex h) ++ handling (h_worker h) `sublist_of` h_frames h;
  hi_wire : h_torn h = false -> wire_ok (h_sent h) (h_mutex h) (h_wire h);
  hi_mutex : mutex_ok (h_mutex h) (h_worker h);
  hi_sent : Forall (fun e => message_ok e.1 e.2 /\ Zlen e.2 <= kMaxFrameSize) (h_sent h);
  hi_calls : Forall (fun c => sized_ok (SentCall c.1.1 c.1.2) c.2) (h_calls h);
  hi_pc : pc_ok (h_worker h)
}.

Lemma inv_pc inbound pc h :
  handling pc `sublist_of` handling (h_worker h) -> pc_ok pc -> mutex_ok (h_mutex h) pc ->
  stream_inv inbound h -> stream_inv inbound (set_worker_pc pc h).
Proof.
  intros Hh Hp Hm []. constructor; cbn; try done. etrans; [|done]. apply sublist_app; [done|]. by apply sublist_app.
Qed.

Lemma mutex_ok_plain m pc pc' : mutex_ok m pc -> (forall fd, pc <> PcGreeting fd /\ pc <> PcReplying fd) -> mutex_ok m pc'.
Proof.
  destruct m as [|[|frame|b c] p hd bd]; try done; intros (? & ? & ? & Hh) Hpc.
  - destruct Hh as [fd ->]. by destruct (Hpc fd).
  - destruct Hh as [fd ->]. by destruct (Hpc fd).
Qed.

(** A step of the worker that is not in a write. *)
Lemma inv_worker inbound pc h :
  (forall fd, h_worker h <> PcGreeting fd /\ h_worker h <> PcReplying fd) -> handling pc = [] -> pc_ok pc ->
  stream_inv inbound h -> stream_inv inbound (set_worker_pc pc h).
Proof.
  intros Hpc Hh Hp Hi. apply inv_pc; [rewrite Hh; apply sublist_nil_l|done|eapply mutex_ok_plain; [apply Hi|done]|done].
Qed.

Lemma inv_returns inbound origin ok h :
  h_mutex h = Free -> stream_inv inbound h -> stream_inv inbound (writer_returns origin ok h).
Proof.
  intros Hm Hi. destruct (writer_returns_shape origin ok h) as (pc & -> & Hpc & _).
  apply inv_pc; [|destruct Hpc as [->|(fd & _ & [-> | ->])]; [apply Hi|done|done]|by rewrite Hm|done].
  destruct Hpc as [->|(fd & _ & [-> | ->])]; [done|apply sublist_nil_l..].
Qed.

Lemma inv_lock inbound origin payload h h' :
  lock_and_write origin payload h = Some h' -> sized_ok origin payload -> holder origin (h_worker h) ->
  replied_frames (h_sent h) ++ answering origin ++ handling (h_worker h) `sublist_of` h_frames h ->
  stream_inv inbound h -> stream_inv inbound h'.
Proof.
  intros (Hm & [[ok ->]|(_ & Hl & ->)])%lock_and_write_shape Hs Hh Ho Hi; [by apply inv_returns|].
  destruct Hi as [? ? ? _ Hw _ ? ? ?]. constructor; cbn; try done.
  - intros Ht. specialize (Hw Ht). rewrite Hm in Hw. exists []. rewrite app_nil_r. exact (conj Hw (eq_sym (frame_bytes_code payload))).
  - split_and!; [done|done|exists []; exact (eq_sym (frame_bytes_code payload))|done].
Qed.

Lemma sent_bytes_snoc sent origin payload : sent_bytes (sent ++ [(origin, payload)]) = sent_bytes sent ++ frame_bytes payload.
Proof. unfold sent_bytes. rewrite map_app, concat_app. cbn. by rewrite app_nil_r. Qed.
Lemma replied_snoc sent origin payload : replied_frames (sent ++ [(origin, payload)]) = replied_frames sent ++ answering origin.
Proof. unfold replied_frames. rewrite bind_app. cbn. by rewrite app_nil_r. Qed.

Lemma inv_write inbound script h h' : write_step script h = Some h' -> stream_inv inbound h -> stream_inv inbound h'.
Proof.
  unfold write_step. destruct (h_mutex h) as [|origin payload header body] eqn:Em; [done|].
  destruct (write_on send_round script header body (h_wire h)) as [[[r wire] header'] body'] eqn:Ew.
  destruct (write_on_spec _ _ _ _ _ _ _ _ _ Ew) as (w & -> & Hwb & Hok).
  intros E Hi. pose proof (hi_mutex _ _ Hi) as Hm. rewrite Em in Hm. destruct Hm as (Hsz & Hl & [w0 Hw0] & Hh).
  destruct Hi as [Hb Hst Hse Ho Hw _ Hsent Hc Hpc]. rewrite Em in Ho, Hw. cbn in Ho.
  destruct r; apply (inj Some) in E; subst h'; [apply inv_returns; [done|]..|]; constructor; cbn; try done.
  - by rewrite replied_snoc, <- app_assoc.
  - intros Ht. destruct (Hw Ht) as (w1 & -> & Hw1). rewrite sent_bytes_snoc, <- app_assoc. f_equal.
    rewrite <- Hw1, <- Hwb, (Hok eq_refl). by rewrite app_nil_r.
  - apply Forall_app. split; [done|]. apply Forall_singleton. cbn. auto.
  - etrans; [|exact Ho]. apply sublist_app; [done|]. by apply sublist_inserts_l.
  - intros [Ht Hb']%orb_false_iff. apply negb_false_iff, bool_decide_eq_true in Hb'.
    destruct (Hw Ht) as (w1 & -> & Hw1). rewrite <- Hwb, Hb' in Hw1. apply (f_equal length) in Hw1. rewrite !length_app in Hw1.
    destruct w1; [|simpl in Hw1; lia]. destruct w; [|simpl in Hw1; lia]. by rewrite !app_nil_r.
  - intros Ht. destruct (Hw Ht) as (w1 & -> & Hw1). exists (w1 ++ w). rewrite <- !app_assoc. by rewrite Hwb.
  - split_and!; [done|done| |done]. exists (w0 ++ w). by rewrite <- app_assoc, Hwb.
Qed.

(** Reading a frame. *)
Lemma inv_read inbound alloc script fd frame rest sc h :
  h_worker h = PcRead fd -> ReadFrame alloc script (h_inbound h) = (ReadOk frame rest, sc) ->
  stream_inv inbound h -> stream_inv inbound (set_worker_pc (PcHandle fd frame) (took frame rest h)).
Proof.
  intros Ew ER Hi. apply read_frame_refines in ER; [|apply Hi]. apply split_frame_complete in ER as [E Hl]; [|apply Hi].
  destruct Hi as [Hb Hst Hse Ho Hw Hm Hsent Hc Hpc]. rewrite E in Hb. apply Forall_app in Hb as [_ Hb].
  rewrite Ew in Ho, Hm. cbn in Ho. rewrite app_nil_r in Ho. constructor; cbn; try done.
  - rewrite Hst, E, map_app, concat_app, <- app_assoc. cbn. by rewrite app_nil_r.
  - eapply session_inv_mono; [|exact Hse]. intros x. rewrite elem_of_app. by left.
  - rewrite app_assoc. by apply sublist_app.
  - eapply mutex_ok_plain; [exact Hm|done].
Qed.

(** Handling it. *)
Lemma inv_handle inbound clock fd frame h reply d sd bad :
  h_worker h = PcHandle fd frame -> is_u64 clock -> LinuxHandle frame clock (h_disp h) = (reply, d, sd) ->
  stream_inv inbound h ->
  stream_inv inbound (set_worker_pc (match reply with [] => PcServe fd | _ => PcReply fd frame reply end)
                        (QuitAppSafely sd (set_disp d (misuse bad h)))).
Proof.
  intros Ew Hc E Hi. pose proof (reply_sized frame clock (h_disp h) Hc) as Hr. rewrite E in Hr. cbn in Hr.
  destruct Hi as [Hb Hst Hse Ho Hw Hm Hsent Hcalls Hpc]. rewrite Ew in Ho, Hm.
  assert (Hin : frame ∈ h_frames h).
  { eapply elem_of_sublist; [|exact Ho]. rewrite !elem_of_app. right. right. by left. }
  constructor; cbn; try done.
  - by eapply session_frame_inv.
  - destruct reply; [|done]. etrans; [|exact Ho]. cbn. rewrite !app_assoc. apply sublist_app; [done|apply sublist_nil_l].
  - destruct reply; (eapply mutex_ok_plain; [exact Hm|done]).
  - by destruct reply.
Qed.

(** The backend's threads and its callbacks. *)
Lemma inv_backend inbound l clock h h' :
  is_u64 clock -> backend_step l clock h = Some h' -> stream_inv inbound h -> stream_inv inbound h'.
Proof.
  intros Hc E Hi. unfold backend_step in E. destruct (clipboard_ (h_disp h)) as [s|] eqn:Ed; [|done].
  destruct (if backend_enabled l h then backend_exec l s else None) as [s'|] eqn:EB; [|done].
  destruct (backend_enabled l h); [|done]. apply (inj Some) in E. subst h'.
  destruct Hi. constructor; cbn; try done; [by eapply session_own_inv|].
  apply Forall_app. split; [done|]. apply Forall_forall. intros [[b c] frame] Hin. cbn.
  apply list_elem_of_bind in Hin as (c' & Hin & _). apply list_elem_of_fmap in Hin as (frame' & [= -> -> ->] & Hin).
  by eapply call_sized.
Qed.

(** The labels' clocks are 64-bit numbers. *)
Definition clock_ok (l : HelperLabel L) : Prop :=
  match l with YConnect clock | YHandle clock | YBackend _ clock => is_u64 clock | _ => True end.

Lemma inv_same inbound h h' :
  h_inbound h' = h_inbound h -> h_frames h' = h_frames h -> h_disp h' = h_disp h -> h_sent h' = h_sent h ->
  h_mutex h' = h_mutex h -> h_worker h' = h_worker h -> h_torn h' = h_torn h -> h_wire h' = h_wire h ->
  h_calls h' = h_calls h -> stream_inv inbound h -> stream_inv inbound h'.
Proof. intros E1 E2 E3 E4 E5 E6 E7 E8 E9 []. by constructor; rewrite ?E1, ?E2, ?E3, ?E4, ?E5, ?E6, ?E7, ?E8, ?E9. Qed.

Lemma inv_worker_step inbound h h' : worker_step h = Some h' -> stream_inv inbound h -> stream_inv inbound h'.
Proof.
  intros E Hi. unfold worker_step in E. destruct (h_worker h) eqn:Ew; try discriminate E.
  - apply (inj Some) in E. subst h'. apply inv_worker; rewrite ?Ew; by repeat case_match.
  - apply (inj Some) in E. subst h'. apply inv_worker; rewrite ?Ew; by repeat case_match.
  - apply (inj Some) in E. subst h'. apply inv_worker; rewrite ?Ew; by repeat case_match.
  - (* PcGreet *) pose proof (hi_pc _ _ Hi) as Hp. rewrite Ew in Hp. destruct greet as [|c greet].
    + apply (inj Some) in E. subst h'. apply inv_worker; rewrite ?Ew; done.
    + eapply inv_lock; [exact E|exact Hp|by eexists| |apply inv_worker; rewrite ?Ew; done].
      pose proof (hi_order _ _ Hi) as Ho. rewrite Ew in Ho. apply lock_and_write_shape in E as [Em _]. cbn in Em.
      by rewrite Em in Ho.
  - apply (inj Some) in E. subst h'. apply inv_worker; rewrite ?Ew; by repeat case_match.
  - (* PcReply *) pose proof (hi_pc _ _ Hi) as Hp. rewrite Ew in Hp.
    eapply inv_lock; [exact E|exact Hp|by eexists| |apply inv_worker; rewrite ?Ew; done].
    pose proof (hi_order _ _ Hi) as Ho. rewrite Ew in Ho. apply lock_and_write_shape in E as [Em _]. cbn in Em.
    by rewrite Em in Ho.
  - destruct (h_mutex h); [|done]. apply (inj Some) in E. subst h'. apply inv_worker; [cbn; by rewrite Ew|done|done|].
    by apply (inv_same _ h).
  - apply (inj Some) in E. subst h'. apply inv_worker; [cbn; by rewrite Ew|done|done|]. by apply (inv_same _ h).
  - apply (inj Some) in E. subst h'. apply (inv_same _ (set_worker_pc PcStopped h)); try done.
    apply inv_worker; by rewrite ?Ew.
Qed.

Lemma session_detach frames d : session_inv frames d -> session_inv frames (Detach d).
Proof.
  intros (s & Hd & Hok & Hf). unfold Detach. destruct (attached_ d); cbn [negb]; [|by exists s].
  destruct (on_changed_takes None s) as (Ha1 & _ & _ & Hok1).
  destruct (on_request_takes None (SetOnClipboardChanged None s)) as (Ha2 & _ & _ & Hok2).
  eexists. split; [cbn; by rewrite Hd|]. split; [auto|]. intros hash dt Hh. rewrite Ha2, Ha1 in Hh. eauto.
Qed.

Lemma inv_step inbound l h h' : clock_ok l -> helper_exec l h = Some h' -> stream_inv inbound h -> stream_inv inbound h'.
Proof.
  intros Hc E Hi. destruct l; cbn [helper_exec] in E.
  - by eapply inv_worker_step.
  - destruct (h_worker h) eqn:Ew; try discriminate E.
    destruct a as [fd| |]; [destruct (h_mutex h); [|done]; destruct (fd <? 0); [done|]|..];
      apply (inj Some) in E; subst h'; (apply inv_worker; [cbn; by rewrite Ew|done|done|by apply (inv_same _ h)]).
  - destruct (h_worker h) eqn:Ew; try discriminate E. apply (inj Some) in E. subst h'.
    apply inv_worker; [cbn; by rewrite Ew|done| |done]. intros _. by apply parse_ready.
  - destruct (h_worker h) eqn:Ew; try discriminate E.
    destruct (ReadFrame alloc_ok script (h_inbound h)) as [[frame rest| |] sc] eqn:ER; try discriminate E;
      apply (inj Some) in E; subst h'; [by eapply inv_read|]. apply inv_worker; by rewrite ?Ew.
  - destruct (h_worker h) eqn:Ew; try discriminate E. destruct (LinuxHandle frame clock (h_disp h)) as [[reply d] sd] eqn:EH.
    apply (inj Some) in E. subst h'. by eapply inv_handle.
  - by eapply inv_backend.
  - destruct (h_calls h !! i) as [[[b c] frame]|] eqn:Ec; [|done].
    assert (Hs : sized_ok (SentCall b c) frame).
    { pose proof (hi_calls _ _ Hi) as Hcs. rewrite Forall_forall in Hcs. apply (Hcs (b, c, frame)). by eapply list_elem_of_lookup_2. }
    eapply inv_lock; [exact E|exact Hs|done| |].
    + pose proof (hi_order _ _ Hi) as Ho. apply lock_and_write_shape in E as [Em _]. cbn in Em. by rewrite Em in Ho.
    + destruct Hi. constructor; cbn; try done. by apply Forall_delete.
  - by eapply inv_write.
  - destruct (h_main h); try discriminate E. destruct (_ || _); [done|]. apply (inj Some) in E. subst h'. by apply (inv_same _ h).
  - destruct (h_main h); try discriminate E. destruct (h_mutex h); [|done]. apply (inj Some) in E. subst h'. by apply (inv_same _ h).
  - destruct (h_main h); try discriminate E. destruct (h_worker h); try discriminate E. apply (inj Some) in E. subst h'.
    destruct Hi. constructor; cbn; try done. by apply session_detach.
  - destruct (h_main h); try discriminate E. apply (inj Some) in E. subst h'. by apply (inv_same _ h).
Qed.

Lemma inv_reachable s inbound ls h :
  backend_ok s -> backend_accepted s = [] -> byte_string inbound -> Forall clock_ok ls ->
  run_helper ls (init_helper s inbound) = Some h -> stream_inv inbound h.
Proof.
  intros Hok Ha Hb Hl E. apply (run_exec_invariant helper_exec (stream_inv inbound) clock_ok (inv_step inbound) ls _ _ Hl E).
  constructor; cbn; try done; try apply Forall_nil_2. by apply attached_session_inv.
Qed.
End Streams.

(** ** The life cycle *)

(** The connected client. *)
Definition client_of (pc : WorkerPc) : option Z :=
  match pc with
  | PcConnect fd | PcGreet fd _ | PcGreeting fd | PcServe fd | PcRead fd | PcHandle fd _ | PcReply fd _ _ | PcReplying fd
  | PcRetract fd => Some fd
  | _ => None
  end.

(** The client descriptor is published while the worker serves the client and
    closed once, after it is retracted. *)
Definition client_ok (pc : WorkerPc) (client : Z) (closed : list Z) : Prop :=
  match client_of pc with
  | Some fd => client = fd /\ 0 <= fd /\ closed = []
  | None =>
      client = -1 /\
      match pc with
      | PcStart | PcLoop _ | PcAccept _ | PcAcceptFailed => closed = []
      | PcClose fd => closed = [] /\ 0 <= fd
      | _ => (length closed <= 1)%nat
      end
  end.
(** An ended worker has asked [main] to quit, or [main] is stopping already. *)
Definition end_ok (pc : WorkerPc) (quits : nat) (socket : SocketState) : Prop :=
  match pc with
  | PcEnd fire => stopped_ socket = false /\ (fire = false -> stop_ socket = true)
  | PcStopped => stopped_ socket = true /\ ((0 < quits)%nat \/ stop_ socket = true)
  | _ => stopped_ socket = false
  end.
Definition helper_main_ok (main : HelperMain) (pc : WorkerPc) (socket : SocketState) : Prop :=
  match main with
  | HmRunning => stop_ socket = false
  | HmStopping | HmJoining => stop_ socket = true
  | HmDetached | HmDestroyed => stop_ socket = true /\ pc = PcStopped
  end.

Section Life.
Context {S L : Type} `{PasteBackendLaws S L}.
Implicit Types h : LinuxHelper S.

Definition disp_alive (d : LinuxDispatcher S) : Prop := exists s, clipboard_ d = Some s /\ backend_alive s = true.

Record life_inv (h : LinuxHelper S) : Prop := {
  li_client : client_ok (h_worker h) (client_fd_ (h_socket h)) (h_closed h);
  li_end : end_ok (h_worker h) (h_quits h) (h_socket h);
  li_main : helper_main_ok (h_main h) (h_worker h) (h_socket h);
  li_alive : h_main h <> HmDestroyed -> disp_alive (h_disp h);
  li_misused : h_misused h = false
}.

Lemma life_returns origin ok h : life_inv h -> life_inv (writer_returns origin ok h).
Proof.
  intros Hi. destruct (writer_returns_shape origin ok h) as (pc & -> & [->|(fd & Hpc & Hpc')] & _); [by destruct Hi; constructor|].
  destruct Hi as [Hc He Hm Ha Hu].
  constructor; cbn; try done; destruct Hpc as [E|E]; rewrite E in *; destruct Hpc' as [-> | ->]; try done;
    by destruct (h_main h); [| | |destruct Hm..].
Qed.

Lemma life_set_mutex m h : life_inv h -> life_inv (set_mutex m h).
Proof. intros []. by constructor. Qed.

Lemma life_lock origin payload h h' : lock_and_write origin payload h = Some h' -> life_inv h -> life_inv h'.
Proof.
  intros (_ & [[ok ->]|(_ & _ & ->)])%lock_and_write_shape Hi; [by apply life_returns|by apply life_set_mutex].
Qed.

Lemma life_write script h h' : write_step script h = Some h' -> life_inv h -> life_inv h'.
Proof.
  unfold write_step. destruct (h_mutex h) as [|origin payload header body]; [done|].
  destruct (write_on send_round script header body (h_wire h)) as [[[r wire] header'] body'].
  intros E Hi. destruct r; apply (inj Some) in E; subst h'; try apply life_returns; destruct Hi; by constructor.
Qed.

(** The worker moves while it is alive: [main] has not detached. *)
Lemma helper_main_moves main pc pc' socket : helper_main_ok main pc socket -> pc <> PcStopped -> helper_main_ok main pc' socket.
Proof. destruct main; cbn; naive_solver. Qed.

Lemma life_pc pc h :
  h_worker h <> PcStopped -> client_ok pc (client_fd_ (h_socket h)) (h_closed h) -> end_ok pc (h_quits h) (h_socket h) ->
  life_inv h -> life_inv (set_worker_pc pc h).
Proof. intros Hpc Hc He []. constructor; cbn; try done. by eapply helper_main_moves. Qed.

Lemma life_worker_step h h' : worker_step h = Some h' -> life_inv h -> life_inv h'.
Proof.
  intros E Hi. pose proof (li_client _ Hi) as Hc. pose proof (li_end _ Hi) as He.
  unfold worker_step in E. destruct (h_worker h) eqn:Ew; try discriminate E; rewrite ?Ew in Hc, He; unfold client_ok in Hc; cbn in Hc, He.
  - apply (inj Some) in E. subst h'. destruct Hc as [Hc Hcl]. apply life_pc; [by rewrite Ew| | |done];
      unfold client_ok, end_ok; rewrite ?Hcl; destruct (listen_fd_ (h_socket h) <? 0); cbn; naive_solver lia.
  - apply (inj Some) in E. subst h'. destruct Hc as [Hc Hcl]. apply life_pc; [by rewrite Ew| | |done];
      unfold client_ok, end_ok; rewrite ?Hcl; destruct (stop_ (h_socket h)); cbn; naive_solver lia.
  - apply (inj Some) in E. subst h'. destruct Hc as [Hc Hcl]. apply life_pc; [by rewrite Ew| | |done];
      unfold client_ok, end_ok; rewrite ?Hcl; [cbn; naive_solver lia|]. split; [done|]. by intros ?%negb_false_iff.
  - destruct greet as [|c greet]; [apply (inj Some) in E; subst h'|eapply life_lock; [exact E|]]; apply life_pc; by rewrite ?Ew.
  - apply (inj Some) in E. subst h'. apply life_pc; [by rewrite Ew|..]; by destruct (stop_ (h_socket h)).
  - eapply life_lock; [exact E|]. apply life_pc; by rewrite ?Ew.
  - destruct (h_mutex h); [|done]. apply (inj Some) in E. subst h'. destruct Hc as (_ & Hfd & Hcl), Hi as [_ _ Hm Ha Hu].
    rewrite Ew in Hm. constructor; cbn; try done; by eapply helper_main_moves.
  - apply (inj Some) in E. subst h'. destruct Hc as (Hc & Hcl & Hfd), Hi as [_ _ Hm Ha Hu].
    rewrite Ew in Hm. constructor; cbn; try done; [|by eapply helper_main_moves].
    unfold client_ok. cbn. by rewrite Hcl.
  - apply (inj Some) in E. subst h'. destruct Hi as [_ _ Hm Ha Hu]. rewrite Ew in Hm. constructor; cbn; try done.
    + split; [done|]. destruct fire_disconnect; [left; lia|right; by apply He].
    + destruct (h_main h); cbn in *; naive_solver.
Qed.

Lemma alive_handle frame clock d reply d' sd : LinuxHandle frame clock d = (reply, d', sd) -> disp_alive d -> disp_alive d'.
Proof.
  intros E (s & Hd & Ha). destruct (handle_call _ _ _ _ _ _ _ Hd E) as (s1 & Hd1 & Hc).
  exists s1. by rewrite (proj2 (frame_call_calls _ _ _ Hc)).
Qed.

Lemma alive_detach d : disp_alive d -> disp_alive (Detach d).
Proof.
  intros (s & Hd & Ha). unfold Detach. destruct (attached_ d); cbn [negb]; [|by exists s].
  eexists. split; [cbn; by rewrite Hd|].
  destruct (on_changed_takes None s) as (_ & _ & Ha1 & _).
  destruct (on_request_takes None (SetOnClipboardChanged None s)) as (_ & _ & Ha2 & _). by rewrite Ha2, Ha1.
Qed.

Lemma backend_step_shape l clock h h' : backend_step l clock h = Some h' ->
  exists s s' calls bad, clipboard_ (h_disp h) = Some s /\ backend_enabled l h = true /\ backend_exec l s = Some s' /\
    calls = drop (length (backend_calls s)) (backend_calls s') /\
    bad = match h_main h with HmDestroyed => true | _ => false end && negb (bool_decide (calls = [])) /\
    h' = dangle bad (set_calls (h_calls h ++ (calls ≫= fun c => map (pair (backend_on_main l, c)) (call_frames c clock (h_disp h))))
           (set_disp (with_backend s' (h_disp h)) h)).
Proof.
  unfold backend_step. destruct (clipboard_ (h_disp h)) as [s|]; [|done]. destruct (backend_enabled l h); [|done].
  destruct (backend_exec l s) as [s'|] eqn:EB; [|done]. intros E. apply (inj Some) in E.
  exists s, s', (drop (length (backend_calls s)) (backend_calls s')). eexists. split_and!; done.
Qed.

Lemma life_step l h h' : helper_exec l h = Some h' -> life_inv h -> life_inv h'.
Proof.
  intros E Hi. pose proof (li_client _ Hi) as Hc. pose proof (li_end _ Hi) as He. pose proof (li_main _ Hi) as Hm.
  destruct l; cbn [helper_exec] in E.
  - by eapply life_worker_step.
  - destruct (h_worker h) eqn:Ew; try discriminate E. unfold client_ok in Hc. cbn in Hc, He. destruct Hc as [Hc Hcl].
    destruct a as [fd| |]; [destruct (h_mutex h); [|done]; destruct (fd <? 0) eqn:Ef; [done|]|..];
      apply (inj Some) in E; subst h'; [|by apply life_pc; rewrite ?Ew..].
    destruct Hi as [_ _ _ Ha Hu]. zbool. constructor; cbn; try done. destruct (h_main h); cbn in *; naive_solver.
  - destruct (h_worker h) eqn:Ew; try discriminate E. apply (inj Some) in E. subst h'. by apply life_pc; rewrite ?Ew.
  - destruct (h_worker h) eqn:Ew; try discriminate E.
    destruct (ReadFrame alloc_ok script (h_inbound h)) as [[frame rest| |] sc]; try discriminate E;
      apply (inj Some) in E; subst h'; (apply life_pc; [cbn; by rewrite ?Ew|done|done|]); [|done]. destruct Hi. by constructor.
  - destruct (h_worker h) eqn:Ew; try discriminate E. destruct (LinuxHandle frame clock (h_disp h)) as [[reply d] sd] eqn:EH.
    apply (inj Some) in E. subst h'. destruct Hi as [_ _ _ Ha Hu]. cbn in He.
    assert (Hnd : h_main h <> HmDestroyed) by (intros Ed; rewrite Ed in Hm; by destruct Hm).
    destruct (Ha Hnd) as (s & Hd & Hal).
    constructor; cbn; try done; [by destruct reply|by destruct reply|by destruct reply, (h_main h); cbn in *; naive_solver| |].
    + intros _. eapply alive_handle; [exact EH|by exists s].
    + unfold backend_dead. by rewrite Hu, Hd, Hal.
  - apply backend_step_shape in E as (s & s' & calls & bad & Hd & Hen & EB & _ & _ & ->). destruct Hi as [_ _ _ Ha Hu].
    constructor; cbn; try done. intros Hnd. destruct (Ha Hnd) as (s0 & Hd0 & Hal). rewrite Hd in Hd0. injection Hd0 as <-.
    exists s'. split; [cbn; by rewrite Hd|]. rewrite (own_alive _ _ _ EB); [done|]. unfold backend_enabled in Hen.
    destruct (backend_destroys l) eqn:El; [|done]. rewrite (destroys_on_main _ El) in Hen. apply andb_prop in Hen as [_ Hen].
    by destruct (h_main h).
  - destruct (h_calls h !! i) as [[[b c] frame]|]; [|done]. eapply life_lock; [exact E|]. destruct Hi. by constructor.
  - by eapply life_write.
  - destruct (h_main h) eqn:Em; try discriminate E. destruct (_ || _); [done|]. apply (inj Some) in E. subst h'.
    destruct Hi as [_ _ _ Ha Hu]. rewrite Em in Ha. constructor; cbn; try done; [|intros _; by apply Ha]. destruct (h_worker h); cbn in *; naive_solver.
  - destruct (h_main h) eqn:Em; try discriminate E. destruct (h_mutex h); [|done]. apply (inj Some) in E. subst h'.
    destruct Hi as [_ _ _ Ha Hu]. rewrite Em in Ha. constructor; cbn; try done. intros _. by apply Ha.
  - destruct (h_main h) eqn:Em; try discriminate E. destruct (h_worker h) eqn:Ew; try discriminate E. apply (inj Some) in E.
    subst h'. destruct Hi as [_ _ _ Ha Hu]. rewrite Em in Ha. constructor; cbn; rewrite ?Ew; try done. intros _. apply alive_detach. by apply Ha.
  - destruct (h_main h) eqn:Em; try discriminate E. apply (inj Some) in E. subst h'. destruct Hi as [_ _ _ Ha Hu].
    constructor; cbn; done.
Qed.

Lemma life_reachable s inbound ls h :
  backend_alive s = true -> run_helper ls (init_helper s inbound) = Some h -> life_inv h.
Proof.
  intros Ha E. apply (run_exec_invariant helper_exec life_inv (fun _ => True) (fun l a b _ => life_step l a b) ls (init_helper s inbound) h);
    [by apply Forall_true|exact E|].
  constructor; cbn; try done. intros _. eexists. split; [reflexivity|].
  destruct (on_changed_takes (Some (on_changed_callback true)) s) as (_ & _ & Ha1 & _).
  destruct (on_request_takes (Some (on_request_callback true)) (SetOnClipboardChanged (Some (on_changed_callback true)) s))
    as (_ & _ & Ha2 & _). by rewrite Ha2, Ha1.
Qed.
End Life.

(** ** Callbacks and the destructors *)

(** A backend whose callbacks are all made by the Qt main thread. *)
Class CallsOnMain (S L : Type) `{PasteBackend S L} := {
  off_main_quiet l s s' : backend_exec l s = Some s' -> backend_on_main l = false -> backend_calls s' = backend_calls s;
  destroy_quiet l s s' : backend_exec l s = Some s' -> backend_destroys l = true -> backend_calls s' = backend_calls s
}.

Definition held_on_main (m : ClientMutex) : Prop := match m with Held (SentCall on_main _) _ _ _ => on_main = true | _ => True end.
Definition held_by_worker (m : ClientMutex) : Prop := match m with Held (SentCall _ _) _ _ _ => False | _ => True end.

Section Callbacks.
Context {S L : Type} `{PasteBackendLaws S L} `{!CallsOnMain S L}.
Implicit Types h : LinuxHelper S.

Record call_inv (h : LinuxHelper S) : Prop := {
  ci_calls : Forall (fun c => c.1.1 = true) (h_calls h);
  ci_held : held_on_main (h_mutex h);
  ci_stopped : h_main h <> HmRunning -> h_calls h = [] /\ held_by_worker (h_mutex h);
  ci_dangling : h_dangling h = false
}.

Lemma call_same h h' :
  h_calls h' = h_calls h -> h_mutex h' = h_mutex h -> h_main h' = h_main h -> h_dangling h' = h_dangling h ->
  call_inv h -> call_inv h'.
Proof. intros E1 E2 E3 E4 []. by constructor; rewrite ?E1, ?E2, ?E3, ?E4. Qed.

Lemma call_returns origin ok h : call_inv h -> call_inv (writer_returns origin ok h).
Proof. intros Hi. destruct (writer_returns_shape origin ok h) as (pc & -> & _ & _). by apply (call_same h). Qed.

Lemma call_lock origin payload h h' :
  lock_and_write origin payload h = Some h' -> match origin with SentCall on_main _ => on_main = true /\ h_main h = HmRunning | _ => True end ->
  call_inv h -> call_inv h'.
Proof.
  intros (Hm & [[ok ->]|(_ & _ & ->)])%lock_and_write_shape Ho Hi; [by apply call_returns|].
  destruct Hi as [Hc _ Hs Hd]. constructor; cbn; try done.
  - destruct origin; cbn; naive_solver.
  - intros Hr. destruct (Hs Hr) as [-> _]. split; [done|]. destruct origin; naive_solver.
Qed.

Lemma call_write script h h' : write_step script h = Some h' -> call_inv h -> call_inv h'.
Proof.
  unfold write_step. destruct (h_mutex h) as [|origin payload header body] eqn:Em; [done|].
  destruct (write_on send_round script header body (h_wire h)) as [[[r wire] header'] body'].
  intros E [Hc Hh Hs Hd]. rewrite Em in Hh, Hs.
  destruct r; apply (inj Some) in E; subst h'; try apply call_returns; constructor; cbn; try done;
    intros Hr; destruct (Hs Hr); by split.
Qed.

Lemma call_worker h h' : worker_step h = Some h' -> call_inv h -> call_inv h'.
Proof.
  intros E Hi. unfold worker_step in E. destruct (h_worker h) eqn:Ew; try discriminate E;
    try (apply (inj Some) in E; subst h'; by apply (call_same h)).
  - destruct greet; [apply (inj Some) in E; subst h'; by apply (call_same h)|].
    eapply call_lock; [exact E|done|by apply (call_same h)].
  - eapply call_lock; [exact E|done|by apply (call_same h)].
  - destruct (h_mutex h) eqn:Em; [|done]. apply (inj Some) in E. subst h'. by apply (call_same h).
Qed.

Lemma call_backend l clock h h' : backend_step l clock h = Some h' -> call_inv h -> call_inv h'.
Proof.
  intros (s & s' & calls & bad & Hd & Hen & EB & Hcalls & Hbad & ->)%backend_step_shape [Hc Hh Hs Hda].
  assert (Hquiet : backend_on_main l = false \/ backend_destroys l = true -> calls = []).
  { intros Hq. assert (Hsame : backend_calls s' = backend_calls s) by (destruct Hq; [by eapply off_main_quiet|by eapply destroy_quiet]).
    by rewrite Hcalls, Hsame, drop_all. }
  constructor; cbn; try done.
  - apply Forall_app. split; [done|]. apply Forall_forall. intros c Hin.
    apply list_elem_of_bind in Hin as (c' & Hin & Hc'). apply list_elem_of_fmap in Hin as (frame & -> & _). cbn.
    destruct (backend_on_main l) eqn:El; [done|]. rewrite Hquiet in Hc' by auto. by apply elem_of_nil in Hc'.
  - intros Hr. destruct (Hs Hr) as [-> ?]. split; [|done]. rewrite Hquiet; [done|]. unfold backend_enabled in Hen.
    destruct (backend_on_main l); [|by left]. apply andb_prop in Hen as [_ Hen]. right. by destruct (h_main h).
  - rewrite Hda, Hbad. destruct (h_main h) eqn:Em; try done. rewrite Hquiet; [done|]. unfold backend_enabled in Hen. rewrite Em in Hen.
    destruct (backend_on_main l); [|by left]. apply andb_prop in Hen as [_ Hen]. by right.
Qed.

Lemma call_step inbound l h h' :
  helper_exec l h = Some h' -> stream_inv inbound h -> life_inv h -> call_inv h -> call_inv h'.
Proof.
  intros E Hst Hl Hi. destruct l; cbn [helper_exec] in E.
  - by eapply call_worker.
  - destruct (h_worker h); try discriminate E.
    destruct a as [fd| |]; [destruct (h_mutex h) eqn:Em; [|done]; destruct (fd <? 0); [done|]|..];
      apply (inj Some) in E; subst h'; by apply (call_same h).
  - destruct (h_worker h); try discriminate E. apply (inj Some) in E. subst h'. by apply (call_same h).
  - destruct (h_worker h); try discriminate E.
    destruct (ReadFrame alloc_ok script (h_inbound h)) as [[frame rest| |] sc]; try discriminate E;
      apply (inj Some) in E; subst h'; by apply (call_same h).
  - destruct (h_worker h); try discriminate E. destruct (LinuxHandle frame clock (h_disp h)) as [[reply d] sd].
    apply (inj Some) in E. subst h'. by apply (call_same h).
  - by eapply call_backend.
  - destruct (h_calls h !! i) as [[[b c] frame]|] eqn:Ec; [|done]. pose proof (ci_calls _ Hi) as Hc. rewrite Forall_forall in Hc.
    assert (Hr : h_main h = HmRunning).
    { destruct (decide (h_main h = HmRunning)) as [|Hn]; [done|]. destruct (ci_stopped _ Hi Hn) as [Hnil _]. by rewrite Hnil in Ec. }
    eapply call_lock; [exact E| |].
    + split; [|done]. apply (Hc (b, c, frame)). by eapply list_elem_of_lookup_2.
    + destruct Hi. constructor; cbn; try done. by apply Forall_delete.
  - by eapply call_write.
  - destruct (h_main h) eqn:Em; try discriminate E. destruct (main_sending h || _) eqn:Es; [done|]. apply (inj Some) in E. subst h'.
    apply orb_false_iff in Es as [Es _]. unfold main_sending in Es. apply orb_false_iff in Es as [Es1 Es2].
    destruct Hi as [Hc Hh _ Hd]. constructor; cbn; try done. intros _. split.
    + destruct (h_calls h) as [|c calls]; [done|]. apply Forall_cons in Hc as [Hc _]. cbn in Es1. by rewrite Hc in Es1.
    + destruct (h_mutex h) as [|[|frame|b c] p hd bd]; try done. cbn in Hh. by subst b.
  - destruct (h_main h) eqn:Em; try discriminate E. destruct (h_mutex h) eqn:Emu; [|done]. apply (inj Some) in E. subst h'.
    destruct Hi as [Hc Hh Hs Hd]. rewrite Em, Emu in Hs. constructor; cbn; rewrite ?Emu; try done. intros _. by apply Hs.
  - destruct (h_main h) eqn:Em; try discriminate E. destruct (h_worker h); try discriminate E. apply (inj Some) in E. subst h'.
    destruct Hi as [Hc Hh Hs Hd]. rewrite Em in Hs. constructor; cbn; try done. intros _. by apply Hs.
  - destruct (h_main h) eqn:Em; try discriminate E. apply (inj Some) in E. subst h'.
    destruct Hi as [Hc Hh Hs Hd]. rewrite Em in Hs. destruct (Hs ltac:(done)) as [Hnil Hw]. constructor; cbn; try done.
    rewrite Hd, Hnil. cbn. pose proof (li_main _ Hl) as Hm. rewrite Em in Hm. destruct Hm as [_ Hpc].
    pose proof (hi_mutex _ _ Hst) as Hmu. rewrite Hpc in Hmu.
    destruct (h_mutex h) as [|[|frame|b c] p hd bd]; try done; by destruct Hmu as (_ & _ & _ & [fd ?]).
Qed.
End Callbacks.

#[export] Instance x11_calls_on_main {codec : ImageCodec} {qt : QtText} : CallsOnMain X11ClipboardManager X11Label.
Proof.
  split; cbn; intros l s s' (Ho & E)%x11_own_spec Hl; destruct l; try discriminate Hl; cbn [x11_exec] in E.
  - destruct (x_posting s); [done|]. by apply (inj Some) in E; subst s'.
  - destruct (x_idle s); [|done]. apply (inj Some) in E; subst s'. done.
Qed.

#[export] Instance stub_calls_on_main : CallsOnMain StubObject unit.
Proof. by split. Qed.

(** ** A writer that does not return *)

Definition not_writing {L} (l : HelperLabel L) : Prop := match l with YWrite _ => False | _ => True end.

Lemma stopping_step {S L} `{PasteBackend S L} origin payload header body (l : HelperLabel L) (h h' : LinuxHelper S) :
  let m := Held origin payload header body in
  not_writing l -> helper_exec l h = Some h' -> h_main h = HmStopping /\ h_mutex h = m -> h_main h' = HmStopping /\ h_mutex h' = m.
Proof.
  intros m Hl E [Hm Hu].
  assert (Hlock : forall o p (h : LinuxHelper S), h_mutex h = m -> lock_and_write o p h = None)
    by (intros o p h0 Hu'; unfold lock_and_write; by rewrite Hu').
  destruct l; cbn [helper_exec] in E; try done; rewrite ?Hm, ?Hu in E; try done.
  - unfold worker_step in E. rewrite Hu in E. repeat case_match; try discriminate E;
      try (rewrite Hlock in E by done; discriminate E); apply (inj Some) in E; by subst h'.
  - repeat case_match; try discriminate E; apply (inj Some) in E; by subst h'.
  - repeat case_match; try discriminate E; apply (inj Some) in E; by subst h'.
  - repeat case_match; try discriminate E; apply (inj Some) in E; by subst h'.
  - repeat case_match; try discriminate E; apply (inj Some) in E; by subst h'.
  - by apply backend_step_shape in E as (s & s' & calls & bad & _ & _ & _ & _ & _ & ->).
  - destruct (h_calls h !! i) as [[[b c] frame]|]; [|done]. by rewrite Hlock in E.
Qed.

(** ** Properties *)

(** C2: Every pasted byte came over the socket.  Whatever bytes the peer sends and in
    whatever pieces the kernel delivers them, and however the worker, the
    compositor, the event loop, the backend's workers, the writers of frames
    and the shutdown interleave, the bytes written to a paste target are a
    prefix of a representation, for the MIME type asked, of data that one frame
    of the peer's byte stream carried for exactly the hash in force when the
    paste began. *)
Theorem helper_pastes_from_peer `{ImageCodec} inbound ls h s fd hash mime bytes :
  byte_string inbound -> Forall clock_ok ls ->
  run_helper ls (init_helper init_ExtManager inbound) = Some h -> clipboard_ (h_disp h) = Some s ->
  OutPaste fd hash mime bytes ∈ m_outputs s ->
  bytes = [] \/
  exists frames rest frame kind data, inbound = concat (map frame_bytes frames) ++ rest /\ frame ∈ frames /\
    carries frame hash data /\ bytes `prefix_of` materialise kind data mime.
Proof.
  intros Hb Hl E Hd Hin.
  assert (Hi : stream_inv inbound h).
  { apply (inv_reachable init_ExtManager inbound ls); done || by split. }
  destruct (ext_pastes_carried _ _ _ _ _ _ _ (hi_session _ _ Hi) Hd Hin) as [->|(frame & kind & data & Hf & Hc & Hp)]; [by left|right].
  exists (h_frames h), (h_inbound h), frame, kind, data. split_and!; [apply Hi|done..].
Qed.

(** C5: The same on X11: what a paste receives is nothing, or the representation for
    its MIME type, under the kind its own object was announced with, of data
    that one frame of the peer's byte stream carried for exactly the hash of
    that object. *)
Theorem x11_helper_pastes_from_peer `{ImageCodec} `{QtText} inbound ls h s hash kind mimeType type v :
  byte_string inbound -> Forall clock_ok ls ->
  run_helper ls (init_helper init_X11 inbound) = Some h -> clipboard_ (h_disp h) = Some s ->
  XoPaste hash kind mimeType type v ∈ x_outputs s ->
  v = VNull \/
  exists frames rest frame data, inbound = concat (map frame_bytes frames) ++ rest /\ frame ∈ frames /\
    carries frame hash data /\ v = Materialise kind data mimeType type.
Proof.
  intros Hb Hl E Hd Hin.
  assert (Hi : stream_inv inbound h).
  { apply (inv_reachable init_X11 inbound ls); done || by split. }
  destruct (x11_pastes_carried _ _ _ _ _ _ _ _ (hi_session _ _ Hi) Hd Hin) as [->|(frame & data & Hf & Hc & Hv)]; [by left|right].
  exists (h_frames h), (h_inbound h), frame, data. split_and!; [apply Hi|done..].
Qed.

(** C28: The peer reads messages of the protocol.  Over any backend and in every
    interleaving of replies, callbacks and the greeting, unless a failed write
    left part of a frame behind, the bytes sent are whole frames and at most
    a part of the one being written; each frame is one the peer's own decoder
    reads as READY, as the ERROR or CLIPBOARD_CONTENT that answers a request,
    as a DATA_REQUEST for the hash asked, or as a CLIPBOARD_CHANGED with the
    text reported; and replies come in the order of their requests, which are
    frames of the inbound bytes. *)
Theorem peer_reads_protocol {S L} `{PasteBackendLaws S L} (s : S) inbound ls h :
  backend_ok s -> backend_accepted s = [] -> byte_string inbound -> Forall clock_ok ls ->
  run_helper ls (init_helper s inbound) = Some h -> h_torn h = false ->
  wire_ok (h_sent h) (h_mutex h) (h_wire h) /\
  Forall (fun e => message_ok e.1 e.2 /\ Zlen e.2 <= kMaxFrameSize) (h_sent h) /\
  replied_frames (h_sent h) `sublist_of` h_frames h /\
  inbound = concat (map frame_bytes (h_frames h)) ++ h_inbound h.
Proof.
  intros Hok Ha Hb Hl E Ht. pose proof (inv_reachable s inbound ls h Hok Ha Hb Hl E) as Hi.
  split_and!; [by apply (hi_wire _ _ Hi)|apply Hi| |apply Hi].
  etrans; [|apply (hi_order _ _ Hi)]. by apply sublist_inserts_r.
Qed.

(** C33: The life cycle.  Over any backend and in every interleaving with the
    shutdown: no handler runs on a destroyed backend; while a client is served
    its descriptor is the published one; an ended worker has retracted the
    descriptor, closed it at most once, and has asked [main] to quit unless
    [main] was stopping already; and [main] only detaches and destroys once
    the worker has ended. *)
Theorem helper_life_cycle {S L} `{PasteBackendLaws S L} (s : S) inbound ls h :
  backend_alive s = true -> run_helper ls (init_helper s inbound) = Some h ->
  h_misused h = false /\
  client_ok (h_worker h) (client_fd_ (h_socket h)) (h_closed h) /\
  (h_worker h = PcStopped -> client_fd_ (h_socket h) = -1 /\ (length (h_closed h) <= 1)%nat /\
     ((0 < h_quits h)%nat \/ stop_ (h_socket h) = true)) /\
  (h_main h = HmDetached \/ h_main h = HmDestroyed -> h_worker h = PcStopped).
Proof.
  intros Ha E. destruct (life_reachable s inbound ls h Ha E) as [Hc He Hm _ Hu]. split_and!; [done|done| |].
  - intros Ew. rewrite Ew in Hc, He. destruct Hc, He. by split_and!.
  - intros [Em|Em]; rewrite Em in Hm; by destruct Hm.
Qed.

(** On X11 every callback is made by the main thread, so none outlives the
    dispatcher and the server. *)
Theorem x11_callbacks_in_time `{ImageCodec} `{QtText} inbound ls h :
  byte_string inbound -> Forall clock_ok ls -> run_helper ls (init_helper init_X11 inbound) = Some h -> h_dangling h = false.
Proof.
  intros Hb Hl E. set (I := fun h : LinuxHelper X11ClipboardManager => stream_inv inbound h /\ life_inv h /\ call_inv h).
  assert (HI : I h); [|apply HI].
  apply (run_exec_invariant helper_exec I clock_ok) with (ls := ls) (s := init_helper init_X11 inbound); [|done|exact E|].
  - intros l h0 h1 Hc E1 (Hs & Hli & Hci). split_and!; [by eapply inv_step|by eapply life_step|by eapply call_step].
  - split_and!.
    + apply (inv_reachable init_X11 inbound []); done || by split.
    + by apply (life_reachable init_X11 inbound []).
    + by constructor.
Qed.
(** [Stop] waits for a blocked writer.  [Stop] locks [client_mutex_] before it
    calls [shutdown] on the client: while a frame is being written, no step of
    any thread but the [send] itself lets it go on, so a write the peer does
    not read is not unblocked and the helper does not end. *)
Theorem stop_waits_for_writer {S L} `{PasteBackend S L} (ls : list (HelperLabel L)) (h h' : LinuxHelper S) origin payload header body :
  h_main h = HmStopping -> h_mutex h = Held origin payload header body -> Forall not_writing ls -> run_helper ls h = Some h' ->
  h_main h' = HmStopping /\ h_mutex h' = Held origin payload header body.
Proof.
  intros Hm Hu Hl E. set (m := Held origin payload header body) in *.
  apply (run_exec_invariant helper_exec (fun h => h_main h = HmStopping /\ h_mutex h = m) not_writing) with (ls := ls) (s := h);
    [|done|exact E|done]. intros l h0 h1. by apply stopping_step.
Qed.

(** *** Runs *)

#[local] Existing Instance no_codec.
#[local] Existing Instance plain_qt.

Definition inbound_bytes : list Z :=
  Eval vm_compute in frame_bytes announce_frame ++ frame_bytes [255] ++ frame_bytes provide_frame ++ [9].

(** A client connects and is greeted. *)
Definition connect_run {L} : list (HelperLabel L) := [YStep; YStep; YAccept (AccFd 5)].
Definition greet_run {L} : list (HelperLabel L) := [YConnect 7; YStep; YWrite [SkBytes 4; SkBytes 100]].
Definition serve_run {L} : list (HelperLabel L) := [YStep; YRead true [SkBytes 4; SkEintr; SkBytes 100]; YHandle 7].

(** An announcement, a paste whose DATA_REQUEST goes out in pieces around a
    malformed frame and its ERROR, the data, and the paste's end. *)
Definition helper_paste_run : list (HelperLabel ExtLabel) :=
  connect_run ++ greet_run ++ serve_run ++
  [YBackend XlInvoke 7; YBackend (XlMain true) 7; YBackend (XlSend (str "TEXT") 9) 7; YBackend XlMainRequest 7;
   YSend 0; YWrite [SkBytes 2]] ++ serve_run ++
  [YWrite [SkEintr; SkBytes 2; SkBytes 100]; YStep; YWrite [SkBytes 4; SkBytes 100]] ++ serve_run ++
  [YBackend (XlWake 0 false) 7; YBackend (XlWrite 0 [WaWrote 2]) 7].
Definition helper_pasted : LinuxHelper ExtManager :=
  Eval vm_compute in default (init_helper init_ExtManager []) (run_helper helper_paste_run (init_helper init_ExtManager inbound_bytes)).
Definition helper_pasted_backend : ExtManager := Eval vm_compute in default init_ExtManager (clipboard_ (h_disp helper_pasted)).

Definition helper_x11_run : list (HelperLabel X11Label) :=
  connect_run ++ greet_run ++ serve_run ++
  [YBackend XPost 7; YBackend (XRun false) 7; YBackend XRecord 7; YBackend XDataChanged 7;
   YBackend (XRetrieve (str "TEXT") TyOther) 7; YBackend XAsk 7; YSend 0; YWrite [SkBytes 4; SkBytes 100]] ++ serve_run ++
  [YStep; YWrite [SkBytes 4; SkBytes 100]] ++ serve_run ++ [YBackend (XWake false) 7].
Definition helper_x11_pasted : LinuxHelper X11ClipboardManager :=
  Eval vm_compute in default (init_helper init_X11 []) (run_helper helper_x11_run (init_helper init_X11 inbound_bytes)).
Definition helper_x11_backend : X11ClipboardManager := Eval vm_compute in default init_X11 (clipboard_ (h_disp helper_x11_pasted)).

Lemma run_clocks : Forall clock_ok helper_paste_run /\ Forall clock_ok helper_x11_run.
Proof. split; repeat constructor; discriminate. Qed.

Lemma inbound_bytes_ok : byte_string inbound_bytes.
Proof. repeat constructor; discriminate. Qed.

Lemma helper_pastes_from_peer_witness :
  OutPaste 9 (str "h1") (str "TEXT") [1; 2] ∈ m_outputs helper_pasted_backend /\
  ([1; 2] = @nil Z \/
   exists frames rest frame kind data, inbound_bytes = concat (map frame_bytes frames) ++ rest /\ frame ∈ frames /\
     carries frame (str "h1") data /\ [1; 2] `prefix_of` materialise kind data (str "TEXT")).
Proof.
  assert (Hin : OutPaste 9 (str "h1") (str "TEXT") [1; 2] ∈ m_outputs helper_pasted_backend) by (right; left; reflexivity).
  split; [exact Hin|].
  apply (helper_pastes_from_peer inbound_bytes helper_paste_run helper_pasted helper_pasted_backend 9);
    [exact inbound_bytes_ok|exact (proj1 run_clocks)|vm_compute; reflexivity|reflexivity|exact Hin].
Defined.

Lemma x11_helper_pastes_from_peer_witness :
  XoPaste (str "h1") KText (str "TEXT") TyOther (VBytes [1; 2]) ∈ x_outputs helper_x11_backend /\
  (VBytes [1; 2] = VNull \/
   exists frames rest frame data, inbound_bytes = concat (map frame_bytes frames) ++ rest /\ frame ∈ frames /\
     carries frame (str "h1") data /\ VBytes [1; 2] = Materialise KText data (str "TEXT") TyOther).
Proof.
  assert (Hin : XoPaste (str "h1") KText (str "TEXT") TyOther (VBytes [1; 2]) ∈ x_outputs helper_x11_backend)
    by (right; left; reflexivity).
  split; [exact Hin|].
  apply (x11_helper_pastes_from_peer inbound_bytes helper_x11_run helper_x11_pasted helper_x11_backend);
    [exact inbound_bytes_ok|exact (proj2 run_clocks)|vm_compute; reflexivity|reflexivity|exact Hin].
Defined.

Lemma peer_reads_protocol_witness :
  wire_ok (h_sent helper_pasted) (h_mutex helper_pasted) (h_wire helper_pasted) /\
  Forall (fun e => message_ok e.1 e.2 /\ Zlen e.2 <= kMaxFrameSize) (h_sent helper_pasted) /\
  replied_frames (h_sent helper_pasted) `sublist_of` h_frames helper_pasted /\
  inbound_bytes = concat (map frame_bytes (h_frames helper_pasted)) ++ h_inbound helper_pasted.
Proof.
  apply (peer_reads_protocol init_ExtManager inbound_bytes helper_paste_run helper_pasted);
    [by split|reflexivity|exact inbound_bytes_ok|exact (proj1 run_clocks)|vm_compute; reflexivity|reflexivity].
Defined.

(** The whole shutdown, from a served client to the last destructor. *)
Definition shutdown_run {L} (destroy : L) : list (HelperLabel L) :=
  connect_run ++ greet_run ++ [YStep; YStop; YShutdown; YRead true [SkZero]; YStep; YStep; YStep; YDetach; YDestruct; YBackend destroy 7].
Definition helper_ended : LinuxHelper X11ClipboardManager :=
  Eval vm_compute in default (init_helper init_X11 []) (run_helper (shutdown_run XDestroy) (init_helper init_X11 [])).

Lemma helper_life_cycle_witness :
  h_worker helper_ended = PcStopped /\ h_closed helper_ended = [5] /\
  (h_misused helper_ended = false /\
   client_ok (h_worker helper_ended) (client_fd_ (h_socket helper_ended)) (h_closed helper_ended) /\
   (h_worker helper_ended = PcStopped -> client_fd_ (h_socket helper_ended) = -1 /\ (length (h_closed helper_ended) <= 1)%nat /\
     ((0 < h_quits helper_ended)%nat \/ stop_ (h_socket helper_ended) = true)) /\
   (h_main helper_ended = HmDetached \/ h_main helper_ended = HmDestroyed -> h_worker helper_ended = PcStopped)).
Proof.
  split; [reflexivity|]. split; [reflexivity|].
  apply (helper_life_cycle init_X11 [] (shutdown_run XDestroy) helper_ended); [reflexivity|vm_compute; reflexivity].
Defined.

Lemma x11_callbacks_in_time_witness : h_dangling helper_ended = false.
Proof.
  apply (x11_callbacks_in_time [] (shutdown_run XDestroy) helper_ended);
    [apply Forall_nil_2|repeat constructor; discriminate|vm_compute; reflexivity].
Defined.

(** The greeting is written to a peer that reads nothing while [main] stops. *)
Definition helper_stuck : LinuxHelper X11ClipboardManager :=
  Eval vm_compute in default (init_helper init_X11 [])
    (run_helper (connect_run ++ [YConnect 7; YStep; YWrite [SkBytes 2]; YStop]) (init_helper init_X11 [])).

Lemma stop_waits_for_writer_witness :
  h_mutex helper_stuck = Held SentReady [8; 14; 56; 7] [0; 0] [8; 14; 56; 7] /\
  run_helper [YShutdown] helper_stuck = None /\
  (h_main helper_stuck = HmStopping /\ h_mutex helper_stuck = Held SentReady [8; 14; 56; 7] [0; 0] [8; 14; 56; 7]).
Proof.
  split; [reflexivity|]. split; [reflexivity|].
  apply (stop_waits_for_writer (L := X11Label) [] helper_stuck helper_stuck); [reflexivity|reflexivity|apply Forall_nil_2|reflexivity].
Defined.

(** On Wayland a callback can outlive the dispatcher.  The worker that drains
    another application's selection has taken its copy of [on_changed] when
    [main] stops the server, detaches, and destroys dispatcher and server; it
    then calls [SendFrame] through both. *)
Definition late_callback_run : list (HelperLabel ExtLabel) :=
  [YBackend (XlOffer 1) 7; YBackend (XlOfferMime 1 (str "TEXT")) 7; YBackend (XlSelection (Some 1) (Some 9)) 7;
   YBackend (XlDrain 0 [RaBytes [65]; RaEof]) 7; YBackend (XlCache 0) 7] ++ connect_run ++ greet_run ++
  [YStep; YStop; YShutdown; YRead true [SkZero]; YStep; YStep; YStep; YDetach; YDestruct; YBackend (XlCallback 0) 7].
Example late_callback_dangles :
  Forall clock_ok late_callback_run /\
  option_map h_dangling (run_helper late_callback_run (init_helper init_ExtManager [])) = Some true.
Proof. split; [repeat constructor; discriminate|vm_compute; reflexivity]. Qed.

(** A callback that gets [client_mutex_] between the publication of the client
    and the greeting is the first frame of the connection. *)
Example greeting_overtaken :
  option_map (fun h => map fst (h_sent h))
    (run_helper (L := ExtLabel)
       ([YBackend (XlOffer 1) 7; YBackend (XlOfferMime 1 (str "TEXT")) 7; YBackend (XlSelection (Some 1) (Some 9)) 7;
         YBackend (XlDrain 0 [RaBytes [65]; RaEof]) 7; YBackend (XlCache 0) 7; YBackend (XlCallback 0) 7] ++
        connect_run ++ [YSend 0; YWrite [SkBytes 4; SkBytes 100]] ++ greet_run) (init_helper init_ExtManager []))
  = Some [SentCall false (CallChanged [65]); SentReady].
Proof. vm_compute. reflexivity. Qed.

(** A greeting that fails half way is followed by the next frames: the peer
    takes their bytes for the rest of it. *)
Example torn_greeting :
  option_map (fun h => (h_torn h, h_wire h))
    (run_helper (L := ExtLabel)
       ([YBackend (XlOffer 1) 7; YBackend (XlOfferMime 1 (str "TEXT")) 7; YBackend (XlSelection (Some 1) (Some 9)) 7;
         YBackend (XlDrain 0 [RaBytes [65]; RaEof]) 7; YBackend (XlCache 0) 7; YBackend (XlCallback 0) 7] ++
        connect_run ++ [YConnect 7; YStep; YWrite [SkBytes 2; SkError]; YSend 0; YWrite [SkBytes 4; SkBytes 100]])
       (init_helper init_ExtManager []))
  = Some (true, [4; 0] ++ frame_bytes (EncodeClipboardChangedText [65] [] 7)).
Proof. vm_compute. reflexivity. Qed.
