(* ===== verification/Backend.v ===== *)
(** * Backend: choosing the clipboard backend and connecting to Wayland

    [linux/src/backend_detector.cpp], [linux/src/wayland_probe.cpp],
    [linux/src/wayland_display.cpp], and the factories of
    [clipboard_manager_ext.cpp] and [clipboard_manager.cpp] that use them.
    libwayland is answered by a script; every call that creates or destroys
    one of its objects is recorded, so that the order of the tear-down can be
    stated. *)

From S2P Require Import Prelude UriList.

(** ** backend_detector *)

(** [std::toupper] in the C locale. *)
Definition toupper (c : Z) : Z := if (97 <=? c) && (c <=? 122) then c - 32 else c.

(** One character of [SplitAndUpper]: the finished tokens and the current
    one. *)
Definition split_step (st : list (list Z) * list Z) (c : Z) : list (list Z) * list Z :=
  let (out, token) := st in
  if c =? 58 then (match token with [] => out | _ => out ++ [token] end, [])
  else (out, token ++ [toupper c]).
Definition SplitAndUpper (xdg : list Z) : list (list Z) :=
  let (out, token) := foldl split_step ([], []) xdg in
  match token with [] => out | _ => out ++ [token] end.

Definition IsGnomeDesktop (xdg_current_desktop : list Z) : bool :=
  existsb (fun t => bytes_eqb t (str "GNOME") || bytes_eqb t (str "UNITY") || bytes_eqb t (str "GNOME-CLASSIC"))
    (SplitAndUpper xdg_current_desktop).

Inductive BackendKind := Wayland | X11 | ForceXWayland | NoBackend.
#[export] Instance BackendKind_eq_dec : EqDecision BackendKind.
Proof. solve_decision. Defined.

Record BackendDecision := {
  kind : BackendKind;
  reason : list Z;
  env_override_name : list Z;
  env_override_value : list Z
}.

Definition is_empty (s : list Z) : bool := match s with [] => true | _ => false end.

Definition DetectBackend (getenv : list Z -> list Z) : BackendDecision :=
  let xdg_current_desktop := getenv (str "XDG_CURRENT_DESKTOP") in
  let wayland_display := getenv (str "WAYLAND_DISPLAY") in
  let x11_display := getenv (str "DISPLAY") in
  if IsGnomeDesktop xdg_current_desktop then
    if is_empty x11_display && is_empty wayland_display then
      {| kind := NoBackend;
         reason := str "GNOME desktop detected but neither DISPLAY nor WAYLAND_DISPLAY is set; cannot reach any display server";
         env_override_name := []; env_override_value := [] |}
    else
      {| kind := ForceXWayland;
         reason := str "GNOME desktop ('" ++ xdg_current_desktop ++
           str "'); Mutter does not implement ext-data-control / wlr-data-control. Forcing QT_QPA_PLATFORM=xcb to route through XWayland.";
         env_override_name := str "QT_QPA_PLATFORM"; env_override_value := str "xcb" |}
  else if negb (is_empty wayland_display) then
    {| kind := Wayland;
       reason := str "WAYLAND_DISPLAY=" ++ wayland_display ++ str " set (XDG_CURRENT_DESKTOP='" ++ xdg_current_desktop ++
         str "'); using native Wayland backend (ext-data-control / wlr-data-control).";
       env_override_name := []; env_override_value := [] |}
  else if negb (is_empty x11_display) then
    {| kind := X11;
       reason := str "DISPLAY=" ++ x11_display ++ str " set, no Wayland; using X11 backend (Qt xcb QClipboard).";
       env_override_name := []; env_override_value := [] |}
  else
    {| kind := NoBackend;
       reason := str "Neither WAYLAND_DISPLAY nor DISPLAY is set; cannot reach any display server. Helper must run inside an interactive graphical session.";
       env_override_name := []; env_override_value := [] |}.

Definition ShouldFallbackToXWayland (wayland_has_data_control have_display : bool) : bool :=
  negb wayland_has_data_control && have_display.

(** The process environment. *)
Abbreviation Env := (gmap (list Z) (list Z)).
Definition OsGetEnv (env : Env) (name : list Z) : list Z := default [] (env !! c_str name).
Definition setenv (name value : list Z) (env : Env) : Env := <[c_str name := c_str value]> env.

Definition DetectBackendAndApplyEnv (env : Env) : BackendDecision * Env :=
  let decision := DetectBackend (OsGetEnv env) in
  (decision,
   if is_empty (env_override_name decision) then env
   else setenv (env_override_name decision) (env_override_value decision) env).

(** *** The tokens are the non-empty fields, in upper case *)

Definition upper_fields (s : list Z) : list (list Z) := filter nonempty (split_on 58 (map toupper s)).

Lemma toupper_colon c : toupper c = 58 <-> c = 58.
Proof.
  unfold toupper. destruct ((97 <=? c) && (c <=? 122)) eqn:E; [|done]. zbool. lia.
Qed.

Lemma split_on_nonempty sep s : split_on sep s <> [].
Proof.
  induction s as [|c s IH]; [done|]. cbn. destruct (split_on sep s) as [|p ps]; [done|]. by destruct (c =? sep).
Qed.

(** The loop with a token in progress. *)
Lemma split_loop_fields s out token :
  let (out', token') := foldl split_step (out, token) s in
  (match token' with [] => out' | _ => out' ++ [token'] end) =
  out ++ filter nonempty
    (match split_on 58 (map toupper s) with [] => [] | p :: ps => (token ++ p) :: ps end).
Proof.
  revert out token. induction s as [|c s IH]; intros out token; cbn [foldl map split_on].
  - rewrite app_nil_r. destruct token; [rewrite filter_cons_False by (unfold nonempty; tauto); by rewrite app_nil_r|].
    by rewrite filter_cons_True by done.
  - cbn [split_step]. destruct (c =? 58) eqn:E.
    + apply Z.eqb_eq in E as ->. specialize (IH (match token with [] => out | _ => out ++ [token] end) []).
      destruct (foldl split_step _ s) as [out' token']. rewrite IH. change (toupper 58) with 58.
      pose proof (split_on_nonempty 58 (map toupper s)) as Hne.
      destruct (split_on 58 (map toupper s)) as [|p ps]; [done|]. cbn [Z.eqb Pos.eqb app]. rewrite app_nil_r.
      destruct token as [|t ts]; [by rewrite (filter_cons_False _ []) by (unfold nonempty; tauto)|].
      by rewrite (filter_cons_True _ (t :: ts)), <- app_assoc by done.
    + specialize (IH out (token ++ [toupper c])).
      destruct (foldl split_step _ s) as [out' token']. rewrite IH.
      pose proof (split_on_nonempty 58 (map toupper s)) as Hne.
      destruct (split_on 58 (map toupper s)) as [|p ps]; [done|].
      replace (toupper c =? 58) with false; [rewrite <- app_assoc; reflexivity|].
      symmetry. apply Z.eqb_neq. intros H. apply (proj1 (toupper_colon c)) in H. apply Z.eqb_neq in E. lia.
Qed.

Lemma SplitAndUpper_fields s : SplitAndUpper s = upper_fields s.
Proof.
  pose proof (split_loop_fields s [] []) as H. unfold SplitAndUpper, upper_fields.
  destruct (foldl split_step ([], []) s) as [out token]. rewrite H.
  by destruct (split_on 58 (map toupper s)).
Qed.

Lemma IsGnomeDesktop_spec xdg :
  IsGnomeDesktop xdg = true <->
  exists t, t ∈ upper_fields xdg /\ t ∈ [str "GNOME"; str "UNITY"; str "GNOME-CLASSIC"].
Proof.
  unfold IsGnomeDesktop. rewrite existsb_exists, SplitAndUpper_fields.
  apply exist_proper. intros t. rewrite list_elem_of_In, !orb_true_iff, !bytes_eqb_eq, !elem_of_cons, elem_of_nil. tauto.
Qed.

(** What the decision promises of an environment. *)
Definition gnome_desktop (env : Env) : Prop :=
  exists t, t ∈ upper_fields (OsGetEnv env (str "XDG_CURRENT_DESKTOP")) /\
    t ∈ [str "GNOME"; str "UNITY"; str "GNOME-CLASSIC"].
Definition env_set (name : string) (env : Env) : Prop := OsGetEnv env (str name) <> [].

Definition decision_spec (env : Env) (k : BackendKind) (env' : Env) : Prop :=
  (k = NoBackend <-> ~ env_set "WAYLAND_DISPLAY" env /\ ~ env_set "DISPLAY" env) /\
  (k = ForceXWayland <-> gnome_desktop env /\ (env_set "WAYLAND_DISPLAY" env \/ env_set "DISPLAY" env)) /\
  (k = Wayland <-> ~ gnome_desktop env /\ env_set "WAYLAND_DISPLAY" env) /\
  (k = X11 <-> ~ gnome_desktop env /\ ~ env_set "WAYLAND_DISPLAY" env /\ env_set "DISPLAY" env) /\
  (k = ForceXWayland -> env' !! str "QT_QPA_PLATFORM" = Some (str "xcb")) /\
  (k <> ForceXWayland -> env' = env) /\
  (forall name, name <> str "QT_QPA_PLATFORM" -> env' !! name = env !! name).

Lemma DetectBackend_spec env :
  decision_spec env (kind (DetectBackendAndApplyEnv env).1) (DetectBackendAndApplyEnv env).2.
Proof.
  unfold decision_spec, env_set, gnome_desktop, DetectBackendAndApplyEnv, DetectBackend. cbn [fst snd].
  set (xdg := OsGetEnv env (str "XDG_CURRENT_DESKTOP")). set (wl := OsGetEnv env (str "WAYLAND_DISPLAY")).
  set (x := OsGetEnv env (str "DISPLAY")). pose proof (IsGnomeDesktop_spec xdg) as Hg.
  assert (Hset : forall e, setenv (str "QT_QPA_PLATFORM") (str "xcb") e !! str "QT_QPA_PLATFORM" = Some (str "xcb")).
  { intros e. unfold setenv. by rewrite lookup_insert_eq. }
  assert (Hother : forall e name, name <> str "QT_QPA_PLATFORM" ->
            setenv (str "QT_QPA_PLATFORM") (str "xcb") e !! name = e !! name).
  { intros e name Hn. unfold setenv. rewrite lookup_insert_ne; [done|]. intros E. by destruct Hn. }
  destruct (IsGnomeDesktop xdg) eqn:E, wl as [|w wl'], x as [|c x']; cbn; rewrite ?Hset; naive_solver.
Qed.

(** ** libwayland *)

(** The calls that create and destroy objects. *)
Inductive WlCall :=
| CallConnect
| CallGetRegistry
| CallBindSeat (name version : Z)
| CallBindExt (name version : Z)
| CallBindWlr (name version : Z)
| CallNotifier
| CallGetDevice
| CallDestroyDevice
| CallNotifierReset
| CallDestroyExt
| CallDestroyWlr
| CallDestroySeat
| CallDestroyRegistry
| CallDisconnect.

(** One announcement of a global; [g_bound]: [wl_registry_bind] gives a
    proxy. *)
Record Global := { g_name : Z; g_interface : list Z; g_version : Z; g_bound : bool }.

(** The answers to one connection: each round trip delivers globals and
    succeeds or not; [s_device]: [get_data_device] gives a proxy. *)
Record Session := {
  s_connect : bool;
  s_registry : bool;
  s_roundtrip1 : list Global * bool;
  s_roundtrip2 : list Global * bool;
  s_device : bool
}.

(** ** wayland_probe *)

Record ProbeState := { has_ext : bool; has_wlr : bool }.

Definition Probe_OnRegistryGlobal (s : ProbeState) (g : Global) : ProbeState :=
  if bytes_eqb (g_interface g) (str "ext_data_control_manager_v1") then {| has_ext := true; has_wlr := has_wlr s |}
  else if bytes_eqb (g_interface g) (str "zwlr_data_control_manager_v1") then {| has_ext := has_ext s; has_wlr := true |}
  else s.

Definition ProbeWaylandDataControl (s : Session) : bool * list WlCall :=
  if negb (s_connect s) then (false, [])
  else if negb (s_registry s) then (false, [CallConnect; CallDisconnect])
  else let (globals, ok) := s_roundtrip1 s in
       let state := foldl Probe_OnRegistryGlobal {| has_ext := false; has_wlr := false |} globals in
       let calls := [CallConnect; CallGetRegistry; CallDestroyRegistry; CallDisconnect] in
       if negb ok then (false, calls) else (has_ext state || has_wlr state, calls).

(** ** WaylandDisplay *)

Record WaylandDisplay := {
  display_ : bool;
  registry_ : bool;
  seat_ : bool;
  manager_wlr_ : bool;
  manager_ext_ : bool;
  seat_name_ : Z;
  manager_wlr_name_ : Z;
  manager_ext_name_ : Z;
  notifier_ : bool;
  wd_calls : list WlCall   (* history *)
}.
Definition new_WaylandDisplay (calls : list WlCall) : WaylandDisplay :=
  {| display_ := false; registry_ := false; seat_ := false; manager_wlr_ := false; manager_ext_ := false;
     seat_name_ := 0; manager_wlr_name_ := 0; manager_ext_name_ := 0; notifier_ := false; wd_calls := calls |}.

Definition kMaxSeatVersion : Z := 7.
Definition kMaxWlrManagerVersion : Z := 2.
Definition kMaxExtManagerVersion : Z := 1.
Definition MinVersion (advertised cap : Z) : Z := if advertised <? cap then advertised else cap.

Definition set_display (display registry : bool) (calls : list WlCall) (w : WaylandDisplay) : WaylandDisplay :=
  {| display_ := display; registry_ := registry; seat_ := seat_ w; manager_wlr_ := manager_wlr_ w;
     manager_ext_ := manager_ext_ w; seat_name_ := seat_name_ w; manager_wlr_name_ := manager_wlr_name_ w;
     manager_ext_name_ := manager_ext_name_ w; notifier_ := notifier_ w; wd_calls := wd_calls w ++ calls |}.
Definition set_notifier (b : bool) (call : WlCall) (w : WaylandDisplay) : WaylandDisplay :=
  {| display_ := display_ w; registry_ := registry_ w; seat_ := seat_ w; manager_wlr_ := manager_wlr_ w;
     manager_ext_ := manager_ext_ w; seat_name_ := seat_name_ w; manager_wlr_name_ := manager_wlr_name_ w;
     manager_ext_name_ := manager_ext_name_ w; notifier_ := b; wd_calls := wd_calls w ++ [call] |}.
Definition bind_seat (g : Global) (w : WaylandDisplay) : WaylandDisplay :=
  {| display_ := display_ w; registry_ := registry_ w; seat_ := g_bound g; manager_wlr_ := manager_wlr_ w;
     manager_ext_ := manager_ext_ w; seat_name_ := g_name g; manager_wlr_name_ := manager_wlr_name_ w;
     manager_ext_name_ := manager_ext_name_ w; notifier_ := notifier_ w;
     wd_calls := wd_calls w ++
       if g_bound g then [CallBindSeat (g_name g) (MinVersion (g_version g) kMaxSeatVersion)] else [] |}.
Definition bind_ext (g : Global) (w : WaylandDisplay) : WaylandDisplay :=
  {| display_ := display_ w; registry_ := registry_ w; seat_ := seat_ w; manager_wlr_ := manager_wlr_ w;
     manager_ext_ := g_bound g; seat_name_ := seat_name_ w; manager_wlr_name_ := manager_wlr_name_ w;
     manager_ext_name_ := g_name g; notifier_ := notifier_ w;
     wd_calls := wd_calls w ++
       if g_bound g then [CallBindExt (g_name g) (MinVersion (g_version g) kMaxExtManagerVersion)] else [] |}.
Definition bind_wlr (g : Global) (w : WaylandDisplay) : WaylandDisplay :=
  {| display_ := display_ w; registry_ := registry_ w; seat_ := seat_ w; manager_wlr_ := g_bound g;
     manager_ext_ := manager_ext_ w; seat_name_ := seat_name_ w; manager_wlr_name_ := g_name g;
     manager_ext_name_ := manager_ext_name_ w; notifier_ := notifier_ w;
     wd_calls := wd_calls w ++
       if g_bound g then [CallBindWlr (g_name g) (MinVersion (g_version g) kMaxWlrManagerVersion)] else [] |}.

Definition OnRegistryGlobal (w : WaylandDisplay) (g : Global) : WaylandDisplay :=
  if bytes_eqb (g_interface g) (str "wl_seat") && negb (seat_ w) then bind_seat g w
  else if bytes_eqb (g_interface g) (str "ext_data_control_manager_v1") && negb (manager_ext_ w) then bind_ext g w
  else if bytes_eqb (g_interface g) (str "zwlr_data_control_manager_v1") && negb (manager_wlr_ w) then bind_wlr g w
  else w.

Definition WaylandDisplay_Start (s : Session) (w : WaylandDisplay) : bool * WaylandDisplay :=
  if negb (s_connect s) then (false, w)
  else if negb (s_registry s) then (false, set_display false false [CallConnect; CallDisconnect] w)
  else
    let w := set_display true true [CallConnect; CallGetRegistry] w in
    let w := foldl OnRegistryGlobal w (s_roundtrip1 s).1 in
    if negb (s_roundtrip1 s).2 then (false, w)
    else let w := foldl OnRegistryGlobal w (s_roundtrip2 s).1 in
         if negb (s_roundtrip2 s).2 then (false, w)
         else if negb (seat_ w) then (false, w)
         else if negb (manager_wlr_ w) && negb (manager_ext_ w) then (false, w)
         else (true, set_notifier true CallNotifier w).

(** [~WaylandDisplay]. *)
Definition WaylandDisplay_destroy (w : WaylandDisplay) : list WlCall :=
  wd_calls w ++
  (if notifier_ w then [CallNotifierReset] else []) ++
  (if manager_ext_ w then [CallDestroyExt] else []) ++
  (if manager_wlr_ w then [CallDestroyWlr] else []) ++
  (if seat_ w then [CallDestroySeat] else []) ++
  (if registry_ w then [CallDestroyRegistry] else []) ++
  (if display_ w then [CallDisconnect] else []).

(** ** The factories *)

(** [Init] of either backend; [manager] is the accessor of its manager.  On
    success the calls made and the display, on failure the calls after
    [display_.reset()]. *)
Definition Manager_Init (manager : WaylandDisplay -> bool) (s : Session) (calls : list WlCall)
  : WaylandDisplay + list WlCall :=
  let (ok, w) := WaylandDisplay_Start s (new_WaylandDisplay calls) in
  if negb ok then inr (WaylandDisplay_destroy w)
  else if negb (manager w) then inr (WaylandDisplay_destroy w)
  else if negb (s_device s) then inr (WaylandDisplay_destroy w)
  else inl (set_display (display_ w) (registry_ w) [CallGetDevice] w).

Inductive WaylandManager := ExtBackend (w : WaylandDisplay) | WlrBackend (w : WaylandDisplay).

(** The two attempts connect one after the other. *)
Definition MakeWaylandManager (ext wlr : Session) : WaylandManager + list WlCall :=
  match Manager_Init manager_ext_ ext [] with
  | inl w => inl (ExtBackend w)
  | inr calls =>
      match Manager_Init manager_wlr_ wlr calls with
      | inl w => inl (WlrBackend w)
      | inr calls => inr calls
      end
  end.

(** The manager's destructor: the device, then the display. *)
Definition Manager_destroy (m : WaylandManager) : list WlCall :=
  let w := match m with ExtBackend w => w | WlrBackend w => w end in
  WaylandDisplay_destroy (set_display (display_ w) (registry_ w) [CallDestroyDevice] w).

(** ** Flush and OnReadable *)

Inductive FlushAnswer := FlSent | FlAgain | FlIntr | FlError.
#[export] Instance FlushAnswer_eq_dec : EqDecision FlushAnswer.
Proof. solve_decision. Defined.

(** The [wl_display_flush] calls made, and the answers that remain. *)
Fixpoint Flush_loop (answers : list FlushAnswer) : option (list FlushAnswer) :=
  match answers with
  | [] => None
  | FlIntr :: rest => Flush_loop rest
  | _ :: rest => Some rest
  end.
Definition Flush (display : bool) (answers : list FlushAnswer) : option (list FlushAnswer) :=
  if display then Flush_loop answers else Some answers.

(** [wl_display_prepare_read] refused, with the result of the dispatch that
    follows, or granted. *)
Inductive PrepareAnswer := PrPending (dispatched : bool) | PrReady.
Inductive ReadResult := RdOk | RdAgain | RdError.

(** The calls on the display's event queue. *)
Inductive QueueCall := QPrepare (ready : bool) | QDispatch | QFlush | QRead.

(** The loop before the read; [None] when the answers run out, [false] when a
    dispatch failed. *)
Fixpoint prepare_loop (answers : list PrepareAnswer) : option (list QueueCall * bool) :=
  match answers with
  | [] => None
  | PrReady :: _ => Some ([QPrepare true], true)
  | PrPending false :: _ => Some ([QPrepare false; QDispatch], false)
  | PrPending true :: rest =>
      match prepare_loop rest with
      | Some (calls, ready) => Some (QPrepare false :: QDispatch :: calls, ready)
      | None => None
      end
  end.

Definition OnReadable (display : bool) (prepare : list PrepareAnswer) (flush : list FlushAnswer) (read : ReadResult)
  : option (list QueueCall) :=
  if negb display then Some []
  else match prepare_loop prepare with
       | None => None
       | Some (calls, false) => Some calls
       | Some (calls, true) =>
           flush ← Flush display flush;
           match read with
           | RdOk => _ ← Flush display flush; Some (calls ++ [QFlush; QRead; QDispatch; QFlush])
           | _ => Some (calls ++ [QFlush; QRead])
           end
       end.

(** ** The objects that exist *)

(** What the calls so far have created and not destroyed. *)
Record Live := {
  l_conn : bool; l_registry : bool; l_seat : bool; l_ext : bool; l_wlr : bool; l_notifier : bool; l_device : bool
}.
Definition nothing : Live :=
  {| l_conn := false; l_registry := false; l_seat := false; l_ext := false; l_wlr := false; l_notifier := false;
     l_device := false |}.

(** libwayland's rules: an object is created on a live connection, destroyed
    once, and the connection is closed last. *)
Definition check_call (l : Live) (c : WlCall) : option Live :=
  let (conn, registry, seat, ext, wlr, notifier, device) := l in
  let guard (b : bool) (l : Live) := if b then Some l else None in
  match c with
  | CallConnect => guard (negb conn) (Build_Live true registry seat ext wlr notifier device)
  | CallGetRegistry => guard (conn && negb registry) (Build_Live conn true seat ext wlr notifier device)
  | CallBindSeat _ _ => guard (registry && negb seat) (Build_Live conn registry true ext wlr notifier device)
  | CallBindExt _ _ => guard (registry && negb ext) (Build_Live conn registry seat true wlr notifier device)
  | CallBindWlr _ _ => guard (registry && negb wlr) (Build_Live conn registry seat ext true notifier device)
  | CallNotifier => guard (conn && negb notifier) (Build_Live conn registry seat ext wlr true device)
  | CallGetDevice => guard (seat && (ext || wlr) && negb device) (Build_Live conn registry seat ext wlr notifier true)
  | CallDestroyDevice => guard device (Build_Live conn registry seat ext wlr notifier false)
  | CallNotifierReset => guard notifier (Build_Live conn registry seat ext wlr false device)
  | CallDestroyExt => guard (ext && negb device) (Build_Live conn registry seat false wlr notifier device)
  | CallDestroyWlr => guard (wlr && negb device) (Build_Live conn registry seat ext false notifier device)
  | CallDestroySeat => guard (seat && negb device) (Build_Live conn registry false ext wlr notifier device)
  | CallDestroyRegistry => guard registry (Build_Live conn false seat ext wlr notifier device)
  | CallDisconnect =>
      guard (conn && negb (registry || seat || ext || wlr || notifier || device))
        (Build_Live false registry seat ext wlr notifier device)
  end.
Fixpoint check_calls (l : Live) (calls : list WlCall) : option Live :=
  match calls with
  | [] => Some l
  | c :: rest => match check_call l c with Some l' => check_calls l' rest | None => None end
  end.

Lemma check_calls_app l calls calls' :
  check_calls l (calls ++ calls') = match check_calls l calls with Some l' => check_calls l' calls' | None => None end.
Proof. revert l. induction calls as [|c calls IH]; intros l; [done|]. cbn. by destruct (check_call l c). Qed.

(** The flags of the display say what exists. *)
Definition objects (device : bool) (w : WaylandDisplay) : Live :=
  {| l_conn := display_ w; l_registry := registry_ w; l_seat := seat_ w; l_ext := manager_ext_ w; l_wlr := manager_wlr_ w;
     l_notifier := notifier_ w; l_device := device |}.
Definition tracked (device : bool) (w : WaylandDisplay) : Prop :=
  check_calls nothing (wd_calls w) = Some (objects device w).

(** The proxies come from the registry and the registry from the connection. *)
Definition rooted (w : WaylandDisplay) : Prop := registry_ w = true /\ display_ w = true /\ notifier_ w = false.

Lemma tracked_global g w : rooted w -> tracked false w -> rooted (OnRegistryGlobal w g) /\ tracked false (OnRegistryGlobal w g).
Proof.
  intros (Hr & Hd & Hn) Ht. unfold OnRegistryGlobal.
  destruct (bytes_eqb _ _ && negb (seat_ w)) eqn:E1; [|destruct (bytes_eqb _ _ && negb (manager_ext_ w)) eqn:E2;
    [|destruct (bytes_eqb _ _ && negb (manager_wlr_ w)) eqn:E3; [|by split]]];
    (split; [by split_and!|]); unfold tracked; cbn [bind_seat bind_ext bind_wlr wd_calls]; rewrite check_calls_app, Ht;
    destruct w, g as [n i v []]; cbn in *; subst; repeat (apply andb_prop in E1 as [_ E1] || apply andb_prop in E2 as [_ E2]
      || apply andb_prop in E3 as [_ E3]);
    try (apply negb_true_iff in E1; subst); try (apply negb_true_iff in E2; subst); try (apply negb_true_iff in E3; subst); done.
Qed.

Lemma tracked_globals gs w :
  rooted w -> tracked false w -> rooted (foldl OnRegistryGlobal w gs) /\ tracked false (foldl OnRegistryGlobal w gs).
Proof.
  revert w. induction gs as [|g gs IH]; intros w Hr Ht; [done|]. cbn [foldl].
  destruct (tracked_global g w Hr Ht). by apply IH.
Qed.

(** Whatever exists, the destructor removes it in an allowed order. *)
Lemma tracked_destroy w :
  (registry_ w = true -> display_ w = true) -> (display_ w = false -> objects false w = nothing) ->
  tracked false w -> check_calls nothing (WaylandDisplay_destroy w) = Some nothing.
Proof.
  intros Hr Hd Ht. unfold WaylandDisplay_destroy. rewrite check_calls_app, Ht. unfold objects in *.
  destruct w as [[] [] [] [] [] sn wn en [] calls]; cbn in *;
    try reflexivity; try (specialize (Hd eq_refl); discriminate Hd); try (specialize (Hr eq_refl); discriminate Hr).
Qed.

(** [Start] from a new display. *)
Lemma Start_tracked s calls :
  check_calls nothing calls = Some nothing ->
  let (ok, w) := WaylandDisplay_Start s (new_WaylandDisplay calls) in
  tracked false w /\ (registry_ w = true -> display_ w = true) /\ (display_ w = false -> objects false w = nothing) /\
  (ok = true -> display_ w = true /\ seat_ w = true /\ (manager_ext_ w || manager_wlr_ w) = true).
Proof.
  intros Hc. unfold WaylandDisplay_Start.
  destruct (s_connect s); cbn [negb]; [|by split_and!].
  destruct (s_registry s); cbn [negb].
  2:{ split_and!; [|done|done|done]. unfold tracked. cbn. by rewrite check_calls_app, Hc. }
  set (w0 := set_display true true _ _).
  assert (Hw0 : rooted w0 /\ tracked false w0).
  { split; [by split_and!|]. unfold tracked, w0. cbn. by rewrite check_calls_app, Hc. }
  destruct Hw0 as [Hr0 Ht0]. destruct (tracked_globals (s_roundtrip1 s).1 w0 Hr0 Ht0) as [Hr1 Ht1].
  destruct (tracked_globals (s_roundtrip2 s).1 _ Hr1 Ht1) as [Hr2 Ht2].
  set (w1 := foldl OnRegistryGlobal w0 _) in *. set (w2 := foldl OnRegistryGlobal w1 _) in *. clearbody w1 w2.
  destruct (s_roundtrip1 s).2; cbn [negb]; [|by destruct Hr1 as (?&?&?); split_and!; congruence].
  destruct (s_roundtrip2 s).2; cbn [negb]; [|by destruct Hr2 as (?&?&?); split_and!; congruence].
  destruct (seat_ w2) eqn:Es; cbn [negb]; [|by destruct Hr2 as (?&?&?); split_and!; congruence].
  destruct (negb (manager_wlr_ w2) && negb (manager_ext_ w2)) eqn:Em; [by destruct Hr2 as (?&?&?); split_and!; congruence|].
  destruct Hr2 as (Hr & Hd & Hn). split_and!; try done; [|cbn; congruence|].
  - unfold tracked. cbn. rewrite check_calls_app, Ht2. unfold objects. cbn. by rewrite Hd, Hn.
  - intros _. cbn. split_and!; [done|done|]. by destruct (manager_wlr_ w2), (manager_ext_ w2).
Qed.

Lemma Manager_Init_tracked manager s calls :
  (forall w, manager w = true -> (manager_ext_ w || manager_wlr_ w) = true) ->
  check_calls nothing calls = Some nothing ->
  match Manager_Init manager s calls with
  | inl w => tracked true w /\ display_ w = true /\ seat_ w = true
  | inr calls' => check_calls nothing calls' = Some nothing
  end.
Proof.
  intros Hm Hc. pose proof (Start_tracked s calls Hc) as H. unfold Manager_Init.
  destruct (WaylandDisplay_Start s (new_WaylandDisplay calls)) as [ok w] eqn:E.
  destruct H as (Ht & Hr & Hd & Hok). destruct ok; cbn [negb]; [|by apply tracked_destroy].
  destruct (manager w) eqn:Em; cbn [negb]; [|by apply tracked_destroy].
  destruct (s_device s); cbn [negb]; [|by apply tracked_destroy].
  destruct (Hok eq_refl) as (Hd1 & Hs1 & _). split_and!; try done.
  unfold tracked. cbn [set_display wd_calls]. rewrite check_calls_app, Ht. unfold objects. cbn.
  apply Hm in Em. by rewrite Hs1, Em.
Qed.

(** A manager's destructor removes what its [Init] made. *)
Lemma Manager_destroy_clean m :
  (let w := match m with ExtBackend w => w | WlrBackend w => w end in tracked true w /\ display_ w = true) ->
  check_calls nothing (Manager_destroy m) = Some nothing.
Proof.
  unfold Manager_destroy. cbn zeta. destruct m as [w|w]; intros [Ht Hd]; apply tracked_destroy; cbn; try congruence;
    unfold tracked in *; cbn; rewrite check_calls_app, Ht; done.
Qed.

(** ** The event queue *)

(** libwayland's reading protocol: after a successful prepare the thread
    reads exactly once and dispatches only outside. *)
Fixpoint reading_protocol (prepared : bool) (calls : list QueueCall) : bool :=
  match calls with
  | [] => negb prepared
  | QPrepare ready :: rest => negb prepared && reading_protocol ready rest
  | QDispatch :: rest => negb prepared && reading_protocol false rest
  | QFlush :: rest => reading_protocol prepared rest
  | QRead :: rest => prepared && reading_protocol false rest
  end.

Lemma prepare_loop_protocol answers calls ready rest :
  prepare_loop answers = Some (calls, ready) -> reading_protocol false (calls ++ rest) = reading_protocol ready rest.
Proof.
  revert calls. induction answers as [|[[]|] answers IH]; intros calls H; cbn in H; try discriminate H; [|by simplify_eq..].
  destruct (prepare_loop answers) as [[calls' ready']|]; [|discriminate H]. simplify_eq. cbn. by apply IH.
Qed.

Lemma prepare_loop_total answers :
  Exists (fun a => a <> PrPending true) answers -> is_Some (prepare_loop answers).
Proof.
  induction 1 as [a l Ha|a l _ [[calls ready] IH]]; cbn.
  - destruct a as [[]|]; [done|by eexists..].
  - destruct a as [[]|]; [|by eexists..]. rewrite IH. by eexists.
Qed.

Lemma Flush_loop_total answers n :
  (S n <= length (filter (fun a => a <> FlIntr) answers))%nat ->
  exists rest, Flush_loop answers = Some rest /\ (n <= length (filter (fun a => a <> FlIntr) rest))%nat.
Proof.
  induction answers as [|a answers IH]; [cbn; lia|]. rewrite filter_cons. intros H.
  destruct (decide (a = FlIntr)) as [->|Ha]; [rewrite decide_False in H by tauto; by apply IH|].
  rewrite decide_True in H by done. cbn in H. destruct a; try done; (eexists; split; [reflexivity|]; lia).
Qed.

(** ** Properties *)

(** The backend decision.  For every environment: no backend exactly when
    neither display variable is set, XWayland is forced exactly when some
    colon-separated field of XDG_CURRENT_DESKTOP is one of the three desktop
    names in any case, otherwise Wayland is preferred to X11; and the
    environment afterwards is unchanged but for QT_QPA_PLATFORM=xcb when
    XWayland is forced. *)
Theorem backend_decision env :
  let (d, env') := DetectBackendAndApplyEnv env in decision_spec env (kind d) env'.
Proof. apply DetectBackend_spec. Qed.


#[local] Arguments str : simpl never.

(** The globals a session announces. *)
Definition announces (name : string) (gs : list Global) : bool :=
  existsb (fun g => bytes_eqb (g_interface g) (str name)) gs.

Lemma seat_not_ext : bytes_eqb (str "wl_seat") (str "ext_data_control_manager_v1") = false.
Proof. reflexivity. Qed.
Lemma seat_not_wlr : bytes_eqb (str "wl_seat") (str "zwlr_data_control_manager_v1") = false.
Proof. reflexivity. Qed.
Lemma ext_not_wlr : bytes_eqb (str "ext_data_control_manager_v1") (str "zwlr_data_control_manager_v1") = false.
Proof. reflexivity. Qed.

Lemma probe_globals gs st :
  let st' := foldl Probe_OnRegistryGlobal st gs in
  has_ext st' = has_ext st || announces "ext_data_control_manager_v1" gs /\
  has_wlr st' = has_wlr st || announces "zwlr_data_control_manager_v1" gs.
Proof.
  revert st. induction gs as [|g gs IH]; intros st; cbn; [by rewrite !orb_false_r|].
  destruct (IH (Probe_OnRegistryGlobal st g)) as [-> ->]. unfold Probe_OnRegistryGlobal, announces. cbn [existsb].
  destruct (bytes_eqb (g_interface g) (str "ext_data_control_manager_v1")) eqn:E.
  - apply bytes_eqb_eq in E as ->. cbn. by rewrite !orb_true_r.
  - rewrite ?E. destruct (bytes_eqb (g_interface g) (str "zwlr_data_control_manager_v1")); cbn; by rewrite ?orb_true_r.
Qed.

Lemma display_globals gs w :
  Forall (fun g => g_bound g = true) gs ->
  let w' := foldl OnRegistryGlobal w gs in
  seat_ w' = seat_ w || announces "wl_seat" gs /\
  manager_ext_ w' = manager_ext_ w || announces "ext_data_control_manager_v1" gs /\
  manager_wlr_ w' = manager_wlr_ w || announces "zwlr_data_control_manager_v1" gs.
Proof.
  intros Hb. revert w. induction Hb as [|g gs Hg _ IH]; intros w; cbn [foldl]; [cbn; by rewrite !orb_false_r|].
  destruct (IH (OnRegistryGlobal w g)) as (-> & -> & ->). unfold OnRegistryGlobal, announces. cbn [existsb].
  destruct (bytes_eqb (g_interface g) (str "wl_seat")) eqn:E1; [apply bytes_eqb_eq in E1 as ->; cbn|
    destruct (bytes_eqb (g_interface g) (str "ext_data_control_manager_v1")) eqn:E2; [apply bytes_eqb_eq in E2 as ->; cbn|
    destruct (bytes_eqb (g_interface g) (str "zwlr_data_control_manager_v1")) eqn:E3; cbn]].
  - rewrite seat_not_ext, seat_not_wlr. destruct (seat_ w) eqn:E; cbn; rewrite ?E, ?Hg; done.
  - rewrite ?ext_not_wlr, ?E1. destruct (manager_ext_ w) eqn:E; cbn; rewrite ?E, ?Hg; done.
  - rewrite ?E1, ?E2. destruct (manager_wlr_ w) eqn:E; cbn; rewrite ?E, ?Hg; done.
  - done.
Qed.

(** The probe predicts the connection.  For a compositor that announces its
    globals in the first round trip and whose binds succeed, [Start] succeeds
    exactly when the probe said yes and a [wl_seat] is announced: the probe's
    yes alone does not exclude the stub. *)
Theorem probe_predicts_start s calls :
  Forall (fun g => g_bound g = true) (s_roundtrip1 s).1 -> s_roundtrip2 s = ([], true) ->
  (WaylandDisplay_Start s (new_WaylandDisplay calls)).1 =
  (ProbeWaylandDataControl s).1 && announces "wl_seat" (s_roundtrip1 s).1.
Proof.
  intros Hb H2. unfold WaylandDisplay_Start, ProbeWaylandDataControl.
  destruct (s_connect s); cbn [negb]; [|done]. destruct (s_registry s); cbn [negb]; [|done]. rewrite H2.
  destruct (s_roundtrip1 s) as [gs ok]. cbn [fst snd] in *. destruct ok; cbn [negb]; [|done].
  set (w0 := set_display _ _ _ _). destruct (display_globals gs w0 Hb) as (Hs & He & Hw).
  destruct (probe_globals gs {| has_ext := false; has_wlr := false |}) as [-> ->]. cbn [foldl].
  rewrite Hs, He, Hw. cbn.
  destruct (announces "wl_seat" gs), (announces "ext_data_control_manager_v1" gs), (announces "zwlr_data_control_manager_v1" gs);
    reflexivity.
Qed.

(** C29: Connections are balanced.  Whatever the compositor announces and whichever
    call fails, the probe and the factories follow libwayland's rules (each
    object is created on a live connection and destroyed once, a manager and
    its seat after their device, the connection last): when no backend can be
    made nothing is left, and when one is made its connection is the only one
    and the destructor leaves nothing. *)
Theorem wayland_connections_balanced probe ext wlr :
  check_calls nothing (ProbeWaylandDataControl probe).2 = Some nothing /\
  match MakeWaylandManager ext wlr with
  | inl m =>
      (exists l, check_calls nothing (wd_calls (match m with ExtBackend w => w | WlrBackend w => w end)) = Some l /\
         l_conn l = true /\ l_seat l = true /\ l_device l = true) /\
      check_calls nothing (Manager_destroy m) = Some nothing
  | inr calls => check_calls nothing calls = Some nothing
  end.
Proof.
  split.
  { unfold ProbeWaylandDataControl. destruct (s_connect probe); [|done]. destruct (s_registry probe); [|done]. cbn.
    by destruct (s_roundtrip1 probe) as [gs []]. }
  unfold MakeWaylandManager.
  pose proof (Manager_Init_tracked manager_ext_ ext []) as H1.
  destruct (Manager_Init manager_ext_ ext []) as [w|calls]; [|pose proof (Manager_Init_tracked manager_wlr_ wlr calls) as H2;
    destruct (Manager_Init manager_wlr_ wlr calls) as [w|calls']].
  - destruct H1 as (Ht & Hd & Hs); [intros w' ->; done|done|]. split; [|by apply Manager_destroy_clean].
    exists (objects true w). by split_and!.
  - destruct H2 as (Ht & Hd & Hs); [intros w' ->; by rewrite orb_true_r|apply H1; [by intros w' ->|done]|].
    split; [|by apply Manager_destroy_clean]. exists (objects true w). by split_and!.
  - apply H2; [intros w' ->; by rewrite orb_true_r|]. apply H1; [by intros w' ->|done].
Qed.

(** The reading protocol.  On every path of [OnReadable], early returns
    included, each granted [wl_display_prepare_read] is followed by exactly
    one [wl_display_read_events] with nothing but flushes in between, and
    events are dispatched only outside that window; and the slot returns
    whenever the queue is granted or fails after finitely many dispatches and
    the flushes are interrupted finitely often. *)
Theorem readable_protocol display prepare flush read :
  (forall calls, OnReadable display prepare flush read = Some calls -> reading_protocol false calls = true) /\
  (Exists (fun a => a <> PrPending true) prepare -> (2 <= length (filter (fun a => a <> FlIntr) flush))%nat ->
   is_Some (OnReadable display prepare flush read)).
Proof.
  unfold OnReadable. destruct display; cbn [negb]; [|by split; [intros calls [= <-]|]]. split.
  - intros calls H. destruct (prepare_loop prepare) as [[calls0 []]|] eqn:E; [| |discriminate H].
    + cbn in H. destruct (Flush_loop flush) as [flush'|]; [|discriminate H]. cbn in H.
      destruct read; [destruct (Flush_loop flush'); [|discriminate H]|..]; cbn in H; apply (inj Some) in H; subst calls;
        by rewrite (prepare_loop_protocol _ _ _ _ E).
    + apply (inj Some) in H. subst calls. rewrite <- (app_nil_r calls0). by rewrite (prepare_loop_protocol _ _ _ _ E).
  - intros Hp Hf. destruct (prepare_loop_total _ Hp) as ([calls ready] & ->). destruct ready; [|by eexists].
    destruct (Flush_loop_total flush 1 Hf) as (flush' & E' & Hf'). cbn. rewrite E'. cbn.
    destruct read; [|by eexists..]. destruct (Flush_loop_total flush' 0 Hf') as (flush'' & -> & _). by eexists.
Qed.

(** *** Witnesses *)

Definition wl_global (name : string) (n : Z) : Global := {| g_name := n; g_interface := str name; g_version := 9; g_bound := true |}.
Definition good_session : Session := {|
  s_connect := true; s_registry := true;
  s_roundtrip1 := ([wl_global "wl_compositor" 1; wl_global "wl_seat" 2; wl_global "ext_data_control_manager_v1" 3], true);
  s_roundtrip2 := ([], true); s_device := true
|}.

Lemma probe_predicts_start_witness :
  (WaylandDisplay_Start good_session (new_WaylandDisplay [])).1 =
  (ProbeWaylandDataControl good_session).1 && announces "wl_seat" (s_roundtrip1 good_session).1.
Proof.
  apply (probe_predicts_start good_session []); [|reflexivity].
  repeat (apply Forall_cons_2; [reflexivity|]). apply Forall_nil_2.
Defined.

Lemma readable_protocol_witness :
  reading_protocol false [QPrepare false; QDispatch; QPrepare true; QFlush; QRead; QDispatch; QFlush] = true.
Proof. apply (readable_protocol true [PrPending true; PrReady] [FlIntr; FlSent; FlAgain] RdOk). reflexivity. Defined.

(** A compositor with data control but no seat: the probe says yes, no backend
    can be made, and both connections are closed. *)
Definition seatless : Session := {|
  s_connect := true; s_registry := true; s_roundtrip1 := ([wl_global "zwlr_data_control_manager_v1" 4], true);
  s_roundtrip2 := ([], true); s_device := true
|}.
Example seatless_falls_to_stub :
  (ProbeWaylandDataControl seatless).1 = true /\ exists calls, MakeWaylandManager seatless seatless = inr calls.
Proof. split; [reflexivity|]. eexists. vm_compute. reflexivity. Qed.

(** GNOME without DISPLAY is sent to XWayland all the same. *)
Example gnome_without_display :
  kind (DetectBackend (OsGetEnv
    (<[str "XDG_CURRENT_DESKTOP" := str "ubuntu:GNOME"]> (<[str "WAYLAND_DISPLAY" := str "wayland-0"]> ∅)))) = ForceXWayland.
Proof. vm_compute. reflexivity. Qed.
