(* ===== verification/CommandLine.v ===== *)
(** * CommandLine: the arguments of both helpers

    [ParseArgs] of [linux/src/main.cpp]; [ParseParentPid],
    [ParsePipeNameOverride] and [ParseParentHandle] of
    [windows/src/main.cpp].  [std::stoi], [std::stoul] and [std::stoull] are
    written out: they skip white space, take a sign, read the longest run of
    digits and ignore whatever follows. *)

From S2P Require Import Prelude.

(** ** Numbers *)

Definition is_digit (c : Z) : bool := (48 <=? c) && (c <=? 57).

(** [isspace] in the C locale. *)
Definition isspace (c : Z) : bool := (c =? 32) || ((9 <=? c) && (c <=? 13)).

Fixpoint skip_while (p : Z -> bool) (s : list Z) : list Z :=
  match s with
  | c :: rest => if p c then skip_while p rest else s
  | [] => []
  end.
Fixpoint take_digits (s : list Z) : list Z :=
  match s with
  | c :: rest => if is_digit c then c :: take_digits rest else []
  | [] => []
  end.

(** What [strtol] and its relatives read in base 10: the sign and the
    magnitude; [None] when there is no digit. *)
Definition read_number (space : Z -> bool) (s : list Z) : option (bool * Z) :=
  let s := skip_while space s in
  let (neg, s) := match s with
                  | c :: rest => if c =? 45 then (true, rest) else if c =? 43 then (false, rest) else (false, s)
                  | [] => (false, [])
                  end in
  match take_digits s with
  | [] => None
  | ds => Some (neg, of_decimal ds)
  end.

(** [None] is the exception. *)
Definition stoi (s : list Z) : option Z :=
  '(neg, m) ← read_number isspace s;
  let v := if neg : bool then - m else m in
  if (- 2 ^ 31 <=? v) && (v <? 2 ^ 31) then Some v else None.

(** A minus sign negates modulo the width; only the magnitude can be out of
    range. *)
Definition stou (width : Z) (space : Z -> bool) (s : list Z) : option Z :=
  '(neg, m) ← read_number space s;
  if m <? 2 ^ width then Some ((if neg : bool then - m else m) mod 2 ^ width) else None.

(** ** Linux *)

Record Args := {
  socket_path : option (list Z);
  mode : list Z;
  parent_pid : option Z;
  verbose : bool;
  show_help : bool;
  show_ver : bool
}.
Definition default_Args : Args :=
  {| socket_path := None; mode := str "client"; parent_pid := None; verbose := false; show_help := false; show_ver := false |}.

(** The arguments after [argv[0]] as a list; the value and the arguments left
    after it. *)
Definition TakeFlagValue (flag a : list Z) (rest : list (list Z)) : option (list Z * list (list Z)) :=
  if bytes_eqb a flag then
    match rest with
    | [] => None
    | v :: rest' => Some (v, rest')
    end
  else if (Zlen a >? Zlen flag + 1) && bytes_eqb (take (length flag) a) flag
          && bool_decide (a !! length flag = Some 61)
  then Some (drop (S (length flag)) a, rest)
  else None.

Definition with_socket (p : list Z) (o : Args) : Args :=
  {| socket_path := Some p; mode := mode o; parent_pid := parent_pid o; verbose := verbose o; show_help := show_help o;
     show_ver := show_ver o |}.
Definition with_mode (m : list Z) (o : Args) : Args :=
  {| socket_path := socket_path o; mode := m; parent_pid := parent_pid o; verbose := verbose o; show_help := show_help o;
     show_ver := show_ver o |}.
Definition with_parent (pid : Z) (o : Args) : Args :=
  {| socket_path := socket_path o; mode := mode o; parent_pid := Some pid; verbose := verbose o; show_help := show_help o;
     show_ver := show_ver o |}.
Definition with_verbose (o : Args) : Args :=
  {| socket_path := socket_path o; mode := mode o; parent_pid := parent_pid o; verbose := true; show_help := show_help o;
     show_ver := show_ver o |}.
Definition with_help (o : Args) : Args :=
  {| socket_path := socket_path o; mode := mode o; parent_pid := parent_pid o; verbose := verbose o; show_help := true;
     show_ver := show_ver o |}.
Definition with_version (o : Args) : Args :=
  {| socket_path := socket_path o; mode := mode o; parent_pid := parent_pid o; verbose := verbose o; show_help := show_help o;
     show_ver := true |}.

(** The rounds of the loop are bounded by the number of arguments. *)
Fixpoint ParseArgs_loop (fuel : nat) (args : list (list Z)) (out : Args) : outcome Args :=
  match args, fuel with
  | [], _ => Done out
  | _, O => OutOfFuel
  | a :: rest, S fuel =>
      if bytes_eqb a (str "--help") || bytes_eqb a (str "-h") then Done (with_help out)
      else if bytes_eqb a (str "--version") then Done (with_version out)
      else if bytes_eqb a (str "--verbose") then ParseArgs_loop fuel rest (with_verbose out)
      else
        match TakeFlagValue (str "--socket") a rest with
        | Some (v, rest) => ParseArgs_loop fuel rest (with_socket v out)
        | None =>
            match TakeFlagValue (str "--mode") a rest with
            | Some (v, rest) =>
                if negb (bytes_eqb v (str "server")) && negb (bytes_eqb v (str "client")) then Malformed
                else ParseArgs_loop fuel rest (with_mode v out)
            | None =>
                match TakeFlagValue (str "--parent-pid") a rest with
                | Some (v, rest) =>
                    match stoi v with
                    | Some pid => ParseArgs_loop fuel rest (with_parent pid out)
                    | None => Malformed
                    end
                | None => Malformed
                end
            end
        end
  end.
Definition ParseArgs (argv : list (list Z)) : outcome Args :=
  ParseArgs_loop (length argv) (tail argv) default_Args.

(** ** Windows *)

Section Windows.
Context (iswspace : Z -> bool).

(** The first argument that starts with [flag], without it. *)
Fixpoint find_flag (flag : list Z) (args : list (list Z)) : option (list Z) :=
  match args with
  | [] => None
  | a :: rest => if bytes_eqb (take (length flag) a) flag then Some (drop (length flag) a) else find_flag flag rest
  end.

Definition ParseParentPid (argv : list (list Z)) : Z :=
  match find_flag (str "--parent-pid=") (tail argv) with
  | Some v => default 0 (stou 32 iswspace v)
  | None => 0
  end.

Definition ParsePipeNameOverride (argv : list (list Z)) : list Z :=
  default [] (find_flag (str "--pipe-name=") (tail argv)).

(** A handle as its 64-bit value; 0 is [nullptr]. *)
Definition ParseParentHandle (argv : list (list Z)) : Z :=
  match find_flag (str "--parent-handle=") (tail argv) with
  | Some v => default 0 (stou 64 iswspace v)
  | None => 0
  end.
End Windows.

(** ** Lemmas *)

Lemma TakeFlagValue_shorter flag a rest v rest' :
  TakeFlagValue flag a rest = Some (v, rest') -> (length rest' <= length rest)%nat.
Proof.
  unfold TakeFlagValue. destruct (bytes_eqb a flag).
  - destruct rest as [|w rest]; intros [= <- <-]. cbn. lia.
  - destruct (_ && _ && _); intros [= <- <-]. done.
Qed.

Lemma ParseArgs_loop_total fuel args out : (length args <= fuel)%nat -> ParseArgs_loop fuel args out <> OutOfFuel.
Proof.
  revert args out. induction fuel as [|fuel IH]; intros args out Hf; (destruct args as [|a rest]; [done|]); cbn in Hf; [lia|].
  cbn [ParseArgs_loop]. destruct (bytes_eqb a (str "--help") || bytes_eqb a (str "-h")); [done|].
  destruct (bytes_eqb a (str "--version")); [done|]. destruct (bytes_eqb a (str "--verbose")); [apply IH; lia|].
  destruct (TakeFlagValue (str "--socket") a rest) as [[v rest']|] eqn:E1.
  { apply TakeFlagValue_shorter in E1. apply IH. lia. }
  destruct (TakeFlagValue (str "--mode") a rest) as [[v rest']|] eqn:E2.
  { apply TakeFlagValue_shorter in E2. destruct (_ && _); [done|]. apply IH. lia. }
  destruct (TakeFlagValue (str "--parent-pid") a rest) as [[v rest']|] eqn:E3; [|done].
  apply TakeFlagValue_shorter in E3. destruct (stoi v); [|done]. apply IH. lia.
Qed.

Lemma take_digits_all ds s :
  Forall (fun c => is_digit c = true) ds -> (match s with c :: _ => is_digit c = false | [] => True end) ->
  take_digits (ds ++ s) = ds.
Proof.
  intros Hd Hs. induction Hd as [|c ds Hc Hd IH]; cbn.
  - destruct s as [|c s]; [done|]. cbn. by rewrite Hs.
  - by rewrite Hc, IH.
Qed.

Lemma skip_while_none p s : (match s with c :: _ => p c = false | [] => True end) -> skip_while p s = s.
Proof. destruct s as [|c s]; [done|]. cbn. by intros ->. Qed.

Lemma to_string_loop_longer fuel n acc : (length acc <= length (to_string_loop fuel n acc))%nat.
Proof.
  revert n acc. induction fuel as [|fuel IH]; intros n acc; [done|]. cbn [to_string_loop].
  destruct (n <? 10); [cbn; lia|]. etrans; [|apply IH]. cbn. lia.
Qed.
Lemma to_string_loop_cons fuel n acc : to_string_loop (S fuel) n acc <> [].
Proof.
  cbn [to_string_loop]. destruct (n <? 10); [done|].
  pose proof (to_string_loop_longer fuel (n / 10) ((48 + n mod 10) :: acc)) as H. cbn in H.
  intros E. rewrite E in H. cbn in H. lia.
Qed.
Lemma to_string_not_nil n : to_string n <> [].
Proof. apply to_string_loop_cons. Qed.

Lemma digit_not_space c : is_digit c = true -> isspace c = false.
Proof.
  unfold is_digit, isspace. intros H. zbool. apply orb_false_intro; [apply Z.eqb_neq; lia|].
  apply andb_false_intro2. apply Z.leb_gt. lia.
Qed.

(** A printed number is read back, whatever non-digit follows it. *)
Lemma read_number_to_string space n s :
  (forall c, is_digit c = true -> space c = false) -> is_u64 n ->
  (match s with c :: _ => is_digit c = false | [] => True end) ->
  read_number space (to_string n ++ s) = Some (false, n).
Proof.
  intros Hsp Hn Hs. pose proof (to_string_digits n (proj1 Hn)) as Hd. pose proof (of_decimal_to_string n Hn) as Hdec.
  assert (Hdig : Forall (fun c => is_digit c = true) (to_string n)).
  { eapply Forall_impl; [exact Hd|]. intros c Hc. cbn in Hc. unfold is_digit. apply andb_true_intro. split; apply Z.leb_le; lia. }
  unfold read_number. destruct (to_string n) as [|c ds] eqn:E; [by apply to_string_not_nil in E|].
  inversion_clear Hdig as [|? ? Hc Hds]. cbn [app].
  rewrite skip_while_none by (by apply Hsp). unfold is_digit in Hc. zbool.
  replace (c =? 45) with false by (symmetry; apply Z.eqb_neq; lia).
  replace (c =? 43) with false by (symmetry; apply Z.eqb_neq; lia).
  change (c :: ds ++ s) with ((c :: ds) ++ s). rewrite take_digits_all; [|by constructor; [unfold is_digit; apply andb_true_intro; split; apply Z.leb_le|]|done].
  by rewrite Hdec.
Qed.

Lemma stoi_to_string n s :
  0 <= n < 2 ^ 31 -> (match s with c :: _ => is_digit c = false | [] => True end) -> stoi (to_string n ++ s) = Some n.
Proof.
  intros Hn Hs. unfold stoi. rewrite read_number_to_string; [|by apply digit_not_space|unfold is_u64; lia|done]. cbn -[Z.pow].
  by rewrite (proj2 (Z.leb_le (- 2 ^ 31) n)), (proj2 (Z.ltb_lt n (2 ^ 31))) by lia.
Qed.

Lemma stou_to_string width space n :
  (forall c, is_digit c = true -> space c = false) -> is_u64 n -> 0 <= n < 2 ^ width -> stou width space (to_string n) = Some n.
Proof.
  intros Hsp Hu Hn. unfold stou. rewrite <- (app_nil_r (to_string n)), read_number_to_string by done. cbn -[Z.pow].
  replace (n <? 2 ^ width) with true by (symmetry; apply Z.ltb_lt; lia). by rewrite Z.mod_small by lia.
Qed.

(** An argument given inline. *)
Lemma TakeFlagValue_inline flag v rest :
  v <> [] -> TakeFlagValue flag (flag ++ 61 :: v) rest = Some (v, rest).
Proof.
  intros Hv. unfold TakeFlagValue. rewrite (proj2 (bytes_eqb_neq _ _)).
  - rewrite take_app_length, bytes_eqb_refl. rewrite lookup_app_r, Nat.sub_diag by done. cbn [lookup list_lookup].
    rewrite bool_decide_eq_true_2 by done. rewrite Zlen_app, Zlen_cons.
    replace (Zlen flag + (1 + Zlen v) >? Zlen flag + 1) with true.
    + cbn. f_equal. f_equal. rewrite drop_app_ge by lia. replace (S (length flag) - length flag)%nat with 1%nat by lia. done.
    + symmetry. apply Z.gtb_lt. destruct v; [done|]. rewrite Zlen_cons. pose proof (Zlen_nonneg v). lia.
  - intros E. apply (f_equal length) in E. rewrite length_app in E. cbn in E. lia.
Qed.
Lemma TakeFlagValue_next flag v rest : TakeFlagValue flag flag (v :: rest) = Some (v, rest).
Proof. unfold TakeFlagValue. by rewrite bytes_eqb_refl. Qed.

Lemma TakeFlagValue_other flag a rest :
  bytes_eqb a flag = false -> bytes_eqb (take (length flag) a) flag = false -> TakeFlagValue flag a rest = None.
Proof. unfold TakeFlagValue. intros -> ->. by rewrite andb_false_r. Qed.

(** One round of the loop for each spelling of each flag. *)
Lemma parse_socket_inline fuel path rest o :
  path <> [] -> ParseArgs_loop (S fuel) ((str "--socket=" ++ path) :: rest) o = ParseArgs_loop fuel rest (with_socket path o).
Proof.
  intros Hp. cbn [ParseArgs_loop]. change (str "--socket=" ++ path) with (str "--socket" ++ 61 :: path).
  rewrite (TakeFlagValue_inline (str "--socket") path rest Hp). reflexivity.
Qed.

Lemma parse_mode_next fuel m rest o :
  m = str "server" \/ m = str "client" ->
  ParseArgs_loop (S fuel) (str "--mode" :: m :: rest) o = ParseArgs_loop fuel rest (with_mode m o).
Proof. by intros [->| ->]. Qed.

Lemma parse_mode_inline fuel m rest o :
  m = str "server" \/ m = str "client" ->
  ParseArgs_loop (S fuel) ((str "--mode=" ++ m) :: rest) o = ParseArgs_loop fuel rest (with_mode m o).
Proof. by intros [->| ->]. Qed.

Lemma parse_pid_next fuel pid rest o :
  0 <= pid < 2 ^ 31 ->
  ParseArgs_loop (S fuel) (str "--parent-pid" :: to_string pid :: rest) o = ParseArgs_loop fuel rest (with_parent pid o).
Proof.
  intros Hp. pose proof (stoi_to_string pid [] Hp I) as H. rewrite app_nil_r in H.
  cbn [ParseArgs_loop]. rewrite TakeFlagValue_next, H. reflexivity.
Qed.

Lemma parse_pid_inline fuel pid rest o :
  0 <= pid < 2 ^ 31 ->
  ParseArgs_loop (S fuel) ((str "--parent-pid=" ++ to_string pid) :: rest) o = ParseArgs_loop fuel rest (with_parent pid o).
Proof.
  intros Hp. pose proof (stoi_to_string pid [] Hp I) as H. rewrite app_nil_r in H.
  cbn [ParseArgs_loop]. change (str "--parent-pid=" ++ to_string pid) with (str "--parent-pid" ++ 61 :: to_string pid).
  rewrite (TakeFlagValue_other (str "--socket")), (TakeFlagValue_other (str "--mode")) by reflexivity.
  rewrite (TakeFlagValue_inline (str "--parent-pid") (to_string pid) rest (to_string_not_nil pid)), H. reflexivity.
Qed.

(** ** Properties *)

(** The parser of the Linux command line answers on every input: its rounds
    are bounded by the number of arguments. *)
Theorem parse_args_total argv : ParseArgs argv <> OutOfFuel.
Proof. apply ParseArgs_loop_total. destruct argv; cbn; lia. Qed.

(** The command line a parent builds is understood.  On Linux every
    combination of spellings (value in the next argument, or inline when it is
    not empty) yields the socket path, the mode and the process id given; on
    Windows the flags yield the pipe name, the 32-bit process id and the
    64-bit handle given, provided [iswspace] rejects the digits. *)
Theorem command_line_roundtrip prog path m pid iswspace name handle :
  path <> [] -> m = str "server" \/ m = str "client" -> 0 <= pid < 2 ^ 31 ->
  (forall c, is_digit c = true -> iswspace c = false) -> is_u64 handle ->
  let given := {| socket_path := Some path; mode := m; parent_pid := Some pid; verbose := true; show_help := false;
                  show_ver := false |} in
  let socket := [[str "--socket"; path]; [str "--socket=" ++ path]] in
  let modes := [[str "--mode"; m]; [str "--mode=" ++ m]] in
  let pids := [[str "--parent-pid"; to_string pid]; [str "--parent-pid=" ++ to_string pid]] in
  (forall a b c, a ∈ socket -> b ∈ modes -> c ∈ pids ->
     ParseArgs (prog :: a ++ b ++ str "--verbose" :: c) = Done given) /\
  let win := [prog; str "--parent-pid=" ++ to_string pid; str "--pipe-name=" ++ name;
              str "--parent-handle=" ++ to_string handle] in
  ParseParentPid iswspace win = pid /\ ParsePipeNameOverride win = name /\ ParseParentHandle iswspace win = handle.
Proof.
  intros Hp Hm Hpid Hsp Hh given socket modes pids. split; [|intros win; split_and!].
  - intros a b c Ha Hb Hc.
    assert (Es : forall fuel rest o, ParseArgs_loop (S fuel) (a ++ rest) o = ParseArgs_loop fuel rest (with_socket path o)).
    { intros fuel rest o. apply elem_of_cons in Ha as [->|Ha]; [done|].
      apply list_elem_of_singleton in Ha as ->. by apply parse_socket_inline. }
    assert (Em : forall fuel rest o, ParseArgs_loop (S fuel) (b ++ rest) o = ParseArgs_loop fuel rest (with_mode m o)).
    { intros fuel rest o. apply elem_of_cons in Hb as [->|Hb]; [by apply parse_mode_next|].
      apply list_elem_of_singleton in Hb as ->. by apply parse_mode_inline. }
    assert (Ep : forall fuel o, ParseArgs_loop (S fuel) c o = ParseArgs_loop fuel [] (with_parent pid o)).
    { intros fuel o. apply elem_of_cons in Hc as [->|Hc]; [by apply parse_pid_next|].
      apply list_elem_of_singleton in Hc as ->. by apply parse_pid_inline. }
    assert (1 <= length a /\ 1 <= length b /\ 1 <= length c)%nat.
    { split_and!; [apply elem_of_cons in Ha as [->|Ha%list_elem_of_singleton]|apply elem_of_cons in Hb as [->|Hb%list_elem_of_singleton]|
        apply elem_of_cons in Hc as [->|Hc%list_elem_of_singleton]]; subst; cbn [length]; lia. }
    unfold ParseArgs. cbn [tail].
    destruct (length (prog :: a ++ b ++ str "--verbose" :: c)) as [|[|[|[|[|k]]]]] eqn:El.
    1-5: exfalso; cbn [length] in El; rewrite !length_app in El; cbn [length] in El; lia.
    rewrite Es, Em. change (str "--verbose" :: c) with ([str "--verbose"] ++ c).
    etrans; [|apply (Ep (S k) (with_verbose (with_mode m (with_socket path default_Args))))]. reflexivity.
  - unfold ParseParentPid. change (find_flag _ _) with (Some (to_string pid)). cbv iota beta.
    rewrite stou_to_string; [done|done|unfold is_u64; lia|lia].
  - done.
  - unfold ParseParentHandle. change (find_flag _ _) with (Some (to_string handle)). cbv iota beta. by rewrite stou_to_string.
Qed.

Lemma command_line_roundtrip_witness :
  ParseArgs [str "helper"; str "--socket=/run/c.sock"; str "--mode"; str "server"; str "--verbose"; str "--parent-pid"; str "4242"] =
    Done {| socket_path := Some (str "/run/c.sock"); mode := str "server"; parent_pid := Some 4242; verbose := true;
            show_help := false; show_ver := false |}.
Proof.
  assert (Hs : forall c, is_digit c = true -> isspace c = false) by apply digit_not_space.
  destruct (command_line_roundtrip (str "helper") (str "/run/c.sock") (str "server") 4242 isspace (str "x") 7) as [H _].
  - discriminate.
  - left. reflexivity.
  - split; [discriminate|reflexivity].
  - exact Hs.
  - split; [discriminate|reflexivity].
  - apply (H [str "--socket=/run/c.sock"] [str "--mode"; str "server"] [str "--parent-pid"; str "4242"]).
    + right. left.
    + left.
    + left.
Defined.

(** What follows the digits is ignored, and an empty inline value is an
    unknown argument. *)
Example parent_pid_trailing_text :
  ParseArgs [str "helper"; str "--parent-pid=12abc"] = Done (with_parent 12 default_Args).
Proof. vm_compute. reflexivity. Qed.
Example empty_socket_refused : ParseArgs [str "helper"; str "--socket="] = Malformed.
Proof. vm_compute. reflexivity. Qed.
