(* ===== verification/LinuxMain.v ===== *)
(** * LinuxMain: start-up, shutdown and the parent watchdog

    [main] of [linux/src/main.cpp] as a function from the command line, the
    environment and the answers of the host to the exit code and the sequence
    of life-cycle actions, the destructors of the local variables included
    (C++ runs them in reverse order of construction on every return); and
    [linux/src/parent_watchdog.cpp] as a small transition system. *)

From S2P Require Import Prelude Backend CommandLine.

(** ** The parent watchdog *)

(** [kill(pid, 0)]. *)
Inductive KillAnswer := KillOk | KillErr (errno : Z).
Definition ESRCH : Z := 3.
Definition EPERM : Z := 1.
Definition parent_gone (a : KillAnswer) : bool :=
  match a with KillErr e => e =? ESRCH | KillOk => false end.

(** The poll thread: not started, at the test of [stop_] in a slice, about to
    call [kill], returned. *)
Inductive PollPc := PollNone | PollSlice | PollKill | PollDone.

Record ParentWatchdog := {
  w_parent_pid_ : Z;
  w_stop_ : bool;
  w_fired_ : bool;
  w_poll : PollPc;
  w_shutdowns : nat   (* calls of shutdown_cb_ *)
}.
Definition new_ParentWatchdog : ParentWatchdog :=
  {| w_parent_pid_ := 0; w_stop_ := false; w_fired_ := false; w_poll := PollNone; w_shutdowns := 0 |}.

Definition set_poll (pc : PollPc) (w : ParentWatchdog) : ParentWatchdog :=
  {| w_parent_pid_ := w_parent_pid_ w; w_stop_ := w_stop_ w; w_fired_ := w_fired_ w; w_poll := pc;
     w_shutdowns := w_shutdowns w |}.

(** [if (!fired_.exchange(true) && shutdown_cb_) shutdown_cb_();] *)
Definition fire (w : ParentWatchdog) : ParentWatchdog :=
  {| w_parent_pid_ := w_parent_pid_ w; w_stop_ := w_stop_ w; w_fired_ := true; w_poll := w_poll w;
     w_shutdowns := if w_fired_ w then w_shutdowns w else S (w_shutdowns w) |}.

(** [prctl] failing is only logged. *)
Definition Watchdog_Start (pid : Z) (first : KillAnswer) (w : ParentWatchdog) : ParentWatchdog :=
  let w := {| w_parent_pid_ := pid; w_stop_ := w_stop_ w; w_fired_ := w_fired_ w; w_poll := w_poll w;
              w_shutdowns := w_shutdowns w |} in
  if parent_gone first then fire w else set_poll PollSlice w.

(** [Stop] stores [stop_] and joins the thread, which is its own steps. *)
Definition Watchdog_Stop (w : ParentWatchdog) : ParentWatchdog :=
  {| w_parent_pid_ := w_parent_pid_ w; w_stop_ := true; w_fired_ := w_fired_ w; w_poll := w_poll w;
     w_shutdowns := w_shutdowns w |}.

Inductive WatchLabel :=
| WlStop
| WlSlice (deadline_passed : bool)   (* the test of stop_, then 200 ms of sleep *)
| WlPoll (a : KillAnswer).

Definition watch_exec (l : WatchLabel) (w : ParentWatchdog) : option ParentWatchdog :=
  match l, w_poll w with
  | WlStop, _ => Some (Watchdog_Stop w)
  | WlSlice deadline_passed, PollSlice =>
      Some (set_poll (if w_stop_ w then PollDone else if deadline_passed then PollKill else PollSlice) w)
  | WlPoll a, PollKill => Some (if parent_gone a then set_poll PollDone (fire w) else set_poll PollSlice w)
  | _, _ => None
  end.
Definition run_watch : list WatchLabel -> ParentWatchdog -> option ParentWatchdog := run_exec watch_exec.

(** ** main *)

Inductive Manager := UseExt | UseWlr | UseX11 | UseStub.

(** The local variables with a destructor that matters, in order of
    construction; the application with the platform it was created under. *)
Inductive Component :=
| App (platform : option (list Z))
| SigNotifier
| Clipboard (m : Manager)
| SocketServer_
| Dispatcher_
| Watchdog_.
#[export] Instance Manager_eq_dec : EqDecision Manager.
Proof. solve_decision. Defined.
#[export] Instance Component_eq_dec : EqDecision Component.
Proof. solve_decision. Defined.

Inductive Action :=
| Create (c : Component)
| Destroy (c : Component)
| OpenPipe
| ClosePipe
| DoAttach
| DoDetach
| SocketStart (path : list Z) (ok : bool)
| SocketStop
| WatchStart (pid : Z)
| WatchStop
| PostQuit
| Exec.

(** The answers of the host: the Wayland sessions of the probe and of the two
    factories, whether Qt has a clipboard, the system calls, the first [kill]
    of the watchdog, and what [exec] returns. *)
Record Host := {
  h_probe : Session;
  h_ext : Session;
  h_wlr : Session;
  h_gui_clipboard : bool;
  h_pipe2 : bool;
  h_socket_start : bool;
  h_parent : KillAnswer;
  h_rc : Z
}.

(** The backend after the probe, and the environment Qt will see. *)
Definition choose_backend (env : Env) (h : Host) : BackendKind * Env :=
  let (decision, env) := DetectBackendAndApplyEnv env in
  match kind decision with
  | Wayland =>
      let has_data_control := (ProbeWaylandDataControl (h_probe h)).1 in
      let have_display := negb (is_empty (OsGetEnv env (str "DISPLAY"))) in
      if ShouldFallbackToXWayland has_data_control have_display
      then (ForceXWayland, setenv (str "QT_QPA_PLATFORM") (str "xcb") env)
      else (Wayland, setenv (str "QT_QPA_PLATFORM") (str "minimal") env)
  | k => (k, env)
  end.

Definition make_manager (k : BackendKind) (h : Host) : Manager :=
  match k with
  | Wayland => match MakeWaylandManager (h_ext h) (h_wlr h) with
               | inl (ExtBackend _) => UseExt
               | inl (WlrBackend _) => UseWlr
               | inr _ => UseStub
               end
  | X11 | ForceXWayland => if h_gui_clipboard h then UseX11 else UseStub
  | NoBackend => UseStub
  end.

Definition destroy_all (cs : list Component) : list Action := map Destroy cs.

(** From the construction of the application on. *)
Definition main_run (args : Args) (path : list Z) (k : BackendKind) (env : Env) (h : Host) : Z * list Action :=
  let app := App (env !! str "QT_QPA_PLATFORM") in
  if negb (h_pipe2 h) then (70, [Create app] ++ destroy_all [app])
  else
    let clipboard := Clipboard (make_manager k h) in
    let wired := [Create app; OpenPipe; Create SigNotifier; Create clipboard; Create SocketServer_; Create Dispatcher_;
                  DoAttach; SocketStart path (h_socket_start h)] in
    let locals := [Dispatcher_; SocketServer_; clipboard; SigNotifier; app] in
    if negb (h_socket_start h) then (70, wired ++ [ClosePipe] ++ destroy_all locals)
    else
      let watch := match parent_pid args with
                   | Some pid =>
                       WatchStart pid ::
                       if (w_fired_ (Watchdog_Start pid (h_parent h) new_ParentWatchdog)) then [PostQuit] else []
                   | None => []
                   end in
      (h_rc h, wired ++ [Create Watchdog_] ++ watch ++
         [Exec; WatchStop; SocketStop; DoDetach; ClosePipe] ++ destroy_all (Watchdog_ :: locals)).

Definition main (argv : list (list Z)) (env : Env) (h : Host) : Z * list Action :=
  match ParseArgs argv with
  | Done args =>
      if show_help args then (0, [])
      else if show_ver args then (0, [])
      else match socket_path args with
           | None => (64, [])
           | Some path =>
               match choose_backend env h with
               | (NoBackend, _) => (71, [])
               | (k, env) => main_run args path k env h
               end
           end
  | _ => (64, [])
  end.

(** ** Life times *)

(** What is alive: the components, innermost first, and what they are doing. *)
Record World := {
  stack : list Component;
  pipe_open : bool;
  attached : bool;
  serving : bool;
  watching : bool
}.
Definition no_world : World := {| stack := []; pipe_open := false; attached := false; serving := false; watching := false |}.

Definition is_app (c : Component) : bool := match c with App _ => true | _ => false end.
Definition is_clipboard (c : Component) : bool := match c with Clipboard _ => true | _ => false end.
Definition alive (p : Component -> bool) (w : World) : bool := existsb p (stack w).
Definition is_server (c : Component) : bool := match c with SocketServer_ => true | _ => false end.
Definition is_dispatcher (c : Component) : bool := match c with Dispatcher_ => true | _ => false end.
Definition is_watchdog (c : Component) : bool := match c with Watchdog_ => true | _ => false end.

(** What each action needs.  The callbacks the backend and the socket server
    hold point into the dispatcher and the application: the dispatcher may go
    only when the server has stopped and the watchdog too, the backend and the
    server only when the dispatcher is detached, the application last. *)
Definition check_action (w : World) (a : Action) : option World :=
  let (st, pipe, att, srv, wat) := w in
  let guard (b : bool) (w : World) := if b then Some w else None in
  match a with
  | Create c =>
      guard (match c with
             | App _ => match st with [] => true | _ => false end
             | Dispatcher_ => alive is_clipboard w && alive is_server w
             | _ => alive is_app w
             end) (Build_World (c :: st) pipe att srv wat)
  | Destroy c =>
      match st with
      | c' :: st' =>
          guard (bool_decide (c = c') &&
                 match c with
                 | App _ => negb pipe && negb srv && negb wat
                 | Dispatcher_ => negb srv && negb wat
                 | Clipboard _ | SocketServer_ => negb att && negb srv
                 | Watchdog_ => negb wat
                 | SigNotifier => true
                 end)
            (Build_World st' pipe (match c with Dispatcher_ => false | _ => att end) srv wat)
      | [] => None
      end
  | OpenPipe => guard (negb pipe) (Build_World st true att srv wat)
  | ClosePipe => guard pipe (Build_World st false att srv wat)
  | DoAttach => guard (alive is_dispatcher w && negb att) (Build_World st pipe true srv wat)
  | DoDetach => guard att (Build_World st pipe false srv wat)
  | SocketStart _ ok => guard (att && negb srv) (Build_World st pipe att ok wat)
  | SocketStop => guard srv (Build_World st pipe att false wat)
  | WatchStart _ => guard (alive is_watchdog w && negb wat) (Build_World st pipe att srv true)
  | WatchStop => guard (alive is_watchdog w) (Build_World st pipe att srv false)
  | PostQuit => guard (alive is_app w) w
  | Exec => guard (alive is_app w && srv) w
  end.
Fixpoint check_actions (w : World) (acts : list Action) : option World :=
  match acts with
  | [] => Some w
  | a :: rest => match check_action w a with Some w' => check_actions w' rest | None => None end
  end.

(** ** Lemmas *)

Lemma choose_backend_spec env h :
  let (k, env') := choose_backend env h in
  (k = NoBackend <-> ~ env_set "WAYLAND_DISPLAY" env /\ ~ env_set "DISPLAY" env) /\
  (k = ForceXWayland -> env' !! str "QT_QPA_PLATFORM" = Some (str "xcb")) /\
  (k = Wayland -> env' !! str "QT_QPA_PLATFORM" = Some (str "minimal") /\ ~ gnome_desktop env /\ env_set "WAYLAND_DISPLAY" env /\
     ((ProbeWaylandDataControl (h_probe h)).1 = true \/ ~ env_set "DISPLAY" env)) /\
  (k = X11 -> env' = env /\ ~ gnome_desktop env /\ ~ env_set "WAYLAND_DISPLAY" env).
Proof.
  unfold choose_backend. pose proof (DetectBackend_spec env) as Hs.
  destruct (DetectBackendAndApplyEnv env) as [d env']. cbn [fst snd] in Hs.
  destruct Hs as (Hn & Hf & Hw & Hx & Henvf & Henv & Hother).
  assert (Hdisp : kind d <> ForceXWayland -> OsGetEnv env' (str "DISPLAY") = OsGetEnv env (str "DISPLAY")).
  { intros Hne. by rewrite (Henv Hne). }
  assert (Hset : forall v, setenv (str "QT_QPA_PLATFORM") v env' !! str "QT_QPA_PLATFORM" = Some (c_str v)).
  { intros v. unfold setenv. by rewrite lookup_insert_eq. }
  destruct (kind d) eqn:Ek.
  - rewrite Hdisp by done. unfold ShouldFallbackToXWayland, env_set in *.
    destruct (ProbeWaylandDataControl (h_probe h)).1, (OsGetEnv env (str "DISPLAY")); cbn [negb andb is_empty]; rewrite ?Hset; naive_solver.
  - naive_solver.
  - naive_solver.
  - naive_solver.
Qed.

(** The watchdog's history. *)
Lemma run_watch_spec ls w0 w :
  run_watch ls w0 = Some w -> w_shutdowns w0 = (if w_fired_ w0 then 1 else 0)%nat ->
  w_shutdowns w = (if w_fired_ w then 1 else 0)%nat /\
  (w_fired_ w = true <-> w_fired_ w0 = true \/ exists a, WlPoll a ∈ ls /\ parent_gone a = true).
Proof.
  revert w0. induction ls as [|l ls IH]; intros w0 H Hc; cbn in H; [simplify_eq; split; [done|set_solver]|].
  destruct (watch_exec l w0) as [w1|] eqn:E; [|discriminate H].
  assert (H1 : w_shutdowns w1 = (if w_fired_ w1 then 1 else 0)%nat /\
            (w_fired_ w1 = true <-> w_fired_ w0 = true \/ exists a, l = WlPoll a /\ parent_gone a = true)).
  { destruct l as [|b|a]; cbn in E; [|destruct (w_poll w0); try discriminate E..]; apply (inj Some) in E; subst w1;
      [split; [done|naive_solver]..|].
    destruct (parent_gone a) eqn:Ea; cbn; [split; [rewrite Hc; by destruct (w_fired_ w0)|split; [eauto|done]]|split; [done|split; [by left|intros [?|(a' & [= <-] & ?)]; [done|congruence]]]]. }
  destruct H1 as [Hc1 Hf1]. destruct (IH w1 H Hc1) as [Hc2 Hf2]. split; [done|]. rewrite Hf2, Hf1.
  split.
  - intros [[?|(a & -> & ?)]|(a & ? & ?)]; [by left|right; exists a; split; [by left|done]|right; exists a; split; [by right|done]].
  - intros [?|(a & Hin & ?)]; [by left; left|]. apply elem_of_cons in Hin as [<-|Hin]; [left; right; eauto|right; eauto].
Qed.

(** The thread's steps once [stop_] is set. *)
Lemma stopped_steps own w w' :
  w_stop_ w = true -> Forall (fun l => l <> WlStop) own -> run_watch own w = Some w' -> (length own <= 2)%nat.
Proof.
  intros Hs Hown H. destruct own as [|l1 [|l2 [|l3 own]]]; cbn [length]; try lia. exfalso.
  apply Forall_cons in Hown as [H1 Hown]. apply Forall_cons in Hown as [H2 Hown]. apply Forall_cons in Hown as [H3 _].
  unfold run_watch in H. cbn in H. destruct w as [pid st fi pc sh]. cbn in Hs. subst st.
  destruct l1 as [|b1|a1]; [done|..]; destruct pc; cbn in H; try discriminate H;
    [destruct l2; done|]. destruct (parent_gone a1); cbn in H; [by destruct l2|].
  destruct l2 as [|b2|a2]; [done|..]; cbn in H; [|done]. by destruct l3.
Qed.

(** What a run creates. *)
Lemma main_run_spec args path k env h :
  let r := main_run args path k env h in
  r.1 = (if h_pipe2 h && h_socket_start h then h_rc h else 70) /\ r.2 <> [] /\
  (forall m, Create (Clipboard m) ∈ r.2 -> m = make_manager k h /\ Create (App (env !! str "QT_QPA_PLATFORM")) ∈ r.2).
Proof.
  unfold main_run. destruct (h_pipe2 h); cbn [negb andb]; [destruct (h_socket_start h); cbn [negb]|];
    (split; [done|split; [done|]]); cbn [fst snd]; intros m Hin; (split; [|left]).
  - apply elem_of_app in Hin as [Hin|Hin]; [set_solver|].
    assert (Hno : forall l : list Action, Forall (fun a => match a with Create (Clipboard _) => False | _ => True end) l ->
              Create (Clipboard m) ∉ l) by (intros l Hl Hi; rewrite Forall_forall in Hl; by apply (Hl _ Hi)).
    exfalso. revert Hin. apply Hno. destruct (parent_pid args) as [pid|]; [destruct (w_fired_ _)|]; by repeat constructor.
  - set_solver.
  - set_solver.
Qed.

(** Evaluate a trace; a component on top of the stack is the one destroyed. *)
Lemma same_component (c : Component) : bool_decide (c = c) = true.
Proof. by apply bool_decide_eq_true_2. Qed.
Ltac solve_actions := cbn -[bool_decide]; repeat (rewrite same_component; cbn -[bool_decide]); reflexivity.

(** ** Properties *)

(** Life times.  For every command line, environment and host, whatever fails,
    [main] constructs and destroys its components in stack order with every
    use inside the life time of what it uses: the dispatcher outlives the
    running socket server and the watchdog, whose callbacks point into it; the
    backend outlives the attached dispatcher; and at the return nothing is
    left running, attached or open. *)
Theorem main_lifetimes argv env h : check_actions no_world (main argv env h).2 = Some no_world.
Proof.
  unfold main. destruct (ParseArgs argv) as [args| |]; [|done..].
  destruct (show_help args); [done|]. destruct (show_ver args); [done|]. destruct (socket_path args) as [path|]; [|done].
  assert (Hrun : forall k env, check_actions no_world (main_run args path k env h).2 = Some no_world).
  { intros k env'. unfold main_run. set (p := env' !! str "QT_QPA_PLATFORM"). clearbody p.
    set (m := make_manager k h). clearbody m. destruct (h_pipe2 h); cbn [negb].
    2:{ solve_actions. }
    destruct (h_socket_start h); cbn [negb].
    - destruct (parent_pid args) as [pid|]; [destruct (w_fired_ (Watchdog_Start pid (h_parent h) new_ParentWatchdog))|];
        solve_actions.
    - solve_actions. }
  destruct (choose_backend env h) as [[] env']; try apply Hrun. done.
Qed.

(** The exit code and the backend.  The helper refuses the command line with
    64, prints help or version with 0, leaves with 71 exactly when no display
    is set, with 70 when the pipe or the socket cannot be made; once it runs it
    returns what [exec] returned.  A Wayland backend is only made under the
    minimal Qt platform, outside GNOME and with WAYLAND_DISPLAY set; the X11
    backend only under the xcb platform, or under the platform of the user
    when no Wayland display is set; and the stub only when Qt has no clipboard
    or both Wayland factories failed. *)
Theorem main_backend argv env h :
  let (rc, acts) := main argv env h in
  (acts = [] -> rc = 0 \/ rc = 64 \/ rc = 71) /\
  (forall args path, ParseArgs argv = Done args -> show_help args = false -> show_ver args = false ->
     socket_path args = Some path ->
     (rc = 71 /\ acts = [] <-> ~ env_set "WAYLAND_DISPLAY" env /\ ~ env_set "DISPLAY" env) /\
     (acts <> [] -> rc = if h_pipe2 h && h_socket_start h then h_rc h else 70)) /\
  (forall m, Create (Clipboard m) ∈ acts -> exists p, Create (App p) ∈ acts /\
     match m with
     | UseExt | UseWlr => p = Some (str "minimal") /\ ~ gnome_desktop env /\ env_set "WAYLAND_DISPLAY" env
     | UseX11 => h_gui_clipboard h = true /\
                 (p = Some (str "xcb") \/ p = env !! str "QT_QPA_PLATFORM" /\ ~ env_set "WAYLAND_DISPLAY" env)
     | UseStub => h_gui_clipboard h = false \/
                  (exists calls, MakeWaylandManager (h_ext h) (h_wlr h) = inr calls) /\
                  ((ProbeWaylandDataControl (h_probe h)).1 = true \/ ~ env_set "DISPLAY" env)
     end).
Proof.
  unfold main. destruct (ParseArgs argv) as [args| |] eqn:Ep; [|by split_and!; [auto|done|set_solver]..].
  destruct (show_help args) eqn:Eh; [by split_and!; [auto|intros; congruence|set_solver]|].
  destruct (show_ver args) eqn:Ev; [by split_and!; [auto|intros; congruence|set_solver]|].
  destruct (socket_path args) as [path|] eqn:Es; [|by split_and!; [auto|intros; congruence|set_solver]].
  pose proof (choose_backend_spec env h) as Hs. destruct (choose_backend env h) as [k env'].
  destruct Hs as (Hn & Hf & Hw & Hx).
  destruct (decide (k = NoBackend)) as [->|Hk].
  { split_and!; [auto| |set_solver]. intros args' path' _ _ _ _. split; [naive_solver|done]. }
  assert (Hm : match k with NoBackend => (71, []) | _ => main_run args path k env' h end = main_run args path k env' h).
  { by destruct k. }
  rewrite Hm. clear Hm. pose proof (main_run_spec args path k env' h) as (Hrc & Hne & Hmgr).
  destruct (main_run args path k env' h) as [rc acts]. cbn [fst snd] in *. split_and!.
  - done.
  - intros args' path' _ _ _ _. split; [|by intros _]. split; [naive_solver|]. intros Hd. by destruct Hk; apply Hn.
  - intros m Hin. destruct (Hmgr m Hin) as [-> Happ]. eexists. split; [exact Happ|]. unfold make_manager.
    destruct k; [|destruct (h_gui_clipboard h) eqn:Eg; naive_solver..|done].
    destruct (MakeWaylandManager (h_ext h) (h_wlr h)) as [[]|calls]; naive_solver.
Qed.

(** The watchdog.  However its thread and [Stop] interleave, the shutdown is
    requested at most once, exactly when some [kill] (the one at the start, or
    one of the polls) said the parent does not exist; a parent that may not be
    signalled counts as alive; and after [Stop] the thread returns within
    two of its steps, so the join ends. *)
Theorem watchdog_fires_once pid first ls w :
  run_watch ls (Watchdog_Start pid first new_ParentWatchdog) = Some w ->
  (w_shutdowns w <= 1)%nat /\
  (w_shutdowns w = 1%nat <-> parent_gone first = true \/ exists a, WlPoll a ∈ ls /\ parent_gone a = true) /\
  parent_gone (KillErr EPERM) = false /\
  (w_stop_ w = true -> forall own w', Forall (fun l => l <> WlStop) own -> run_watch own w = Some w' ->
     (length own <= 2)%nat) /\
  (w_stop_ w = true -> w_poll w = PollSlice \/ w_poll w = PollKill -> exists l, l <> WlStop /\ is_Some (watch_exec l w)).
Proof.
  intros H. destruct (run_watch_spec _ _ _ H) as [Hcount Hfired].
  { unfold Watchdog_Start. by destruct (parent_gone first). }
  assert (Hstart : w_fired_ (Watchdog_Start pid first new_ParentWatchdog) = parent_gone first).
  { unfold Watchdog_Start. by destruct (parent_gone first). }
  rewrite Hstart in Hfired. split_and!.
  - rewrite Hcount. destruct (w_fired_ w); lia.
  - rewrite Hcount, <- Hfired. by destruct (w_fired_ w).
  - done.
  - intros Hs own w' Hown Hrun. eapply stopped_steps; eauto.
  - intros Hs [Hp|Hp]; [exists (WlSlice true)|exists (WlPoll KillOk)]; (split; [done|]); cbn; rewrite Hp; by eexists.
Qed.

Definition watch_run : list WatchLabel :=
  [WlSlice false; WlSlice true; WlPoll (KillErr EPERM); WlSlice true; WlPoll (KillErr ESRCH); WlStop].
Lemma watchdog_fires_once_witness :
  exists w, run_watch watch_run (Watchdog_Start 77 KillOk new_ParentWatchdog) = Some w /\ (w_shutdowns w <= 1)%nat /\
    w_shutdowns w = 1%nat.
Proof.
  eexists. split; [vm_compute; reflexivity|]. split; [|reflexivity].
  apply (watchdog_fires_once 77 KillOk watch_run). vm_compute. reflexivity.
Defined.
