(* ===== verification/LinuxQuit.v ===== *)
(** * LinuxQuit: how the Linux helper comes to quit

    The quitting half of [linux/src/main.cpp] with
    [linux/src/parent_watchdog.cpp]: the signal handler and its self-pipe, the
    notifier that empties the pipe on the main thread, [QuitAppSafely], the
    watchdog's [PR_SET_PDEATHSIG], first probe and poll thread, and [main] from
    [pipe2] to its last [close].  [quit_exec] are the steps of these; [sys_exec]
    runs them with every other thread of the helper, [LinuxHelper]. *)

From S2P Require Import Prelude HelperProto WinCodec LinuxCodec LinuxDispatch Framing SocketServer.
From S2P Require Import UriList ExtManager PasteBackend LinuxSession LinuxHelper LinuxMain.

(** ** State *)

(** Inside [SignalHandler]: before [g_sig_write_fd >= 0], before the second
    read of [g_sig_write_fd], about to [write] to the descriptor read. *)
Inductive HandlerPc := HpTest | HpLoad | HpWrite (fd : Z).

(** A running handler: on the main thread or on another, its signal. *)
Definition SigHandler : Type := bool * Z * HandlerPc.
Definition on_main_thread (a : SigHandler) : bool := a.1.1.

(** [main] from the installation of the handlers on. *)
Inductive QuitPc :=
| QmWiring                     (* up to SocketServer::Start *)
| QmFailed (closed : nat)      (* Start failed; the ends of the pipe closed so far *)
| QmWatch                      (* before watchdog.Start, if any *)
| QmProbe                      (* in watchdog.Start, after prctl *)
| QmExec                       (* before app.exec() *)
| QmLoop
| QmLeft                       (* exec has returned *)
| QmJoinWatch                  (* in watchdog.Stop, joining *)
| QmTearing                    (* socket_server.Stop and dispatcher.Detach *)
| QmClosing (closed : nat).    (* g_sig_write_fd is -1 *)

#[export] Instance QuitPc_eq_dec : EqDecision QuitPc.
Proof. solve_decision. Defined.

Record Quit := {
  q_pc : QuitPc;
  q_watch : ParentWatchdog;
  q_pdeathsig : bool;            (* prctl(PR_SET_PDEATHSIG, SIGTERM) has succeeded *)
  q_parent_alive : bool;         (* the process --parent-pid names *)
  q_pending : list Z;            (* signals raised, not yet delivered *)
  q_handlers : list SigHandler;
  g_sig_write_fd : Z;
  q_pipe : list Z;               (* bytes in the self-pipe *)
  q_notified : nat;              (* calls of QuitAppSafely by the notifier *)
  (* history *)
  q_caught : list Z;             (* signals a handler was entered for *)
  q_stray : nat                  (* writes to a pipe already closed *)
}.
#[export] Instance eta_Quit : Eta Quit := fun q =>
  {| q_pc := q_pc q; q_watch := q_watch q; q_pdeathsig := q_pdeathsig q; q_parent_alive := q_parent_alive q;
     q_pending := q_pending q; q_handlers := q_handlers q; g_sig_write_fd := g_sig_write_fd q; q_pipe := q_pipe q;
     q_notified := q_notified q; q_caught := q_caught q; q_stray := q_stray q |}.

Definition SIGHUP : Z := 1.
Definition SIGINT : Z := 2.
Definition SIGTERM : Z := 15.
(** The signals [main] installs its handler for. *)
Definition handled_signals : list Z := [SIGINT; SIGTERM; SIGHUP].

(** [sig_pipe[1]], and the bytes a pipe of this system holds. *)
Definition sig_write_end : Z := 4.
Definition pipe_capacity : Z := 65536.

Definition init_quit : Quit :=
  {| q_pc := QmWiring; q_watch := new_ParentWatchdog; q_pdeathsig := false; q_parent_alive := true; q_pending := [];
     q_handlers := []; g_sig_write_fd := sig_write_end; q_pipe := []; q_notified := 0; q_caught := []; q_stray := 0 |}.

(** Both ends are open until the first [close]; then the reader is gone (a write
    raises SIGPIPE), then the descriptor itself. *)
Definition self_pipe_open (pc : QuitPc) : bool :=
  match pc with QmFailed closed | QmClosing closed => (closed =? 0)%nat | _ => true end.

(** ** The signal handler *)

(** One step of [SignalHandler]; [None] when it has returned.  The [write] end
    is non-blocking: a full pipe loses the byte. *)
Definition SignalHandler (a : SigHandler) (q : Quit) : option SigHandler * Quit :=
  let '(on_main, sig, pc) := a in
  match pc with
  | HpTest => (if g_sig_write_fd q >=? 0 then Some (on_main, sig, HpLoad) else None, q)
  | HpLoad => (Some (on_main, sig, HpWrite (g_sig_write_fd q)), q)
  | HpWrite fd =>
      (None,
       if fd <? 0 then q                                            (* EBADF *)
       else if negb (self_pipe_open (q_pc q)) then q <| q_stray := S (q_stray q) |>
       else if Zlen (q_pipe q) >=? pipe_capacity then q             (* EAGAIN *)
       else q <| q_pipe := q_pipe q ++ [u8 sig] |>)
  end.

Definition handler_step (i : nat) (q : Quit) : option Quit :=
  match q_handlers q !! i with
  | None => None
  | Some a =>
      let (a', q') := SignalHandler a q in
      Some (q' <| q_handlers := match a' with Some a' => <[i := a']> (q_handlers q) | None => delete i (q_handlers q) end |>)
  end.

(** The kernel enters the handler, on a thread of its choice. *)
Definition deliver (i : nat) (on_main : bool) (q : Quit) : option Quit :=
  match q_pending q !! i with
  | None => None
  | Some sig => Some (q <| q_pending := delete i (q_pending q) |> <| q_handlers := (on_main, sig, HpTest) :: q_handlers q |>
                        <| q_caught := sig :: q_caught q |>)
  end.

(** ** The parent *)

(** A signal already pending is not queued again. *)
Definition raise (sig : Z) (q : Quit) : Quit :=
  q <| q_pending := if bool_decide (sig ∈ q_pending q) then q_pending q else sig :: q_pending q |>.

(** PDEATHSIG is raised when the thread that forked the helper ends, be it with
    its whole process or before it. *)
Definition forker_ends (q : Quit) : Quit :=
  if q_pdeathsig q then (raise SIGTERM q) <| q_pdeathsig := false |> else q.
Definition parent_dies (is_forker : bool) (q : Quit) : Quit :=
  (if is_forker then forker_ends q else q) <| q_parent_alive := false |>.

(** ESRCH is answered only for a process that is gone. *)
Definition truthful (a : KillAnswer) (q : Quit) : bool := negb (parent_gone a && q_parent_alive q).

(** ** The steps of main *)

Inductive QuitLabel :=
| QRaise (sig : Z)
| QDeliver (i : nat) (on_main : bool)
| QHandler (i : nat)
| QForkerEnds
| QParentDies (is_forker : bool)
| QWatchThread (l : WatchLabel)
| QStart (ok : bool)             (* SocketServer::Start *)
| QPrctl (ok : bool)             (* watchdog.Start up to the first kill *)
| QProbeParent (a : KillAnswer)
| QEnter                         (* app.exec() *)
| QNotify                        (* the lambda of sig_notifier *)
| QQuit                          (* the quit metacall *)
| QTear.                         (* the next step of the tear-down *)

(** A handler on the main thread holds [main] up. *)
Definition main_free (q : Quit) : bool := negb (existsb on_main_thread (q_handlers q)).

(** [SocketServer::Start] failing closes both ends of the pipe and returns 70. *)
Definition start_step (ok : bool) (q : Quit) : option Quit :=
  match q_pc q with
  | QmWiring => Some (q <| q_pc := if ok then QmWatch else QmFailed 0 |>)
  | _ => None
  end.

Definition prctl_step (parent_pid : option Z) (ok : bool) (q : Quit) : option Quit :=
  match q_pc q, parent_pid with
  | QmWatch, Some _ => Some (q <| q_pc := QmProbe |> <| q_pdeathsig := ok |>)
  | QmWatch, None => Some (q <| q_pc := QmExec |>)
  | _, _ => None
  end.
Definition probe_step (parent_pid : option Z) (a : KillAnswer) (q : Quit) : option Quit :=
  match q_pc q, parent_pid with
  | QmProbe, Some pid =>
      if truthful a q then Some (q <| q_pc := QmExec |> <| q_watch := Watchdog_Start pid a (q_watch q) |>) else None
  | _, _ => None
  end.

Definition watch_thread_step (l : WatchLabel) (q : Quit) : option Quit :=
  match l with
  | WlStop => None
  | WlPoll a => if truthful a q then option_map (fun w => q <| q_watch := w |>) (watch_exec l (q_watch q)) else None
  | WlSlice _ => option_map (fun w => q <| q_watch := w |>) (watch_exec l (q_watch q))
  end.

(** A quit metacall is queued: by the worker ([quits] of them), by the watchdog
    or by the notifier.  Calls made before [exec] stay queued for it. *)
Definition quit_queued (quits : nat) (q : Quit) : bool := (0 <? quits + w_shutdowns (q_watch q) + q_notified q)%nat.

(** The notifier reads the pipe until it is empty. *)
Definition notify_step (idle : bool) (q : Quit) : option Quit :=
  match q_pc q, q_pipe q with
  | QmLoop, _ :: _ => if idle then Some (q <| q_pipe := @nil Z |> <| q_notified := S (q_notified q) |>) else None
  | _, _ => None
  end.
Definition leave_step (idle : bool) (quits : nat) (q : Quit) : option Quit :=
  match q_pc q with
  | QmLoop => if idle && quit_queued quits q then Some (q <| q_pc := QmLeft |>) else None
  | _ => None
  end.

Definition quit_tear_step (helper : HelperMain) (q : Quit) : option Quit :=
  match q_pc q with
  | QmFailed closed => if (closed <? 2)%nat then Some (q <| q_pc := QmFailed (S closed) |>) else None
  | QmLeft => Some (q <| q_pc := QmJoinWatch |> <| q_watch := Watchdog_Stop (q_watch q) |>)
  | QmJoinWatch =>
      match w_poll (q_watch q) with PollNone | PollDone => Some (q <| q_pc := QmTearing |>) | _ => None end
  | QmTearing =>
      match helper with HmDetached => Some (q <| q_pc := QmClosing 0 |> <| g_sig_write_fd := -1 |>) | _ => None end
  | QmClosing closed => if (closed <? 2)%nat then Some (q <| q_pc := QmClosing (S closed) |>) else None
  | _ => None
  end.

(** [idle]: the main thread is between events; [quits] and [helper] are the
    helper's.  The steps of [main] wait for a handler that interrupted it. *)
Definition quit_exec (parent_pid : option Z) (idle : bool) (quits : nat) (helper : HelperMain) (l : QuitLabel) (q : Quit)
  : option Quit :=
  let mine (r : option Quit) : option Quit := if main_free q then r else None in
  match l with
  | QRaise sig => if bool_decide (sig ∈ handled_signals) then Some (raise sig q) else None
  | QDeliver i on_main => deliver i on_main q
  | QHandler i => handler_step i q
  | QForkerEnds => Some (forker_ends q)
  | QParentDies is_forker => if q_parent_alive q then Some (parent_dies is_forker q) else None
  | QWatchThread l => watch_thread_step l q
  | QStart ok => mine (start_step ok q)
  | QPrctl ok => mine (prctl_step parent_pid ok q)
  | QProbeParent a => mine (probe_step parent_pid a q)
  | QEnter => mine (match q_pc q with QmExec => Some (q <| q_pc := QmLoop |>) | _ => None end)
  | QNotify => mine (notify_step idle q)
  | QQuit => mine (leave_step idle quits q)
  | QTear => mine (quit_tear_step helper q)
  end.

(** ** With the rest of the helper *)

Section System.
Context {S L : Type} `{PasteBackend S L}.

Inductive SysLabel :=
| SysQuit (l : QuitLabel)
| SysHelper (l : HelperLabel L).

(** When [main] lets a step of the helper happen: its own tear-down steps and
    the event loop's have their place in [main], the other threads run once
    [Start] has succeeded. *)
Definition helper_enabled (l : HelperLabel L) (q : Quit) : bool :=
  match q_pc q with
  | QmWiring | QmFailed _ => false
  | pc =>
      match l with
      | YStop | YShutdown | YDetach => main_free q && match pc with QmTearing => true | _ => false end
      | YDestruct => main_free q && match pc with QmClosing closed => (closed =? 2)%nat | _ => false end
      | YBackend l _ =>
          if backend_on_main l
          then main_free q && if backend_destroys l then true else match pc with QmLoop => true | _ => false end
          else true
      | _ => true
      end
  end.

(** The main thread is between two events of its loop. *)
Definition main_idle (h : LinuxHelper S) : bool := negb (main_sending h) && main_returns h.

Definition sys_exec (parent_pid : option Z) (l : SysLabel) (s : Quit * LinuxHelper S) : option (Quit * LinuxHelper S) :=
  let (q, h) := s in
  match l with
  | SysQuit l => option_map (fun q' => (q', h)) (quit_exec parent_pid (main_idle h) (h_quits h) (h_main h) l q)
  | SysHelper l => if helper_enabled l q then option_map (pair q) (helper_exec l h) else None
  end.
Definition run_sys (parent_pid : option Z) : list SysLabel -> Quit * LinuxHelper S -> option (Quit * LinuxHelper S) :=
  run_exec (sys_exec parent_pid).

Definition init_sys (s : S) (inbound : list Z) : Quit * LinuxHelper S := (init_quit, init_helper s inbound).
End System.
Arguments SysLabel : clear implicits.

(** ** Invariant *)

Definition starting (pc : QuitPc) : bool := match pc with QmWiring | QmFailed _ | QmWatch | QmProbe => true | _ => false end.
Definition awaiting (pc : QuitPc) : bool := match pc with QmWiring | QmWatch | QmProbe | QmExec | QmLoop => true | _ => false end.
Definition has_left (pc : QuitPc) : bool := match pc with QmLeft | QmJoinWatch | QmTearing | QmClosing _ => true | _ => false end.
Definition watch_stopped (pc : QuitPc) : bool := match pc with QmJoinWatch | QmTearing | QmClosing _ => true | _ => false end.
Definition watch_ended (pc : QuitPc) : bool := match pc with QmTearing | QmClosing _ => true | _ => false end.
Definition polling (w : ParentWatchdog) : bool := match w_poll w with PollSlice | PollKill => true | _ => false end.

(** What a running handler will write to. *)
Definition handler_fd (fd : Z) (a : SigHandler) : Prop := match a.2 with HpWrite fd' => fd' = fd | _ => True end.

(** A caught signal is in a handler, in the pipe, or a queued quit. *)
Definition signalled (q : Quit) : Prop := q_handlers q <> [] \/ q_pipe q <> [] \/ (0 < q_notified q)%nat.

Definition helper_place (pc : QuitPc) (main : HelperMain) : Prop :=
  match pc with
  | QmTearing => main <> HmDestroyed
  | QmClosing _ => main = HmDetached \/ main = HmDestroyed
  | _ => main = HmRunning
  end.

Definition watch_ok (parent_pid : option Z) (pc : QuitPc) (alive : bool) (w : ParentWatchdog) : Prop :=
  (starting pc = true -> w = new_ParentWatchdog) /\
  w_stop_ w = watch_stopped pc /\
  (watch_ended pc = true -> polling w = false) /\
  w_shutdowns w = (if w_fired_ w then 1 else 0)%nat /\
  (w_fired_ w = true -> alive = false) /\
  (starting pc = false -> watch_stopped pc = false -> is_Some parent_pid -> w_fired_ w = false -> polling w = true).

Record quit_inv (parent_pid : option Z) (quits : nat) (main : HelperMain) (q : Quit) : Prop := {
  qi_fd : g_sig_write_fd q = match q_pc q with QmClosing _ => -1 | _ => sig_write_end end;
  qi_handlers : match q_pc q with QmClosing _ => True | _ => Forall (handler_fd sig_write_end) (q_handlers q) end;
  qi_caught : awaiting (q_pc q) = true -> q_caught q <> [] -> signalled q;
  qi_signalled : signalled q -> q_caught q <> [];
  qi_watch : watch_ok parent_pid (q_pc q) (q_parent_alive q) (q_watch q);
  qi_helper : helper_place (q_pc q) main;
  qi_probe : q_pc q = QmProbe -> is_Some parent_pid;
  qi_left : has_left (q_pc q) = true -> q_caught q <> [] \/ w_fired_ (q_watch q) = true \/ (0 < quits)%nat
}.

Section QuitInvariant.
Context (parent_pid : option Z).
Implicit Types q : Quit.

Lemma inv_init : quit_inv parent_pid 0 HmRunning init_quit.
Proof.
  constructor; cbn; try done. by intros [?|[?|?%Nat.lt_irrefl]].
Qed.

Lemma inv_raise sig quits main q : quit_inv parent_pid quits main q -> quit_inv parent_pid quits main (raise sig q).
Proof. intros []. by constructor. Qed.

Lemma inv_forker quits main q : quit_inv parent_pid quits main q -> quit_inv parent_pid quits main (forker_ends q).
Proof. unfold forker_ends. destruct (q_pdeathsig q); [|done]. intros []. by constructor. Qed.

Lemma inv_dead quits main q : quit_inv parent_pid quits main q -> quit_inv parent_pid quits main (q <| q_parent_alive := false |>).
Proof. intros [? ? ? ? (? & ? & ? & ? & ? & ?) ? ? ?]. by constructor. Qed.

Lemma inv_deliver i on_main quits main q q' : deliver i on_main q = Some q' -> quit_inv parent_pid quits main q -> quit_inv parent_pid quits main q'.
Proof.
  unfold deliver. destruct (q_pending q !! i) as [sig|]; [|done]. intros [= <-] []. constructor; cbn; try done.
  - destruct (q_pc q); by repeat constructor.
  - intros _ _. by left.
  - intros _. by left.
Qed.

Lemma insert_not_nil {A} i (x : A) l : l <> [] -> <[i:=x]> l <> [].
Proof. by destruct l, i. Qed.

(** A handler that has not written stays; one that has leaves a byte. *)
Lemma inv_handler i quits main q q' : handler_step i q = Some q' -> quit_inv parent_pid quits main q -> quit_inv parent_pid quits main q'.
Proof.
  unfold handler_step. destruct (q_handlers q !! i) as [[[b sig] pc]|] eqn:Ei; [|done]. intros E Hi.
  assert (Hne : q_handlers q <> []) by (intros Hn; by rewrite Hn in Ei).
  pose proof (qi_signalled _ _ _ _ Hi (or_introl Hne)) as Hc.
  destruct Hi as [Hfd Hh Hs _ Hw Hp Hpr Hl].
  assert (Hrest : forall P, Forall P (q_handlers q) -> Forall P (delete i (q_handlers q))).
  { intros P HP. by apply Forall_delete. }
  destruct pc as [| |fd]; cbn [SignalHandler] in E.
  - destruct (g_sig_write_fd q >=? 0) eqn:Eg; injection E as <-; constructor; cbn; try done.
    + destruct (q_pc q); try done; by apply Forall_insert.
    + intros _ _. left. by apply insert_not_nil.
    + destruct (q_pc q); try done; by apply Hrest.
    + intros Hleft _. rewrite Hfd in Eg. by destruct (q_pc q).
  - injection E as <-. constructor; cbn; try done.
    + destruct (q_pc q); try done; (apply Forall_insert; [done|]; by rewrite Hfd).
    + intros _ _. left. by apply insert_not_nil.
  - assert (Hopen : awaiting (q_pc q) = true -> (fd <? 0) = false /\ self_pipe_open (q_pc q) = true).
    { intros Hleft. assert (Hq : Forall (handler_fd sig_write_end) (q_handlers q)) by (by destruct (q_pc q)).
      eapply Forall_lookup_1 in Hq; [|exact Ei]. cbn in Hq. subst fd. by destruct (q_pc q). }
    destruct (fd <? 0) eqn:Ef; [|destruct (self_pipe_open (q_pc q)) eqn:Ew; cbn in E;
      [destruct (Zlen (q_pipe q) >=? pipe_capacity) eqn:Ez|]]; injection E as <-;
      (constructor; cbn; try done; [by destruct (q_pc q); try done; apply Hrest|]); intros Hleft _;
      destruct (Hopen Hleft); try done; right; left; cbn; by destruct (q_pipe q).
Qed.

Lemma watch_thread_ok pc alive l w w' :
  match l with WlPoll a => negb (parent_gone a && alive) = true | WlSlice _ => True | WlStop => False end ->
  watch_exec l w = Some w' -> watch_ok parent_pid pc alive w ->
  watch_ok parent_pid pc alive w' /\ (w_fired_ w = true -> w_fired_ w' = true) /\ (w_fired_ w' = true -> w_fired_ w = true \/ alive = false).
Proof.
  intros Hl E (Hs & Hst & He & Hc & Hf & Hp). unfold watch_ok, polling in *.
  assert (Hpc : starting pc = false /\ watch_ended pc = false).
  { split; [destruct (starting pc); [|done]; rewrite Hs in E by done; by destruct l|].
    destruct (watch_ended pc); [|done]. specialize (He eq_refl). destruct l; cbn in E; try done; by destruct (w_poll w). }
  destruct Hpc as [Hpc Hpe]. rewrite Hpc, Hpe in *.
  destruct l as [|dl|a]; [done|..]; cbn in E; destruct (w_poll w) eqn:Ew; try discriminate E; apply (inj Some) in E; subst w'; cbn.
  - split_and!; try done; [|by auto]. intros _ Hws _ _. rewrite Hst, Hws. by destruct dl.
  - destruct (parent_gone a), alive; try discriminate Hl; cbn; destruct (w_fired_ w); split_and!; try done; auto.
Qed.

Lemma inv_watch_thread l quits main q q' : watch_thread_step l q = Some q' -> quit_inv parent_pid quits main q -> quit_inv parent_pid quits main q'.
Proof.
  intros E [Hfd Hh Hs Hs' Hw Hp Hpr Hl].
  assert (exists w', watch_exec l (q_watch q) = Some w' /\ q' = q <| q_watch := w' |> /\
    match l with WlPoll a => negb (parent_gone a && q_parent_alive q) = true | WlSlice _ => True | WlStop => False end)
    as (w' & Ew & -> & Hlab).
  { unfold watch_thread_step, truthful in E. destruct l; [done|..];
      [|destruct (negb _) eqn:En in E; [|done]]; destruct (watch_exec _ _) as [w'|]; try done;
      injection E as <-; by exists w'. }
  destruct (watch_thread_ok (q_pc q) (q_parent_alive q) l (q_watch q) w' Hlab Ew Hw) as (Hw' & Hmono & _).
  constructor; cbn; try done. intros Hleft. destruct (Hl Hleft) as [?|[?|?]]; auto.
Qed.

Lemma start_ok watched pid first alive :
  negb (parent_gone first && alive) = true -> watch_ok watched QmExec alive (Watchdog_Start pid first new_ParentWatchdog).
Proof. unfold watch_ok, Watchdog_Start. destruct (parent_gone first), alive; intros [=]; cbn; naive_solver. Qed.

(** [main] goes on: what each place asks of the next. *)
Ltac main_moves q Epc :=
  match goal with
  | Hi : quit_inv _ _ _ q |- _ =>
      destruct Hi as [Hfd Hh Hs Hs' (Hw1 & Hw2 & Hw3 & Hw4 & Hw5 & Hw6) Hp Hpr Hleft]; rewrite Epc in *;
      constructor; unfold watch_ok, signalled in *; cbn in *; try done
  end.

Lemma inv_start ok quits main q q' : start_step ok q = Some q' -> quit_inv parent_pid quits main q -> quit_inv parent_pid quits main q'.
Proof.
  unfold start_step. destruct (q_pc q) eqn:Epc; try done. intros [= <-] Hi. destruct ok; main_moves q Epc; naive_solver.
Qed.

Lemma inv_prctl ok quits main q q' :
  prctl_step parent_pid ok q = Some q' -> quit_inv parent_pid quits main q -> quit_inv parent_pid quits main q'.
Proof.
  unfold prctl_step. destruct (q_pc q) eqn:Epc; try done.
  destruct parent_pid eqn:Ep; intros [= <-] Hi; main_moves q Epc.
Qed.

Lemma inv_probe a quits main q q' :
  probe_step parent_pid a q = Some q' -> quit_inv parent_pid quits main q -> quit_inv parent_pid quits main q'.
Proof.
  unfold probe_step. destruct (q_pc q) eqn:Epc; try done. destruct parent_pid as [pid|]; [|done].
  destruct (truthful a q) eqn:Et; [|done]. intros [= <-] Hi.
  
  pose proof (start_ok (Some pid) pid a _ Et) as Hw. main_moves q Epc. by rewrite Hw1.
Qed.

Lemma inv_enter quits main q : q_pc q = QmExec -> quit_inv parent_pid quits main q -> quit_inv parent_pid quits main (q <| q_pc := QmLoop |>).
Proof. intros Epc Hi. main_moves q Epc. Qed.

Lemma inv_notify idle quits main q q' : notify_step idle q = Some q' -> quit_inv parent_pid quits main q -> quit_inv parent_pid quits main q'.
Proof.
  unfold notify_step. destruct (q_pc q) eqn:Epc; try done. destruct (q_pipe q) as [|b pipe] eqn:Eb; [done|].
  destruct idle; [|done]. intros [= <-] Hi. main_moves q Epc.
  - intros _ _. right; right. lia.
  - intros _. apply Hs'. right; left. by rewrite Eb.
Qed.

Lemma inv_leave idle quits main q q' : leave_step idle quits q = Some q' -> quit_inv parent_pid quits main q -> quit_inv parent_pid quits main q'.
Proof.
  unfold leave_step, quit_queued. destruct (q_pc q) eqn:Epc; try done. destruct (_ && _) eqn:Eq; [|done].
  apply andb_prop in Eq as [_ Eq%Nat.ltb_lt]. intros [= <-] Hi. main_moves q Epc. intros _. rewrite Hw4 in Eq.
  destruct (w_fired_ (q_watch q)); [auto|]. destruct quits as [|n]; [|right; right; lia].
  left. apply Hs'. right; right. lia.
Qed.

Lemma inv_tear quits main q q' : quit_tear_step main q = Some q' -> quit_inv parent_pid quits main q -> quit_inv parent_pid quits main q'.
Proof.
  unfold quit_tear_step. destruct (q_pc q) eqn:Epc; try done.
  - destruct (closed <? 2)%nat; [|done]. intros [= <-] Hi. main_moves q Epc.
  - intros [= <-] Hi. main_moves q Epc.
  - destruct (w_poll (q_watch q)) eqn:Ew; try done; intros [= <-] Hi; main_moves q Epc; unfold polling; rewrite ?Ew, ?Hp; naive_solver.
  - destruct main; try done. intros [= <-] Hi. main_moves q Epc. by left.
  - destruct (closed <? 2)%nat; [|done]. intros [= <-] Hi. main_moves q Epc.
Qed.

Lemma inv_quit l idle quits main q q' :
  quit_exec parent_pid idle quits main l q = Some q' -> quit_inv parent_pid quits main q -> quit_inv parent_pid quits main q'.
Proof.
  intros E. destruct l; cbn [quit_exec] in E.
  - destruct (bool_decide _); [|done]. apply (inj Some) in E. subst q'. apply inv_raise.
  - by eapply inv_deliver.
  - by eapply inv_handler.
  - apply (inj Some) in E. subst q'. apply inv_forker.
  - destruct (q_parent_alive q); [|done]. apply (inj Some) in E. subst q'. intros Hi. apply inv_dead.
    destruct is_forker; [by apply inv_forker|done].
  - by eapply inv_watch_thread.
  - destruct (main_free q); [|done]. by eapply inv_start.
  - destruct (main_free q); [|done]. by eapply inv_prctl.
  - destruct (main_free q); [|done]. by eapply inv_probe.
  - destruct (main_free q); [|done]. destruct (q_pc q) eqn:Epc; try done. apply (inj Some) in E. subst q'. by apply inv_enter.
  - destruct (main_free q); [|done]. by eapply inv_notify.
  - destruct (main_free q); [|done]. by eapply inv_leave.
  - destruct (main_free q); [|done]. by eapply inv_tear.
Qed.
End QuitInvariant.

(** ** The whole system *)

Definition main_label_moves {L} (l : HelperLabel L) (m m' : HelperMain) : Prop :=
  match l with
  | YStop => m = HmRunning /\ m' = HmStopping
  | YShutdown => m = HmStopping /\ m' = HmJoining
  | YDetach => m = HmJoining /\ m' = HmDetached
  | YDestruct => m = HmDetached /\ m' = HmDestroyed
  | _ => m' = m
  end.

Section SysInvariant.
Context {S L : Type} `{PasteBackend S L} (parent_pid : option Z).
Implicit Types h : LinuxHelper S.

Lemma lock_main origin payload h h' :
  lock_and_write origin payload h = Some h' -> h_quits h' = h_quits h /\ h_main h' = h_main h.
Proof.
  intros (_ & [[ok ->]|(_ & _ & ->)])%lock_and_write_shape; [|done].
  by destruct (writer_returns_shape origin ok h) as (pc & -> & _).
Qed.

Lemma worker_main h h' : worker_step h = Some h' -> (h_quits h <= h_quits h')%nat /\ h_main h' = h_main h.
Proof.
  intros E. unfold worker_step in E.
  destruct (h_worker h); try discriminate E; try (apply (inj Some) in E; by subst h').
  - destruct greet; [apply (inj Some) in E; by subst h'|]. by apply lock_main in E as [-> ->].
  - by apply lock_main in E as [-> ->].
  - destruct (h_mutex h); [|done]. apply (inj Some) in E. by subst h'.
  - apply (inj Some) in E. subst h'. split; [|done]. cbn. destruct fire_disconnect; lia.
Qed.

Lemma helper_main l h h' : helper_exec l h = Some h' -> (h_quits h <= h_quits h')%nat /\ main_label_moves l (h_main h) (h_main h').
Proof.
  intros E. destruct l; cbn [helper_exec main_label_moves] in *; [by apply worker_main|..].
  - repeat case_match; try discriminate E; apply (inj Some) in E; by subst h'.
  - repeat case_match; try discriminate E; apply (inj Some) in E; by subst h'.
  - repeat case_match; try discriminate E; apply (inj Some) in E; by subst h'.
  - destruct (h_worker h); try discriminate E. destruct (LinuxHandle frame clock (h_disp h)) as [[reply d] sd].
    apply (inj Some) in E. subst h'. split; [|done]. cbn. destruct sd; lia.
  - by apply backend_step_shape in E as (s & s' & calls & bad & _ & _ & _ & _ & _ & ->).
  - destruct (h_calls h !! i) as [[[b c] frame]|]; [|done]. by apply lock_main in E as [-> ->].
  - unfold write_step in E. destruct (h_mutex h) as [|o p hd bd]; [done|].
    destruct (write_on _ _ _ _ _) as [[[r wire] hd'] bd']; destruct r; apply (inj Some) in E; subst h'; try done;
      match goal with |- context [writer_returns o ?ok ?h0] => by destruct (writer_returns_shape o ok h0) as (pc & -> & _) end.
  - destruct (h_main h); try discriminate E. destruct (_ || _); [done|]. apply (inj Some) in E. by subst h'.
  - destruct (h_main h), (h_mutex h); try discriminate E. apply (inj Some) in E. by subst h'.
  - destruct (h_main h), (h_worker h); try discriminate E. apply (inj Some) in E. by subst h'.
  - destruct (h_main h); try discriminate E. apply (inj Some) in E. by subst h'.
Qed.

Definition sys_inv (s : Quit * LinuxHelper S) : Prop := quit_inv parent_pid (h_quits s.2) (h_main s.2) s.1.

Lemma sys_step l s s' : sys_exec parent_pid l s = Some s' -> sys_inv s -> sys_inv s'.
Proof.
  destruct s as [q h]. unfold sys_inv. destruct l as [l|l]; cbn.
  - destruct (quit_exec _ _ _ _ _ _) as [q'|] eqn:E; [|done]. intros [= <-]. by eapply inv_quit.
  - destruct (helper_enabled l q) eqn:En; [|done]. destruct (helper_exec l h) as [h'|] eqn:E; [|done]. intros [= <-] Hi.
    cbn in *. apply helper_main in E as [Hq Hm]. destruct Hi as [Hfd Hh Hs Hs' Hw Hp Hpr Hl]. constructor; try done.
    + unfold helper_enabled in En. destruct (q_pc q); try done; destruct l; cbn in *; try congruence;
        try (by rewrite ?andb_false_r in En); try (destruct Hm; subst; naive_solver congruence).
    + intros Hleft. destruct (Hl Hleft) as [?|[?|?]]; auto. right; right. lia.
Qed.

Lemma sys_reachable s0 inbound ls s : run_sys parent_pid ls (init_sys s0 inbound) = Some s -> sys_inv s.
Proof.
  intros E. apply (run_exec_invariant (sys_exec parent_pid) sys_inv (fun _ => True) (fun l a b _ => sys_step l a b) ls (init_sys s0 inbound) s);
    [by apply Forall_true|exact E|apply inv_init].
Qed.

(** The helper's part of a run is a run of [LinuxHelper]. *)
Definition helper_labels (ls : list (SysLabel L)) : list (HelperLabel L) :=
  omap (fun l => match l with SysHelper l => Some l | SysQuit _ => None end) ls.

Lemma sys_projects ls q h q' h' :
  run_sys parent_pid ls (q, h) = Some (q', h') -> run_helper (helper_labels ls) h = Some h'.
Proof.
  revert q h. induction ls as [|l ls IH]; intros q h E; cbn in E; [by simplify_eq|]. destruct l as [l|l]; cbn in E.
  - destruct (quit_exec _ _ _ _ _ _) as [q1|]; [|done]. by apply IH in E.
  - destruct (helper_enabled l q); [|done]. destruct (helper_exec l h) as [h1|] eqn:E1; [|done].
    unfold helper_labels. cbn. rewrite E1. by apply IH in E.
Qed.
End SysInvariant.

(** ** Progress *)

(** The steps that lead to the end of the loop: the kernel's deliveries and the
    handlers, [main]'s own, and the poll thread's once its two seconds are over
    and when [kill] says that the parent is gone. *)
Definition toward_quit (l : QuitLabel) : bool :=
  match l with
  | QDeliver _ _ | QHandler _ | QPrctl _ | QProbeParent _ | QEnter | QNotify | QQuit => true
  | QWatchThread (WlSlice deadline_passed) => deadline_passed
  | QWatchThread (WlPoll a) => parent_gone a
  | _ => false
  end.

(** [socket_server.Start] has succeeded and the loop has not ended. *)
Definition in_service (pc : QuitPc) : bool := match pc with QmWatch | QmProbe | QmExec | QmLoop => true | _ => false end.

(** Something wants the helper to quit: a signal, the watchdog or what it looks
    for, or the worker - a SHUTDOWN or the end of the connection. *)
Definition asked (parent_pid : option Z) (quits : nat) (q : Quit) : Prop :=
  q_pending q <> [] \/ q_caught q <> [] \/ (is_Some parent_pid /\ q_parent_alive q = false) \/
  w_fired_ (q_watch q) = true \/ (0 < quits)%nat.

Definition pc_todo (pc : QuitPc) : nat := match pc with QmWatch => 6 | QmProbe => 5 | QmExec => 2 | QmLoop => 1 | _ => 0 end.
Definition poll_todo (w : ParentWatchdog) : nat := match w_poll w with PollSlice => 2 | PollKill => 1 | _ => 0 end.
Definition handler_todo (a : SigHandler) : nat := match a.2 with HpTest => 4 | HpLoad => 3 | HpWrite _ => 2 end.
Definition quit_todo (q : Quit) : nat :=
  pc_todo (q_pc q) + poll_todo (q_watch q) + 5 * length (q_pending q) + sum_list_with handler_todo (q_handlers q) +
  length (q_pipe q).

Section Progress.
Context (parent_pid : option Z).
Implicit Types q : Quit.

Lemma handler_todo_step i q q' : handler_step i q = Some q' -> (quit_todo q' < quit_todo q)%nat.
Proof.
  unfold handler_step. destruct (q_handlers q !! i) as [[[b sig] pc]|] eqn:Ei; [|done]. intros E.
  pose proof (sum_delete handler_todo _ _ _ Ei) as Hd.
  destruct pc as [| |fd]; cbn in E, Hd.
  - pose proof (sum_insert handler_todo _ _ _ (b, sig, HpLoad) Ei) as Hin. cbn in Hin.
    destruct (g_sig_write_fd q >=? 0); injection E as <-; unfold quit_todo; cbn; lia.
  - pose proof (sum_insert handler_todo _ _ _ (b, sig, HpWrite (g_sig_write_fd q)) Ei) as Hin. cbn in Hin.
    injection E as <-. unfold quit_todo. cbn. lia.
  - repeat case_match; injection E as <-; unfold quit_todo; cbn; rewrite ?length_app; cbn; lia.
Qed.

Lemma watch_todo_step l w w' :
  match l with WlSlice d => d | WlPoll a => parent_gone a | WlStop => false end = true ->
  watch_exec l w = Some w' -> (poll_todo w' < poll_todo w)%nat.
Proof.
  intros Hl E. unfold poll_todo. destruct l; [done|..]; cbn in *; destruct (w_poll w) eqn:Ew; try done; rewrite Hl in E;
    apply (inj Some) in E; subst w'; cbn; [destruct (w_stop_ w)|]; cbn; lia.
Qed.

(** Every such step makes progress. *)
Lemma quit_todo_step l idle quits main q q' :
  toward_quit l = true -> quit_exec parent_pid idle quits main l q = Some q' -> (quit_todo q' < quit_todo q)%nat.
Proof.
  intros Hl E. destruct l; try done; cbn [quit_exec toward_quit] in *.
  - unfold deliver in E. destruct (q_pending q !! i) as [sig|] eqn:Ei; [|done]. apply (inj Some) in E. subst q'.
    unfold quit_todo. cbn. rewrite length_delete by eauto. pose proof (lookup_lt_Some _ _ _ Ei). lia.
  - by eapply handler_todo_step.
  - unfold watch_thread_step in E. assert (exists w', watch_exec l (q_watch q) = Some w' /\ q' = q <| q_watch := w' |>) as (w' & Ew & ->).
    { destruct l; [done|..]; [|destruct (truthful a q) in E; [|done]]; destruct (watch_exec _ _) as [w'|]; try done; injection E as <-; eauto. }
    assert (poll_todo w' < poll_todo (q_watch q))%nat by (apply (watch_todo_step l); [by destruct l|done]).
    unfold quit_todo. cbn. lia.
  - destruct (main_free q); [|done]. unfold prctl_step in E.
    destruct (q_pc q) eqn:Epc; try discriminate E. destruct parent_pid; injection E as <-; unfold quit_todo; cbn; rewrite Epc; cbn; lia.
  - destruct (main_free q); [|done]. unfold probe_step in E.
    destruct (q_pc q) eqn:Epc; try discriminate E. destruct parent_pid; [|done]. destruct (truthful a q); [|done].
    injection E as <-. unfold quit_todo, poll_todo, Watchdog_Start. cbn. rewrite Epc. destruct (parent_gone a); cbn; [destruct (w_poll (q_watch q))|]; lia.
  - destruct (main_free q); [|done]. destruct (q_pc q) eqn:Epc; try discriminate E. injection E as <-.
    unfold quit_todo. cbn. rewrite Epc. cbn. lia.
  - destruct (main_free q); [|done]. unfold notify_step in E. destruct (q_pc q) eqn:Epc; try discriminate E.
    destruct (q_pipe q) eqn:Eb; [done|]. destruct idle; [|done]. injection E as <-.  unfold quit_todo. cbn. rewrite Eb, Epc. cbn. lia.
  - destruct (main_free q); [|done]. unfold leave_step in E. destruct (q_pc q) eqn:Epc; try discriminate E.
    destruct (_ && _); [|done]. injection E as <-. unfold quit_todo. cbn. rewrite Epc. cbn. lia.
Qed.

Lemma main_free_nil q : q_handlers q = [] -> main_free q = true.
Proof. unfold main_free. by intros ->. Qed.

Lemma probe_answer q : exists a, truthful a q = true /\ (q_parent_alive q = false -> parent_gone a = true).
Proof. unfold truthful. destruct (q_parent_alive q) eqn:E; [exists KillOk|exists (KillErr ESRCH)]; by rewrite ?E. Qed.

(** While something asks [main] to quit, and it is not inside a call, there is
    one to make. *)
Lemma quit_step_exists quits main q :
  quit_inv parent_pid quits main q -> in_service (q_pc q) = true -> asked parent_pid quits q ->
  exists l, toward_quit l = true /\ is_Some (quit_exec parent_pid true quits main l q).
Proof.
  intros Hi Hpc Ha.
  destruct (q_handlers q) as [|[[b sig] pc] hs] eqn:Eh.
  2: { exists (QHandler 0). split; [done|]. cbn. unfold handler_step. rewrite Eh. cbn [lookup list_lookup]. destruct (SignalHandler (b, sig, pc) q). by eexists. }
  destruct (q_pending q) as [|sig ps] eqn:Ep.
  2: { exists (QDeliver 0 true). split; [done|]. cbn. unfold deliver. rewrite Ep. cbn. eauto. }
  pose proof (main_free_nil _ Eh) as Hfree.
  destruct (probe_answer q) as (a & Hat & Had).
  destruct (q_pc q) eqn:Epc; try discriminate Hpc.
  - exists (QPrctl true). split; [done|]. cbn. unfold prctl_step. rewrite Hfree, Epc. destruct parent_pid; eauto.
  - exists (QProbeParent a). split; [done|]. cbn. unfold probe_step. rewrite Hfree, Epc, Hat.
    destruct (qi_probe _ _ _ _ Hi Epc) as [pid ->]. eauto.
  - exists QEnter. split; [done|]. cbn. rewrite Hfree, Epc. eauto.
  - destruct (quit_queued quits q) eqn:Eq.
    { exists QQuit. split; [done|]. cbn. unfold leave_step. rewrite Hfree, Epc, Eq. eauto. }
    destruct (q_pipe q) as [|c pipe] eqn:Eb.
    2: { exists QNotify. split; [done|]. cbn. unfold notify_step. rewrite Hfree, Epc, Eb. eauto. }
    apply Nat.ltb_ge in Eq. destruct (qi_watch _ _ _ _ Hi) as (_ & _ & _ & Hc & _ & Hp). rewrite Epc in Hp.
    assert (Hnf : w_fired_ (q_watch q) = false) by (destruct (w_fired_ (q_watch q)); [lia|done]).
    destruct Ha as [?|[Hcaught|[[Hpid Hd]|[?|?]]]]; [done| | |congruence|lia].
    + exfalso. pose proof (qi_caught _ _ _ _ Hi) as Hs. rewrite Epc in Hs.
      destruct (Hs eq_refl Hcaught) as [?|[?|?]]; [done|done|lia].
    + specialize (Hp eq_refl eq_refl Hpid Hnf). unfold polling in Hp. destruct (w_poll (q_watch q)) eqn:Ew; try done.
      * exists (QWatchThread (WlSlice true)). split; [done|]. cbn. rewrite Ew. eauto.
      * exists (QWatchThread (WlPoll a)). split; [by apply Had|]. cbn. rewrite Hat, Ew. eauto.
Qed.
End Progress.

Section Quitting.
Context {S L : Type} `{PasteBackend S L} (parent_pid : option Z).
Implicit Types h : LinuxHelper S.

Definition sys_toward (l : SysLabel L) : bool := match l with SysQuit l => toward_quit l | SysHelper _ => false end.

(** What these steps keep. *)
Lemma toward_keeps idle quits main l q q' :
  toward_quit l = true -> quit_exec parent_pid idle quits main l q = Some q' ->
  (in_service (q_pc q) = true \/ q_pc q = QmLeft -> in_service (q_pc q') = true \/ q_pc q' = QmLeft) /\
  (asked parent_pid quits q -> asked parent_pid quits q').
Proof.
  intros Hl E. destruct l; try done; cbn [quit_exec toward_quit] in *; try (destruct (main_free q); [|done]).
  - unfold deliver in E. destruct (q_pending q !! i); [|done]. apply (inj Some) in E. subst q'. split; [done|].
    intros _. right; left. done.
  - unfold handler_step in E. destruct (q_handlers q !! i) as [[[b sig] pc]|]; [|done].
    destruct pc as [| |fd]; cbn in E; repeat case_match; injection E as <-; done.
  - unfold watch_thread_step in E.
    assert (exists w', watch_exec l (q_watch q) = Some w' /\ q' = q <| q_watch := w' |>) as (w' & Ew & ->).
    { destruct l; [done|..]; [|destruct (truthful a q) in E; [|done]]; destruct (watch_exec _ _) as [w'|]; try done; injection E as <-; eauto. }
    split; [done|]. unfold asked. cbn. intros [?|[?|[?|[Hf|?]]]]; auto. do 3 right; left.
    destruct l; [done|..]; cbn in Ew; destruct (w_poll (q_watch q)); try done; apply (inj Some) in Ew; subst w'; cbn;
      [done|by destruct (parent_gone a)].
  - unfold prctl_step in E. destruct (q_pc q) eqn:Epc; try discriminate E. destruct parent_pid; injection E as <-; split; auto.
  - unfold probe_step in E. destruct (q_pc q) eqn:Epc; try discriminate E. destruct parent_pid; [|done].
    destruct (truthful a q); [|done]. injection E as <-. split; [auto|]. unfold asked, Watchdog_Start. cbn.
    destruct (parent_gone a); cbn; tauto.
  - destruct (q_pc q) eqn:Epc; try discriminate E. injection E as <-. split; auto.
  - unfold notify_step in E. destruct (q_pc q) eqn:Epc; try discriminate E. destruct (q_pipe q); [done|].
    destruct idle; [|done]. injection E as <-. split; auto.
  - unfold leave_step in E. destruct (q_pc q) eqn:Epc; try discriminate E. destruct (_ && _); [|done].
    injection E as <-. split; auto.
Qed.

Definition toward_end (s : Quit * LinuxHelper S) : Prop :=
  sys_inv parent_pid s /\ main_idle s.2 = true /\ asked parent_pid (h_quits s.2) s.1 /\
  (in_service (q_pc s.1) = true \/ q_pc s.1 = QmLeft).

Definition quit_rest : ComesToRest (sys_exec parent_pid).
Proof.
  refine {| rest_due := fun l _ => sys_toward l = true; rest_todo := fun s => quit_todo s.1; rest_kept := toward_end;
            rest_at := fun s => q_pc s.1 = QmLeft |}.
  - intros [l|l] [q h] s' Hl E (Hi & Hidle & Ha & Hpc); [|done]. pose proof (sys_step _ _ _ _ E Hi) as Hi'.
    cbn [sys_toward sys_exec fst snd] in *. destruct (quit_exec _ _ _ _ _ _) as [q'|] eqn:Eq; [|done]. apply (inj Some) in E. subst s'.
    destruct (toward_keeps _ _ _ _ _ _ Hl Eq). unfold toward_end. cbn. split_and!; auto. by eapply quit_todo_step.
  - intros [q h] (Hi & Hidle & Ha & Hpc) Hn. cbn in *. destruct Hpc as [Hpc|]; [|done].
    destruct (quit_step_exists _ _ _ _ Hi Hpc Ha) as (l & Hl & [q2 E]). exists (SysQuit l). split; [done|].
    cbn [sys_exec fst snd] in *. rewrite Hidle, E. by eexists.
Defined.
End Quitting.
#[local] Existing Instance quit_rest.

(** ** Writes to the self-pipe *)

(** Signals are handled on the main thread, and [Start] succeeds. *)
Definition main_delivery {L} (l : SysLabel L) : Prop :=
  match l with SysQuit (QDeliver _ on_main) => on_main = true | SysQuit (QStart ok) => ok = true | _ => True end.

Record write_inv (q : Quit) : Prop := {
  wi_main : Forall (fun a => on_main_thread a = true) (q_handlers q);
  wi_started : forall closed, q_pc q <> QmFailed closed;
  wi_fd : match q_pc q with QmClosing _ => g_sig_write_fd q = -1 /\ Forall (handler_fd (-1)) (q_handlers q) | _ => True end;
  wi_stray : q_stray q = O
}.

Lemma write_same q q' :
  q_handlers q' = q_handlers q -> q_pc q' = q_pc q -> g_sig_write_fd q' = g_sig_write_fd q -> q_stray q' = q_stray q ->
  write_inv q -> write_inv q'.
Proof. intros E1 E2 E3 E4 []. constructor; by rewrite ?E1, ?E2, ?E3, ?E4. Qed.

(** [main] goes on to a place before its last [close]s. *)
Lemma write_pc q q' :
  q_handlers q' = q_handlers q -> q_stray q' = q_stray q -> match q_pc q' with QmFailed _ | QmClosing _ => False | _ => True end ->
  write_inv q -> write_inv q'.
Proof. intros E1 E2 E3 []. constructor; rewrite ?E1, ?E2; try done; by destruct (q_pc q'). Qed.

Lemma write_handler i q q' : handler_step i q = Some q' -> write_inv q -> write_inv q'.
Proof.
  unfold handler_step. destruct (q_handlers q !! i) as [[[b sig] pc]|] eqn:Ei; [|done]. intros E [Hm Hst Hf Hs].
  pose proof (Forall_lookup_1 _ _ _ _ Hm Ei) as Hb. cbn in Hb. subst b.
  assert (Hdel : forall (q1 : Quit), q_handlers q1 = delete i (q_handlers q) -> q_pc q1 = q_pc q ->
    g_sig_write_fd q1 = g_sig_write_fd q -> q_stray q1 = O -> write_inv q1).
  { intros q1 E1 E2 E3 E4. constructor; rewrite ?E1, ?E2, ?E3; [by apply Forall_delete|done| |done].
    destruct (q_pc q); try done. destruct Hf. split; [done|by apply Forall_delete]. }
  destruct pc as [| |fd]; cbn in E.
  - destruct (g_sig_write_fd q >=? 0); injection E as <-; [|by apply Hdel]. constructor; cbn; [by apply Forall_insert|done| |done].
    destruct (q_pc q); try done. destruct Hf. split; [done|by apply Forall_insert].
  - injection E as <-. constructor; cbn; [by apply Forall_insert|done| |done].
    destruct (q_pc q); try done. destruct Hf. split; [done|by apply Forall_insert].
  - assert (Hopen : (fd <? 0) = false -> self_pipe_open (q_pc q) = true).
    { intros Hfd. destruct (q_pc q) eqn:Epc; try done; [by destruct (Hst closed)|]. destruct Hf as [_ Hf].
      pose proof (Forall_lookup_1 _ _ _ _ Hf Ei) as Hw. cbn in Hw. by subst fd. }
    destruct (fd <? 0); [|rewrite Hopen in E by done; cbn in E; destruct (Zlen (q_pipe q) >=? pipe_capacity)];
      injection E as <-; by apply Hdel.
Qed.

Lemma write_quit {L} parent_pid idle quits main l q q' :
  main_delivery (SysQuit (L := L) l) -> quit_exec parent_pid idle quits main l q = Some q' -> write_inv q -> write_inv q'.
Proof.
  intros Hl E Hi. destruct l; cbn [quit_exec main_delivery] in *; try (destruct (main_free q) eqn:Efree; [|done]).
  - destruct (bool_decide _); [|done]. apply (inj Some) in E. subst q'. by apply (write_same q).
  - unfold deliver in E. destruct (q_pending q !! i); [|done]. apply (inj Some) in E. subst q' on_main. destruct Hi.
    constructor; cbn; try done; [by constructor|]. destruct (q_pc q); try done. split; [naive_solver|]. constructor; naive_solver.
  - by eapply write_handler.
  - apply (inj Some) in E. subst q'. unfold forker_ends. destruct (q_pdeathsig q); [by apply (write_same q)|done].
  - destruct (q_parent_alive q); [|done]. apply (inj Some) in E. subst q'. unfold parent_dies, forker_ends.
    destruct is_forker; [destruct (q_pdeathsig q)|]; by apply (write_same q).
  - unfold watch_thread_step in E. destruct l; [done|..]; [|destruct (truthful a q) in E; [|done]];
      destruct (watch_exec _ _) as [w'|]; try done; injection E as <-; by apply (write_same q).
  - unfold start_step in E. destruct (q_pc q); try done. apply (inj Some) in E. subst ok q'. by apply (write_pc q).
  - unfold prctl_step in E. destruct (q_pc q); try done. destruct parent_pid; apply (inj Some) in E; subst q'; by apply (write_pc q).
  - unfold probe_step in E. destruct (q_pc q); try done. destruct parent_pid; [|done]. destruct (truthful a q); [|done].
    apply (inj Some) in E; subst q'; by apply (write_pc q).
  - destruct (q_pc q); try done. apply (inj Some) in E; subst q'; by apply (write_pc q).
  - unfold notify_step in E. destruct (q_pc q); try done. destruct (q_pipe q); [done|]. destruct idle; [|done].
    apply (inj Some) in E; subst q'; by apply (write_pc q).
  - unfold leave_step in E. destruct (q_pc q); try done. destruct (_ && _); [|done]. apply (inj Some) in E; subst q'; by apply (write_pc q).
  - unfold quit_tear_step in E. destruct (q_pc q) eqn:Epc; try done.
    + by destruct (wi_started _ Hi closed).
    + apply (inj Some) in E; subst q'; by apply (write_pc q).
    + destruct (w_poll (q_watch q)); try done; apply (inj Some) in E; subst q'; by apply (write_pc q).
    + destruct main; try done. apply (inj Some) in E. subst q'. destruct Hi as [Hm Hst Hf Hs]. constructor; cbn; try done.
      split; [done|]. unfold main_free in Efree. apply negb_true_iff in Efree.
      destruct (q_handlers q) as [|a hs]; [done|]. apply Forall_cons in Hm as [Ha _]. cbn in Efree. by rewrite Ha in Efree.
    + destruct (closed <? 2)%nat; [|done]. apply (inj Some) in E. subst q'. destruct Hi as [Hm Hst Hf Hs].
      rewrite Epc in Hf. by constructor.
Qed.

Lemma write_reachable {S L} `{PasteBackend S L} parent_pid (s : S) inbound ls q h :
  Forall main_delivery ls -> run_sys parent_pid ls (init_sys s inbound) = Some (q, h) -> write_inv q.
Proof.
  intros Hl E. change (write_inv (q, h).1).
  apply (run_exec_invariant (sys_exec parent_pid) (fun s => write_inv s.1) main_delivery) with (ls := ls) (s := init_sys s inbound);
    [|done|exact E|by constructor].
  intros l [q0 h0] s' Hd E1 Hi. destruct l as [l|l]; cbn [sys_exec] in E1.
  - destruct (quit_exec _ _ _ _ _ _) as [q1|] eqn:Eq; [|done]. apply (inj Some) in E1. subst s'. by eapply (write_quit (L := L)).
  - destruct (helper_enabled l q0); [|done]. destruct (helper_exec l h0); [|done]. apply (inj Some) in E1. by subst s'.
Qed.

(** ** Properties *)

(** A request to quit is served.  Over any backend, from every state the
    helper can be in between the start of its socket server and the end of its
    event loop, if a signal has been raised or caught (even before the server
    had started), or the parent given on the command line is gone (be it before
    the watchdog's first probe, between [prctl] and the probe, or later), or
    the watchdog has fired, or the worker has seen SHUTDOWN or the end of the
    connection, and the main thread is not inside a call, then the steps
    leading to the end of the loop are at most [quit_todo] many in any order,
    and when none of them is left the loop has ended. *)
Theorem helper_quits_when_asked {S L} `{PasteBackend S L} parent_pid (s : S) inbound ls q h ls' q' h' :
  run_sys parent_pid ls (init_sys s inbound) = Some (q, h) ->
  in_service (q_pc q) = true -> main_idle h = true -> asked parent_pid (h_quits h) q ->
  forallb sys_toward ls' = true -> run_sys parent_pid ls' (q, h) = Some (q', h') ->
  (length ls' <= quit_todo q)%nat /\
  ((forall l, sys_toward l = true -> sys_exec parent_pid l (q', h') = None) -> q_pc q' = QmLeft).
Proof.
  intros E Hpc Hidle Ha Hl E'. pose proof (sys_reachable _ _ _ _ _ E) as Hi.
  destruct (comes_to_rest (sys_exec parent_pid) ls' (q, h) (q', h')) as [Hn Hrest];
    [split_and!; auto|by apply (due_all_static _ sys_toward)|done|]. by split.
Qed.

Lemma stray_cause {L} (ls : list (SysLabel L)) : ~ Forall (main_delivery (L := L)) ls ->
  exists l, l ∈ ls /\ ((exists i, l = SysQuit (QDeliver i false)) \/ l = SysQuit (QStart false)).
Proof.
  intros Hn. assert (Hd : forall l, Decision (main_delivery (L := L) l)).
  { intros [l|l]; [destruct l|]; cbn; apply _. }
  apply not_Forall_Exists in Hn; [|done]. apply Exists_exists in Hn as (l & Hin & Hl). exists l. split; [done|].
  destruct l as [l|l]; [|by destruct Hl]. destruct l; try (by destruct Hl); cbn in Hl.
  - left. exists i. by destruct on_main.
  - right. by destruct ok.
Qed.

(** C34: The helper quits for a reason, and when its [main] is over nobody calls
    into it.  In every interleaving: the event loop ends only if a signal was
    caught, the watchdog has fired - the parent being gone - or the worker has
    asked; from [socket_server.Stop] on the watchdog's thread has ended, and
    when the self-pipe is closed the socket worker too, so that no
    [QuitAppSafely] meets a destroyed application, and [g_sig_write_fd] has
    been reset; a signal handler writes to the closed pipe only if a signal
    was handled on another thread than [main]'s or [Start] had failed, the one
    path that closes the pipe without resetting it; and the helper's own part
    of the run is one [LinuxHelper] has. *)
Theorem helper_quits_for_cause {S L} `{PasteBackendLaws S L} parent_pid (s : S) inbound ls q h :
  backend_alive s = true -> run_sys parent_pid ls (init_sys s inbound) = Some (q, h) ->
  (has_left (q_pc q) = true ->
     q_caught q <> [] \/ (w_fired_ (q_watch q) = true /\ q_parent_alive q = false) \/ (0 < h_quits h)%nat) /\
  (watch_ended (q_pc q) = true -> polling (q_watch q) = false) /\
  (forall closed, q_pc q = QmClosing closed -> h_worker h = PcStopped /\ g_sig_write_fd q = -1) /\
  (q_stray q <> O -> exists l, l ∈ ls /\ ((exists i, l = SysQuit (QDeliver i false)) \/ l = SysQuit (QStart false))) /\
  run_helper (helper_labels ls) (init_helper s inbound) = Some h.
Proof.
  intros Halive E. pose proof (sys_reachable _ _ _ _ _ E) as Hi. pose proof (sys_projects _ _ _ _ _ _ E) as Eh.
  destruct (qi_watch _ _ _ _ Hi) as (_ & _ & He & _ & Hf & _). split_and!; [|done| | |done].
  - intros Hleft. destruct (qi_left _ _ _ _ Hi Hleft) as [?|[?|?]]; auto.
  - intros closed Epc. pose proof (qi_fd _ _ _ _ Hi) as Hfd. pose proof (qi_helper _ _ _ _ Hi) as Hp. cbn in Hfd, Hp.
    rewrite Epc in Hfd, Hp. split; [|done]. pose proof (li_main _ (life_reachable s inbound _ h Halive Eh)) as Hm.
    destruct Hp as [Em|Em]; rewrite Em in Hm; by destruct Hm.
  - intros Hs. apply stray_cause. intros Hl. by destruct Hs, (wi_stray _ (write_reachable _ _ _ _ _ _ Hl E)).
Qed.

(** *** Runs *)

#[local] Existing Instance no_codec.

Definition sys_quit : list QuitLabel -> list (SysLabel ExtLabel) := map SysQuit.

(** The parent dies while [watchdog.Start] is between [prctl] and its probe,
    whose [kill] still finds the zombie. *)
Definition orphaned_run : list (SysLabel ExtLabel) := sys_quit [QStart true; QPrctl true; QParentDies true].
Definition orphan_quits : list (SysLabel ExtLabel) :=
  sys_quit [QDeliver 0 true; QHandler 0; QHandler 0; QHandler 0; QProbeParent KillOk; QEnter; QNotify; QQuit].

Lemma helper_quits_when_asked_witness :
  exists q h q' h', run_sys (Some 77) orphaned_run (init_sys init_ExtManager []) = Some (q, h) /\
    run_sys (Some 77) orphan_quits (q, h) = Some (q', h') /\ q_pc q' = QmLeft /\ (length orphan_quits <= quit_todo q)%nat.
Proof.
  do 4 eexists. split; [vm_compute; reflexivity|]. split; [vm_compute; reflexivity|]. split; [reflexivity|].
  eapply (helper_quits_when_asked (Some 77) init_ExtManager [] orphaned_run).
  - vm_compute. reflexivity.
  - reflexivity.
  - vm_compute. reflexivity.
  - left. vm_compute. discriminate.
  - reflexivity.
  - vm_compute. reflexivity.
Defined.

(** The thread of the parent that forked the helper ends; the parent lives on,
    and the helper quits all the same. *)
Definition forker_run : list (SysLabel ExtLabel) :=
  sys_quit [QStart true; QPrctl true; QProbeParent KillOk; QEnter; QForkerEnds; QDeliver 0 true; QHandler 0; QHandler 0;
            QHandler 0; QNotify; QQuit].
Lemma forker_end_quits :
  option_map (fun s => (q_pc s.1, q_parent_alive s.1, w_fired_ (q_watch s.1)))
    (run_sys (Some 77) forker_run (init_sys init_ExtManager [])) = Some (QmLeft, true, false).
Proof. vm_compute. reflexivity. Qed.

(** When [Start] fails the pipe is closed but [g_sig_write_fd] is not reset: a
    signal during the destructors writes to a closed descriptor. *)
Lemma failed_start_strays :
  option_map (fun s => (q_pc s.1, q_stray s.1))
    (run_sys None (sys_quit [QStart false; QTear; QTear; QRaise SIGINT; QDeliver 0 true; QHandler 0; QHandler 0; QHandler 0])
       (init_sys init_ExtManager [])) = Some (QmFailed 2, 1%nat).
Proof. vm_compute. reflexivity. Qed.

(** A whole life: SIGTERM before the server has started, the loop entered and
    left, the watchdog joined, the server stopped, the pipe closed. *)
Definition life_run : list (SysLabel ExtLabel) :=
  sys_quit [QRaise SIGTERM; QDeliver 0 true; QHandler 0; QHandler 0; QHandler 0; QStart true; QPrctl true;
            QProbeParent KillOk; QEnter; QNotify; QQuit; QTear; QWatchThread (WlSlice false); QTear] ++
  [SysHelper YStep; SysHelper YStop; SysHelper YShutdown; SysHelper YStep; SysHelper YStep; SysHelper YDetach] ++
  sys_quit [QTear; QTear; QTear] ++ [SysHelper YDestruct].

Lemma helper_quits_for_cause_witness :
  exists q h, run_sys (Some 77) life_run (init_sys init_ExtManager []) = Some (q, h) /\
    q_pc q = QmClosing 2 /\ h_main h = HmDestroyed /\ h_worker h = PcStopped /\ g_sig_write_fd q = -1.
Proof.
  do 2 eexists. split; [vm_compute; reflexivity|]. split; [reflexivity|]. split; [reflexivity|].
  refine (proj1 (proj2 (proj2 (helper_quits_for_cause (Some 77) init_ExtManager [] life_run _ _ _ _))) 2%nat _);
    [reflexivity|vm_compute; reflexivity|reflexivity].
Defined.
