(* ===== verification/LinuxReturn.v ===== *)
(** * LinuxReturn: [main] of the Linux helper returns

    Liveness of the end of [linux/src/main.cpp] over the system of [LinuxQuit]:
    from the request to quit through the event loop, [watchdog.Stop],
    [SocketServer::Stop] with the join of its worker, [dispatcher.Detach] and
    the destructors. *)

From S2P Require Import Prelude WinCodec LinuxCodec LinuxDispatch Framing SocketServer.
From S2P Require Import UriList ExtManager X11Manager PasteBackend LinuxSession LinuxHelper LinuxMain LinuxQuit.

(** ** The main thread of a backend

    None of a backend's other threads, and none of the methods the dispatcher
    calls, takes the main thread out of its event loop, and between events its
    destructor can run. *)
Class MainUndisturbed (S L : Type) `{PasteBackend S L} := {
  off_main_idle l s s' : backend_exec l s = Some s' -> backend_on_main l = false -> backend_main_idle s' = backend_main_idle s;
  text_idle utf8 s : backend_main_idle (SetClipboardText utf8 s) = backend_main_idle s;
  image_idle webp s : backend_main_idle (SetClipboardImage webp s) = backend_main_idle s;
  announce_text_idle hash s : backend_main_idle (AnnounceDelayedText hash s) = backend_main_idle s;
  announce_image_idle hash s : backend_main_idle (AnnounceDelayedImage hash s) = backend_main_idle s;
  announce_files_idle hash s : backend_main_idle (AnnounceDelayedFiles hash s) = backend_main_idle s;
  provide_idle hash data s : backend_main_idle (ManagerProvideData hash data s) = backend_main_idle s;
  on_changed_idle cb s : backend_main_idle (SetOnClipboardChanged cb s) = backend_main_idle s;
  on_request_idle cb s : backend_main_idle (SetOnDataRequest cb s) = backend_main_idle s;
  destroyed_dead l s s' : backend_exec l s = Some s' -> backend_destroys l = true ->
    backend_alive s = true /\ backend_alive s' = false /\ backend_calls s' = backend_calls s;
  destroy_exists s : backend_main_idle s = true -> exists l, backend_destroys l = true /\ is_Some (backend_exec l s)
}.

#[export] Instance ext_undisturbed {codec : ImageCodec} : MainUndisturbed ExtManager ExtLabel.
Proof.
  split; cbn; try done.
  - intros l s s' (Ho & E)%ext_own_spec Hl.
    assert (m_main s' = m_main s /\ stop (m_state s') = stop (m_state s)) as [Em Es]; [|unfold ExtManager.main_idle; by rewrite Em, Es].
    destruct l; try discriminate Hl; cbn [ext_exec] in E; repeat case_match; try discriminate E;
      try (destruct (finish_paste _ _ _ _ _ s) as [s1|] eqn:EF; [|discriminate E]; apply finish_paste_shape in EF as (written & ->));
      try (destruct (WaitAndWriteOnWorker _ _ _ _ _); [|discriminate E]); apply (inj Some) in E; by subst s'.
  - intros hash data s. unfold ExtProvideData. by destruct (bytes_eqb _ _).
  - intros l s s' (Ho & E)%ext_own_spec Hl. destruct l; try discriminate Hl. cbn in E.
    unfold ExtManager.main_idle in E. destruct (m_main s), (stop (m_state s)); try discriminate E. apply (inj Some) in E. by subst s'.
  - intros s Hs. exists XlDestroy. unfold ext_own. cbn. rewrite Hs. by eexists.
Qed.

#[export] Instance x11_undisturbed {codec : ImageCodec} {qt : QtText} : MainUndisturbed X11ClipboardManager X11Label.
Proof.
  split; cbn; try done.
  - intros l s s' (Ho & E)%x11_own_spec Hl. destruct l; try discriminate Hl. cbn in E.
    destruct (x_posting s); [done|]. apply (inj Some) in E. by subst s'.
  - intros webp s. unfold X11SetClipboardImage. by destruct (DecodeWebP webp).
  - intros hash data s. unfold X11ProvideData. by repeat case_match.
  - intros l s s' (Ho & E)%x11_own_spec Hl. destruct l; try discriminate Hl. cbn in E.
    unfold x_idle in E. destruct (x_main s); [|done]. destruct (x_alive s); [|done]. apply (inj Some) in E. by subst s'.
  - intros s Hs. exists XDestroy. unfold x11_own. cbn. rewrite Hs. by eexists.
Qed.

#[export] Instance stub_undisturbed : MainUndisturbed StubObject unit.
Proof.
  split; cbn; try done.
  - intros _ s s' E _. destruct (so_alive s) eqn:Es; [|done]. by injection E as <-.
  - intros s Hs. exists tt. rewrite Hs. by eexists.
Qed.

Section Idle.
Context {S L : Type} `{MainUndisturbed S L}.
Implicit Types h : LinuxHelper S.

Definition disp_idle (d : LinuxDispatcher S) : bool := match clipboard_ d with Some s => backend_main_idle s | None => true end.

Lemma handle_idle frame clock (d : LinuxDispatcher S) : disp_idle (LinuxHandle frame clock d).1.2 = disp_idle d.
Proof.
  unfold LinuxHandle. destruct (LinuxParseHelperMessage frame) as [msg| |]; [|done..]. destruct (lm_type msg); try done.
  - unfold LinuxHandleSetClipboard. destruct (present _); [|done]. destruct (LinuxParseClipboardData _); [|done..].
    destruct (clipboard_ d) eqn:Ed; [|done]. unfold disp_idle. destruct (lcd_content_type a); cbn; rewrite ?Ed; cbn; rewrite ?Ed;
      auto using text_idle, image_idle.
  - unfold LinuxHandleAnnounceDelayed. destruct (present _); [|done]. destruct (LinuxParseAnnouncement _); [|done..].
    destruct (clipboard_ d) eqn:Ed; [|done]. unfold disp_idle. destruct (lann_content_type a); cbn; rewrite ?Ed; cbn; rewrite ?Ed;
      auto using announce_text_idle, announce_image_idle, announce_files_idle.
  - unfold LinuxHandleProvideData. destruct (present _); [|done]. destruct (LinuxParseProvideData _); [|done..].
    destruct (clipboard_ d) eqn:Ed; unfold disp_idle; cbn; rewrite ?Ed; cbn; rewrite ?Ed; auto using provide_idle.
  - unfold LinuxHandleGetClipboard. by destruct (clipboard_ d).
Qed.

Lemma handle_none frame clock (d : LinuxDispatcher S) : clipboard_ d = None -> clipboard_ (LinuxHandle frame clock d).1.2 = None.
Proof.
  intros Hd. unfold LinuxHandle, LinuxHandleSetClipboard, LinuxHandleAnnounceDelayed, LinuxHandleProvideData, LinuxHandleGetClipboard.
  rewrite Hd. repeat case_match; cbn; by rewrite ?Hd.
Qed.

(** The backend has been destroyed. *)
Definition backend_gone h : bool := match clipboard_ (h_disp h) with Some s => negb (backend_alive s) | None => true end.

Lemma detach_idle (d : LinuxDispatcher S) : disp_idle (Detach d) = disp_idle d.
Proof.
  unfold Detach. destruct (attached_ d); cbn [negb]; [|done]. unfold disp_idle, on_backend. cbn.
  destruct (clipboard_ d); [|done]. cbn. by rewrite on_request_idle, on_changed_idle.
Qed.
End Idle.

(** ** Invariants *)

#[export] Instance WorkerPc_eq_dec : EqDecision WorkerPc.
Proof. solve_decision. Defined.
#[export] Instance CallbackCall_eq_dec : EqDecision CallbackCall.
Proof. solve_decision. Defined.
#[export] Instance Origin_eq_dec : EqDecision Origin.
Proof. solve_decision. Defined.
#[export] Instance ClientMutex_eq_dec : EqDecision ClientMutex.
Proof. solve_decision. Defined.

(** A worker inside a write of its own holds [client_mutex_] for it. *)
Definition held_for (pc : WorkerPc) (m : ClientMutex) : bool :=
  match pc, m with
  | PcGreeting _, Held SentReady _ _ _ => true
  | PcReplying _, Held (SentReply _) _ _ _ => true
  | PcGreeting _, _ | PcReplying _, _ => false
  | _, _ => true
  end.

Section Invariants.
Context {S L : Type} `{PasteBackendLaws S L} `{!MainUndisturbed S L}.
Implicit Types h : LinuxHelper S.

Definition writing_inv h : Prop := held_for (h_worker h) (h_mutex h) = true.

Lemma returns_writing origin ok h :
  writing_inv (set_mutex (Held origin [] [] []) h) -> h_mutex h = Free -> writing_inv (writer_returns origin ok h).
Proof.
  unfold writing_inv, writer_returns. intros Hi Hm. cbn in Hi. destruct origin, (h_worker h) eqn:Ew; cbn; rewrite ?Ew, ?Hm; try done. by destruct ok.
Qed.

Lemma lock_writing origin payload h h' :
  lock_and_write origin payload h = Some h' -> writing_inv (set_mutex (Held origin [] [] []) h) -> writing_inv h'.
Proof.
  intros (Hm & [[ok ->]|(_ & _ & ->)])%lock_and_write_shape Hi; [by apply returns_writing|].
  unfold writing_inv in *. cbn in *. by destruct origin, (h_worker h).
Qed.

Lemma write_writing script h h' : write_step script h = Some h' -> writing_inv h -> writing_inv h'.
Proof.
  unfold write_step. destruct (h_mutex h) as [|origin payload header body] eqn:Em; [done|].
  destruct (write_on _ _ _ _ _) as [[[r wire] hd] bd]. intros E Hi. unfold writing_inv in Hi. rewrite Em in Hi.
  destruct r; apply (inj Some) in E; subst h'; [apply returns_writing; [|done]..|];
    unfold writing_inv; cbn; by destruct origin, (h_worker h).
Qed.

Lemma worker_writing h h' : worker_step h = Some h' -> writing_inv h -> writing_inv h'.
Proof.
  unfold worker_step. destruct (h_worker h) eqn:Ew; try done; intros E Hi;
    try (apply (inj Some) in E; subst h'; unfold writing_inv; cbn; by repeat case_match).
  - destruct greet; [apply (inj Some) in E; by subst h'|]. by eapply lock_writing.
  - by eapply lock_writing.
  - destruct (h_mutex h); [|done]. apply (inj Some) in E. by subst h'.
Qed.

Lemma writing_step l h h' : helper_exec l h = Some h' -> writing_inv h -> writing_inv h'.
Proof.
  intros E Hi. destruct l; cbn [helper_exec] in E.
  - by eapply worker_writing.
  - destruct (h_worker h) eqn:Ew; try discriminate E. destruct a; [destruct (h_mutex h); [|done]; destruct (fd <? 0); [done|]|..];
      apply (inj Some) in E; by subst h'.
  - destruct (h_worker h); try discriminate E. apply (inj Some) in E. by subst h'.
  - destruct (h_worker h); try discriminate E. destruct (ReadFrame _ _ _) as [[| |] ?]; try discriminate E; apply (inj Some) in E; by subst h'.
  - destruct (h_worker h); try discriminate E. destruct (LinuxHandle _ _ _) as [[reply d] sd]. apply (inj Some) in E. subst h'.
    unfold writing_inv. cbn. by destruct reply.
  - apply backend_step_shape in E as (s & s' & calls & bad & _ & _ & _ & _ & _ & ->). exact Hi.
  - destruct (h_calls h !! i) as [[[b c] frame]|]; [|done]. pose proof E as (Hm & _)%lock_and_write_shape. cbn in Hm.
    eapply lock_writing; [exact E|]. unfold writing_inv in *. cbn. rewrite Hm in Hi. by destruct (h_worker h).
  - by eapply write_writing.
  - destruct (h_main h); try discriminate E. destruct (_ || _); [done|]. apply (inj Some) in E. by subst h'.
  - destruct (h_main h), (h_mutex h) eqn:Em; try discriminate E. apply (inj Some) in E. subst h'. unfold writing_inv in *. cbn. by rewrite Em in *.
  - destruct (h_main h), (h_worker h) eqn:Ew; try discriminate E. apply (inj Some) in E. subst h'. unfold writing_inv in *. cbn. by rewrite Ew in *.
  - destruct (h_main h); try discriminate E. apply (inj Some) in E. by subst h'.
Qed.

(** Steps of other threads leave the main thread between events. *)
Definition others_step (l : HelperLabel L) : bool := match l with YBackend l _ => negb (backend_on_main l) | _ => true end.

Lemma existsb_none {A} (f : A -> bool) l : existsb f l = false <-> forall x, x ∈ l -> f x = false.
Proof.
  rewrite <- not_true_iff_false, existsb_exists. split.
  - intros Hn x Hx. apply not_true_is_false. intros Hf. apply Hn. exists x. by rewrite <- list_elem_of_In.
  - intros Hf (x & Hx & Ht). by rewrite Hf in Ht by by apply list_elem_of_In.
Qed.

Lemma idle_parts h : main_idle h = true <->
  existsb (fun c => c.1.1) (h_calls h) = false /\
  match h_mutex h with Held (SentCall on_main _) _ _ _ => on_main | _ => false end = false /\ disp_idle (h_disp h) = true.
Proof.
  unfold main_idle, main_sending. rewrite andb_true_iff, negb_true_iff, orb_false_iff. unfold main_returns, disp_idle. tauto.
Qed.

Lemma lock_idle origin payload h h' :
  lock_and_write origin payload h = Some h' -> match origin with SentCall on_main _ => on_main = false | _ => True end ->
  main_idle h = true -> main_idle h' = true.
Proof.
  intros (Hm & [[ok ->]|(_ & _ & ->)])%lock_and_write_shape Ho.
  - by destruct (writer_returns_shape origin ok h) as (pc & -> & _).
  - rewrite !idle_parts. cbn. intros (? & _ & ?). split_and!; [done|by destruct origin|done].
Qed.

Lemma write_idle script h h' : write_step script h = Some h' -> main_idle h = true -> main_idle h' = true.
Proof.
  unfold write_step. destruct (h_mutex h) as [|origin payload header body] eqn:Em; [done|].
  destruct (write_on _ _ _ _ _) as [[[r wire] hd] bd]. intros E. rewrite !idle_parts, Em. intros (? & Ho & ?).
  destruct r; apply (inj Some) in E; subst h'; try done;
    match goal with |- context [writer_returns ?o ?ok ?h0] => destruct (writer_returns_shape o ok h0) as (pc & -> & _) end; done.
Qed.

Lemma worker_idle h h' : worker_step h = Some h' -> main_idle h = true -> main_idle h' = true.
Proof.
  unfold worker_step. intros E Hi.
  destruct (h_worker h) eqn:Ew; try discriminate E; try (apply (inj Some) in E; by subst h').
  - destruct greet; [apply (inj Some) in E; by subst h'|]. by eapply lock_idle.
  - by eapply lock_idle.
  - destruct (h_mutex h) eqn:Em; [|done]. apply (inj Some) in E. subst h'. revert Hi. rewrite !idle_parts. cbn. by rewrite Em.
Qed.

Lemma idle_step l h h' :
  helper_exec l h = Some h' -> others_step l = true -> main_idle h = true -> main_idle h' = true.
Proof.
  intros E Hl Hi. destruct l; cbn [helper_exec others_step] in *.
  - by eapply worker_idle.
  - destruct (h_worker h) eqn:Ew; try discriminate E. destruct a; [destruct (h_mutex h); [|done]; destruct (fd <? 0); [done|]|..];
      apply (inj Some) in E; by subst h'.
  - destruct (h_worker h); try discriminate E. apply (inj Some) in E. by subst h'.
  - destruct (h_worker h); try discriminate E. destruct (ReadFrame _ _ _) as [[| |] ?]; try discriminate E; apply (inj Some) in E; by subst h'.
  - destruct (h_worker h); try discriminate E. pose proof (handle_idle frame clock (h_disp h)) as Hd.
    destruct (LinuxHandle _ _ _) as [[reply d] sd]. apply (inj Some) in E. subst h'. revert Hi. rewrite !idle_parts. cbn in *. by rewrite Hd.
  - apply backend_step_shape in E as (s & s' & calls & bad & Hd & _ & EB & _ & _ & ->). apply negb_true_iff in Hl.
    revert Hi. rewrite !idle_parts. cbn. rewrite existsb_app, orb_false_iff. intros (? & ? & Hdi). split_and!; try done.
    + rewrite Hl. apply existsb_none. intros x (c & Hin & _)%list_elem_of_bind. by apply list_elem_of_fmap in Hin as (? & -> & _).
    + revert Hdi. unfold disp_idle. cbn. rewrite Hd. cbn. by rewrite (off_main_idle _ _ _ EB Hl).
  - destruct (h_calls h !! i) as [[[b c] frame]|] eqn:Ei; [|done]. pose proof Hi as (Hc & ? & ?)%idle_parts.
    assert (Hb : b = false).
    { rewrite existsb_none in Hc. apply (Hc (b, c, frame)). by eapply list_elem_of_lookup_2. }
    eapply lock_idle; [exact E|done|]. apply idle_parts. split_and!; [|done|done]. cbn. rewrite existsb_none in *.
    intros x Hx. apply Hc. eapply elem_of_sublist; [exact Hx|apply sublist_delete].
  - by eapply write_idle.
  - destruct (h_main h); try discriminate E. destruct (_ || _); [done|]. apply (inj Some) in E. by subst h'.
  - destruct (h_main h), (h_mutex h) eqn:Em; try discriminate E. apply (inj Some) in E. by subst h'.
  - destruct (h_main h), (h_worker h) eqn:Ew; try discriminate E. apply (inj Some) in E. subst h'. revert Hi.
    rewrite !idle_parts. cbn. by rewrite detach_idle.
  - destruct (h_main h); try discriminate E. apply (inj Some) in E. by subst h'.
Qed.

(** What becomes of the dispatcher. *)
Definition disp_moves (l : HelperLabel L) (d d' : LinuxDispatcher S) : Prop :=
  match l with
  | YHandle clock => exists frame, d' = (LinuxHandle frame clock d).1.2
  | YBackend l _ => exists s s', clipboard_ d = Some s /\ backend_exec l s = Some s' /\ d' = with_backend s' d
  | YDetach => d' = Detach d
  | _ => d' = d
  end.

Lemma lock_disp origin payload h h' : lock_and_write origin payload h = Some h' -> h_disp h' = h_disp h.
Proof. intros (_ & [[ok ->]|(_ & _ & ->)])%lock_and_write_shape; [|done]. by destruct (writer_returns_shape origin ok h) as (pc & -> & _). Qed.

Lemma helper_disp l h h' : helper_exec l h = Some h' -> disp_moves l (h_disp h) (h_disp h').
Proof.
  intros E. destruct l; cbn [helper_exec disp_moves] in *.
  - unfold worker_step in E. destruct (h_worker h); try discriminate E; try (apply (inj Some) in E; by subst h').
    + destruct greet; [apply (inj Some) in E; by subst h'|]. by apply lock_disp in E.
    + by apply lock_disp in E.
    + destruct (h_mutex h); [|done]. apply (inj Some) in E. by subst h'.
  - repeat case_match; try discriminate E; apply (inj Some) in E; by subst h'.
  - repeat case_match; try discriminate E; apply (inj Some) in E; by subst h'.
  - repeat case_match; try discriminate E; apply (inj Some) in E; by subst h'.
  - destruct (h_worker h) as [| | | | | | | | |fd frame| | | | | |]; try discriminate E. exists frame.
    destruct (LinuxHandle _ _ _) as [[reply d] sd]. apply (inj Some) in E. by subst h'.
  - apply backend_step_shape in E as (s & s' & calls & bad & Hd & _ & EB & _ & _ & ->). by exists s, s'.
  - destruct (h_calls h !! i) as [[[b c] frame]|]; [|done]. by apply lock_disp in E.
  - unfold write_step in E. destruct (h_mutex h) as [|o p hd bd]; [done|]. destruct (write_on _ _ _ _ _) as [[[r wire] hd'] bd'].
    destruct r; apply (inj Some) in E; subst h'; try done;
      match goal with |- context [writer_returns ?o ?ok ?h0] => by destruct (writer_returns_shape o ok h0) as (pc & -> & _) end.
  - repeat case_match; try discriminate E; apply (inj Some) in E; by subst h'.
  - repeat case_match; try discriminate E; apply (inj Some) in E; by subst h'.
  - repeat case_match; try discriminate E; apply (inj Some) in E; by subst h'.
  - repeat case_match; try discriminate E; apply (inj Some) in E; by subst h'.
Qed.

(** A backend is destroyed for good, and by its destructor alone. *)
Lemma gone_step l h h' :
  helper_exec l h = Some h' ->
  match l with
  | YBackend l _ => if backend_destroys l then backend_gone h = false /\ backend_gone h' = true else backend_gone h' = backend_gone h
  | _ => backend_gone h' = backend_gone h
  end.
Proof.
  intros E%helper_disp. unfold backend_gone. destruct l; cbn in E; try by rewrite E.
  - destruct E as [frame E]. destruct (LinuxHandle frame clock (h_disp h)) as [[reply d] sd] eqn:EH. cbn in E. subst d.
    destruct (clipboard_ (h_disp h)) as [s|] eqn:Ed.
    + destruct (handle_call _ _ _ _ _ _ _ Ed EH) as (s1 & -> & Hc). by rewrite (proj2 (frame_call_calls _ _ _ Hc)).
    + pose proof (handle_none frame clock _ Ed) as Hn. rewrite EH in Hn. cbn in Hn. by rewrite Hn.
  - destruct E as (s & s' & Hd & EB & ->). cbn. rewrite Hd. cbn. destruct (backend_destroys l) eqn:El.
    + by destruct (destroyed_dead _ _ _ EB El) as (-> & -> & _).
    + by rewrite (own_alive _ _ _ EB El).
  - rewrite E. unfold Detach. destruct (attached_ _); cbn [negb]; [|done]. unfold on_backend. cbn.
    destruct (clipboard_ (h_disp h)) as [s|]; [|done]. cbn. destruct (on_changed_takes None s) as (_ & _ & Ha1 & _).
    destruct (on_request_takes None (SetOnClipboardChanged None s)) as (_ & _ & Ha2 & _). by rewrite Ha2, Ha1.
Qed.
End Invariants.

(** ** The steps due *)

Section Due.
Context {S L : Type} `{PasteBackend S L}.

(** Leading on, of the helper: the worker's steps, those of a writer whose
    [send] calls get its frame out or fail, the waiting callbacks', [main]'s
    tear-down and the backend's destructor.  An [accept] that EINTR interrupts
    and a write that stays blocked lead nowhere. *)
Definition helper_due (l : HelperLabel L) (h : LinuxHelper S) : bool :=
  match l with
  | YAccept AccEintr => false
  | YBackend l _ => backend_destroys l
  | YWrite script =>
      match h_mutex h with
      | Held _ _ header body => match (write_on send_round script header body (h_wire h)).1.1.1 with WriteBlocked => false | _ => true end
      | Free => false
      end
  | _ => true
  end.

(** A call that need not return: [accept] until its socket is shut down (a
    client may or may not come), and [read] and [send] until the client's is.
    After [shutdown] they fail, or return what they still have. *)
Definition may_block (l : HelperLabel L) (h : LinuxHelper S) : bool :=
  match l with
  | YAccept AccError => negb (h_listen_shut h)
  | YAccept _ => true
  | YRead _ _ | YWrite _ => negb (h_client_shut h)
  | _ => false
  end.

(** A writer holds [client_mutex_] in a [send] that the peer does not take. *)
Definition send_blocked (h : LinuxHelper S) : bool :=
  match h_mutex h with Held _ _ _ _ => negb (h_client_shut h) | Free => false end.

Definition tear_label (l : QuitLabel) (q : Quit) : bool :=
  match l with
  | QDeliver _ _ | QHandler _ | QTear => true
  | QWatchThread _ => w_stop_ (q_watch q)
  | _ => false
  end.

(** What asks to quit is served first ([sys_toward]); then the handlers of
    signals, the poll thread once [stop_] is set, the helper and [main] go on. *)
Definition return_due (l : SysLabel L) (s : Quit * LinuxHelper S) : bool :=
  if in_service (q_pc s.1) then sys_toward l
  else match l with
       | SysQuit l => tear_label l s.1
       | SysHelper l => helper_due l s.2
       end.

(** Those of them that are sure to come. *)
Definition return_forced (l : SysLabel L) (s : Quit * LinuxHelper S) : bool :=
  return_due l s && match l with SysQuit _ => true | SysHelper l => negb (may_block l s.2) end.
End Due.

(** ** Measures *)

Definition worker_pc_todo (pc : WorkerPc) : nat :=
  match pc with
  | PcStart => 12 | PcLoop _ => 11 | PcAccept _ => 10 | PcConnect _ => 9 | PcGreet _ _ => 8 | PcGreeting _ => 6
  | PcServe _ => 5 | PcRead _ => 4 | PcHandle _ _ => 9 | PcReply _ _ _ => 8 | PcReplying _ => 6
  | PcRetract _ => 3 | PcClose _ => 2 | PcAcceptFailed => 2 | PcEnd _ => 1 | PcStopped => 0
  end.
Definition mutex_todo (m : ClientMutex) : nat := match m with Free => 0 | Held _ _ _ _ => 1 end.
Definition helper_main_todo (m : HelperMain) : nat :=
  match m with HmRunning => 4 | HmStopping => 3 | HmJoining => 2 | HmDetached => 1 | HmDestroyed => 0 end.
(** Each frame still to be read costs at most six steps and at least a byte. *)
Definition helper_todo {S} (h : LinuxHelper S) : nat :=
  worker_pc_todo (h_worker h) + mutex_todo (h_mutex h) + 2 * length (h_calls h) + 6 * length (h_inbound h) +
  helper_main_todo (h_main h).

Definition tear_todo (pc : QuitPc) : nat :=
  match pc with
  | QmWiring | QmFailed _ => 0
  | QmWatch | QmProbe | QmExec | QmLoop | QmLeft => 9
  | QmJoinWatch => 5
  | QmTearing => 4
  | QmClosing closed => 3 - closed
  end.
(** Once [stop_] is set the thread's last [kill] is followed by one more slice. *)
Definition join_todo (w : ParentWatchdog) : nat := if w_stop_ w then match w_poll w with PollKill => 2 | _ => 0 end else 0.

Section Measures.
Context {S L : Type} `{PasteBackendLaws S L} `{!MainUndisturbed S L}.
Implicit Types h : LinuxHelper S.

Definition gone_todo h : nat := if backend_gone h then 0 else 1.
Definition return_todo (s : Quit * LinuxHelper S) : nat :=
  quit_todo s.1 + tear_todo (q_pc s.1) + join_todo (q_watch s.1) + helper_todo s.2 + gone_todo s.2.

Lemma read_frame_shorter alloc script stream p rest script' :
  ReadFrame alloc script stream = (ReadOk p rest, script') -> (length rest < length stream)%nat.
Proof.
  unfold ReadFrame, read_frame. destruct (read_exact read_round script 4 stream []) as [[header rest1| |] sc] eqn:E1; try done.
  apply read_exact_ok in E1 as (got & _ & -> & Hg); [|lia]. rewrite length_app. unfold Zlen in Hg.
  destruct (_ >? _); [done|]. destruct (negb alloc); [done|]. destruct (_ =? 0); [intros; simplify_eq; lia|]. intros E2.
  destruct (decide (0 <= ReadLengthLE header)).
  - apply read_exact_ok in E2 as (got2 & _ & -> & _); [|done]. rewrite length_app. lia.
  - destruct sc; cbn in E2; rewrite (proj2 (Z.leb_le _ 0)) in E2 by lia; simplify_eq; lia.
Qed.

Lemma returns_todo origin ok h : (helper_todo (writer_returns origin ok h) <= helper_todo h)%nat.
Proof. unfold writer_returns. destruct origin, (h_worker h) eqn:Ew; unfold helper_todo; cbn; rewrite ?Ew; cbn; try lia. destruct ok; cbn; lia. Qed.

(** Taking the mutex costs one step to give it back. *)
Lemma lock_todo origin payload h h' : lock_and_write origin payload h = Some h' -> (helper_todo h' <= Datatypes.S (helper_todo h))%nat.
Proof.
  intros (Hm & [[ok ->]|(_ & _ & ->)])%lock_and_write_shape; [pose proof (returns_todo origin ok h); lia|].
  unfold helper_todo. cbn. rewrite Hm. cbn. lia.
Qed.

Lemma write_todo script h h' : helper_due (YWrite (L := L) script) h = true -> write_step script h = Some h' -> (helper_todo h' < helper_todo h)%nat.
Proof.
  unfold write_step, helper_due. destruct (h_mutex h) as [|origin payload header body] eqn:Em; [done|].
  destruct (write_on _ _ _ _ _) as [[[r wire] hd] bd]. cbn. intros Hr E.
  destruct r; [..|done]; apply (inj Some) in E; subst h';
    match goal with |- context [writer_returns ?o ?ok ?h0] => pose proof (returns_todo o ok h0) as Hle; eapply Nat.le_lt_trans; [exact Hle|] end;
    unfold helper_todo; cbn; rewrite Em; cbn; lia.
Qed.

Lemma worker_todo_step h h' : worker_step h = Some h' -> (helper_todo h' < helper_todo h)%nat.
Proof.
  unfold worker_step. destruct (h_worker h) eqn:Ew; try done; intros E;
    try (apply (inj Some) in E; subst h'; unfold helper_todo; cbn; rewrite Ew; repeat case_match; cbn; lia).
  - destruct greet as [|c greet]; [apply (inj Some) in E; subst h'; unfold helper_todo; cbn; rewrite Ew; cbn; lia|].
    apply lock_todo in E. unfold helper_todo in *. cbn in *. rewrite Ew. cbn. lia.
  - apply lock_todo in E. unfold helper_todo in *. cbn in *. rewrite Ew. cbn. lia.
  - destruct (h_mutex h); [|done]. apply (inj Some) in E. subst h'. unfold helper_todo. cbn. rewrite Ew. cbn. lia.
Qed.

Lemma helper_todo_step l h h' :
  helper_due l h = true -> match l with YBackend _ _ => false | _ => true end = true ->
  helper_exec l h = Some h' -> (helper_todo h' < helper_todo h)%nat.
Proof.
  intros Hl Hb E. destruct l; try discriminate Hb; cbn [helper_exec] in E.
  - by eapply worker_todo_step.
  - destruct (h_worker h) eqn:Ew; try discriminate E. destruct a; [destruct (h_mutex h); [|done]; destruct (fd <? 0); [done|]|done|];
      apply (inj Some) in E; subst h'; unfold helper_todo; cbn; rewrite Ew; cbn; lia.
  - destruct (h_worker h) eqn:Ew; try discriminate E. apply (inj Some) in E. subst h'. unfold helper_todo. cbn. rewrite Ew. cbn. lia.
  - destruct (h_worker h) eqn:Ew; try discriminate E. destruct (ReadFrame _ _ _) as [[frame rest| |] sc] eqn:ER; try discriminate E;
      apply (inj Some) in E; subst h'; unfold helper_todo; cbn; rewrite Ew; cbn; [apply read_frame_shorter in ER|]; lia.
  - destruct (h_worker h) eqn:Ew; try discriminate E. destruct (LinuxHandle _ _ _) as [[reply d] sd]. apply (inj Some) in E. subst h'.
    unfold helper_todo. cbn. rewrite Ew. destruct reply; cbn; lia.
  - destruct (h_calls h !! i) as [[[b c] frame]|] eqn:Ei; [|done]. apply lock_todo in E. unfold helper_todo in *. cbn in *.
    rewrite length_delete in E by eauto. pose proof (lookup_lt_Some _ _ _ Ei). lia.
  - by eapply write_todo.
  - destruct (h_main h) eqn:Em; try discriminate E. destruct (_ || _); [done|]. apply (inj Some) in E. subst h'. unfold helper_todo. cbn. rewrite Em. cbn. lia.
  - destruct (h_main h) eqn:Em, (h_mutex h); try discriminate E. apply (inj Some) in E. subst h'. unfold helper_todo. cbn. rewrite Em. cbn. lia.
  - destruct (h_main h) eqn:Em, (h_worker h); try discriminate E. apply (inj Some) in E. subst h'. unfold helper_todo. cbn. rewrite Em. cbn. lia.
  - destruct (h_main h) eqn:Em; try discriminate E. apply (inj Some) in E. subst h'. unfold helper_todo. cbn. rewrite Em. cbn. lia.
Qed.

Lemma helper_progress l h h' :
  helper_due l h = true -> helper_exec l h = Some h' -> (helper_todo h' + gone_todo h' < helper_todo h + gone_todo h)%nat.
Proof.
  intros Hl E. pose proof (gone_step _ _ _ E) as Hg. unfold gone_todo.
  destruct l as [| | | | |l clock| | | | | |]; try (apply helper_todo_step in E; [rewrite Hg; lia|done..]).
  cbn in Hl. rewrite Hl in Hg. destruct Hg as [-> ->]. cbn in E.
  apply backend_step_shape in E as (s & s' & calls & bad & _ & _ & EB & -> & _ & ->).
  destruct (destroyed_dead _ _ _ EB Hl) as (_ & _ & ->). rewrite drop_all. unfold helper_todo. cbn. rewrite app_nil_r. lia.
Qed.
End Measures.

(** ** The system *)

Section Return.
Context {S L : Type} `{PasteBackendLaws S L} `{!MainUndisturbed S L} (parent_pid : option Z).
Implicit Types (q : Quit) (h : LinuxHelper S).

(** [Stop] has shut the listening socket down before anything else, and the
    client's before the join, unless the worker is not going to read. *)
Definition is_reading (pc : WorkerPc) : bool := match pc with PcRead _ => true | _ => false end.
Definition joining (m : HelperMain) : bool := match m with HmJoining | HmDetached | HmDestroyed => true | _ => false end.
Record shut_inv h : Prop := {
  si_listen : h_main h = HmRunning -> 0 <= listen_fd_ (h_socket h);
  si_accept : h_main h <> HmRunning -> h_listen_shut h = true;
  si_read : joining (h_main h) = true -> is_reading (h_worker h) = true -> h_client_shut h = true
}.

Lemma shut_same h h' :
  shut_inv h -> h_main h' = h_main h -> listen_fd_ (h_socket h') = listen_fd_ (h_socket h) ->
  h_listen_shut h' = h_listen_shut h -> h_client_shut h' = h_client_shut h ->
  (is_reading (h_worker h') = true -> is_reading (h_worker h) = true \/ h_main h = HmRunning) -> shut_inv h'.
Proof.
  intros [Hx Hy Hz] Em El Es Ec Hr. split; rewrite ?Em, ?El, ?Es, ?Ec; [done..|]. intros Hj Hw.
  destruct (Hr Hw) as [Hr'|Hr']; [by apply Hz|by rewrite Hr' in Hj].
Qed.

Lemma shut_returns origin ok h : shut_inv h -> shut_inv (writer_returns origin ok h).
Proof.
  intros Hi. destruct (writer_returns_shape origin ok h) as (pc & -> & Hpc & _). apply (shut_same h); try done. cbn.
  intros Hr. left. destruct Hpc as [->|(fd & _ & [-> | ->])]; done.
Qed.

Lemma shut_lock origin payload h h' : lock_and_write origin payload h = Some h' -> shut_inv h -> shut_inv h'.
Proof.
  intros (_ & [[ok ->]|(_ & _ & ->)])%lock_and_write_shape Hi; [by apply shut_returns|]. apply (shut_same h); try done. by left.
Qed.

Lemma shut_write script h h' : write_step script h = Some h' -> shut_inv h -> shut_inv h'.
Proof.
  unfold write_step. destruct (h_mutex h) as [|origin payload header body]; [done|].
  destruct (write_on _ _ _ _ _) as [[[r wire] hd] bd]. intros E Hi.
  destruct r; apply (inj Some) in E; subst h'; try apply shut_returns; (apply (shut_same h); try done; by left).
Qed.

Lemma shut_worker h h' : worker_step h = Some h' -> life_inv h -> shut_inv h -> shut_inv h'.
Proof.
  unfold worker_step. intros E Hl Hi. pose proof (li_main _ Hl) as Hm. destruct (h_worker h) eqn:Ew; try discriminate E.
  - apply (inj Some) in E. subst h'. apply (shut_same h); try done. cbn. by destruct (_ <? 0).
  - apply (inj Some) in E. subst h'. apply (shut_same h); try done. cbn. by destruct (stop_ _).
  - apply (inj Some) in E. subst h'. by apply (shut_same h).
  - destruct greet; [apply (inj Some) in E; subst h'; by apply (shut_same h)|]. eapply shut_lock; [exact E|]. by apply (shut_same h).
  - apply (inj Some) in E. subst h'. apply (shut_same h); try done. cbn. intros Hr. right.
    destruct (stop_ (h_socket h)) eqn:Es; [done|]. by destruct (h_main h); cbn in Hm; [|congruence..|destruct Hm; congruence|destruct Hm; congruence].
  - eapply shut_lock; [exact E|]. by apply (shut_same h).
  - destruct (h_mutex h); [|done]. apply (inj Some) in E. subst h'. by apply (shut_same h).
  - apply (inj Some) in E. subst h'. by apply (shut_same h).
  - apply (inj Some) in E. subst h'. by apply (shut_same h).
Qed.

Lemma shut_step l h h' : helper_exec l h = Some h' -> life_inv h -> shut_inv h -> shut_inv h'.
Proof.
  intros E Hl Hi. destruct l; cbn [helper_exec] in E.
  - by eapply shut_worker.
  - destruct (h_worker h); try discriminate E. destruct a; [destruct (h_mutex h); [|done]; destruct (_ <? 0); [done|]|..];
      apply (inj Some) in E; subst h'; by apply (shut_same h).
  - destruct (h_worker h); try discriminate E. apply (inj Some) in E. subst h'. by apply (shut_same h).
  - destruct (h_worker h); try discriminate E. destruct (ReadFrame _ _ _) as [[frame rest| |] sc]; try discriminate E;
      apply (inj Some) in E; subst h'; by apply (shut_same h).
  - destruct (h_worker h); try discriminate E. destruct (LinuxHandle _ _ _) as [[reply d] sd]. apply (inj Some) in E. subst h'.
    apply (shut_same h); try done. cbn. by destruct reply.
  - apply backend_step_shape in E as (s & s' & calls & bad & _ & _ & _ & _ & _ & ->). apply (shut_same h); try done. by left.
  - destruct (h_calls h !! i) as [[[b c] frame]|]; [|done]. eapply shut_lock; [exact E|]. apply (shut_same h); try done. by left.
  - by eapply shut_write.
  - destruct (h_main h) eqn:Em; try discriminate E. destruct (_ || _); [done|]. apply (inj Some) in E. subst h'.
    split; cbn; [done| |done]. intros _. pose proof (si_listen _ Hi Em). rewrite (proj2 (Z.leb_le _ _)) by done. apply orb_true_r.
  - destruct (h_main h) eqn:Em, (h_mutex h); try discriminate E. apply (inj Some) in E. subst h'. split; cbn; [done| |].
    + intros _. apply (si_accept _ Hi). congruence.
    + intros _ Hr. pose proof (li_client _ Hl) as Hc. destruct (h_worker h); try done. cbn in Hc. destruct Hc as (-> & ? & _).
      rewrite (proj2 (Z.leb_le _ _)) by done. apply orb_true_r.
  - destruct (h_main h) eqn:Em, (h_worker h) eqn:Ew; try discriminate E. apply (inj Some) in E. subst h'.
    split; cbn; [done|intros _; apply (si_accept _ Hi); congruence|]. by rewrite Ew.
  - destruct (h_main h) eqn:Em; try discriminate E. apply (inj Some) in E. subst h'.
    split; cbn; [done|intros _; apply (si_accept _ Hi); congruence|]. intros _. apply (si_read _ Hi). by rewrite Em.
Qed.

Definition closing_ok (pc : QuitPc) : Prop := match pc with QmClosing closed => (closed <= 2)%nat | _ => True end.

Record return_inv (s : Quit * LinuxHelper S) : Prop := {
  ri_sys : sys_inv parent_pid s;
  ri_writing : writing_inv s.2;
  ri_idle : has_left (q_pc s.1) = true -> backend_gone s.2 = false -> main_idle s.2 = true;
  ri_closing : closing_ok (q_pc s.1);
  ri_alive : h_main s.2 <> HmDestroyed -> backend_gone s.2 = false;
  ri_life : life_inv s.2;
  ri_shut : shut_inv s.2
}.

(** The destructor of the backend is the last. *)
Lemma destroyed_last l h h' :
  helper_exec l h = Some h' -> (h_main h <> HmDestroyed -> backend_gone h = false) -> h_main h' <> HmDestroyed -> backend_gone h' = false.
Proof.
  intros E Ha Hm. pose proof (gone_step _ _ _ E) as Hg. pose proof (proj2 (helper_main _ _ _ E)) as Hmm.
  assert (h_main h <> HmDestroyed) as Hm0 by (destruct l; cbn in Hmm; try congruence; destruct Hmm; congruence).
  specialize (Ha Hm0). destruct l as [| | | | |l clock| | | | | |]; try congruence. destruct (backend_destroys l) eqn:El; [|congruence].
  apply backend_step_shape in E as (_ & _ & _ & _ & _ & Hb & _). unfold backend_enabled in Hb.
  rewrite (destroys_on_main _ El), El in Hb. apply andb_prop in Hb as [_ Hb]. by destruct (h_main h).
Qed.

(** The event loop is left between two events, and the pipe has two ends. *)
Lemma left_idle l idle quits main q q' :
  quit_exec parent_pid idle quits main l q = Some q' -> has_left (q_pc q') = true ->
  q_pc q' = q_pc q \/ ((has_left (q_pc q) = true \/ idle = true) /\ closing_ok (q_pc q')).
Proof.
  intros E Hl.
  destruct l; cbn [quit_exec] in E; try (destruct (main_free q); [|done]).
  - destruct (bool_decide _); [|done]. apply (inj Some) in E. subst q'. auto.
  - unfold deliver in E. destruct (q_pending q !! i); [|done]. apply (inj Some) in E. subst q'. auto.
  - unfold handler_step in E. destruct (q_handlers q !! i) as [[[b sig] pc]|]; [|done].
    destruct pc; cbn in E; repeat case_match; injection E as <-; auto.
  - apply (inj Some) in E. subst q'. unfold forker_ends in *. destruct (q_pdeathsig q); auto.
  - destruct (q_parent_alive q); [|done]. apply (inj Some) in E. subst q'. unfold parent_dies, forker_ends in *.
    destruct is_forker; [destruct (q_pdeathsig q)|]; auto.
  - unfold watch_thread_step in E. destruct l; [done|..]; [|destruct (truthful a q) in E; [|done]];
      destruct (watch_exec _ _) as [w'|]; try done; injection E as <-; auto.
  - unfold start_step in E. destruct (q_pc q); try done. apply (inj Some) in E. subst q'. cbn in Hl. by destruct ok.
  - unfold prctl_step in E. destruct (q_pc q); try done. destruct parent_pid; apply (inj Some) in E; by subst q'.
  - unfold probe_step in E. destruct (q_pc q); try done. destruct parent_pid; [|done]. destruct (truthful a q); [|done].
    apply (inj Some) in E; by subst q'.
  - destruct (q_pc q); try done. apply (inj Some) in E; by subst q'.
  - unfold notify_step in E. destruct (q_pc q); try done. destruct (q_pipe q); [done|]. destruct idle; [|done]. injection E as <-. auto.
  - unfold leave_step in E. destruct (q_pc q); try done. destruct idle; [|done]. destruct (quit_queued _ _); [|done].
    apply (inj Some) in E. subst q'. cbn. auto.
  - right. unfold quit_tear_step in E. destruct (q_pc q); try done; [destruct (_ <? 2)%nat; [|done]; apply (inj Some) in E; by subst q'|..];
      (split; [by left|]); repeat case_match; try discriminate E; apply (inj Some) in E; subst q'; cbn; try done; try lia.
    by apply Nat.ltb_lt.
Qed.

Lemma return_inv_step l s s' : sys_exec parent_pid l s = Some s' -> return_inv s -> return_inv s'.
Proof.
  intros E Hi. pose proof (sys_step _ _ _ _ E (ri_sys _ Hi)) as Hs. destruct s as [q h], Hi as [_ Hw Hidle Hc Ha Hlf Hsh], l as [l|l]; cbn in *.
  - destruct (quit_exec _ _ _ _ _ _) as [q'|] eqn:Eq; [|done]. apply (inj Some) in E. subst s'. constructor; cbn; [done|done|..].
    + intros Hl Hr. destruct (left_idle _ _ _ _ _ _ Eq Hl) as [Ep|[[]]]; [rewrite Ep in Hl|..]; auto.
    + destruct (has_left (q_pc q')) eqn:Hl; [|by destruct (q_pc q')]. by destruct (left_idle _ _ _ _ _ _ Eq Hl) as [->|[]].
    + done.
    + done.
    + done.
  - destruct (helper_enabled l q) eqn:En; [|done]. destruct (helper_exec l h) as [h'|] eqn:Eh; [|done].
    apply (inj Some) in E. subst s'. constructor; cbn; [done|by eapply writing_step| |done|by eapply destroyed_last|by eapply life_step|by eapply shut_step]. intros Hl Hr.
    pose proof (gone_step _ _ _ Eh) as Hg. destruct l as [| | | | |l clock| | | | | |];
      try (eapply idle_step; [exact Eh|done|]; apply Hidle; [done|by rewrite <- Hg]).
    destruct (backend_destroys l) eqn:El; [destruct Hg; congruence|]. rewrite Hr in Hg.
    eapply idle_step; [exact Eh| |by apply Hidle]. cbn in *. unfold helper_enabled in En. rewrite El in En.
    destruct (backend_on_main l); [|done]. destruct (q_pc q); try discriminate Hl; by rewrite andb_false_r in En.
Qed.

Lemma return_reachable s0 inbound ls s : backend_alive s0 = true -> run_sys parent_pid ls (init_sys s0 inbound) = Some s -> return_inv s.
Proof.
  intros Ha E. apply (run_exec_invariant (sys_exec parent_pid) return_inv (fun _ => True) (fun l a b _ => return_inv_step l a b) ls (init_sys s0 inbound) s);
    [by apply Forall_true|exact E|]. constructor; cbn; [apply inv_init|done|done|done| |by eapply (life_reachable s0 inbound [])|by split]. intros _. unfold backend_gone. cbn.
  destruct (on_changed_takes (Some (on_changed_callback true)) s0) as (_ & _ & Ha1 & _).
  destruct (on_request_takes (Some (on_request_callback true)) (SetOnClipboardChanged (Some (on_changed_callback true)) s0))
    as (_ & _ & Ha2 & _). by rewrite Ha2, Ha1, Ha.
Qed.

(** *** Progress *)

Lemma handler_same i q q' : handler_step i q = Some q' -> q_pc q' = q_pc q /\ q_watch q' = q_watch q.
Proof.
  unfold handler_step. destruct (q_handlers q !! i) as [[[b sig] pc]|]; [|done].
  destruct pc; cbn; intros E; repeat case_match; by injection E as <-.
Qed.

(** A due step of the tear-down makes progress. *)
Lemma tear_progress l idle quits main q q' :
  tear_label l q = true -> (forall closed, q_pc q <> QmFailed closed) ->
  quit_exec parent_pid idle quits main l q = Some q' ->
  (quit_todo q' + tear_todo (q_pc q') + join_todo (q_watch q') < quit_todo q + tear_todo (q_pc q) + join_todo (q_watch q))%nat.
Proof.
  intros Hl Hf E. destruct l; try discriminate Hl; cbn [tear_label] in Hl.
  - pose proof (quit_todo_step parent_pid (QDeliver i on_main) _ _ _ _ _ eq_refl E). cbn in E. unfold deliver in E.
    destruct (q_pending q !! i); [|done]. apply (inj Some) in E. subst q'. cbn in *. lia.
  - pose proof (quit_todo_step parent_pid (QHandler i) _ _ _ _ _ eq_refl E). cbn in E. apply handler_same in E as [-> ->]. lia.
  - cbn in E. unfold watch_thread_step in E. unfold quit_todo, poll_todo, join_todo. rewrite Hl.
    destruct l; [done|..]; [|destruct (truthful a q) in E; [|done]]; cbn in E; destruct (w_poll (q_watch q)) eqn:Ew; try discriminate E;
      apply (inj Some) in E; subst q'; cbn; rewrite ?Hl; cbn; [lia|]. destruct (parent_gone a); cbn; rewrite Hl; cbn; lia.
  - cbn in E. destruct (main_free q); [|done]. unfold quit_tear_step in E. destruct (q_pc q) eqn:Epc; try discriminate E.
    + by destruct (Hf closed).
    + apply (inj Some) in E. subst q'. unfold quit_todo, poll_todo, join_todo. cbn. rewrite Epc. cbn.
      destruct (w_poll (q_watch q)), (w_stop_ (q_watch q)); cbn; lia.
    + destruct (w_poll (q_watch q)) eqn:Ew; try discriminate E; apply (inj Some) in E; subst q'; unfold quit_todo; cbn; rewrite Epc; cbn; lia.
    + destruct main; try discriminate E. apply (inj Some) in E. subst q'. unfold quit_todo. cbn. rewrite Epc. cbn. lia.
    + destruct (closed <? 2)%nat eqn:Ec; [|done]. apply Nat.ltb_lt in Ec. apply (inj Some) in E. subst q'. unfold quit_todo. cbn -[Nat.sub]. rewrite Epc. cbn -[Nat.sub]. lia.
Qed.

(** While the worker has not ended it, or the writer it waits for, has a step
    that is sure to come. *)
Definition joining_label (l : HelperLabel L) : bool :=
  match l with YStep | YAccept _ | YConnect _ | YRead _ _ | YHandle _ | YWrite _ => true | _ => false end.
Definition comes (l : HelperLabel L) h : Prop := helper_due l h = true /\ may_block l h = false /\ is_Some (helper_exec l h).

Lemma error_returns header body wire : (write_on send_round [SkError] header body wire).1.1.1 <> WriteBlocked.
Proof. unfold write_on. destruct header; [destruct body|]; done. Qed.

Lemma writer_exists h : h_mutex h <> Free -> send_blocked h = false -> exists l, joining_label l = true /\ comes l h.
Proof.
  intros Hm Hb. exists (YWrite [SkError]). split; [done|]. unfold comes, send_blocked in *. cbn. unfold write_step.
  destruct (h_mutex h) as [|origin p hd bd]; [done|]. rewrite Hb. pose proof (error_returns hd bd (h_wire h)).
  destruct (write_on _ _ _ _ _) as [[[[] wire] hd'] bd']; by eauto.
Qed.

Lemma worker_exists h :
  writing_inv h -> shut_inv h -> joining (h_main h) = true -> send_blocked h = false -> h_worker h <> PcStopped ->
  exists l, joining_label l = true /\ comes l h.
Proof.
  intros Hi [_ Hsa Hsr] Hj Hb Hw. destruct (decide (h_mutex h = Free)) as [Hm|]; [|by apply writer_exists].
  unfold writing_inv in Hi. rewrite Hm in Hi.
  assert (Hstep : is_Some (worker_step h) -> exists l, joining_label l = true /\ comes l h) by (intros; by exists YStep).
  assert (Hs : h_listen_shut h = true) by (apply Hsa; intros E; by rewrite E in Hj). specialize (Hsr Hj).
  unfold comes. unfold worker_step, lock_and_write in Hstep. cbn in Hstep. rewrite Hm in Hstep.
  destruct (h_worker h) eqn:Ew; try done; try (by apply Hstep; eauto).
  - exists (YAccept AccError). cbn. rewrite Ew, Hs. eauto.
  - exists (YConnect 0). cbn. rewrite Ew. eauto.
  - apply Hstep. destruct greet; eauto.
  - exists (YRead true [SkZero]). cbn. rewrite Ew, Hsr by done. eauto.
  - exists (YHandle 0). cbn. rewrite Ew. destruct (LinuxHandle _ _ _) as [[reply d] sd]. eauto.
Qed.

(** [main] or the thread it waits for has such a step. *)
Lemma helper_exists h :
  writing_inv h -> shut_inv h -> (h_main h = HmRunning -> main_idle h = true) ->
  ((h_main h = HmStopping \/ h_main h = HmJoining) -> send_blocked h = false) ->
  h_main h <> HmDetached -> h_main h <> HmDestroyed ->
  exists l, (joining_label l || match l with YStop | YShutdown | YDetach => true | _ => false end) = true /\ comes l h.
Proof.
  intros Hi Hsh Hidle Hb Hnd Hne.
  assert (Hw : (exists l, joining_label l = true /\ comes l h) ->
    exists l, (joining_label l || match l with YStop | YShutdown | YDetach => true | _ => false end) = true /\ comes l h)
    by (intros (l & Hl & ?); exists l; by rewrite Hl).
  destruct (h_main h) eqn:Em; try done.
  - exists YStop. split; [done|]. unfold comes. cbn. rewrite Em. specialize (Hidle eq_refl). unfold main_idle in Hidle.
    apply andb_prop in Hidle as [Hs%negb_true_iff ->]. rewrite Hs. cbn. eauto.
  - destruct (decide (h_mutex h = Free)) as [Hm|]; [|apply Hw, writer_exists; auto]. exists YShutdown. unfold comes. cbn.
    rewrite Em, Hm. eauto.
  - destruct (decide (h_worker h = PcStopped)) as [Hp|]; [|apply Hw, worker_exists; rewrite ?Em; auto]. exists YDetach.
    unfold comes. cbn. rewrite Em, Hp. eauto.
Qed.

(** *** The system comes to rest *)

Definition returning (s : Quit * LinuxHelper S) : Prop :=
  return_inv s /\
  ((in_service (q_pc s.1) = true /\ main_idle s.2 = true /\ asked parent_pid (h_quits s.2) s.1) \/ has_left (q_pc s.1) = true).

Definition returned (s : Quit * LinuxHelper S) : Prop :=
  q_pc s.1 = QmClosing 2 /\ h_main s.2 = HmDestroyed /\ backend_gone s.2 = true.
(** [SocketServer::Stop] waits for a writer, or joins a worker that does. *)
Definition stop_waits (h : LinuxHelper S) : Prop := (h_main h = HmStopping \/ h_main h = HmJoining) /\ send_blocked h = true.
Definition at_rest (s : Quit * LinuxHelper S) : Prop := returned s \/ stop_waits s.2.
#[export] Instance at_rest_dec s : Decision (at_rest s).
Proof. unfold at_rest, returned, stop_waits. apply _. Defined.

Lemma left_not_serving pc : has_left pc = true -> in_service pc = false.
Proof. by destruct pc. Qed.

(** Serving the request. *)
Lemma serving_step l q h s' :
  returning (q, h) -> in_service (q_pc q) = true -> sys_toward l = true -> sys_exec parent_pid l (q, h) = Some s' ->
  returning s' /\ (return_todo s' < return_todo (q, h))%nat.
Proof.
  intros [Hi Hph] Hs Hl E. pose proof (return_inv_step _ _ _ E Hi) as Hi'. destruct Hph as [(_ & Hidle & Ha)|Hleft];
    [|cbn in Hleft; by rewrite (left_not_serving _ Hleft) in Hs]. destruct l as [l|l]; [|done]. cbn in *.
  destruct (quit_exec _ _ _ _ _ _) as [q'|] eqn:Eq; [|done]. apply (inj Some) in E. subst s'.
  destruct (toward_keeps _ _ _ _ _ _ _ Hl Eq) as [Hpc Ha'].
  assert (Hph : in_service (q_pc q') = true \/ q_pc q' = QmLeft) by auto. split.
  - split; [done|]. cbn. destruct Hph as [Hph|Hph]; [left; auto|right; by rewrite Hph].
  - pose proof (quit_todo_step _ _ _ _ _ _ _ Hl Eq). unfold return_todo. cbn.
    destruct (qi_watch _ _ _ _ (ri_sys _ Hi')) as (_ & Hst & _). cbn in Hst.
    assert (tear_todo (q_pc q') = 9%nat /\ tear_todo (q_pc q) = 9%nat /\ join_todo (q_watch q') = 0%nat) as (-> & -> & ->); [|lia].
    split_and!; [by destruct Hph as [Hph| ->]; [destruct (q_pc q')|]|by destruct (q_pc q)|].
    unfold join_todo. rewrite Hst. by destruct Hph as [Hph| ->]; [destruct (q_pc q')|].
Qed.

(** The tear-down. *)
Lemma tearing_step l q h s' :
  returning (q, h) -> in_service (q_pc q) = false -> return_due l (q, h) = true -> sys_exec parent_pid l (q, h) = Some s' ->
  returning s' /\ (return_todo s' < return_todo (q, h))%nat.
Proof.
  intros [Hi Hph] Hs Hl E. pose proof (return_inv_step _ _ _ E Hi) as Hi'. destruct Hph as [(Hs' & _)|Hleft]; [cbn in Hs'; by rewrite Hs in Hs'|].
  unfold return_due in Hl. cbn in Hl, Hleft, Hs. rewrite Hs in Hl. destruct l as [l|l]; cbn in E.
  - destruct (quit_exec _ _ _ _ _ _) as [q'|] eqn:Eq; [|done]. apply (inj Some) in E. subst s'. split.
    + split; [done|]. right. cbn.
      destruct l; try discriminate Hl; cbn in Eq; try (destruct (main_free q); [|done]).
      * unfold deliver in Eq. destruct (q_pending q !! i); [|done]. apply (inj Some) in Eq. by subst q'.
      * by apply handler_same in Eq as [-> _].
      * unfold watch_thread_step in Eq. destruct l; [done|..]; [|destruct (truthful a q) in Eq; [|done]];
          destruct (watch_exec _ _) as [w'|]; try done; by injection Eq as <-.
      * unfold quit_tear_step in Eq. destruct (q_pc q); try done; repeat case_match; try done; by injection Eq as <-.
    + assert (Hp : (quit_todo q' + tear_todo (q_pc q') + join_todo (q_watch q') <
                    quit_todo q + tear_todo (q_pc q) + join_todo (q_watch q))%nat).
      { eapply tear_progress; [exact Hl| |exact Eq]. intros closed Ec. by rewrite Ec in Hleft. }
      unfold return_todo. cbn. lia.
  - destruct (helper_enabled l q); [|done]. destruct (helper_exec l h) as [h'|] eqn:Eh; [|done]. apply (inj Some) in E. subst s'.
    split; [by split; [done|right]|]. apply helper_progress in Eh; [|done]. unfold return_todo. cbn. lia.
Qed.

(** The destructor of the backend. *)
Lemma destroy_due q h :
  q_pc q = QmClosing 2 -> h_main h = HmDestroyed -> main_free q = true -> backend_gone h = false /\ main_idle h = true ->
  exists l, return_forced l (q, h) = true /\ is_Some (sys_exec parent_pid l (q, h)).
Proof.
  intros Epc Em Hfree [Hg Hidle]. unfold backend_gone in Hg. destruct (clipboard_ (h_disp h)) as [s|] eqn:Ed; [|done].
  pose proof Hidle as (_ & _ & Hs)%idle_parts. unfold disp_idle in Hs. rewrite Ed in Hs. apply andb_prop in Hidle as [Hidle _].
  destruct (destroy_exists s Hs) as (l & Hl & [s' E]). exists (SysHelper (YBackend l 0)). unfold return_forced, return_due. cbn. rewrite Epc.
  split; [by rewrite Hl|]. cbn. unfold helper_enabled, backend_step, backend_enabled. rewrite Epc, Hfree, Hl, Ed, Em, E, Hidle. destruct (backend_on_main l); eauto.
Qed.

Lemma tearing_exists q h :
  return_inv (q, h) -> has_left (q_pc q) = true -> ~ returned (q, h) -> ~ stop_waits h ->
  exists l, return_forced l (q, h) = true /\ is_Some (sys_exec parent_pid l (q, h)).
Proof.
  intros [Hi Hw Hidle Hcl Hal _ Hsh] Hleft Hn Hsw.
  assert (Hb : (h_main h = HmStopping \/ h_main h = HmJoining) -> send_blocked h = false)
    by (intros Hm; destruct (send_blocked h) eqn:Eb; [by destruct Hsw|done]). pose proof (left_not_serving _ Hleft) as Hs. cbn in *.
  assert (Hq : forall l, tear_label l q = true -> is_Some (quit_exec parent_pid (main_idle h) (h_quits h) (h_main h) l q) ->
    exists l, return_forced l (q, h) = true /\ is_Some (sys_exec parent_pid l (q, h))).
  { intros l Hd [q' E]. exists (SysQuit l). unfold return_forced, return_due. cbn. rewrite Hs, E, Hd. by eexists. }
  destruct (q_handlers q) as [|[[b sig] pc] hs] eqn:Eh.
  2: { apply (Hq (QHandler 0)); [done|]. cbn. unfold handler_step. rewrite Eh. cbn [lookup list_lookup]. destruct (SignalHandler (b, sig, pc) q). by eexists. }
  pose proof (main_free_nil _ Eh) as Hfree.
  destruct (qi_watch _ _ _ _ Hi) as (_ & Hst & _). pose proof (qi_helper _ _ _ _ Hi) as Hp. cbn in Hst, Hp.
  destruct (q_pc q) eqn:Epc; try discriminate Hleft; cbn in Hst, Hp.
  - apply (Hq QTear); [done|]. cbn. rewrite Hfree. unfold quit_tear_step. rewrite Epc. by eexists.
  - destruct (w_poll (q_watch q)) eqn:Ew.
    + apply (Hq QTear); [done|]. cbn. rewrite Hfree. unfold quit_tear_step. rewrite Epc, Ew. by eexists.
    + apply (Hq (QWatchThread (WlSlice true))); [cbn; by rewrite Hst|]. cbn. rewrite Ew. by eexists.
    + destruct (probe_answer q) as (a & Ha & _). apply (Hq (QWatchThread (WlPoll a))); [cbn; by rewrite Hst|]. cbn. rewrite Ha, Ew. by eexists.
    + apply (Hq QTear); [done|]. cbn. rewrite Hfree. unfold quit_tear_step. rewrite Epc, Ew. by eexists.
  - destruct (decide (h_main h = HmDetached)) as [Hm|Hm].
    + apply (Hq QTear); [done|]. cbn. rewrite Hfree. unfold quit_tear_step. rewrite Epc, Hm. by eexists.
    + destruct (helper_exists h Hw Hsh (fun _ => Hidle eq_refl (Hal Hp)) Hb Hm Hp) as (l & Hl & Hd & Hmb & [h' E]).
      exists (SysHelper l). unfold return_forced, return_due. cbn. rewrite Epc, Hd, Hmb. split; [done|].
      assert (Hen : helper_enabled l q = true) by (unfold helper_enabled; rewrite Epc, Hfree; by destruct l).
      rewrite Hen, E. by eexists.
  - destruct (decide (closed = 2)%nat) as [->|Hc].
    + destruct Hp as [Hm|Hm]; [|apply destroy_due; [done..|]; destruct (backend_gone h) eqn:Eg; [by destruct Hn|auto]]. exists (SysHelper YDestruct). unfold return_forced, return_due. cbn. unfold helper_enabled. rewrite Epc, Hfree, Hm. cbn. eauto.
    + apply (Hq QTear); [done|]. cbn. rewrite Hfree. unfold quit_tear_step. rewrite Epc.
      destruct (closed <? 2)%nat eqn:Ec; [by eexists|]. apply Nat.ltb_ge in Ec. cbn in Hcl. lia.
Qed.

(** Short of the end, and of a blocked [send], something is sure to happen. *)
Lemma forced_exists s :
  returning s -> ~ at_rest s -> exists l, return_forced l s = true /\ is_Some (sys_exec parent_pid l s).
Proof.
  destruct s as [q h]. intros [Hi Hph] Hn. unfold at_rest in Hn. cbn in Hn.
  destruct Hph as [(Hs & Hidle & Ha)|Hl]; [|apply tearing_exists; [done|done|by intros ?; apply Hn; left|by intros ?; apply Hn; right]].
  cbn in *.
  destruct (quit_step_exists _ _ _ _ (ri_sys _ Hi) Hs Ha) as (l & Hl & [q' E]). exists (SysQuit l).
  unfold return_forced, return_due. cbn in *. rewrite Hs, Hidle, E, Hl. split; [done|by eexists].
Qed.

Lemma forced_due l s : return_forced l s = true -> return_due l s = true.
Proof. by intros [? _]%andb_prop. Qed.

#[export] Instance return_rest : ComesToRest (sys_exec parent_pid).
Proof.
  refine {| rest_due := fun l s => return_due l s = true; rest_todo := return_todo; rest_kept := returning; rest_at := at_rest |}.
  - intros l [q h] s' Hl E Hk. destruct (in_service (q_pc q)) eqn:Hs; [|by eapply tearing_step].
    eapply serving_step; [done|done| |exact E]. unfold return_due in Hl. cbn in Hl. by rewrite Hs in Hl.
  - intros s Hk Hn. destruct (forced_exists s Hk Hn) as (l & Hl & E). exists l. split; [by apply forced_due|done].
Defined.
End Return.

(** ** Properties *)

(** C17: A request to quit ends the process.  Over any backend, from every state
    the helper can be in between the start of its socket server and the end of
    [main], if the event loop has ended, or if a signal has been raised or
    caught (even before the server had started), or the parent given on the
    command line is gone, or the watchdog has fired, or the worker has seen
    SHUTDOWN or the end of the connection, and the main thread is not inside a
    call, then the steps leading on - the signal handlers, the poll thread, the
    worker accepting, reading, handling and replying, the writers, and [main]
    through [exec], the two [Stop]s and their joins, [Detach], the [close]s and
    the destructors, the backend's last - are at most [return_todo] many in any
    order.  An [accept] or [read] need not return before [Stop] has shut its
    socket down, nor a [send]; when every step that is sure to come has been
    taken, [main] has returned, or it is in [SocketServer::Stop], for the lock
    or the join, because of a writer that holds [client_mutex_] in a [send] to
    a client that was not shut down and does not read. *)
Theorem helper_returns_when_asked {S L} `{PasteBackendLaws S L} `{!MainUndisturbed S L} parent_pid (s : S) inbound ls q h ls' q' h' :
  backend_alive s = true ->
  run_sys parent_pid ls (init_sys s inbound) = Some (q, h) ->
  (in_service (q_pc q) = true /\ main_idle h = true /\ asked parent_pid (h_quits h) q) \/ has_left (q_pc q) = true ->
  due_all (sys_exec parent_pid) ls' (q, h) -> run_sys parent_pid ls' (q, h) = Some (q', h') ->
  (length ls' <= return_todo (q, h))%nat /\
  ((forall l, return_forced l (q', h') = true -> sys_exec parent_pid l (q', h') = None) ->
   (q_pc q' = QmClosing 2 /\ h_main h' = HmDestroyed /\ backend_gone h' = true) \/
   ((h_main h' = HmStopping \/ h_main h' = HmJoining) /\ send_blocked h' = true)).
Proof.
  intros Hs E Ha Hl E'. pose proof (return_reachable _ _ _ _ _ Hs E) as Hi.
  destruct (due_all_bounded (sys_exec parent_pid) ls' (q, h) (q', h')) as [Hk Hn]; [by split|done|done|].
  split; [cbn in Hn; lia|]. intros Hstuck. change (at_rest (q', h')). destruct (decide (at_rest (q', h'))) as [|Hr]; [done|].
  destruct (forced_exists parent_pid _ Hk Hr) as (l & Hd & [s2 E2]). by rewrite Hstuck in E2.
Qed.

(** *** Runs *)

#[local] Existing Instance no_codec.

(** After the run in which the parent dies unseen by the first probe: SIGTERM is
    handled and ends the loop, the poll thread and the worker end, [main]
    detaches, closes the pipe and destroys. *)
Definition orphan_returns : list (SysLabel ExtLabel) :=
  orphan_quits ++ sys_quit [QTear; QWatchThread (WlSlice false); QTear] ++
  [SysHelper YStep; SysHelper YStop; SysHelper YShutdown; SysHelper YStep; SysHelper YStep; SysHelper YDetach] ++
  sys_quit [QTear; QTear; QTear] ++ [SysHelper YDestruct; SysHelper (YBackend XlDestroy 0)].

Lemma helper_returns_when_asked_witness :
  exists q h q' h', run_sys (Some 77) orphaned_run (init_sys init_ExtManager []) = Some (q, h) /\
    run_sys (Some 77) orphan_returns (q, h) = Some (q', h') /\ q_pc q' = QmClosing 2 /\ h_main h' = HmDestroyed /\
    backend_gone h' = true /\ (length orphan_returns <= return_todo (q, h))%nat.
Proof.
  do 4 eexists. split; [vm_compute; reflexivity|]. split; [vm_compute; reflexivity|]. do 3 (split; [reflexivity|]).
  eapply (helper_returns_when_asked (Some 77) init_ExtManager [] orphaned_run).
  - reflexivity.
  - vm_compute. reflexivity.
  - left. split; [reflexivity|]. split; [vm_compute; reflexivity|]. left. vm_compute. discriminate.
  - vm_compute. repeat split.
  - vm_compute. reflexivity.
Defined.
