(* ===== verification/WinMain.v ===== *)
(** * WinMain: start-up and shutdown of the Windows helper

    [wmain] of [windows/src/main.cpp] with [windows/src/session.cpp], as a
    function from the command line and the answers of the host to the exit
    code and the sequence of life-cycle actions, the destructors of the local
    variables included. *)

From S2P Require Import Prelude CommandLine.

(** ** session *)

(** [ProcessIdToSessionId]: [None] when it fails. *)
Definition GetCurrentSessionId (answer : option Z) : Z := default 0 answer.

Definition DefaultPipeName (session_id : Z) : list Z := str "\\.\pipe\leviathan-clipboard-" ++ to_string session_id.

(** ** The parent watchdog *)

Definition WAIT_OBJECT_0 : Z := 0.

(** What the thread does with the result of [WaitForMultipleObjects]: it stops
    the server or it just returns. *)
Definition RunParentWatchdog (parent_handle wait : Z) : bool :=
  if parent_handle =? 0 then false
  else if wait =? WAIT_OBJECT_0 then true
  else if wait =? WAIT_OBJECT_0 + 1 then false
  else false.

(** ** The callbacks of the pipe server and the console

    Through the global pointers; a null dispatcher answers nothing. *)

Definition ProtoMessageHandler {D} (handle : D -> list Z -> list Z) (g_dispatcher : option D) (req : list Z) : list Z :=
  match g_dispatcher with None => [] | Some d => handle d req end.
Definition OnConnectReady {D} (on_connect : D -> list Z) (g_dispatcher : option D) : list Z :=
  match g_dispatcher with None => [] | Some d => on_connect d end.

Inductive CtrlType := CtrlC | CtrlBreak | CtrlClose | CtrlShutdown | CtrlOther.
(** Whether the event is handled, and whether the server is stopped. *)
Definition ConsoleCtrlHandler (ctrl_type : CtrlType) (server : bool) : bool * bool :=
  match ctrl_type with CtrlOther => (false, false) | _ => (true, server) end.

(** ** wmain *)

Record WinHost := {
  wh_session : option Z;
  wh_iswspace : Z -> bool;
  wh_sta_start : bool;
  wh_cancel_event : Z;     (* CreateEventW; 0 on failure *)
  wh_open_process : Z;     (* OpenProcess; 0 on failure *)
  wh_wait : Z              (* the watchdog's wait *)
}.

Inductive WinComponent := WSta | WServer | WDispatcher.
#[export] Instance WinComponent_eq_dec : EqDecision WinComponent.
Proof. solve_decision. Defined.

Inductive WinAction :=
| WCreate (c : WinComponent)
| WDestroy (c : WinComponent)
| WNamePipe (name : list Z)
| WStaStart (ok : bool)
| WSetServer (set : bool)        (* g_server *)
| WSetDispatcher (set : bool)    (* g_dispatcher *)
| WStaCallbacks                  (* SetOnClipboardChanged, SetOnRenderFormat *)
| WConsole (install : bool)      (* SetConsoleCtrlHandler *)
| WOwn (handle : Z)              (* a handle wmain must close *)
| WClose (handle : Z)
| WWatch (handle cancel : Z)     (* the watchdog thread *)
| WRun
| WServerStop
| WSetCancel (cancel : Z)
| WJoin
| WReleaseSta                    (* ReleaseStaBoundResources *)
| WStaStop.

(** The handle the watchdog waits for: inherited, opened, or none. *)
Definition parent_handle (argv : list (list Z)) (h : WinHost) : Z :=
  let inherited := ParseParentHandle (wh_iswspace h) argv in
  if negb (inherited =? 0) then inherited
  else if ParseParentPid (wh_iswspace h) argv =? 0 then 0
  else wh_open_process h.

Definition pipe_name (argv : list (list Z)) (h : WinHost) : list Z :=
  match ParsePipeNameOverride argv with
  | [] => DefaultPipeName (GetCurrentSessionId (wh_session h))
  | name => name
  end.

Definition when (b : bool) (acts : list WinAction) : list WinAction := if b then acts else [].

Definition wmain (argv : list (list Z)) (h : WinHost) : Z * list WinAction :=
  if negb (wh_sta_start h) then (1, [WCreate WSta; WStaStart false; WDestroy WSta])
  else
    let parent := parent_handle argv h in
    let cancel := wh_cancel_event h in
    let has_parent := negb (parent =? 0) in
    let has_cancel := negb (cancel =? 0) in
    (0,
     [WCreate WSta; WStaStart true; WNamePipe (pipe_name argv h); WCreate WServer; WSetServer true;
      WCreate WDispatcher; WSetDispatcher true; WStaCallbacks; WConsole true] ++
     when has_cancel [WOwn cancel] ++ when has_parent [WOwn parent] ++
     when (has_parent && has_cancel) [WWatch parent cancel] ++
     [WRun; WServerStop] ++
     when has_cancel [WSetCancel cancel] ++
     when (has_parent && has_cancel) [WJoin] ++
     when has_parent [WClose parent] ++ when has_cancel [WClose cancel] ++
     [WSetDispatcher false; WReleaseSta; WStaStop; WSetServer false; WConsole false] ++
     map WDestroy [WDispatcher; WServer; WSta]).

(** ** Life times *)

Record WinWorld := {
  ww_stack : list WinComponent;
  ww_sta : bool;               (* the STA thread runs *)
  ww_callbacks : bool;         (* its callbacks point to the dispatcher *)
  ww_server : bool;            (* g_server is set *)
  ww_dispatcher : bool;        (* g_dispatcher is set *)
  ww_console : bool;
  ww_handles : list Z;         (* handles to close *)
  ww_watch : option (Z * Z);   (* the watchdog thread: what it waits for *)
  ww_cancelled : bool;
  ww_released : bool           (* the STA-bound objects are released *)
}.
Definition no_win_world : WinWorld :=
  {| ww_stack := []; ww_sta := false; ww_callbacks := false; ww_server := false; ww_dispatcher := false; ww_console := false;
     ww_handles := []; ww_watch := None; ww_cancelled := false; ww_released := false |}.

Definition has_handle (x : Z) (l : list Z) : bool := existsb (Z.eqb x) l.
Definition remove_handle (x : Z) (l : list Z) : list Z := List.filter (fun y => negb (x =? y)) l.
Definition same (a b : WinComponent) : bool :=
  match a, b with WSta, WSta => true | WServer, WServer => true | WDispatcher, WDispatcher => true | _, _ => false end.
Definition joined (wat : option (Z * Z)) : bool := match wat with None => true | Some _ => false end.

(** What each action needs: callbacks and global pointers only while their
    target lives; the STA thread releases its objects before it stops and
    stops before the dispatcher its callbacks call is destroyed; a handle is
    closed once and not while a thread waits for it; and the watchdog is joined only after its
    cancellation is signalled, so that the join returns. *)
Definition check_win (w : WinWorld) (a : WinAction) : option WinWorld :=
  let (st, sta, cb, srv, dsp, con, hs, wat, can, rel) := w in
  let guard (b : bool) (w : WinWorld) := if b then Some w else None in
  let has c := existsb (same c) st in
  match a with
  | WCreate c =>
      guard (negb (has c) && match c with WDispatcher => has WSta && has WServer | _ => true end)
        (Build_WinWorld (c :: st) sta cb srv dsp con hs wat can rel)
  | WDestroy c =>
      match st with
      | c' :: st' => guard (same c c' &&
                       match c with
                       | WDispatcher => negb dsp && negb sta && joined wat
                       | WServer => negb srv && joined wat
                       | WSta => negb sta
                       end) (Build_WinWorld st' sta cb srv dsp con hs wat can rel)
      | [] => None
      end
  | WNamePipe name => guard (match name with [] => false | _ => true end) w
  | WStaStart ok => guard (has WSta && negb sta) (Build_WinWorld st ok cb srv dsp con hs wat can rel)
  | WSetServer b => guard (has WServer) (Build_WinWorld st sta cb b dsp con hs wat can rel)
  | WSetDispatcher b => guard (has WDispatcher) (Build_WinWorld st sta cb srv b con hs wat can rel)
  | WStaCallbacks => guard (has WDispatcher && sta) (Build_WinWorld st sta true srv dsp con hs wat can rel)
  | WConsole b => guard true (Build_WinWorld st sta cb srv dsp b hs wat can rel)
  | WOwn x => guard (negb (x =? 0) && negb (has_handle x hs)) (Build_WinWorld st sta cb srv dsp con (x :: hs) wat can rel)
  | WClose x =>
      guard (has_handle x hs && match wat with Some (p, c) => negb (x =? p) && negb (x =? c) | None => true end)
        (Build_WinWorld st sta cb srv dsp con (remove_handle x hs) wat can rel)
  | WWatch p c =>
      guard (has_handle p hs && has_handle c hs && has WServer && joined wat)
        (Build_WinWorld st sta cb srv dsp con hs (Some (p, c)) can rel)
  | WRun => guard (srv && dsp && sta) w
  | WServerStop => guard (has WServer) w
  | WSetCancel c => guard (has_handle c hs) (Build_WinWorld st sta cb srv dsp con hs wat true rel)
  | WJoin => guard (can && negb (joined wat)) (Build_WinWorld st sta cb srv dsp con hs None can rel)
  | WReleaseSta => guard (sta && has WDispatcher && negb dsp) (Build_WinWorld st sta cb srv dsp con hs wat can true)
  | WStaStop => guard (sta && rel) (Build_WinWorld st false cb srv dsp con hs wat can rel)
  end.
Fixpoint check_win_all (w : WinWorld) (acts : list WinAction) : option WinWorld :=
  match acts with
  | [] => Some w
  | a :: rest => match check_win w a with Some w' => check_win_all w' rest | None => None end
  end.

(** Everything is gone. *)
Definition win_clean (w : WinWorld) : Prop :=
  ww_stack w = [] /\ ww_sta w = false /\ ww_server w = false /\ ww_dispatcher w = false /\ ww_console w = false /\
  ww_handles w = [] /\ ww_watch w = None.

(** ** Properties *)

Lemma DefaultPipeName_not_nil s : DefaultPipeName s <> [].
Proof. done. Qed.

Lemma pipe_name_not_nil argv h : pipe_name argv h <> [].
Proof. unfold pipe_name. by destruct (ParsePipeNameOverride argv). Qed.

(** Life times.  For every command line and every answer of the host (with the
    two handles, when both exist, distinct), [wmain] keeps every use inside
    the life time of what it uses and leaves nothing behind: both handles are
    closed once, after the watchdog that waits for them has been cancelled and
    joined; the objects bound to the STA thread are released on it before it
    stops, with no frame handler left; and it has stopped before the
    dispatcher its callbacks call is destroyed.  The exit code is 1 exactly
    when the STA thread did not start. *)
Theorem wmain_lifetimes argv h :
  (parent_handle argv h = 0 \/ wh_cancel_event h = 0 \/ parent_handle argv h <> wh_cancel_event h) ->
  let (rc, acts) := wmain argv h in
  (exists w, check_win_all no_win_world acts = Some w /\ win_clean w) /\ (rc = 1 <-> wh_sta_start h = false).
Proof.
  intros Hne. unfold wmain. destruct (wh_sta_start h); cbn [negb].
  2:{ split; [|done]. eexists. split; [reflexivity|]. by split_and!. }
  split; [|done]. pose proof (pipe_name_not_nil argv h) as Hp. set (name := pipe_name argv h) in *. clearbody name.
  set (p := parent_handle argv h) in *. set (c := wh_cancel_event h) in *. clearbody p c.
  destruct name as [|n0 name]; [done|]. clear Hp.
  assert (Hpc : (p =? 0) = false -> (c =? 0) = false -> (p =? c) = false /\ (c =? p) = false).
  { intros Hp Hc. apply Z.eqb_neq in Hp, Hc. split; apply Z.eqb_neq; lia. }
  destruct (p =? 0) eqn:Ep, (c =? 0) eqn:Ec; cbn [negb andb when app map];
    try (destruct (Hpc eq_refl eq_refl) as [Hpc1 Hpc2]); eexists;
    (split; [repeat (cbn; rewrite ?Z.eqb_refl, ?Ep, ?Ec, ?Hpc1, ?Hpc2); cbn; reflexivity|by split_and!]).
Qed.

Definition win_host : WinHost :=
  {| wh_session := Some 2; wh_iswspace := isspace; wh_sta_start := true; wh_cancel_event := 88; wh_open_process := 0;
     wh_wait := 0 |}.
Lemma wmain_lifetimes_witness :
  let (rc, acts) := wmain [str "helper"; str "--parent-handle=64"] win_host in
  (exists w, check_win_all no_win_world acts = Some w /\ win_clean w) /\ (rc = 1 <-> wh_sta_start win_host = false).
Proof. apply (wmain_lifetimes [str "helper"; str "--parent-handle=64"] win_host). right. right. discriminate. Defined.
