(* ===== verification/WinHelper.v ===== *)
(** * WinHelper: the Windows helper from pipe to paste

    What [wmain] leaves running: its own thread in [PipeServer::Run], which
    calls the dispatcher's handlers between two reads, and then in the
    tear-down; the writer thread; the STA thread with the tasks [RunSync] hands
    it, clipboard notifications and render requests, nested wherever a call
    pumps messages; the watchdog; and console handlers.  The components are
    those of [PipeServer], [StaWorker], [HandlerProg], [WinDispatch] and
    [DelayedRender], each driven by its own step function; this file says who
    takes which step when.  The chunk provider's calls are answered from
    outside ([ChunkProvider] models it), and so are OLE, the file system and
    the clock. *)

From S2P Require Import Prelude Win32 HelperProto ProtoWire WinCodec DelayedRender HandlerProg WinDispatch StaWorker.
From S2P Require Import Framing PipeServer WinMain.

(** ** State *)

(** Inside [SendFrame] after each of its regions, or inside [Stop]. *)
Inductive CallPc := CpNone | CpAdmit | CpPush | CpSendNotify | CpSetEvent | CpStopNotify.

(** Where a handler of [wmain]'s thread executes: there, or on the STA thread,
    as task [t], which is queued or runs. *)
Inductive Side := OnMain | Queued (t : Z) | OnSta (t : Z).

(** [wmain] from [server.Run()] on. *)
Inductive MainPc :=
| MnServe
| MnProg (releasing : bool) (p : Prog (list Z)) (side : Side) (pc : CallPc)
| MnStop (pc : CallPc)
| MnCancel
| MnJoinWatch
| MnNullDispatcher
| MnStaStop
| MnStaJoin
| MnNullServer
| MnConsoleOff
| MnDtorDispatcher
| MnDtorServer
| MnDtorSta
| MnExited
| MnTerminated.                           (* an exception left a handler *)

(** A message handler on the STA thread. *)
Inductive Act :=
| ActRender                               (* [OnRenderFormat], an entry of the render stack *)
| ActChanged (p : Prog unit) (pc : CallPc)
| ActOther
| ActDone.

Inductive WatchPc := WdNone | WdWait | WdStop (pc : CallPc) | WdDone.

(** A render: the announcement's hash, the clipboard call and the requests read
    until then. *)
Definition Rendered : Type := list Z * RenderCall * list (list Z).

Record WinHelper := {
  n_pipe : PipeState;
  n_sta : StaWorker;
  n_disp : Dispatcher;
  n_main : MainPc;
  n_stack : list RenderFrame;             (* the renders under way, innermost first *)
  n_acts : list Act;                      (* the message handlers under way, innermost first *)
  n_send : CallPc;                        (* the innermost render inside SendFrame *)
  n_task : Z;                             (* the number of the next task *)
  n_watch : WatchPc;
  n_cancelled : bool;                     (* the watchdog's cancel event *)
  n_g_dispatcher : bool;
  n_g_server : bool;
  n_console_on : bool;
  n_console : list CallPc;                (* console handlers that have loaded g_server *)
  (* history *)
  n_rendered : list Rendered;
  n_dangling : bool                       (* the STA ran a callback on the destroyed dispatcher *)
}.

#[export] Instance eta_WinHelper : Eta WinHelper := fun w =>
  {| n_pipe := n_pipe w; n_sta := n_sta w; n_disp := n_disp w; n_main := n_main w; n_stack := n_stack w;
     n_acts := n_acts w; n_send := n_send w; n_task := n_task w; n_watch := n_watch w; n_cancelled := n_cancelled w;
     n_g_dispatcher := n_g_dispatcher w; n_g_server := n_g_server w; n_console_on := n_console_on w;
     n_console := n_console w; n_rendered := n_rendered w; n_dangling := n_dangling w |}.

(** [wmain] at [server.Run()], with the watchdog running or not. *)
Definition init_win (event_created stop_created watch : bool) : WinHelper :=
  {| n_pipe := PipeServer_ctor stop_created; n_sta := started_StaWorker; n_disp := init_Dispatcher event_created;
     n_main := MnServe; n_stack := []; n_acts := []; n_send := CpNone; n_task := 0;
     n_watch := if watch then WdWait else WdNone; n_cancelled := false; n_g_dispatcher := true; n_g_server := true;
     n_console_on := true; n_console := []; n_rendered := []; n_dangling := false |}.

(** The destructor of the dispatcher has run. *)
Definition dispatcher_gone (m : MainPc) : bool :=
  match m with MnDtorServer | MnDtorSta | MnExited => true | _ => false end.

(** ** Calls into the server *)

Definition main_id : Z := 0.
Definition sta_id : Z := 1.

(** The call goes on at a later point, or returns. *)
Definition SendFrame_step (t : Z) (f : list Z) (pc : CallPc) (s : PipeState) : option (PipeState * (CallPc + bool)) :=
  match pc with
  | CpNone =>
      s' ← pipe_exec (PlSendCheck t f) s;
      Some (s', match p_active s with None => inr false | Some _ => inl CpAdmit end)
  | CpAdmit => s' ← pipe_exec (PlSendAdmit t) s; Some (s', if p_stop s then inr false else inl CpPush)
  | CpPush => s' ← pipe_exec (PlSendPush t) s; Some (s', inl CpSendNotify)
  | CpSendNotify => s' ← pipe_exec PlNotify s; Some (s', inr true)
  | _ => None
  end.

Definition Stop_step (pc : CallPc) (s : PipeState) : option (PipeState * (CallPc + unit)) :=
  match pc with
  | CpNone => s' ← pipe_exec PlStop s; Some (s', inl CpSetEvent)
  | CpSetEvent => s' ← pipe_exec PlSetEvent s; Some (s', inl CpStopNotify)
  | CpStopNotify => s' ← pipe_exec PlNotify s; Some (s', inr tt)
  | _ => None
  end.

(** ** Programs step by step *)

Definition do_call (t : Z) (ω : Answers) (pc : CallPc) (s : PipeState) {B : Set} (c : Call B)
  : option (PipeState * (CallPc + B)) :=
  match c in Call B' return option (PipeState * (CallPc + B')) with
  | CSendFrame f => SendFrame_step t f pc s
  | CServerStop => Stop_step pc s
  | c' => match pc with CpNone => Some (s, inr (ω _ c')) | _ => None end
  end.

(** A call or a locked region of a handler on thread [t]. *)
Definition prog_step {A} (t : Z) (ω : Answers) (p : Prog A) (pc : CallPc) (s : PipeState) (d : Dispatcher)
  : option (Prog A * CallPc * PipeState * Dispatcher) :=
  match p with
  | Do c k =>
      match do_call t ω pc s c with
      | Some (s', inl pc') => Some (p, pc', s', d)
      | Some (s', inr b) => Some (k b, CpNone, s', d)
      | None => None
      end
  | Locked f k => let '(b, d', _) := f d in Some (k b, CpNone, s, d')
  | _ => None
  end.

(** The handler is inside a call during which the thread may dispatch messages. *)
Definition prog_pumps {A} (p : Prog A) : bool := match p with Do c _ => pumps c | _ => false end.

(** The innermost activity of the STA thread is inside such a call. *)
Definition at_pump (w : WinHelper) : bool :=
  match frames_ (n_sta w) with
  | [] => true
  | FHandler :: _ =>
      match n_acts w with
      | ActRender :: _ => pumping (n_stack w)
      | ActChanged p _ :: _ => prog_pumps p
      | ActOther :: _ => true
      | _ => false
      end
  | FDrain (Some t) _ :: _ =>
      match n_main w with MnProg _ p (OnSta t') _ => (t =? t') && prog_pumps p | _ => false end
  | FDrain None _ :: _ => false
  end.

(** The innermost activity is a message handler. *)
Definition handler_on_top (w : WinHelper) : bool := match frames_ (n_sta w) with FHandler :: _ => true | _ => false end.
Definition task_on_top (t : Z) (w : WinHelper) : bool :=
  match frames_ (n_sta w) with FDrain (Some t') _ :: _ => t' =? t | _ => false end.

(** ** Labels *)

Inductive StaMessage := WmClipboard | WmRender (format : Z) (cache_only : bool) | WmOther.

Inductive WinLabel :=
| NPipe (l : PipeLabel)                   (* the accept loop, the writer, the client *)
| NGreet (clock : Z)
| NHandle
| NMain (ω : Answers)
| NTear (posted : bool)
| NSta (l : StaLabel)
| NMessage (m : StaMessage)
| NAct (ω : Answers)
| NRenderSend (clock now : Z)
| NRender (l : RenderLabel)
| NWatch (wait : Z)
| NConsole
| NConsoleStep (i : nat).

(** What the accept loop and the writer do by themselves; the greeting and the
    handler are calls of the dispatcher. *)
Definition autonomous (l : PipeLabel) (s : PipeState) : bool :=
  match l with
  | PlAcceptStep _ => match p_accept s with AcGreet _ => false | _ => true end
  | PlRun | PlAccept _ _ | PlPeer _ | PlServe _ | PlFlushed | PlTest | PlBlock | PlSpurious | PlPop | PlWriterExit
  | PlRoute | PlWrite _ | PlJoined => true
  | PlStop | PlSetEvent | PlNotify | PlHandled _ | PlSendCheck _ _ | PlSendAdmit _ | PlSendPush _ | PlDestroy => false
  end.

(** What the STA thread does by itself. *)
Definition sta_autonomous (l : StaLabel) : bool :=
  match l with SlPost _ | SlGet | SlNested | SlBegin | SlReturn | SlClear | SlDrop => true | _ => false end.

(** ** Steps *)

Section Helper.
Context `{Win32Strings}.

Definition on_pipe (f : PipeState -> option PipeState) (w : WinHelper) : option WinHelper :=
  s ← f (n_pipe w); Some (w <| n_pipe := s |>).
Definition on_sta_worker (l : StaLabel) (w : WinHelper) : option WinHelper :=
  s ← sta_exec l (n_sta w); Some (w <| n_sta := s |>).
Definition goto_main (m : MainPc) (w : WinHelper) : WinHelper := w <| n_main := m |>.

(** A step of the handler running for [wmain]'s thread. *)
Definition run_main (t : Z) (ω : Answers) (releasing : bool) (p : Prog (list Z)) (side : Side) (pc : CallPc) (w : WinHelper)
  : option WinHelper :=
  '(p', pc', s, d) ← prog_step t ω p pc (n_pipe w) (n_disp w);
  Some (goto_main (MnProg releasing p' side pc') (w <| n_pipe := s |> <| n_disp := d |>)).

Definition main_step (ω : Answers) (w : WinHelper) : option WinHelper :=
  match n_main w with
  | MnProg releasing p OnMain pc =>
      if negb (unposted_ (n_sta w) =? 0) then None      (* PostTask has not returned *)
      else
      match p with
      | Ret reply =>
          if releasing then Some (goto_main MnStaStop w)
          else goto_main MnServe <$> on_pipe (pipe_exec (PlHandled reply)) w
      | Throw => Some (goto_main MnTerminated w)
      | StaEnter _ =>
          goto_main (MnProg releasing p (Queued (n_task w)) CpNone) <$>
            on_sta_worker (SlPush (n_task w)) (w <| n_task := n_task w + 1 |>)
      | StaLeave _ => None
      | _ => run_main main_id ω releasing p OnMain pc w
      end
  | MnProg releasing p (OnSta t) pc =>
      if negb (task_on_top t w) then None
      else
      match p with
      | StaLeave q => goto_main (MnProg releasing q OnMain CpNone) <$> on_sta_worker SlEnd w
      | _ => run_main sta_id ω releasing p (OnSta t) pc w
      end
  | _ => None
  end.

(** The task's block begins, or the promise is broken with the queue. *)
Definition task_begins (t : Z) (w : WinHelper) : WinHelper :=
  match n_main w with
  | MnProg releasing (StaEnter k) (Queued t') _ =>
      if t =? t' then goto_main (MnProg releasing (k true) (OnSta t) CpNone) w else w
  | _ => w
  end.
Definition tasks_dropped (ts : list Z) (w : WinHelper) : WinHelper :=
  match n_main w with
  | MnProg releasing (StaEnter k) (Queued t) _ =>
      if existsb (Z.eqb t) ts then goto_main (MnProg releasing (k false) OnMain CpNone) w else w
  | _ => w
  end.

Definition act_finished (a : Act) : bool :=
  match a with ActChanged (Ret _) CpNone => true | ActOther => true | ActDone => true | _ => false end.

Definition sta_step (l : StaLabel) (w : WinHelper) : option WinHelper :=
  if negb (sta_autonomous l) then None
  else
  match l, frames_ (n_sta w), n_acts w with
  | SlNested, _, _ => if at_pump w then on_sta_worker l w else None
  | SlBegin, FDrain None (t :: _) :: _, _ => task_begins t <$> on_sta_worker l w
  | SlReturn, FHandler :: _, a :: acts => if act_finished a then (fun w' => w' <| n_acts := acts |>) <$> on_sta_worker l w else None
  | SlReturn, FHandler :: _, [] => None
  | SlDrop, _, _ => tasks_dropped (queue_ (n_sta w)) <$> on_sta_worker l w
  | _, _, _ => on_sta_worker l w
  end.

(** A callback runs on the dispatcher [wmain] owns. *)
Definition on_dispatcher (w : WinHelper) : WinHelper := w <| n_dangling := n_dangling w || dispatcher_gone (n_main w) |>.

Definition renders (out : list RenderOutput) (reqs : list (list Z)) : list Rendered :=
  out ≫= fun o => match o with ORender h c => [(h, c, reqs)] | _ => [] end.

(** An action of the innermost render, or a new one; a render that returns
    leaves its handler to return. *)
Definition render_advance (l : RenderLabel) (w : WinHelper) : option WinHelper :=
  '(y, out) ← exec l (Build_RenderSys (render_ (n_disp w)) (n_stack w));
  Some (on_dispatcher
          ((w <| n_disp := set_render (rs_state y) (n_disp w) |> <| n_stack := rs_stack y |>)
             <| n_acts := if Nat.ltb (length (rs_stack y)) (length (n_stack w)) then ActDone :: drop 1 (n_acts w) else n_acts w |>
             <| n_rendered := n_rendered w ++ renders out (map snd (p_requests (n_pipe w))) |>)).

Definition enter_act (a : Act) (w : WinHelper) : WinHelper := w <| n_acts := a :: n_acts w |>.

(** A message other than the work message is dispatched. *)
Definition message_step (m : StaMessage) (w : WinHelper) : option WinHelper :=
  if negb (at_pump w) then None
  else
    w1 ← on_sta_worker SlOther w;
    match m with
    | WmClipboard => Some (on_dispatcher (enter_act (ActChanged OnClipboardChanged CpNone) w1))
    | WmRender format cache_only =>
        w2 ← render_advance (LEnter format cache_only) w1;
        Some (enter_act (if Nat.ltb (length (n_stack w1)) (length (n_stack w2)) then ActRender else ActDone) w2)
    | WmOther => Some (enter_act ActOther w1)
    end.

(** The innermost handler goes on. *)
Definition act_step (ω : Answers) (w : WinHelper) : option WinHelper :=
  match handler_on_top w, n_acts w with
  | true, ActChanged p pc :: acts =>
      '(p', pc', s, d) ← prog_step sta_id ω p pc (n_pipe w) (n_disp w);
      Some (on_dispatcher (w <| n_pipe := s |> <| n_disp := d |> <| n_acts := ActChanged p' pc' :: acts |>))
  | _, _ => None
  end.

Definition render_on_top (w : WinHelper) : bool :=
  handler_on_top w && match n_acts w with ActRender :: _ => true | _ => false end.

Definition render_send_step (clock now : Z) (w : WinHelper) : option WinHelper :=
  match render_on_top w, n_stack w with
  | true, f :: _ =>
      match rf_pc f with
      | AtSend =>
          '(s, r) ← SendFrame_step sta_id (EncodeDataRequest (rf_hash f) (rf_requested f) clock) (n_send w) (n_pipe w);
          match r with
          | inl pc => Some (w <| n_pipe := s |> <| n_send := pc |>)
          | inr sent => render_advance (LSend clock sent now) (w <| n_pipe := s |> <| n_send := CpNone |>)
          end
      | _ => None
      end
  | _, _ => None
  end.

(** The tear-down; [posted] answers [PostThreadMessageW]. *)
Definition tear_step (posted : bool) (w : WinHelper) : option WinHelper :=
  match n_main w with
  | MnServe => match p_accept (n_pipe w) with AcDone => Some (goto_main (MnStop CpNone) w) | _ => None end
  | MnStop pc =>
      '(s, r) ← Stop_step pc (n_pipe w);
      Some (goto_main (match r with inl pc' => MnStop pc' | inr _ => MnCancel end) (w <| n_pipe := s |>))
  | MnCancel => Some (goto_main MnJoinWatch (w <| n_cancelled := true |>))
  | MnJoinWatch => match n_watch w with WdNone | WdDone => Some (goto_main MnNullDispatcher w) | _ => None end
  | MnNullDispatcher =>
      Some (goto_main (MnProg true (prog_bind (fun _ => Ret []) ReleaseStaBoundResources) OnMain CpNone)
              (w <| n_g_dispatcher := false |>))
  | MnStaStop => goto_main MnStaJoin <$> on_sta_worker (SlStop posted) w
  | MnStaJoin => goto_main MnNullServer <$> (match thread_ (n_sta w) with ThNone => Some w | _ => on_sta_worker SlJoin w end)
  | MnNullServer => Some (goto_main MnConsoleOff (w <| n_g_server := false |>))
  | MnConsoleOff => Some (goto_main MnDtorDispatcher (w <| n_console_on := false |>))
  | MnDtorDispatcher => let '(_, d, _) := Dispatcher_dtor (n_disp w) in Some (goto_main MnDtorServer (w <| n_disp := d |>))
  | MnDtorServer => goto_main MnDtorSta <$> on_pipe (pipe_exec PlDestroy) w
  | MnDtorSta => Some (goto_main MnExited w)
  | _ => None
  end.

(** [wait] answers the watchdog's [WaitForMultipleObjects]: the parent, the cancel
    event, or a failure. *)
Definition watch_step (wait : Z) (w : WinHelper) : option WinHelper :=
  match n_watch w with
  | WdWait =>
      if (wait =? WAIT_OBJECT_0 + 1) && negb (n_cancelled w) then None
      else Some (w <| n_watch := if RunParentWatchdog 1 wait then WdStop CpNone else WdDone |>)
  | WdStop pc =>
      '(s, r) ← Stop_step pc (n_pipe w);
      Some (w <| n_pipe := s |> <| n_watch := match (r : CallPc + unit) with inl pc' => WdStop pc' | inr _ => WdDone end |>)
  | _ => None
  end.

Definition console_step (i : nat) (w : WinHelper) : option WinHelper :=
  pc ← n_console w !! i;
  '(s, r) ← Stop_step pc (n_pipe w);
  Some (w <| n_pipe := s |> <| n_console := match (r : CallPc + unit) with inl pc' => <[i := pc']> (n_console w) | inr _ => delete i (n_console w) end |>).

Definition win_exec (l : WinLabel) (w : WinHelper) : option WinHelper :=
  match l with
  | NPipe l => if autonomous l (n_pipe w) then on_pipe (pipe_exec l) w else None
  | NGreet clock =>
      match p_accept (n_pipe w) with
      | AcGreet _ => on_pipe (pipe_exec (PlAcceptStep (if n_g_dispatcher w then EncodeReady clock else []))) w
      | _ => None
      end
  | NHandle =>
      match n_main w, p_accept (n_pipe w) with
      | MnServe, AcHandle _ req =>
          if n_g_dispatcher w then Some (goto_main (MnProg false (Handle req) OnMain CpNone) w)
          else on_pipe (pipe_exec (PlHandled [])) w
      | _, _ => None
      end
  | NMain ω => main_step ω w
  | NTear posted => tear_step posted w
  | NSta l => sta_step l w
  | NMessage m => message_step m w
  | NAct ω => act_step ω w
  | NRenderSend clock now => render_send_step clock now w
  | NRender l =>
      match l with
      | LWait _ _ | LPumped _ | LWake => if render_on_top w then render_advance l w else None
      | _ => None
      end
  | NWatch wait => watch_step wait w
  | NConsole => if n_console_on w && n_g_server w then Some (w <| n_console := n_console w ++ [CpNone] |>) else None
  | NConsoleStep i => console_step i w
  end.
Definition run_win : list WinLabel -> WinHelper -> option WinHelper := run_exec win_exec.
End Helper.

(** ** The server under the helper *)

(** Labels of threads other than the accept loop. *)
Definition beside (l : PipeLabel) : bool :=
  match l with
  | PlStop | PlSetEvent | PlNotify | PlSendCheck _ _ | PlSendAdmit _ | PlSendPush _ => true
  | _ => false
  end.

(** What such a step leaves alone. *)
Definition same_session (s s' : PipeState) : Prop := p_accept s' = p_accept s /\ p_requests s' = p_requests s.

Lemma beside_session l s s' : beside l = true -> pipe_exec l s = Some s' -> same_session s s'.
Proof. intros Hl He. destruct l; try done; pipe_cases He; done. Qed.

Definition side_step (s s' : PipeState) : Prop := exists l, beside l = true /\ pipe_exec l s = Some s'.

Lemma side_step_session s s' : side_step s s' -> same_session s s'.
Proof. intros (l & Hl & He). by eapply beside_session. Qed.
Lemma side_step_server s s' : side_step s s' -> server_inv s -> server_inv s'.
Proof. intros (l & Hl & He). by eapply pipe_exec_server. Qed.

Ltac bind_cases H :=
  repeat match type of H with
         | (_ ← ?m; _) = Some _ => let E := fresh "E" in destruct m as [?|] eqn:E; cbn in H; [|discriminate H]
         | mbind _ ?m = Some _ => let E := fresh "E" in destruct m as [?|] eqn:E; cbn in H; [|discriminate H]
         end.

Lemma SendFrame_step_side t f pc s s' r : SendFrame_step t f pc s = Some (s', r) -> side_step s s'.
Proof.
  unfold SendFrame_step. intros H. destruct pc; try done; bind_cases H; simplify_eq;
    by (eexists; split; [|eassumption]).
Qed.
Lemma Stop_step_side pc s s' r : Stop_step pc s = Some (s', r) -> side_step s s'.
Proof.
  unfold Stop_step. intros H. destruct pc; try done; bind_cases H; simplify_eq; by (eexists; split; [|eassumption]).
Qed.

Lemma do_call_side t ω pc s {B : Set} (c : Call B) s' r :
  do_call t ω pc s c = Some (s', r) -> s' = s \/ side_step s s'.
Proof.
  destruct c; simpl; try (destruct pc; [intros; simplify_eq; by left|done..]).
  - intros H. right. by eapply SendFrame_step_side.
  - intros H. right. by eapply Stop_step_side.
Qed.

(** A program's step on the pipe and on the dispatcher. *)
Lemma prog_step_cases {A} t ω (p p' : Prog A) pc pc' s s' d d' :
  prog_step t ω p pc s d = Some (p', pc', s', d') ->
  (s' = s \/ side_step s s') /\
  ((exists (B : Set) (c : Call B) k, p = Do c k /\ d' = d /\ (p' = p \/ exists b, p' = k b)) \/
   (exists (B : Set) (f : Dispatcher -> B * Dispatcher * list RefOp) k b, p = Locked f k /\ d' = (f d).1.2 /\ p' = k b)).
Proof.
  destruct p as [|B c k|B f k| | |]; simpl; try done.
  - destruct (do_call t ω pc s c) as [[s1 [pc1|b]]|] eqn:E; [| |done]; intros; simplify_eq;
      (split; [by eapply do_call_side|]); left; eauto 10.
  - destruct (f d) as [[b d1] rs] eqn:E. intros; simplify_eq. split; [by left|]. right. eexists _, _, _, _. by rewrite E.
Qed.

(** ** Handlers that come back *)

(** [calm on_sta p]: with every task run, [p] throws nothing, enters and leaves
    the STA thread in turns and returns on [wmain]'s thread. *)
Fixpoint calm {A} (on_sta : bool) (p : Prog A) : Prop :=
  match p with
  | Ret _ => on_sta = false
  | Do _ k => forall b, calm on_sta (k b)
  | Locked _ k => forall b, calm on_sta (k b)
  | StaEnter k => on_sta = false /\ calm true (k true)
  | StaLeave q => on_sta = true /\ calm false q
  | Throw => False
  end.

(** A block of calls and locked regions. *)
Fixpoint straight {A} (p : Prog A) : Prop :=
  match p with
  | Ret _ => True
  | Do _ k => forall b, straight (k b)
  | Locked _ k => forall b, straight (k b)
  | _ => False
  end.

Lemma straight_calm {A B} (p : Prog A) (k : A -> Prog B) side :
  straight p -> (forall a, calm side (k a)) -> calm side (prog_bind k p).
Proof. intros Hp Hk. induction p as [a|C c q IH|C f q IH| | |]; simpl in *; [apply Hk|naive_solver..]. Qed.

Lemma calm_bind {A B} (p : Prog A) (k : A -> Prog B) side :
  calm side p -> (forall a, calm false (k a)) -> calm side (prog_bind k p).
Proof.
  intros Hp Hk. revert side Hp.
  induction p as [a|C c q IH|C f q IH|q IH|q IH|]; intros side Hp; simpl in *; [by subst|naive_solver..].
Qed.

Lemma calm_RunSync_or {A B} (body : Prog B) (gone : Prog A) k :
  straight body -> (forall b, calm false (k b)) -> calm false (RunSync_or body gone k).
Proof. intros Hb Hk. split; [done|]. apply straight_calm; [done|]. intros b. by split. Qed.

Lemma calm_RunSync {B} (body : Prog B) : straight body -> calm false (RunSync body).
Proof. intros Hb. by apply calm_RunSync_or. Qed.

Section Calm.
Context `{Win32Strings}.

Lemma calm_send_chunk req data is_last err : calm false (send_chunk req data is_last err).
Proof. by repeat intros ?. Qed.
Lemma calm_error_reply m : calm false (error_reply m).
Proof. by repeat intros ?. Qed.
Lemma calm_reply_unless ok m : calm false (reply_unless ok m).
Proof. destruct ok; [done|apply calm_error_reply]. Qed.
Lemma straight_remember_files snap vdo : straight (remember_files snap vdo).
Proof. unfold remember_files. destruct (snap_content_type snap); try done. by destruct (snap_virtual_files snap). Qed.
Lemma calm_remember_files snap vdo : calm false (remember_files snap vdo).
Proof. unfold remember_files. destruct (snap_content_type snap); try done. by destruct (snap_virtual_files snap). Qed.

Lemma calm_announce sub : calm false (HandleAnnounceDelayed sub).
Proof.
  unfold HandleAnnounceDelayed. destruct (ParseAnnouncement sub) as [ann| |]; [|done|done].
  apply calm_bind; [by intros ?|intros _].
  assert (Hd : forall ct, calm false (RunSync (call (CAnnounceDelayedFormatsForType ct)) ;; Ret tt)).
  { intros ct. apply calm_bind; [apply calm_RunSync; by intros ?|done]. }
  destruct (ann_content_type ann); auto. destruct (parse_specs _) as [|sp sps]; [done|].
  destruct (ann_transfer_id ann); [done|]. apply calm_bind; [by intros ?|]. intros [o|]; [|done].
  apply calm_bind.
  - apply calm_RunSync. intros [|]; simpl; [by intros ?|done].
  - intros [[prev|]|]; [|done|]; apply calm_RunSync; by intros ?.
Qed.

Lemma calm_chunk_request sub : calm false (HandleFileChunkRequest sub).
Proof.
  unfold HandleFileChunkRequest. destruct (ParseFileChunkRequest sub) as [req| |]; [|done|done]. cbv zeta.
  apply calm_bind; [by intros ?|]. intros [path|o lindex|]; [|apply calm_bind|apply calm_send_chunk].
  - destruct path as [|c path]; [apply calm_send_chunk|]. unfold read_physical. apply calm_bind; [by intros ?|].
    intros [|]; [|apply calm_send_chunk]. apply calm_bind; [by intros ?|].
    intros [|]; [|apply calm_bind; [by intros ?|intros; apply calm_send_chunk]]. apply calm_bind; [by intros ?|].
    intros [data|]; apply calm_bind; try (by intros ?); intros; apply calm_send_chunk.
  - apply calm_RunSync. by intros ?.
  - intros r. apply calm_bind; [by intros ?|]. intros _. destruct r as [[data last]|]; apply calm_send_chunk.
Qed.

Lemma calm_Handle req : calm false (Handle req).
Proof.
  unfold Handle. destruct (ParseHelperMessage req) as [m| |]; [|done|done].
  assert (Hp : forall p msg g, (forall sub, calm false (g sub)) -> calm false (with_payload p msg g)).
  { intros [sub|] msg g Hg; [|apply calm_error_reply]. apply calm_bind; [apply Hg|done]. }
  destruct (hm_type m); try reflexivity; try apply calm_error_reply; auto using calm_announce, calm_chunk_request.
  - destruct (clipboard_data_ptr m) as [sub|]; [|apply calm_error_reply].
    destruct (ParseClipboardData sub) as [pcd| |]; try apply calm_error_reply. unfold HandleSetClipboard.
    destruct (cd_content_type pcd); try done; try (apply calm_bind; [apply calm_RunSync; by intros ?|intros; apply calm_reply_unless]).
    destruct (usable_paths _); [done|]. apply calm_bind; [apply calm_RunSync; by intros ?|intros; apply calm_reply_unless].
  - apply Hp. intros sub. by intros ?.
  - unfold HandleGetClipboard. apply calm_bind; [apply calm_RunSync; by intros ?|]. intros [[snap vdo]|]; [|by intros ?].
    apply calm_bind; [apply calm_remember_files|]. intros _. by intros ?.
  - by intros ?.
  - apply Hp. intros sub. unfold HandleFileChunkData. destruct (ParseFileChunkData sub); [by intros ?|done|done].
Qed.

Lemma calm_release : calm false (prog_bind (fun _ => Ret (@nil Z)) ReleaseStaBoundResources).
Proof.
  apply calm_bind; [|done]. unfold ReleaseStaBoundResources. apply calm_bind; [by intros ?|intros _].
  apply calm_bind; [by intros ?|]. intros in_obj. apply calm_bind.
  { destruct in_obj as [o|]; [|done]. apply calm_RunSync_or; [by intros ?|done]. }
  intros _. apply calm_bind; [by intros ?|]. intros out_obj. apply calm_bind.
  { destruct out_obj as [o|]; [|done]. apply calm_RunSync_or; [|done]. intros [|]; simpl; [intros ?|]; by intros ?. }
  intros _. apply calm_bind; [by intros ?|]. intros [|]; [|done]. apply calm_RunSync_or; [|done].
  intros [|]; simpl; [by intros ?|done].
Qed.
End Calm.

(** ** The STA thread under the helper *)

Definition tasks_of (s : StaWorker) : list Z := queue_ s ++ taken (frames_ s).
Definition running_of (s : StaWorker) : list Z := concat (map running (frames_ s)).

(** In its message loop, with no end in sight. *)
Definition pumping_on (s : StaWorker) : Prop := thread_ s = ThPump /\ (MsgQuit ∉ posted_ s) /\ quit_flag_ s = false.

Definition keeps_tasks (s s' : StaWorker) : Prop :=
  tasks_of s' = tasks_of s /\ running_of s' = running_of s /\ dropped_ s' = dropped_ s.

Lemma quit_not_in_tail m ms : MsgQuit ∉ m :: ms -> MsgQuit ∉ ms.
Proof. intros H Hin. apply H. by right. Qed.

Lemma sta_quiet_step l s s' :
  match l with SlPost _ | SlGet | SlNested | SlReturn | SlOther => true | _ => false end = true ->
  sta_exec l s = Some s' -> pumping_on s -> pumping_on s' /\ keeps_tasks s s'.
Proof.
  intros Hl He (H1 & H2 & H3). unfold pumping_on, keeps_tasks, tasks_of, running_of.
  destruct l; try done; sta_step He; cbn in *; rewrite ?taken_cons;
    repeat match goal with E : posted_ _ = _ |- _ => rewrite E in * | E : frames_ _ = _ |- _ => rewrite E in * end;
    rewrite ?taken_cons; cbn; rewrite ?app_nil_r; split_and!; try done; try (by apply quit_not_in_tail in H2);
    try (intros Hin; apply elem_of_app in Hin as [?|Hin]; [done|]; by apply list_elem_of_singleton in Hin);
    try (exfalso; apply H2; apply list_elem_of_here).
Qed.

Lemma sta_begin_step s s' t rest fs :
  frames_ s = FDrain None (t :: rest) :: fs -> sta_exec SlBegin s = Some s' -> pumping_on s ->
  pumping_on s' /\ tasks_of s' = tasks_of s /\ running_of s' = t :: running_of s /\ dropped_ s' = dropped_ s /\
  t ∈ tasks_of s.
Proof.
  intros Hf He (H1 & H2 & H3). simpl in He. rewrite Hf in He. injection He as <-.
  unfold pumping_on, tasks_of, running_of. cbn. rewrite Hf, !taken_cons. cbn. split_and!; try done.
  apply elem_of_app. right. apply list_elem_of_here.
Qed.

Lemma sta_begin_frames s s' : sta_exec SlBegin s = Some s' -> exists t rest fs, frames_ s = FDrain None (t :: rest) :: fs.
Proof. intros He. simpl in He. repeat (case_match; simplify_eq; try done). by eexists _, _, _. Qed.

(** The only task ends. *)
Lemma sta_end_step t s s' :
  match frames_ s with FDrain (Some t') _ :: _ => t' =? t | _ => false end = true ->
  sta_exec SlEnd s = Some s' -> pumping_on s -> tasks_of s = [t] -> running_of s = [t] ->
  pumping_on s' /\ tasks_of s' = [] /\ dropped_ s' = dropped_ s.
Proof.
  intros Hf He (H1 & H2 & H3) Ht Hr. simpl in He. unfold tasks_of, running_of in *.
  destruct (frames_ s) as [|[[t'|] rest|] fs] eqn:Ef; try done. injection He as <-.
  rewrite taken_cons in *. cbn in *. split; [done|]. split; [|done].
  assert (Hq : queue_ s = []) by (destruct (queue_ s) as [|x [|y q]]; [done|simplify_eq|simplify_eq]).
  rewrite Hq in *. simpl in *. injection Ht as -> Ht. done.
Qed.

(** With no task about, whatever the thread does none appears or is dropped. *)
Lemma sta_idle_step l s s' :
  sta_autonomous l = true \/ l = SlOther \/ l = SlJoin \/ (exists posted, l = SlStop posted) ->
  sta_exec l s = Some s' -> tasks_of s = [] -> tasks_of s' = [] /\ dropped_ s' = dropped_ s.
Proof.
  intros Hl He Ht. unfold tasks_of in *. apply app_eq_nil in Ht as [Hq Ht].
  destruct l; try (by destruct Hl as [?|[?|[?|[? ?]]]]); sta_step He; cbn in *;
    repeat match goal with E : frames_ _ = _ |- _ => rewrite E in * end; rewrite ?Hq in *;
    rewrite ?taken_cons in *; cbn in *; try done; rewrite ?app_nil_r; try done; by rewrite Ht.
Qed.

Lemma sta_none_step l s s' :
  sta_autonomous l = true \/ l = SlOther -> sta_exec l s = Some s' -> thread_ s = ThNone -> frames_ s = [] ->
  thread_ s' = ThNone /\ frames_ s' = [].
Proof.
  intros Hl He H1 H2. destruct l; try (by destruct Hl); sta_step He; rewrite ?H2 in *; cbn in *; first [done|congruence].
Qed.

(** ** Where the threads can be *)

(** [wmain]'s thread and the accept loop are one thread. *)
Definition main_at (m : MainPc) (a : AcceptPc) : Prop :=
  match m with
  | MnServe => a <> AcGone
  | MnProg false _ _ _ => exists h req, a = AcHandle h req
  | MnDtorSta | MnExited => a = AcGone
  | MnTerminated => False
  | _ => a = AcDone
  end.

(** The STA thread has the task [wmain]'s thread waits for, and no other. *)
Definition task_at (m : MainPc) (s : StaWorker) : Prop :=
  match m with
  | MnProg _ p OnMain _ => calm false p /\ tasks_of s = []
  | MnProg _ p (Queued t) _ => (exists k, p = StaEnter k) /\ calm false p /\ tasks_of s = [t] /\ running_of s = []
  | MnProg _ p (OnSta t) _ => calm true p /\ tasks_of s = [t] /\ running_of s = [t]
  | _ => tasks_of s = []
  end.

(** The STA thread pumps until [sta.Stop()], and is joined there. *)
Definition phase_at (m : MainPc) (s : StaWorker) : Prop :=
  match m with
  | MnStaJoin => True
  | MnNullServer | MnConsoleOff | MnDtorDispatcher | MnDtorServer | MnDtorSta | MnExited =>
      thread_ s = ThNone /\ frames_ s = []
  | _ => pumping_on s
  end.

Record base_inv (w : WinHelper) : Prop := {
  bi_server : server_inv (n_pipe w);
  bi_main : main_at (n_main w) (p_accept (n_pipe w));
  bi_sta : sta_inv (n_sta w);
  bi_task : task_at (n_main w) (n_sta w);
  bi_dropped : dropped_ (n_sta w) = [];
  bi_phase : phase_at (n_main w) (n_sta w)
}.

Definition pipe_aside (s s' : PipeState) : Prop := s' = s \/ side_step s s'.

Lemma aside_server s s' : pipe_aside s s' -> server_inv s -> server_inv s'.
Proof. intros [->|H]; [done|]. by apply side_step_server. Qed.
Lemma aside_session s s' : pipe_aside s s' -> same_session s s'.
Proof. intros [->|H]; [done|]. by apply side_step_session. Qed.

(** Steps beside [wmain]'s thread and the STA thread's bookkeeping. *)
Lemma base_frame w w' :
  base_inv w -> pipe_aside (n_pipe w) (n_pipe w') -> n_sta w' = n_sta w -> n_main w' = n_main w -> base_inv w'.
Proof.
  intros [H1 H2 H3 H4 H5 H6] Hp Hs Hm. destruct (aside_session _ _ Hp) as [Ha _].
  split; rewrite ?Hs, ?Hm, ?Ha; try done. by eapply aside_server.
Qed.

(** A step of the handler. *)
Lemma base_handler w w' releasing p p' side pc pc' :
  base_inv w -> pipe_aside (n_pipe w) (n_pipe w') -> n_sta w' = n_sta w ->
  n_main w = MnProg releasing p side pc -> n_main w' = MnProg releasing p' side pc' ->
  (forall b, calm b p -> calm b p') -> (forall t, side <> Queued t) -> base_inv w'.
Proof.
  intros [H1 H2 H3 H4 H5 H6] Hp Hs Hm Hm' Hc Hq. destruct (aside_session _ _ Hp) as [Ha _].
  rewrite Hm in *. split; rewrite ?Hs, ?Hm', ?Ha; try done; [by eapply aside_server|].
  destruct side as [|t|t]; [|by destruct (Hq t)|]; simpl in *; naive_solver.
Qed.

Lemma prog_step_calm {A} t ω (p p' : Prog A) pc pc' s s' d d' b :
  prog_step t ω p pc s d = Some (p', pc', s', d') -> calm b p -> calm b p'.
Proof.
  intros Hs. apply prog_step_cases in Hs as [_ [(B & c & k & -> & _ & [->|[x ->]])|(B & f & k & x & -> & _ & ->)]];
    simpl; auto.
Qed.

(** The accept loop and the writer take no step of [wmain]'s thread while it is
    in a handler or past [Run]. *)
Definition settled (a : AcceptPc) : bool := match a with AcHandle _ _ | AcDone | AcGone => true | _ => false end.

Lemma autonomous_settled l s s' :
  autonomous l s = true -> pipe_exec l s = Some s' -> settled (p_accept s) = true -> same_session s s'.
Proof.
  intros Ha He Hs. unfold same_session. destruct l; try done; pipe_cases He; use_pcs; try done;
    match goal with E : write_step _ _ = Some _ |- _ =>
      pose proof (write_step_frame _ _ _ E) as (_ & _ & -> & _); by apply write_step_pipe in E as (_ & _ & _ & -> & _) end.
Qed.

Lemma autonomous_alive l s s' :
  autonomous l s = true -> pipe_exec l s = Some s' -> server_inv s -> p_accept s <> AcGone -> p_accept s' <> AcGone.
Proof.
  intros Ha He Hi Hg. pose proof (si_life _ Hi) as Hl. unfold life_ok in Hl.
  destruct l; try done; pipe_cases He; use_pcs; simpl in *; try done.
  by match goal with E : write_step _ _ = Some _ |- _ => apply write_step_frame in E as (_ & _ & -> & _) end.
Qed.

Section Base.
Context `{Win32Strings}.

Lemma base_pipe l w w' : win_exec (NPipe l) w = Some w' -> base_inv w -> base_inv w'.
Proof.
  simpl. intros He Hi. destruct (autonomous l (n_pipe w)) eqn:Ea; [|done]. unfold on_pipe in He.
  destruct (pipe_exec l (n_pipe w)) as [s'|] eqn:E; simpl in He; simplify_eq. destruct Hi as [H1 H2 H3 H4 H5 H6].
  split; simpl; try done; [by eapply pipe_exec_server|].
  assert (Hs : settled (p_accept (n_pipe w)) = true -> p_accept s' = p_accept (n_pipe w)).
  { intros Hset. by apply (autonomous_settled _ _ _ Ea E). }
  destruct (n_main w) as [|[] p side pc|pc| | | | | | | | | | | |]; simpl in *; try done;
    first [by eapply autonomous_alive | destruct H2 as (h & req & E'); rewrite Hs, E' by (by rewrite E'); by eexists _, _
          | by rewrite Hs by (by rewrite H2)].
Qed.

(** A step of [Run]'s thread that is a call of the dispatcher. *)
Lemma base_run l w s' m :
  base_inv w -> pipe_exec l (n_pipe w) = Some s' -> p_accept s' <> AcGone ->
  task_at m (n_sta w) -> phase_at m (n_sta w) -> main_at m (p_accept s') ->
  base_inv (w <| n_pipe := s' |> <| n_main := m |>).
Proof. intros [H1 H2 H3 H4 H5 H6] He Hg Ht Hp Hm. split; simpl; try done. by eapply pipe_exec_server. Qed.

Lemma base_greet clock w w' : win_exec (NGreet clock) w = Some w' -> base_inv w -> base_inv w'.
Proof.
  simpl. intros He Hi. destruct (p_accept (n_pipe w)) eqn:Ea; try done. unfold on_pipe in He.
  destruct (pipe_exec _ (n_pipe w)) as [s'|] eqn:E; simpl in He; simplify_eq.
  assert (Hm : n_main w = MnServe).
  { pose proof (bi_main _ Hi) as Hm. rewrite Ea in Hm. destruct (n_main w) as [|[]| | | | | | | | | | | | |]; try done.
    by destruct Hm as (? & ? & ?). }
  assert (Hs' : p_accept s' <> AcGone) by (pipe_cases E; done).
  pose proof (base_run _ w s' (n_main w) Hi E Hs') as HH. apply HH; [apply Hi|apply Hi|by rewrite Hm].
Qed.

Lemma base_handle w w' : win_exec NHandle w = Some w' -> base_inv w -> base_inv w'.
Proof.
  simpl. intros He Hi. pose proof Hi as [H1 H2 H3 H4 H5 H6].
  destruct (n_main w) eqn:Em; try done. destruct (p_accept (n_pipe w)) as [| | | | | | | |h req| | | | | | | | | |] eqn:Ea; try done.
  destruct (n_g_dispatcher w).
  - injection He as <-. split; simpl; rewrite ?Ea; try done; [by eexists _, _|]. simpl in H4. split; [apply calm_Handle|done].
  - unfold on_pipe in He. destruct (pipe_exec _ (n_pipe w)) as [s'|] eqn:E; simpl in He; simplify_eq.
    assert (Hs' : p_accept s' <> AcGone) by (pipe_cases E; done).
    pose proof (base_run _ w s' (n_main w) Hi E Hs') as HH. apply HH; by rewrite Em.
Qed.

Lemma base_run_main t ω releasing p side pc w w' :
  run_main t ω releasing p side pc w = Some w' -> n_main w = MnProg releasing p side pc -> (forall t, side <> Queued t) ->
  base_inv w -> base_inv w'.
Proof.
  unfold run_main. intros He Hm Hq Hi.
  destruct (prog_step t ω p pc (n_pipe w) (n_disp w)) as [[[[p' pc'] s] d]|] eqn:E; simpl in He; simplify_eq.
  pose proof (prog_step_cases _ _ _ _ _ _ _ _ _ _ E) as [Hp _].
  eapply base_handler; [exact Hi|exact Hp|done|exact Hm|done| |done]. intros b. by eapply prog_step_calm.
Qed.

Lemma base_main ω w w' : win_exec (NMain ω) w = Some w' -> base_inv w -> base_inv w'.
Proof.
  simpl. unfold main_step. intros He Hi. pose proof Hi as [H1 H2 H3 H4 H5 H6].
  destruct (n_main w) as [|releasing p side pc| | | | | | | | | | | | |] eqn:Em; try done.
  destruct side as [|t|t]; [|done|].
  - destruct (negb _); [done|]. destruct H4 as [Hc Ht].
    destruct p as [reply|B c k|B f k|k|q|]; [|by eapply base_run_main|by eapply base_run_main| |done|done].
    + destruct releasing.
      * injection He as <-. split; simpl; try done. 
      * unfold on_pipe in He. destruct (pipe_exec _ (n_pipe w)) as [s'|] eqn:E; simpl in He; simplify_eq.
        assert (Hs' : p_accept s' <> AcGone) by (pipe_cases E; done).
        apply (base_run _ w s' MnServe Hi E); try done. 
    + unfold on_sta_worker in He. simpl in He. injection He as <-.
      split; simpl; try done.
      * eapply (sta_inv_step (SlPush (n_task w))); [|done]. done.
      * split; [by eexists|]. split; [done|]. unfold tasks_of in *. simpl. apply app_eq_nil in Ht as [Hq Ht].
        rewrite Hq, Ht. split; [done|]. unfold running_of. simpl.
        assert (Hr : running_of (n_sta w) ⊆+ started_ (n_sta w)).
        { rewrite (inv_started _ H3). apply submseteq_inserts_r. done. }
        clear Hr. unfold running_of. revert Ht. unfold taken. generalize (frames_ (n_sta w)). intros fs Ht.
        induction fs as [|f fs IH]; [done|]. simpl in *. apply app_eq_nil in Ht as [Hf Ht].
        apply app_eq_nil in Hf as [Hf _]. by rewrite Hf, IH.
  - destruct (task_on_top t w) eqn:Etop; simpl in He; [|done]. destruct H4 as (Hc & Ht & Hr).
    destruct p as [reply|B c k|B f k|k|q|]; [done|by eapply base_run_main|by eapply base_run_main|by destruct Hc| |done].
    unfold on_sta_worker in He. destruct (sta_exec SlEnd (n_sta w)) as [s'|] eqn:E; simpl in He; [|done].
    injection He as <-. destruct (sta_end_step t _ _ Etop E H6 Ht Hr) as (Hp' & Ht' & Hd').
    split; simpl; try done; [by eapply sta_inv_step|by destruct Hc|congruence].
Qed.

(** The STA thread's own bookkeeping. *)
Lemma base_sta_quiet l w s' :
  match l with SlPost _ | SlGet | SlNested | SlReturn | SlOther => true | _ => false end = true ->
  sta_exec l (n_sta w) = Some s' -> base_inv w -> base_inv (w <| n_sta := s' |>).
Proof.
  intros Hl He Hi. pose proof Hi as [H1 H2 H3 H4 H5 H6].
  assert (Hs : sta_inv s') by (by eapply sta_inv_step).
  assert (Hidle : tasks_of (n_sta w) = [] -> tasks_of s' = [] /\ dropped_ s' = dropped_ (n_sta w)).
  { apply (sta_idle_step l); [|done]. destruct l; try done; auto. }
  assert (Hpump : pumping_on (n_sta w) -> pumping_on s' /\ keeps_tasks (n_sta w) s') by (by apply (sta_quiet_step l)).
  assert (Hnone : thread_ (n_sta w) = ThNone -> frames_ (n_sta w) = [] -> thread_ s' = ThNone /\ frames_ s' = []).
  { apply (sta_none_step l); [|done]. destruct l; try done; auto. }
  split; simpl; try done.
  - destruct (n_main w) as [|releasing p [|t|t] pc| | | | | | | | | | | | |]; simpl in *; try (by apply Hidle); try done;
      first [destruct H4 as [? H4]; split; [done|by apply Hidle] | by destruct (Hpump H6) as (_ & -> & -> & _)].
  - destruct (n_main w) as [|releasing p [|t|t] pc| | | | | | | | | | | | |]; simpl in *;
      first [by destruct Hpump as (_ & _ & _ & ->) | destruct Hidle as [_ ->]; [tauto|done] | done].
  - destruct (n_main w) as [|releasing p [|t|t] pc| | | | | | | | | | | | |]; simpl in *; try done; try (by apply Hpump);
      destruct H6; by apply Hnone.
Qed.

(** A running task is one of those taken from the queue. *)
Lemma running_taken s : running_of s ⊆+ taken (frames_ s).
Proof.
  unfold running_of, taken. generalize (frames_ s). intros gs. induction gs as [|g gs IH]; [done|]. simpl.
  rewrite <- app_assoc. apply submseteq_app; [done|]. by apply submseteq_inserts_l.
Qed.

(** A task begins: it is the one [main] waits for. *)
Lemma base_sta_begin w s' t rest fs :
  frames_ (n_sta w) = FDrain None (t :: rest) :: fs -> sta_exec SlBegin (n_sta w) = Some s' -> base_inv w ->
  base_inv (task_begins t (w <| n_sta := s' |>)).
Proof.
  intros Hf E [H1 H2 H3 H4 H5 H6].
  assert (Hs : sta_inv s') by (by eapply sta_inv_step).
  assert (Hp : pumping_on (n_sta w)).
  { pose proof (inv_frames _ H3) as Ht. rewrite Hf in Ht. specialize (Ht ltac:(done)).
    destruct (n_main w) as [|releasing p [|t'|t'] pc| | | | | | | | | | | | |]; simpl in *; try done; try (destruct H6; congruence).
    exfalso. unfold tasks_of in H4. rewrite Hf, taken_cons in H4. by destruct (queue_ (n_sta w)). }
  destruct (sta_begin_step _ _ _ _ _ Hf E Hp) as (Hp' & Ht & Hr & Hd & Hin).
  destruct (n_main w) as [|releasing p side pc| | | | | | | | | | | | |] eqn:Em; simpl in H4; try (by rewrite H4 in Hin; apply elem_of_nil in Hin).
  destruct side as [|t'|t']; [by destruct H4 as [_ H4]; rewrite H4 in Hin; apply elem_of_nil in Hin| |].
  - destruct H4 as ([k ->] & Hc & H4 & Hr0). rewrite H4 in Hin. apply list_elem_of_singleton in Hin as ->.
    unfold task_begins. simpl n_main. cbv iota. rewrite Z.eqb_refl. split; simpl; try done; [|congruence].
    split; [by apply Hc|]. rewrite Ht, Hr, Hr0. done.
  - destruct H4 as (Hc & H4 & Hr0). exfalso. pose proof (running_taken s') as Hsub. rewrite Hr, Hr0 in Hsub.
    unfold tasks_of in Ht, H4. assert (Hl : (length (taken (frames_ s')) <= 1)%nat).
    { rewrite H4 in Ht. apply (f_equal length) in Ht. rewrite length_app in Ht. simpl in Ht. lia. }
    apply submseteq_length in Hsub. simpl in Hsub. lia.
Qed.

(** Another message's handler, and what it does to the dispatcher. *)
Lemma base_sta l w w' : win_exec (NSta l) w = Some w' -> base_inv w -> base_inv w'.
Proof.
  simpl. unfold sta_step. intros He Hi. destruct (sta_autonomous l) eqn:Ea; simpl in He; [|done].
  pose proof Hi as [H1 H2 H3 H4 H5 H6]. unfold on_sta_worker in He.
  destruct l; try done; simpl negb in He; cbv iota in He.
  - destruct (sta_exec (SlPost posted) (n_sta w)) as [s'|] eqn:E; simpl in He; simplify_eq. by apply (base_sta_quiet (SlPost posted)).
  - destruct (sta_exec SlGet (n_sta w)) as [s'|] eqn:E; cbn -[sta_exec] in He; simplify_eq. by apply (base_sta_quiet SlGet).
  - destruct (at_pump w); [|done]. destruct (sta_exec SlNested (n_sta w)) as [s'|] eqn:E; cbn -[sta_exec] in He; simplify_eq.
    by apply (base_sta_quiet SlNested).
  - destruct (sta_exec SlBegin (n_sta w)) as [s'|] eqn:E;
      [|by repeat (case_match; cbn -[sta_exec] in He; try done)].
    destruct (sta_begin_frames _ _ E) as (t & rest & fs & Hf). rewrite Hf in He. cbn -[sta_exec] in He. injection He as <-.
    by eapply base_sta_begin.
  - destruct (frames_ (n_sta w)) as [|f fs] eqn:Ef.
    { simpl in He. rewrite Ef in He. done. }
    destruct f as [run rest|].
    + destruct (sta_exec SlReturn (n_sta w)) as [s'|] eqn:E; [|by destruct (n_acts w)].
      assert (w' = w <| n_sta := s' |>) as -> by (by destruct (n_acts w); cbn -[sta_exec] in He; simplify_eq).
      by apply (base_sta_quiet SlReturn).
    + destruct (n_acts w) as [|a acts]; [done|]. destruct (act_finished a); [|done].
      destruct (sta_exec SlReturn (n_sta w)) as [s'|] eqn:E; cbn -[sta_exec] in He; simplify_eq.
      eapply base_frame; [by apply (base_sta_quiet SlReturn)|by left|done|done].
  - destruct (sta_exec SlClear (n_sta w)) as [s'|] eqn:E; cbn -[sta_exec] in He; simplify_eq.
    assert (Hs : sta_inv s') by (by eapply sta_inv_step). simpl in E. destruct (thread_ (n_sta w)) eqn:Et; try done.
    injection E as <-. destruct (n_main w) as [|releasing p [|t'|t'] pc| | | | | | | | | | | | |] eqn:Em; simpl in H6;
      first [by destruct H6; congruence|by split].
  - destruct (sta_exec SlDrop (n_sta w)) as [s'|] eqn:E; cbn -[sta_exec] in He; simplify_eq.
    assert (Hs : sta_inv s') by (by eapply sta_inv_step). simpl in E. destruct (thread_ (n_sta w)) eqn:Et; try done.
    destruct (n_main w) as [|releasing p [|t'|t'] pc| | | | | | | | | | | | |] eqn:Em; simpl in H6;
      try (by destruct H6; congruence); try done.
    unfold tasks_dropped. simpl n_main. cbv iota.
    destruct (sta_idle_step SlDrop (n_sta w) s') as [Ht Hd]; [by left|by simpl; rewrite Et|done|].
    split; simpl; rewrite ?Em; try done. congruence.
Qed.

Lemma render_advance_spec l w w' :
  render_advance l w = Some w' ->
  n_pipe w' = n_pipe w /\ n_sta w' = n_sta w /\ n_main w' = n_main w /\ n_console w' = n_console w /\
  n_watch w' = n_watch w /\ n_g_dispatcher w' = n_g_dispatcher w /\ n_dangling w' = n_dangling w || dispatcher_gone (n_main w) /\
  exists y out, exec l (Build_RenderSys (render_ (n_disp w)) (n_stack w)) = Some (y, out) /\
    n_disp w' = set_render (rs_state y) (n_disp w) /\ n_stack w' = rs_stack y /\
    n_rendered w' = n_rendered w ++ renders out (map snd (p_requests (n_pipe w))) /\
    (n_acts w' = n_acts w \/ n_acts w' = ActDone :: drop 1 (n_acts w)).
Proof.
  unfold render_advance. destruct (exec l _) as [[y out]|]; [|done]. intros [= <-]. simpl. split_and!; try done.
  exists y, out. split_and!; try done. destruct (Nat.ltb _ _); auto.
Qed.

Lemma base_render l w w' : render_advance l w = Some w' -> base_inv w -> base_inv w'.
Proof.
  intros He Hi. apply render_advance_spec in He as (E1 & E2 & E3 & _). eapply base_frame; [done|left; done|done|done].
Qed.

Lemma base_message m w w' : win_exec (NMessage m) w = Some w' -> base_inv w -> base_inv w'.
Proof.
  unfold win_exec, message_step, on_sta_worker. intros He Hi. destruct (at_pump w); cbn [negb] in He; [|done].
  destruct (sta_exec SlOther (n_sta w)) as [s'|] eqn:E; cbn -[sta_exec render_advance] in He; [|done].
  pose proof (base_sta_quiet SlOther w s' eq_refl E Hi) as Hi1. destruct m as [|format co|].
  - injection He as <-. eapply base_frame; [exact Hi1|by left|done|done].
  - destruct (render_advance _ _) as [w2|] eqn:E2; [|done]. injection He as <-. apply base_render in E2; [|done].
    eapply base_frame; [exact E2|by left|done|done].
  - injection He as <-. eapply base_frame; [exact Hi1|by left|done|done].
Qed.

Lemma base_act ω w w' : win_exec (NAct ω) w = Some w' -> base_inv w -> base_inv w'.
Proof.
  simpl. unfold act_step. intros He Hi. destruct (handler_on_top w); [|done]. destruct (n_acts w) as [|[|p pc| |] acts]; try done.
  destruct (prog_step _ _ _ _ _ _) as [[[[p' pc'] s] d]|] eqn:E; simpl in He; [|done]. injection He as <-.
  apply prog_step_cases in E as [Hp _]. eapply base_frame; [exact Hi|exact Hp|done|done].
Qed.

Lemma base_render_send clock now w w' : win_exec (NRenderSend clock now) w = Some w' -> base_inv w -> base_inv w'.
Proof.
  simpl. unfold render_send_step. intros He Hi. destruct (render_on_top w); [|done]. destruct (n_stack w) as [|f fs]; [done|].
  destruct (rf_pc f); try done. destruct (SendFrame_step _ _ _ _) as [[s r]|] eqn:E; cbn -[render_advance] in He; [|done].
  apply SendFrame_step_side in E. destruct r as [pc|sent].
  - injection He as <-. eapply base_frame; [exact Hi|by right|done|done].
  - apply base_render in He; [done|]. eapply base_frame; [exact Hi|by right|done|done].
Qed.

Lemma base_watch b w w' : win_exec (NWatch b) w = Some w' -> base_inv w -> base_inv w'.
Proof.
  simpl. unfold watch_step. intros He Hi. destruct (n_watch w) as [| |pc|]; try done.
  - destruct (_ && _); [done|]; injection He as <-; (eapply base_frame; [exact Hi|by left|done|done]).
  - destruct (Stop_step pc (n_pipe w)) as [[s r]|] eqn:E; simpl in He; [|done]. injection He as <-.
    apply Stop_step_side in E. eapply base_frame; [exact Hi|by right|done|done].
Qed.

Lemma base_console_step i w w' : win_exec (NConsoleStep i) w = Some w' -> base_inv w -> base_inv w'.
Proof.
  simpl. unfold console_step. intros He Hi. destruct (n_console w !! i) as [pc|]; simpl in He; [|done].
  destruct (Stop_step pc (n_pipe w)) as [[s r]|] eqn:E; simpl in He; [|done]. injection He as <-.
  apply Stop_step_side in E. eapply base_frame; [exact Hi|by right|done|done].
Qed.

Lemma base_goto w m :
  base_inv w -> main_at m (p_accept (n_pipe w)) -> task_at m (n_sta w) -> phase_at m (n_sta w) -> base_inv (goto_main m w).
Proof. intros [H1 H2 H3 H4 H5 H6] ???. by split. Qed.

Lemma base_tear posted w w' : win_exec (NTear posted) w = Some w' -> base_inv w -> base_inv w'.
Proof.
  simpl. unfold tear_step. intros He Hi. pose proof Hi as [H1 H2 H3 H4 H5 H6].
  destruct (n_main w) as [|releasing p side pc|pc| | | | | | | | | | | |] eqn:Em; try done; simpl in H2, H4, H6.
  - destruct (p_accept (n_pipe w)) eqn:Ea; try done. injection He as <-. apply base_goto; simpl; rewrite ?Ea; done.
  - destruct (Stop_step pc (n_pipe w)) as [[s r]|] eqn:E; simpl in He; [|done]. injection He as <-.
    apply Stop_step_side in E. pose proof (side_step_session _ _ E) as [Ea _].
    split; simpl; try done; [by eapply side_step_server|by destruct r; simpl; rewrite Ea|by destruct r|by destruct r].
  - injection He as <-. by split.
  - destruct (n_watch w); try done; injection He as <-; apply base_goto; done.
  - injection He as <-. split; simpl; try done. split; [apply calm_release|done].
  - unfold on_sta_worker in He. destruct (sta_exec (SlStop posted) (n_sta w)) as [s'|] eqn:E; cbn -[sta_exec] in He; [|done].
    injection He as <-. destruct (sta_idle_step (SlStop posted) _ _ ltac:(eauto) E H4) as [Ht Hd].
    split; simpl; try done; [by eapply sta_inv_step|congruence].
  - assert (Hj : forall s', sta_exec SlJoin (n_sta w) = Some s' -> base_inv (goto_main MnNullServer (w <| n_sta := s' |>))).
    { intros s' E. destruct (sta_idle_step SlJoin _ _ ltac:(auto) E H4) as [Ht Hd].
      assert (Hs : sta_inv s') by (by eapply sta_inv_step).
      split; simpl; try done; [congruence|]. simpl in E. destruct (thread_ (n_sta w)); try done. injection E as <-.
      split; [done|]. simpl. destruct (frames_ (n_sta w)) eqn:Ef; [done|]. pose proof (inv_frames _ Hs) as Hf.
      simpl in Hf. rewrite Ef in Hf. by specialize (Hf ltac:(done)). }
    unfold on_sta_worker in He. destruct (thread_ (n_sta w)) eqn:Et;
      try (destruct (sta_exec SlJoin (n_sta w)) as [s'|] eqn:E; cbn -[sta_exec] in He; [|done]; injection He as <-; by apply Hj).
    simpl in He. injection He as <-. apply base_goto; try done. simpl. split; [done|].
    destruct (frames_ (n_sta w)) eqn:Ef; [done|]. pose proof (inv_frames _ H3) as Hf. rewrite Ef in Hf.
    specialize (Hf ltac:(done)). congruence.
  - injection He as <-. by split.
  - injection He as <-. by split.
  - injection He as <-. by split.
  - unfold on_pipe in He. destruct (pipe_exec PlDestroy (n_pipe w)) as [s'|] eqn:E; cbn -[pipe_exec] in He; [|done].
    injection He as <-. assert (Hs : server_inv s') by (by eapply pipe_exec_server).
    split; simpl; try done. pose proof (si_life _ Hs) as Hl. unfold life_ok in Hl. simpl in E. unfold PipeServer_dtor in E. rewrite H2 in E.
    destruct (p_writer (n_pipe w)); simplify_eq; simpl in *; done.
  - injection He as <-. by split.
Qed.

Lemma win_exec_base l w w' : win_exec l w = Some w' -> base_inv w -> base_inv w'.
Proof.
  destruct l as [l|clock| |ω|posted|l|m|ω|clock now|l|b| |i].
  - apply base_pipe.
  - apply base_greet.
  - apply base_handle.
  - apply base_main.
  - apply base_tear.
  - apply base_sta.
  - apply base_message.
  - apply base_act.
  - apply base_render_send.
  - simpl. destruct l; try done; destruct (render_on_top w); try done; apply base_render.
  - apply base_watch.
  - simpl. destruct (_ && _); [|done]. intros [= <-] Hi. eapply base_frame; [exact Hi|by left|done|done].
  - apply base_console_step.
Qed.

Lemma init_base event_created stop_created watch : base_inv (init_win event_created stop_created watch).
Proof.
  split; simpl; try done; [apply ctor_inv|]. split; [done|]. split; [apply not_elem_of_nil|done].
Qed.

Lemma run_win_invariant (I : WinHelper -> Prop) :
  (forall l w w', win_exec l w = Some w' -> base_inv w -> I w -> I w') ->
  forall ls w w', run_win ls w = Some w' -> base_inv w -> I w -> base_inv w' /\ I w'.
Proof.
  intros Hstep ls w w' Hr Hb HI.
  apply (run_exec_invariant win_exec (fun w => base_inv w /\ I w) (fun _ => True)) with (ls := ls) (s := w).
  - intros l w1 w2 _ He [Hb1 HI1]. split; [by eapply win_exec_base|by eapply Hstep].
  - by apply Forall_true.
  - exact Hr.
  - done.
Qed.

Lemma reachable_base event_created stop_created watch ls w : run_win ls (init_win event_created stop_created watch) = Some w -> base_inv w.
Proof. intros Hr. by apply (run_win_invariant (fun _ => True) (fun _ _ _ _ _ _ => I) _ _ _ Hr (init_base _ _ _) I). Qed.
End Base.

(** ** Runs

    A client announces and answers a paste of text ([CF_UNICODETEXT] is 13), and
    the parent's exit brings the helper down. *)

Definition ready_answers : Answers := answering None false false.
Definition announce_frame : list Z :=
  Eval vm_compute in request_frame AnnounceDelayed kFieldAnnouncement (announcement_sub Text (str "h")) 3.
Definition provide_frame : list Z :=
  Eval vm_compute in request_frame ProvideData kFieldProvideData (provide_sub (str "h") (str "ab")) 4.
Definition asks (frame : list Z) : list WinLabel :=
  [NPipe (PlPeer (frame_bytes frame)); NPipe (PlServe [IoSync 4; IoSync (Zlen frame)]); NHandle].
Definition connects : list WinLabel :=
  [NPipe PlRun; NPipe (PlAccept (Some 7) CnSync); NPipe (PlAcceptStep []); NGreet 2; NPipe (PlAcceptStep []);
   NPipe (PlAcceptStep []); NPipe (PlAcceptStep [])].
(** A block on the STA thread of [n] steps. *)
Definition sta_block (n : nat) : list WinLabel :=
  [NSta (SlPost true); NSta SlGet; NSta SlBegin] ++ replicate n (NMain ready_answers) ++ [NSta SlReturn].
Definition announce_run : list WinLabel :=
  asks announce_frame ++ replicate 2 (NMain ready_answers) ++ sta_block 2 ++ [NMain ready_answers].
Definition paste_run : list WinLabel :=
  connects ++ announce_run ++ [NMessage (WmRender 13 false)] ++ replicate 4 (NRenderSend 6 100) ++
  asks provide_frame ++ replicate 2 (NMain ready_answers) ++
  [NRender (LWait 110 WaObject); NRender LWake; NSta SlReturn].

(** The watchdog stops the server, [Run] returns and [wmain] tears down. *)
Definition exit_run : list WinLabel :=
  [NWatch 0; NWatch 0; NWatch 0; NWatch 0; NPipe (PlAccept None CnError); NPipe (PlAcceptStep []);
   NPipe PlWriterExit; NPipe PlJoined] ++ replicate 7 (NTear true) ++ replicate 5 (NMain ready_answers) ++
  sta_block 2 ++ [NMain ready_answers; NTear true; NSta SlGet; NSta SlClear; NSta SlDrop] ++ replicate 5 (NTear true).

(** ** Tasks *)

Section Tasks.
Context `{Win32Strings}.

(** C32: No task handed to the STA thread is lost, so no handler waits for ever
    or ends in an exception.  While a request handler or the release of the
    STA-bound objects waits in [RunSync], the STA thread is in its message loop
    and has exactly that task, queued or running; otherwise it has none.  None
    was ever dropped. *)
Theorem win_tasks_served event_created stop_created watch ls w :
  run_win ls (init_win event_created stop_created watch) = Some w ->
  n_main w <> MnTerminated /\ dropped_ (n_sta w) = [] /\
  queue_ (n_sta w) ++ taken (frames_ (n_sta w)) =
    match n_main w with MnProg _ _ (Queued t) _ | MnProg _ _ (OnSta t) _ => [t] | _ => [] end /\
  match n_main w with MnProg _ _ _ _ => thread_ (n_sta w) = ThPump /\ quit_flag_ (n_sta w) = false | _ => True end.
Proof.
  intros Hr. destruct (reachable_base _ _ _ _ _ Hr) as [_ H2 _ H4 H5 H6]. unfold tasks_of in H4.
  split_and!; [|done| |].
  - intros E. by rewrite E in H2.
  - destruct (n_main w) as [|? p [|t|t] pc| | | | | | | | | | | | |]; simpl in *; try done; intuition.
  - destruct (n_main w); try done. by destruct H6 as (? & _ & ?).
Qed.
End Tasks.

(** In the middle of an announcement, with its task queued. *)
Lemma win_tasks_served_witness :
  exists w : WinHelper,
    @run_win ascii_strings (connects ++ asks announce_frame ++ replicate 2 (NMain ready_answers)) (init_win true true true) = Some w /\
    queue_ (n_sta w) ++ taken (frames_ (n_sta w)) = [0] /\ thread_ (n_sta w) = ThPump.
Proof.
  eexists. split; [vm_compute; reflexivity|].
  pose proof (@win_tasks_served ascii_strings true true true
    (connects ++ asks announce_frame ++ replicate 2 (NMain ready_answers)) _ ltac:(vm_compute; reflexivity)) as (_ & _ & Hq & Ht & _).
  by split.
Defined.
