(* ===== verification/WinPastes.v ===== *)
(** * WinPastes: what the Windows helper renders was sent by its client

    The announcements and replies the render state has seen are those of the
    requests [wmain]'s thread has handled ([pends] follows a handler's program),
    so what a render hands the clipboard can be traced to two requests, and the
    requests to the bytes of the client.  Over the runs of [WinHelper]. *)

From S2P Require Import Prelude Win32 HelperProto ProtoWire WinCodec DelayedRender HandlerProg WinDispatch StaWorker.
From S2P Require Import Framing PipeServer WinMain.
From S2P Require Import WinHelper.

(** ** Where what is rendered comes from *)

(** The render actions a request asks for. *)
Definition request_labels (req : list Z) : list RenderLabel :=
  match ParseHelperMessage req with
  | Done m =>
      match hm_type m with
      | AnnounceDelayed =>
          match announcement_ptr m with
          | Some sub => match ParseAnnouncement sub with Done ann => [LAnnounce ann] | _ => [] end
          | None => []
          end
      | ProvideData =>
          match provide_data_ptr m with
          | Some sub => match ParseProvideData sub with Done pd => [LProvide pd] | _ => [] end
          | None => []
          end
      | _ => []
      end
  | _ => []
  end.

Definition label_effect (l : RenderLabel) (s : RenderState) : RenderState :=
  match l with LAnnounce ann => announce_render ann s | LProvide pd => provide_parsed pd s | _ => s end.

(** [pends p ls]: what is left of the handler changes the render state by the
    actions [ls] and not otherwise. *)
Definition quiet_region {B} (f : Dispatcher -> B * Dispatcher * list RefOp) : Prop :=
  forall d, render_ (f d).1.2 = render_ d.
Fixpoint pends {A} (p : Prog A) (ls : list RenderLabel) : Prop :=
  match p with
  | Ret _ => ls = []
  | Do _ k => forall b, pends (k b) ls
  | Locked f k =>
      (quiet_region f /\ forall b, pends (k b) ls) \/
      (exists l, ls = [l] /\ (forall d, render_ (f d).1.2 = label_effect l (render_ d)) /\ forall b, pends (k b) [])
  | StaEnter k => forall b, pends (k b) ls
  | StaLeave q => pends q ls
  | Throw => True
  end.

Lemma pends_bind {A B} (p : Prog A) (k : A -> Prog B) ls :
  pends p [] -> (forall a, pends (k a) ls) -> pends (prog_bind k p) ls.
Proof.
  intros Hp Hk. induction p as [a|C c q IH|C f q IH|q IH|q IH|]; simpl in *; auto.
  destruct Hp as [[Hq Hp]|(l & ? & _)]; [left; auto|done].
Qed.

Lemma pends_after {A B} (p : Prog A) (k : A -> Prog B) ls :
  pends p ls -> (forall a, pends (k a) []) -> pends (prog_bind k p) ls.
Proof.
  intros Hp Hk. revert ls Hp. induction p as [a|C c q IH|C f q IH|q IH|q IH|]; intros ls Hp; simpl in *; auto.
  - subst ls. apply Hk.
  - destruct Hp as [[Hq Hp]|(l & -> & Hl & Hp)]; [left; auto|right; eauto].
Qed.

Lemma pends_RunSync_or {A B} (body : Prog B) (gone : Prog A) k ls :
  pends body [] -> pends gone ls -> (forall b, pends (k b) ls) -> pends (RunSync_or body gone k) ls.
Proof. intros Hb Hg Hk [|]; [|done]. apply pends_bind; [done|]. intros b. apply Hk. Qed.
Lemma pends_RunSync {B} (body : Prog B) : pends body [] -> pends (RunSync body) [].
Proof. intros Hb. by apply pends_RunSync_or. Qed.

Lemma pends_quiet {B : Set} (f : Dispatcher -> B * Dispatcher * list RefOp) : quiet_region f -> pends (locked f) [].
Proof. intros Hf. by left. Qed.

Lemma pends_locked {A} {B : Set} (f : Dispatcher -> B * Dispatcher * list RefOp) (k : B -> Prog A) l :
  (forall d, render_ (f d).1.2 = label_effect l (render_ d)) -> (forall b, pends (k b) []) -> pends (locked f ≫= k) [l].
Proof. intros Hf Hk. right. by exists l. Qed.

Section Pends.
Context `{Win32Strings}.

Lemma pends_send_chunk req data is_last err : pends (send_chunk req data is_last err) [].
Proof. by repeat intros ?. Qed.
Lemma pends_error_reply m : pends (error_reply m) [].
Proof. by repeat intros ?. Qed.
Lemma pends_reply_unless ok m : pends (reply_unless ok m) [].
Proof. destruct ok; [done|apply pends_error_reply]. Qed.
Lemma pends_remember_files snap vdo : pends (remember_files snap vdo) [].
Proof.
  unfold remember_files. destruct (snap_content_type snap); try done.
  destruct (snap_virtual_files snap); apply pends_quiet; by intros d.
Qed.

Lemma pends_announce ann sub :
  ParseAnnouncement sub = Done ann -> pends (HandleAnnounceDelayed sub) [LAnnounce ann].
Proof.
  intros Hp. unfold HandleAnnounceDelayed. rewrite Hp. apply pends_locked; [done|]. intros b.
  assert (Hd : forall ct, pends (RunSync (call (CAnnounceDelayedFormatsForType ct)) ;; Ret tt) []).
  { intros ct. apply pends_bind; [|done]. apply pends_RunSync. by intros ?. }
  destruct (ann_content_type ann); try apply Hd. destruct (parse_specs _) as [|sp sps]; [done|].
  destruct (ann_transfer_id ann); [done|]. apply pends_bind; [by intros ?|]. intros [o|]; [|done]. apply pends_bind.
  - apply pends_RunSync. intros [|]; simpl; [|done]. left. split; [by intros d|done].
  - intros [[prev|]|]; [|done|]; apply pends_RunSync; by intros ?.
Qed.

Lemma pends_provide sub :
  pends (HandleProvideData sub) (match ParseProvideData sub with Done pd => [LProvide pd] | _ => [] end).
Proof.
  unfold HandleProvideData, DelayedRender.HandleProvideData.
  destruct (ParseProvideData sub) as [pd| |]; [right; exists (LProvide pd); by split_and!|left..]; (split; [by intros []|done]).
Qed.

Lemma pends_chunk_request sub : pends (HandleFileChunkRequest sub) [].
Proof.
  unfold HandleFileChunkRequest. destruct (ParseFileChunkRequest sub) as [req| |]; [|done|done]. cbv zeta.
  apply pends_bind.
  { apply pends_quiet. intros d. unfold resolve. by repeat case_match. }
  intros [path|o lindex|]; [|apply pends_bind|apply pends_send_chunk].
  - destruct path as [|c path]; [apply pends_send_chunk|]. unfold read_physical. apply pends_bind; [by intros ?|].
    intros [|]; [|apply pends_send_chunk]. apply pends_bind; [by intros ?|].
    intros [|]; [|apply pends_bind; [by intros ?|intros; apply pends_send_chunk]]. apply pends_bind; [by intros ?|].
    intros [data|]; apply pends_bind; try (by intros ?); intros; apply pends_send_chunk.
  - apply pends_RunSync. by intros ?.
  - intros r. apply pends_bind; [by intros ?|]. intros _. destruct r as [[data last]|]; apply pends_send_chunk.
Qed.

Lemma pends_Handle req : pends (Handle req) (request_labels req).
Proof.
  unfold Handle, request_labels. destruct (ParseHelperMessage req) as [m| |]; [|done|done].
  assert (Hp : forall p msg g, (forall sub, pends (g sub) []) -> pends (with_payload p msg g) []).
  { intros [sub|] msg g Hg; [|apply pends_error_reply]. apply pends_bind; [apply Hg|done]. }
  destruct (hm_type m); try reflexivity; try apply pends_error_reply; auto using pends_chunk_request.
  - destruct (clipboard_data_ptr m) as [sub|]; [|apply pends_error_reply].
    destruct (ParseClipboardData sub) as [pcd| |]; try apply pends_error_reply. unfold HandleSetClipboard.
    destruct (cd_content_type pcd); try done; try (apply pends_bind; [apply pends_RunSync; by intros ?|intros; apply pends_reply_unless]).
    destruct (usable_paths _); [done|]. apply pends_bind; [apply pends_RunSync; by intros ?|intros; apply pends_reply_unless].
  - destruct (announcement_ptr m) as [sub|]; [|apply pends_error_reply].
    destruct (ParseAnnouncement sub) as [ann| |] eqn:E.
    + apply (pends_after (HandleAnnounceDelayed sub)); [by apply pends_announce|done].
    + unfold with_payload, HandleAnnounceDelayed. rewrite E. done.
    + unfold with_payload, HandleAnnounceDelayed. rewrite E. done.
  - destruct (provide_data_ptr m) as [sub|]; [|apply pends_error_reply].
    apply (pends_after (HandleProvideData sub)); [apply pends_provide|done].
  - unfold HandleGetClipboard. apply pends_bind; [apply pends_RunSync; by intros ?|]. intros [[snap vdo]|]; [|by intros ?].
    apply pends_bind; [apply pends_remember_files|]. intros _. by intros ?.
  - by intros ?.
  - apply Hp. intros sub. unfold HandleFileChunkData. destruct (ParseFileChunkData sub); [by intros ?|done|done].
Qed.

Lemma pends_release : pends (prog_bind (fun _ => Ret (@nil Z)) ReleaseStaBoundResources) [].
Proof.
  apply pends_bind; [|done]. unfold ReleaseStaBoundResources. apply pends_bind; [by intros ?|intros _].
  apply pends_bind; [by apply pends_quiet; intros d|]. intros in_obj. apply pends_bind.
  { destruct in_obj as [o|]; [|done]. apply pends_RunSync_or; by try intros ?. }
  intros _. apply pends_bind; [by apply pends_quiet; intros d|]. intros out_obj. apply pends_bind.
  { destruct out_obj as [o|]; [|done]. apply pends_RunSync_or; [|by intros ?|done]. intros [|]; simpl; [intros ?|]; by intros ?. }
  intros _. apply pends_bind; [by intros ?|]. intros [|]; [|done]. apply pends_RunSync_or; [|done|done].
  intros [|]; simpl; [by intros ?|done].
Qed.

Lemma pends_changed : pends OnClipboardChanged [].
Proof.
  unfold OnClipboardChanged. apply pends_bind.
  - unfold still_ours. apply pends_bind; [by apply pends_quiet; intros d|]. intros [o|]; [|done].
    apply pends_bind; [by intros ?|]. intros [|]; [done|]. apply pends_bind; [apply pends_quiet; intros d|by repeat intros ?].
    simpl. by destruct (bool_decide _).
  - intros [|]; [done|]. apply pends_bind; [by intros ?|]. intros [|]; [done|]. apply pends_bind; [by intros ?|].
    intros [[snap vdo]|]; [|done]. apply pends_bind; [apply pends_remember_files|]. intros _. by repeat intros ?.
Qed.

(** A step of a program, on the render state. *)
Lemma prog_step_pends {A} t ω (p p' : Prog A) pc pc' s s' d d' ls :
  prog_step t ω p pc s d = Some (p', pc', s', d') -> pends p ls ->
  (render_ d' = render_ d /\ pends p' ls) \/
  (exists l, ls = [l] /\ render_ d' = label_effect l (render_ d) /\ pends p' []).
Proof.
  intros Hs Hp. apply prog_step_cases in Hs as [_ [(B & c & k & -> & -> & [->|[x ->]])|(B & f & k & x & -> & -> & ->)]];
    simpl in Hp; [by left|left; by auto|].
  destruct Hp as [[Hq Hp]|(l & -> & Hl & Hp)]; [left; auto|right; eauto].
Qed.
End Pends.

(** The actions among a schedule's that requests ask for. *)
Definition asked (l : RenderLabel) : bool := match l with LAnnounce _ | LProvide _ => true | _ => false end.
Definition asked_of (tr : list RenderLabel) : list RenderLabel := List.filter asked tr.

Lemma asked_of_snoc tr l : asked_of (tr ++ [l]) = asked_of tr ++ (if asked l then [l] else []).
Proof. unfold asked_of. rewrite List.filter_app. simpl. by destruct (asked l). Qed.

Lemma request_labels_asked req : Forall (fun l => asked l = true) (request_labels req).
Proof. unfold request_labels. repeat case_match; by repeat constructor. Qed.

(** A schedule whose announcements and replies are those of the first requests,
    all but the last one at most. *)
Definition schedule_of (reqs : list (list Z)) (tr : list RenderLabel) : Prop :=
  exists done todo, reqs = done ++ todo /\ (length todo <= 1)%nat /\ asked_of tr = concat (map request_labels done).

Definition handling (a : AcceptPc) : list (list Z) := match a with AcHandle _ req => [req] | _ => [] end.

(** The request whose actions are still to come. *)
Definition main_pends (m : MainPc) (a : AcceptPc) (todo : list (list Z)) : Prop :=
  match m with
  | MnServe => todo = handling a
  | MnProg false p _ _ => pends p (concat (map request_labels todo))
  | MnProg true p _ _ => pends p [] /\ todo = []
  | _ => todo = []
  end.

Definition act_quiet (a : Act) : Prop := match a with ActChanged p _ => pends p [] | _ => True end.

Section Source.
Context `{Win32Strings}.

Definition rendered_ok (e : Rendered) : Prop :=
  let '(h, c, reqs) := e in
  h <> [] /\ exists tr t fmt d, schedule_of reqs tr /\ announced tr h t /\ provided tr h d /\ d <> [] /\
                             render_call t fmt d = Some c.

(** ... out of the requests read so far. *)
Definition rendered_at (reqs : list (list Z)) (e : Rendered) : Prop := rendered_ok e /\ e.2 `prefix_of` reqs.

Record source_inv (w : WinHelper) : Prop := {
  so_schedule : exists tr done todo,
    map snd (p_requests (n_pipe w)) = done ++ todo /\ (length todo <= 1)%nat /\
    asked_of tr = concat (map request_labels done) /\ main_pends (n_main w) (p_accept (n_pipe w)) todo /\
    render_inv tr (Build_RenderSys (render_ (n_disp w)) (n_stack w));
  so_acts : Forall act_quiet (n_acts w);
  so_rendered : Forall (rendered_at (map snd (p_requests (n_pipe w)))) (n_rendered w)
}.

Lemma source_frame w w' :
  source_inv w -> p_requests (n_pipe w') = p_requests (n_pipe w) ->
  (forall todo, main_pends (n_main w) (p_accept (n_pipe w)) todo -> main_pends (n_main w') (p_accept (n_pipe w')) todo) ->
  render_ (n_disp w') = render_ (n_disp w) -> n_stack w' = n_stack w -> Forall act_quiet (n_acts w') ->
  n_rendered w' = n_rendered w -> source_inv w'.
Proof.
  intros [(tr & done & todo & H1 & H2 & H3 & H4 & H5) H6 H7] Hr Hm Hd Hs Ha Ho.
  split; [|done|by rewrite Ho, Hr]. exists tr, done, todo. rewrite Hr, Hd, Hs. split_and!; auto.
Qed.

(** Steps of other threads on the pipe. *)
Lemma source_aside w w' :
  source_inv w -> pipe_aside (n_pipe w) (n_pipe w') -> n_main w' = n_main w -> render_ (n_disp w') = render_ (n_disp w) ->
  n_stack w' = n_stack w -> Forall act_quiet (n_acts w') -> n_rendered w' = n_rendered w -> source_inv w'.
Proof.
  intros Hi Hp Hm Hd Hs Ha Ho. destruct (aside_session _ _ Hp) as [Hacc Hreq].
  apply (source_frame w); try done. intros todo. by rewrite Hm, Hacc.
Qed.

Lemma label_effect_inv tr l s fs :
  asked l = true -> render_inv tr (Build_RenderSys s fs) -> render_inv (tr ++ [l]) (Build_RenderSys (label_effect l s) fs).
Proof. intros Hl Hi. destruct l; try done; [by apply announce_inv|by apply provide_inv]. Qed.

(** A step of the request's handler. *)
Lemma source_handler w w' t ω releasing p p' side pc pc' side' :
  source_inv w -> n_main w = MnProg releasing p side pc ->
  prog_step t ω p pc (n_pipe w) (n_disp w) = Some (p', pc', n_pipe w', n_disp w') ->
  n_main w' = MnProg releasing p' side' pc' -> n_stack w' = n_stack w -> n_acts w' = n_acts w ->
  n_rendered w' = n_rendered w -> source_inv w'.
Proof.
  intros Hi Hm He Hm' Hs Ha Ho. pose proof (prog_step_cases _ _ _ _ _ _ _ _ _ _ He) as [Hp _].
  destruct (aside_session _ _ Hp) as [Hacc Hreq].
  pose proof Hi as [(tr & done & todo & H1 & H2 & H3 & H4 & H5) H6 H7]. rewrite Hm in H4.
  destruct releasing; simpl in H4.
  - destruct H4 as [H4 ->]. destruct (prog_step_pends _ _ _ _ _ _ _ _ _ _ _ He H4) as [[Hd Hp']|(l & ? & _)]; [|done].
    split; [|by rewrite Ha|by rewrite Ho, Hreq]. exists tr, done, []. rewrite Hreq, Hd, Hs, Hm'. by split_and!.
  - destruct (prog_step_pends _ _ _ _ _ _ _ _ _ _ _ He H4) as [[Hd Hp']|(l & Hl & Hd & Hp')].
    + split; [|by rewrite Ha|by rewrite Ho, Hreq]. exists tr, done, todo. rewrite Hreq, Hd, Hs, Hm'. by split_and!.
    + split; [|by rewrite Ha|by rewrite Ho, Hreq]. exists (tr ++ [l]), (done ++ todo), [].
      assert (Hask : asked l = true).
      { assert (Forall (fun l => asked l = true) (concat (map request_labels todo))) as HF.
        { apply Forall_concat, Forall_map. apply Forall_true. intros req. apply request_labels_asked. }
        rewrite Hl in HF. by apply Forall_cons in HF as [? _]. }
      rewrite Hreq, Hd, Hs, Hm', app_nil_r. split_and!; [done|simpl; lia| |done|].
      * by rewrite asked_of_snoc, Hask, map_app, concat_app, Hl, H3.
      * by apply label_effect_inv.
Qed.

Definition sta_label (l : RenderLabel) : bool :=
  match l with LEnter _ _ | LSend _ _ _ | LWait _ _ | LPumped _ | LWake => true | _ => false end.

(** A step of a render. *)
Lemma source_render l w w' :
  sta_label l = true -> render_advance l w = Some w' -> source_inv w -> source_inv w'.
Proof.
  intros Hl He [(tr & done & todo & H1 & H2 & H3 & H4 & H5) H6 H7].
  apply render_advance_spec in He as (Ep & _ & Em & _ & _ & _ & _ & y & out & He & Ed & Es & Er & Ea).
  destruct (exec_inv _ _ _ _ _ H5 He) as [Hinv Hout].
  assert (Hask : asked_of (tr ++ [l]) = asked_of tr) by (rewrite asked_of_snoc; by destruct l; rewrite ?app_nil_r).
  split.
  - exists (tr ++ [l]), done, todo. rewrite Ep, Em, Ed, Es, Hask. split_and!; try done. by destruct y.
  - destruct Ea as [->| ->]; [done|]. constructor; [done|]. by apply Forall_drop.
  - rewrite Er, Ep. apply Forall_app. split; [done|]. unfold renders.
    apply Forall_forall. intros e He'. apply list_elem_of_bind in He' as (o & Heo & Hin).
    rewrite Forall_forall in Hout. specialize (Hout o Hin). destruct o as [|h c|]; try by apply elem_of_nil in Heo.
    apply list_elem_of_singleton in Heo as ->. destruct Hout as (Hh & t & fmt & d & Hann & Hpr & Hd & Hc).
    split; [|done]. split; [done|]. exists (tr ++ [l]), t, fmt, d. split_and!; try done. exists done, todo. by rewrite Hask.
Qed.

Lemma autonomous_requests l s s' :
  autonomous l s = true -> pipe_exec l s = Some s' ->
  (p_requests s' = p_requests s /\ handling (p_accept s') = handling (p_accept s)) \/
  (exists c req, p_requests s' = p_requests s ++ [(c, req)] /\ handling (p_accept s) = [] /\ handling (p_accept s') = [req]).
Proof.
  intros Ha He. destruct l; try done; pipe_cases He; use_pcs; try (left; done); try (right; by eexists _, _).
  left. match goal with E : write_step _ _ = Some _ |- _ =>
    pose proof (write_step_frame _ _ _ E) as (_ & _ & -> & _); by apply write_step_pipe in E as (_ & _ & _ & -> & _) end.
Qed.

Lemma source_pipe l w w' : win_exec (NPipe l) w = Some w' -> base_inv w -> source_inv w -> source_inv w'.
Proof.
  simpl. intros He Hb Hi. destruct (autonomous l (n_pipe w)) eqn:Ea; [|done]. unfold on_pipe in He.
  destruct (pipe_exec l (n_pipe w)) as [s'|] eqn:E; simpl in He; [|done]. injection He as <-.
  assert (Hset : settled (p_accept (n_pipe w)) = true -> source_inv (w <| n_pipe := s' |>)).
  { intros Hset. destruct (autonomous_settled _ _ _ Ea E Hset) as [Hacc Hreq].
    apply (source_frame w); simpl; try done; [|apply Hi]. intros todo. by rewrite Hacc. }
  pose proof (bi_main _ Hb) as Hm. destruct (n_main w) as [|[] p side pc|pc| | | | | | | | | | | |] eqn:Em; simpl in Hm;
    try (apply Hset; by rewrite Hm); [|by destruct Hm as (h & req & Hm); apply Hset; rewrite Hm|done].
  pose proof Hi as [(tr & done & todo & H1 & H2 & H3 & H4 & H5) H6 H7]. rewrite Em in H4. simpl in H4. subst todo.
  split; [|done|].
  2:{ simpl. eapply Forall_impl; [exact H7|]. intros e [He Hp]. split; [done|]. etrans; [exact Hp|].
      destruct (autonomous_requests _ _ _ Ea E) as [[-> _]|(c & req & -> & _)]; [done|]. rewrite map_app. by apply prefix_app_r. }
  exists tr. simpl. destruct (autonomous_requests _ _ _ Ea E) as [[-> ->]|(c & req & -> & Hh & ->)].
  - exists done, (handling (p_accept (n_pipe w))). by split_and!.
  - rewrite Hh in H1. exists done, [req]. rewrite map_app, H1, app_nil_r. by split_and!.
Qed.

(** [Run]'s thread gets the answer of a handler or of the greeting. *)
Lemma source_run l w s' :
  (exists r, l = PlHandled r) \/ (exists g, l = PlAcceptStep g /\ handling (p_accept (n_pipe w)) = []) ->
  pipe_exec l (n_pipe w) = Some s' -> source_inv w ->
  (forall todo, main_pends (n_main w) (p_accept (n_pipe w)) todo -> concat (map request_labels todo) = []) ->
  source_inv (w <| n_pipe := s' |> <| n_main := MnServe |>).
Proof.
  intros Hl He [(tr & done & todo & H1 & H2 & H3 & H4 & H5) H6 H7] Hc. specialize (Hc _ H4).
  assert (Hs : p_requests s' = p_requests (n_pipe w) /\ handling (p_accept s') = []).
  { destruct Hl as [[r ->]|(g & -> & Hh)]; pipe_cases He; use_pcs; done. }
  destruct Hs as [Hreq Hh]. split; [|done|simpl; by rewrite Hreq]. exists tr, (done ++ todo), []. simpl.
  rewrite Hreq, Hh, app_nil_r, map_app, concat_app, Hc, app_nil_r. by split_and!; [|simpl; lia|..].
Qed.

Lemma source_greet clock w w' : win_exec (NGreet clock) w = Some w' -> base_inv w -> source_inv w -> source_inv w'.
Proof.
  simpl. intros He Hb Hi. destruct (p_accept (n_pipe w)) eqn:Ea; try done. unfold on_pipe in He.
  destruct (pipe_exec _ (n_pipe w)) as [s'|] eqn:E; simpl in He; [|done]. injection He as <-.
  assert (Hm : n_main w = MnServe).
  { pose proof (bi_main _ Hb) as Hm. rewrite Ea in Hm. destruct (n_main w) as [|[]| | | | | | | | | | | | |]; try done.
    by destruct Hm as (? & ? & ?). }
  assert (Hh : handling (p_accept (n_pipe w)) = []) by (by rewrite Ea).
  pose proof (source_run _ w s' (or_intror (ex_intro _ _ (conj eq_refl Hh))) E Hi) as HH.
  rewrite Hm in *. apply HH. intros todo. simpl. by intros ->; rewrite Hh.
Qed.


(** The dispatcher's global pointer is set as long as requests may come. *)
Definition serving (m : MainPc) : bool :=
  match m with
  | MnServe | MnProg false _ _ _ | MnStop _ | MnCancel | MnJoinWatch | MnNullDispatcher => true
  | _ => false
  end.
Definition global_ok (w : WinHelper) : Prop := serving (n_main w) = true -> n_g_dispatcher w = true.

Lemma global_same w w' : n_main w' = n_main w -> n_g_dispatcher w' = n_g_dispatcher w -> global_ok w -> global_ok w'.
Proof. unfold global_ok. by intros -> ->. Qed.

Lemma global_render l w w' : render_advance l w = Some w' -> global_ok w -> global_ok w'.
Proof. intros E. apply render_advance_spec in E as (_ & _ & E1 & _ & _ & E2 & _). by apply global_same. Qed.

Lemma global_main ω w w' : main_step ω w = Some w' -> global_ok w -> global_ok w'.
Proof.
  unfold main_step, run_main, on_pipe, on_sta_worker, global_ok. intros He Hg.
  destruct (n_main w) as [|releasing p side pc| | | | | | | | | | | | |] eqn:Em; try done.
  destruct side as [|t|t]; [|done|]; (destruct (negb _); [done|]).
  - destruct p as [reply|B c k|B f k|k|q|]; try done; [destruct releasing| | |  |].
    all: try (injection He as <-; done).
    all: try (destruct (pipe_exec _ _); simpl in He; [|done]; injection He as <-; by intros _; apply Hg).
    all: try (destruct (prog_step _ _ _ _ _ _) as [[[[? ?] ?] ?]|]; simpl in He; [|done]; injection He as <-; simpl; by destruct releasing).
  - destruct p as [reply|B c k|B f k|k|q|]; try done.
    all: try (destruct (prog_step _ _ _ _ _ _) as [[[[? ?] ?] ?]|]; simpl in He; [|done]; injection He as <-; simpl; by destruct releasing).
    destruct (sta_exec _ _); simpl in He; [|done]. injection He as <-. simpl. by destruct releasing.
Qed.

Lemma global_tear posted w w' : tear_step posted w = Some w' -> global_ok w -> global_ok w'.
Proof.
  unfold tear_step, on_pipe, on_sta_worker, global_ok. intros He Hg.
  destruct (n_main w) as [|releasing p side pc|pc| | | | | | | | | | | |] eqn:Em; try done.
  - destruct (p_accept _); try done. injection He as <-. simpl. by intros _; apply Hg.
  - destruct (Stop_step _ _) as [[s r]|]; simpl in He; [|done]. injection He as <-. simpl. by destruct r; intros _; apply Hg.
  - by injection He as <-.
  - by destruct (n_watch w); try done; injection He as <-.
  - by injection He as <-.
  - destruct (sta_exec _ _); simpl in He; [|done]. by injection He as <-.
  - apply fmap_Some in He as (w1 & _ & ->). done.
  - by injection He as <-.
  - by injection He as <-.
  - by injection He as <-.
  - destruct (pipe_exec _ _); simpl in He; [|done]. by injection He as <-.
  - by injection He as <-.
Qed.

(** A task of the STA thread begins, or its promise is broken. *)
Lemma global_task_begins t w : global_ok w -> global_ok (task_begins t w).
Proof.
  unfold task_begins, global_ok. destruct (n_main w) as [|rel p side pc| | | | | | | | | | | | |] eqn:E1; try (by rewrite E1).
  destruct p; try (by rewrite E1). destruct side; try (by rewrite E1). destruct (_ =? _); [done|by rewrite E1].
Qed.
Lemma global_tasks_dropped ts w : global_ok w -> global_ok (tasks_dropped ts w).
Proof.
  unfold tasks_dropped, global_ok. destruct (n_main w) as [|rel p side pc| | | | | | | | | | | | |] eqn:E1; try (by rewrite E1).
  destruct p; try (by rewrite E1). destruct side; try (by rewrite E1). destruct (existsb _ _); [done|by rewrite E1].
Qed.

Lemma global_sta l w w' : sta_step l w = Some w' -> global_ok w -> global_ok w'.
Proof.
  pose proof global_task_begins as Hb. pose proof global_tasks_dropped as Hd.
  unfold sta_step, on_sta_worker. intros He Hg. destruct (negb _); [done|].
  destruct (sta_exec l (n_sta w)) as [s'|] eqn:E.
  - assert (Hw : global_ok (w <| n_sta := s' |>)) by done.
    repeat (case_match; simplify_eq; try done; cbn -[sta_exec] in *; rewrite ?E in *); simplify_eq; auto.
  - repeat (case_match; simplify_eq; try done; cbn -[sta_exec] in *; rewrite ?E in *); simplify_eq; auto.
Qed.

Lemma win_exec_global l w w' : win_exec l w = Some w' -> global_ok w -> global_ok w'.
Proof.
  intros He Hg. pose proof global_render as Hr.
  destruct l as [l|clock| |ω|posted|l|m|ω|clock now|l|b| |i]; unfold win_exec in He.
  - destruct (autonomous _ _); [|done]. unfold on_pipe in He. bind_cases He. by simplify_eq.
  - destruct (p_accept _); try done. unfold on_pipe in He. bind_cases He. by simplify_eq.
  - destruct (n_main w) eqn:Em; try done. destruct (p_accept _); try done. destruct (n_g_dispatcher w) eqn:Eg.
    + injection He as <-. by intros _.
    + unfold global_ok in Hg. rewrite Em, Eg in Hg. by specialize (Hg eq_refl).
  - by eapply global_main.
  - by eapply global_tear.
  - by eapply global_sta.
  - unfold message_step, on_sta_worker in He. destruct (negb _); [done|]. destruct (sta_exec _ _); cbn -[render_advance] in He; [|done].
    destruct m; [by injection He as <-| |by injection He as <-]. destruct (render_advance _ _) eqn:E; [|done]. injection He as <-.
    by apply Hr in E.
  - unfold act_step in He. destruct (handler_on_top w); [|done]. destruct (n_acts w) as [|[]]; try done.
    destruct (prog_step _ _ _ _ _ _) as [[[[? ?] ?] ?]|]; simpl in He; [|done]. by injection He as <-.
  - unfold render_send_step in He. destruct (render_on_top w); [|done]. destruct (n_stack w); [done|]. destruct (rf_pc _); try done.
    destruct (SendFrame_step _ _ _ _) as [[s ret]|]; cbn -[render_advance] in He; [|done]. destruct ret; [by injection He as <-|].
    by apply Hr in He.
  - destruct l; try done; destruct (render_on_top w); try done; by eapply Hr.
  - unfold watch_step in He. destruct (n_watch w); try done.
    + destruct (_ && _); [done|]. by injection He as <-.
    + destruct (Stop_step _ _) as [[s r]|]; simpl in He; [|done]. by injection He as <-.
  - destruct (_ && _); [|done]. by injection He as <-.
  - unfold console_step in He. destruct (n_console w !! i); simpl in He; [|done].
    destruct (Stop_step _ _) as [[s r]|]; simpl in He; [|done]. by injection He as <-.
Qed.

Lemma source_handle w w' : win_exec NHandle w = Some w' -> global_ok w -> source_inv w -> source_inv w'.
Proof.
  simpl. intros He Hg Hi. unfold global_ok in Hg. destruct (n_main w) eqn:Em; try done.
  destruct (p_accept (n_pipe w)) as [| | | | | | | |h req| | | | | | | | | |] eqn:Ea; try done.
  rewrite (Hg eq_refl) in He. injection He as <-. apply (source_frame w); simpl; try done; [|apply Hi].
  rewrite Em, Ea. simpl. intros todo ->. simpl. rewrite app_nil_r. apply pends_Handle.
Qed.

(** [wmain]'s thread goes elsewhere with nothing to come. *)
Lemma source_goto w w' :
  source_inv w -> p_requests (n_pipe w') = p_requests (n_pipe w) ->
  (forall todo, main_pends (n_main w) (p_accept (n_pipe w)) todo -> concat (map request_labels todo) = []) ->
  main_pends (n_main w') (p_accept (n_pipe w')) [] ->
  render_ (n_disp w') = render_ (n_disp w) -> n_stack w' = n_stack w -> n_acts w' = n_acts w ->
  n_rendered w' = n_rendered w -> source_inv w'.
Proof.
  intros [(tr & done & todo & H1 & H2 & H3 & H4 & H5) H6 H7] Hr Hc Hm Hd Hs Ha Ho. specialize (Hc _ H4).
  split; [|by rewrite Ha|by rewrite Ho, Hr]. exists tr, (done ++ todo), [].
  rewrite Hr, Hd, Hs, app_nil_r, map_app, concat_app, Hc, app_nil_r. by split_and!; [|simpl; lia|..].
Qed.

Lemma pends_enter_leave releasing p p' side pc side' pc' a todo :
  (forall ls, pends p ls -> pends p' ls) ->
  main_pends (MnProg releasing p side pc) a todo -> main_pends (MnProg releasing p' side' pc') a todo.
Proof. intros Hp. destruct releasing; simpl; [intros [? ?]; auto|auto]. Qed.

Lemma source_run_main t ω releasing p side pc w w' :
  run_main t ω releasing p side pc w = Some w' -> n_main w = MnProg releasing p side pc -> source_inv w -> source_inv w'.
Proof.
  unfold run_main. intros He Hm Hi.
  destruct (prog_step t ω p pc (n_pipe w) (n_disp w)) as [[[[p' pc'] s] d]|] eqn:E; simpl in He; [|done].
  injection He as <-. by eapply (source_handler w).
Qed.

Lemma source_main ω w w' : win_exec (NMain ω) w = Some w' -> base_inv w -> source_inv w -> source_inv w'.
Proof.
  simpl. unfold main_step. intros He Hb Hi. pose proof (bi_task _ Hb) as Ht.
  destruct (n_main w) as [|releasing p side pc| | | | | | | | | | | | |] eqn:Em; try done.
  destruct side as [|t|t]; [|done|].
  - destruct (negb _); [done|]. destruct Ht as [Hc _].
    destruct p as [reply|B c k|B f k|k|q|]; try done; [|by eapply source_run_main|by eapply source_run_main|].
    + destruct releasing.
      * injection He as <-. apply (source_goto w); try done. rewrite Em. simpl. by intros todo [_ ->].
      * unfold on_pipe in He. destruct (pipe_exec _ (n_pipe w)) as [s'|] eqn:E; simpl in He; [|done]. injection He as <-.
        eapply (source_run (PlHandled reply) w s'); [left; by eexists|exact E|done|].
        rewrite Em. simpl. done.
    + unfold on_sta_worker in He. simpl in He. injection He as <-. apply (source_frame w); simpl; try done; [|apply Hi].
      intros todo. rewrite Em. by apply (pends_enter_leave releasing (StaEnter k) (StaEnter k) OnMain pc (Queued 0) CpNone).
  - destruct (negb _); [done|].
    destruct p as [reply|B c k|B f k|k|q|]; try done; [by eapply source_run_main|by eapply source_run_main|].
    unfold on_sta_worker in He. destruct (sta_exec SlEnd (n_sta w)) as [s'|]; simpl in He; [|done]. injection He as <-.
    apply (source_frame w); simpl; try done; [|apply Hi]. intros todo. rewrite Em.
    by apply (pends_enter_leave releasing (StaLeave q) q (OnSta t) pc OnMain CpNone).
Qed.

Lemma source_tear posted w w' : win_exec (NTear posted) w = Some w' -> source_inv w -> source_inv w'.
Proof.
  simpl. unfold tear_step, on_sta_worker, on_pipe. intros He Hi.
  destruct (n_main w) as [|releasing p side pc|pc| | | | | | | | | | | |] eqn:Em; try done.
  - destruct (p_accept (n_pipe w)) eqn:Ea; try done. injection He as <-. apply (source_goto w); try done. rewrite Em, Ea. by intros todo ->.
  - destruct (Stop_step pc (n_pipe w)) as [[s r]|] eqn:E; simpl in He; [|done]. injection He as <-.
    apply Stop_step_side, side_step_session in E as [_ Hr].
    apply (source_goto w); try done; [rewrite Em; by intros todo ->|simpl; by destruct r].
  - injection He as <-. apply (source_goto w); try done. rewrite Em. by intros todo ->.
  - destruct (n_watch w); try done; injection He as <-; (apply (source_goto w); try done; rewrite Em; by intros todo ->).
  - injection He as <-. apply (source_goto w); try done; [rewrite Em; by intros todo ->|]. split; [apply pends_release|done].
  - apply fmap_Some in He as (w1 & He & ->). destruct (sta_exec _ _); cbn -[sta_exec] in He; [|done]. injection He as <-.
    apply (source_goto w); try done. rewrite Em. by intros todo ->.
  - apply fmap_Some in He as (w1 & He & ->).
    assert (exists s', w1 = w <| n_sta := s' |>) as [s' ->].
    { destruct (thread_ (n_sta w));
        [exists (n_sta w); injection He as <-; clear; by destruct w|..];
        (destruct (sta_exec SlJoin (n_sta w)) as [s'|]; cbn -[sta_exec] in He; [|done]; injection He as <-; exists s'; by rewrite Em). }
    apply (source_goto w); try done. rewrite Em. by intros todo ->.
  - injection He as <-. apply (source_goto w); try done. rewrite Em. by intros todo ->.
  - injection He as <-. apply (source_goto w); try done. rewrite Em. by intros todo ->.
  - injection He as <-. apply (source_goto w); try done. rewrite Em. by intros todo ->.
  - apply fmap_Some in He as (w1 & He & ->). destruct (pipe_exec PlDestroy (n_pipe w)) as [s'|] eqn:E; cbn -[pipe_exec] in He; [|done].
    injection He as <-. apply (source_goto w); try done; [|rewrite Em; by intros todo ->]. simpl. pipe_cases E; done.
  - injection He as <-. apply (source_goto w); try done. rewrite Em. by intros todo ->.
Qed.

Lemma source_sta l w w' : win_exec (NSta l) w = Some w' -> base_inv w -> source_inv w -> source_inv w'.
Proof.
  simpl. unfold sta_step. intros He Hb Hi. destruct (negb _); [done|].
  assert (Hplain : forall s', source_inv (w <| n_sta := s' |>)).
  { intros s'. apply (source_frame w); try done. apply Hi. }
  assert (Hw : forall l' w1, on_sta_worker l' w = Some w1 -> exists s', w1 = w <| n_sta := s' |>).
  { unfold on_sta_worker. intros l' w1 E. destruct (sta_exec l' (n_sta w)) as [s'|]; cbn in E; [|done]. injection E as <-. by exists s'. }
  assert (Hbegin : forall t w1, source_inv w1 -> source_inv (task_begins t w1)).
  { intros t w1 H1. unfold task_begins. destruct (n_main w1) as [|rel p side pc| | | | | | | | | | | | |] eqn:E1; try done.
    destruct p; try done. destruct side; try done. destruct (_ =? _); [|done].
    apply (source_frame w1); try done; [|apply H1]. rewrite E1. intros todo. apply pends_enter_leave. simpl. auto. }
  assert (Hdrop : forall ts w1, source_inv w1 -> source_inv (tasks_dropped ts w1)).
  { intros ts w1 H1. unfold tasks_dropped. destruct (n_main w1) as [|rel p side pc| | | | | | | | | | | | |] eqn:E1; try done.
    destruct p; try done. destruct side; try done. destruct (existsb _ _); [|done].
    apply (source_frame w1); try done; [|apply H1]. rewrite E1. intros todo. apply pends_enter_leave. simpl. auto. }
  assert (Hgo : forall l' w1, on_sta_worker l' w = Some w1 -> source_inv w1).
  { intros l' w1 E. by destruct (Hw _ _ E) as [s' ->]. }
  destruct l; try (exact (Hgo _ _ He)).
  - destruct (at_pump w); [exact (Hgo _ _ He)|done].
  - destruct (frames_ (n_sta w)) as [|[[t|] [|t' rest]|] fs]; try (exact (Hgo _ _ He)).
    apply fmap_Some in He as (w1 & He & ->). exact (Hbegin _ _ (Hgo _ _ He)).
  - destruct (frames_ (n_sta w)) as [|[run rest|] fs]; try (exact (Hgo _ _ He)); destruct (n_acts w) as [|a acts] eqn:Ea; try (exact (Hgo _ _ He)); try done.
    destruct (act_finished a); [|done]. apply fmap_Some in He as (w1 & He & ->). destruct (Hw _ _ He) as [s' ->].
    apply (source_frame w); try done. simpl. pose proof (so_acts _ Hi) as Hacts. rewrite Ea in Hacts. by apply Forall_cons in Hacts as [_ ?].
  - apply fmap_Some in He as (w1 & He & ->). exact (Hdrop _ _ (Hgo _ _ He)).
Qed.

Lemma source_message m w w' : win_exec (NMessage m) w = Some w' -> source_inv w -> source_inv w'.
Proof.
  unfold win_exec, message_step, on_sta_worker. intros He Hi. destruct (at_pump w); cbn [negb] in He; [|done].
  destruct (sta_exec SlOther (n_sta w)) as [s'|]; cbn -[sta_exec render_advance] in He; [|done].
  assert (Hi1 : source_inv (w <| n_sta := s' |>)) by (apply (source_frame w); try done; apply Hi).
  assert (Hadd : forall a w1, act_quiet a -> source_inv w1 -> source_inv (enter_act a w1)).
  { intros a w1 Ha H1. apply (source_frame w1); try done. constructor; [done|apply H1]. }
  destruct m as [|format co|].
  - injection He as <-. eapply (source_frame (enter_act (ActChanged OnClipboardChanged CpNone) (w <| n_sta := s' |>)));
      [apply Hadd; [apply pends_changed|exact Hi1]|done|done|done|done| |done].
    constructor; [apply pends_changed|apply Hi1].
  - destruct (render_advance _ _) as [w2|] eqn:E2; [|done]. injection He as <-. apply Hadd; [by match goal with |- act_quiet (if ?b then _ else _) => destruct b end|].
    by eapply (source_render (LEnter format co)).
  - injection He as <-. by apply Hadd.
Qed.

Lemma source_act ω w w' : win_exec (NAct ω) w = Some w' -> source_inv w -> source_inv w'.
Proof.
  simpl. unfold act_step. intros He Hi. destruct (handler_on_top w); [|done].
  destruct (n_acts w) as [|[|p pc| |] acts] eqn:Ea; try done.
  destruct (prog_step sta_id ω p pc (n_pipe w) (n_disp w)) as [[[[p' pc'] s] d]|] eqn:E; simpl in He; [|done]. injection He as <-.
  pose proof (so_acts _ Hi) as Hacts. rewrite Ea in Hacts. apply Forall_cons in Hacts as [Hp Hacts]. simpl in Hp.
  destruct (prog_step_pends _ _ _ _ _ _ _ _ _ _ _ E Hp) as [[Hd Hp']|(l & ? & _)]; [|done].
  apply prog_step_cases in E as [Hside _].
  apply (source_aside w); simpl; try done. by constructor.
Qed.

Lemma source_render_send clock now w w' : win_exec (NRenderSend clock now) w = Some w' -> source_inv w -> source_inv w'.
Proof.
  simpl. unfold render_send_step. intros He Hi. destruct (render_on_top w); [|done].
  destruct (n_stack w) as [|f fs] eqn:Es; [done|]. rewrite <- Es in He.
  destruct (rf_pc f); try done. destruct (SendFrame_step _ _ _ _) as [[s r]|] eqn:E; cbn -[render_advance] in He; [|done].
  apply SendFrame_step_side in E. destruct r as [pc|sent].
  - injection He as <-. apply (source_aside w); simpl; try done; [by right|apply Hi].
  - eapply source_render; [|exact He|]; [done|]. apply (source_aside w); simpl; try done; [by right|apply Hi].
Qed.

Lemma source_stop w w' :
  pipe_aside (n_pipe w) (n_pipe w') -> n_main w' = n_main w -> n_disp w' = n_disp w -> n_stack w' = n_stack w ->
  n_acts w' = n_acts w -> n_rendered w' = n_rendered w -> source_inv w -> source_inv w'.
Proof. intros Hp Hm Hd Hs Ha Ho Hi. apply (source_aside w); try done; [by rewrite Hd|rewrite Ha; apply Hi]. Qed.

Lemma win_exec_source l w w' :
  win_exec l w = Some w' -> base_inv w -> global_ok w -> source_inv w -> source_inv w'.
Proof.
  destruct l as [l|clock| |ω|posted|l|m|ω|clock now|l|b| |i]; intros He Hb Hg Hi.
  - by eapply source_pipe.
  - by eapply source_greet.
  - by eapply source_handle.
  - by eapply source_main.
  - by eapply source_tear.
  - by eapply source_sta.
  - by eapply source_message.
  - by eapply source_act.
  - by eapply source_render_send.
  - simpl in He. destruct l; try done; destruct (render_on_top w); try done; (eapply source_render; [|exact He|exact Hi]; done).
  - simpl in He. unfold watch_step in He. destruct (n_watch w) as [| |pc|]; try done.
    + destruct (_ && _); [done|]; injection He as <-; (apply (source_stop w); [by left|done..]).
    + destruct (Stop_step pc (n_pipe w)) as [[s r]|] eqn:E; simpl in He; [|done]. injection He as <-.
      apply Stop_step_side in E. apply (source_stop w); [by right|done..].
  - simpl in He. destruct (_ && _); [|done]. injection He as <-. apply (source_stop w); [by left|done..].
  - simpl in He. unfold console_step in He. destruct (n_console w !! i) as [pc|]; simpl in He; [|done].
    destruct (Stop_step pc (n_pipe w)) as [[s r]|] eqn:E; simpl in He; [|done]. injection He as <-.
    apply Stop_step_side in E. apply (source_stop w); [by right|done..].
Qed.

Lemma reachable_source event_created stop_created watch ls w :
  run_win ls (init_win event_created stop_created watch) = Some w -> base_inv w /\ source_inv w.
Proof.
  intros Hr. destruct (run_win_invariant (fun w => global_ok w /\ source_inv w)) with (ls := ls) (w := init_win event_created stop_created watch) (w' := w)
    as [Hb [_ Hs]]; try done.
  - intros l w1 w2 He Hb [Hg Hs]. split; [by eapply win_exec_global|by eapply win_exec_source].
  - apply init_base.
  - split; [by intros _|]. split; simpl; try done. exists [], [], []. split_and!; try done; simpl; lia.
Qed.
End Source.

(** ** From the schedule back to the requests *)

Definition announces (req h : list Z) (t : ClipboardContentType) : Prop :=
  exists ann, request_labels req = [LAnnounce ann] /\ ann_content_hash ann = h /\ ann_content_type ann = t.
Definition provides (req h d : list Z) : Prop :=
  exists pd, request_labels req = [LProvide pd] /\ pd_content_hash pd = h /\ pd_data pd = d.
Definition unannounced (req : list Z) : Prop := forall ann, request_labels req <> [LAnnounce ann].

Lemma request_labels_one req : request_labels req = [] \/ exists l, request_labels req = [l].
Proof. unfold request_labels. repeat case_match; eauto. Qed.

Lemma split_labels reqs x l y :
  concat (map request_labels reqs) = x ++ l :: y ->
  exists r1 r r2, reqs = r1 ++ r :: r2 /\ request_labels r = [l] /\ concat (map request_labels r1) = x /\
                  concat (map request_labels r2) = y.
Proof.
  revert x. induction reqs as [|req reqs IH]; intros x; simpl; [by destruct x|].
  destruct (request_labels_one req) as [E|[l' E]]; rewrite E; simpl.
  - intros Hx. destruct (IH x Hx) as (r1 & r & r2 & -> & H1 & H2 & H3). exists (req :: r1), r, r2. simpl. by rewrite E.
  - destruct x as [|l'' x]; simpl; intros [= -> Hx].
    + by exists [], req, reqs.
    + destruct (IH x Hx) as (r1 & r & r2 & -> & H1 & H2 & H3). exists (req :: r1), r, r2. simpl. by rewrite E, H2.
Qed.

Lemma unannounced_labels reqs : Forall not_announce (concat (map request_labels reqs)) -> Forall unannounced reqs.
Proof.
  induction reqs as [|req reqs IH]; simpl; [constructor|]. intros [H1 H2]%Forall_app. constructor; [|by apply IH].
  intros ann E. rewrite E in H1. by apply Forall_cons in H1 as [? _].
Qed.

Lemma asked_of_app a b : asked_of (a ++ b) = asked_of a ++ asked_of b.
Proof. apply List.filter_app. Qed.

Lemma not_announce_asked tr : Forall not_announce tr -> Forall not_announce (asked_of tr).
Proof. induction 1 as [|l tr Hl _ IH]; simpl; [constructor|]. destruct l; simpl; try done; by constructor. Qed.

(** The announcement in force is a last one. *)
Lemma current_hash_last tr :
  current_hash tr <> [] ->
  exists a ann b, tr = a ++ LAnnounce ann :: b /\ Forall not_announce b /\ ann_content_hash ann = current_hash tr.
Proof.
  induction tr as [|l tr IH] using rev_ind; [done|]. rewrite current_hash_snoc. intros Hne.
  destruct l as [ann|pd| |fmt co|clk s n|n a0|q|];
    first [ by exists tr, ann, []
          | destruct (IH Hne) as (a & ann & b & -> & Hb & Hh); exists a, ann;
            rewrite <- app_assoc; simpl; eexists (b ++ [_]); split; [done|]; split; [by apply Forall_app; split; [|constructor]|done] ].
Qed.

Lemma provided_requests reqs tr h d :
  schedule_of reqs tr -> h <> [] -> provided tr h d ->
  exists before ra t0 between rp after last,
    reqs = before ++ ra :: between ++ rp :: after ++ last /\ (length last <= 1)%nat /\
    announces ra h t0 /\ provides rp h d /\ Forall unannounced (between ++ after).
Proof.
  intros (done & todo & -> & Htodo & Hdone) Hh (a & pd & b & -> & Hb & Hph & Hpd & Hc).
  destruct (current_hash_last a) as (a1 & ann & a2 & -> & Ha2 & Hann); [by rewrite Hc|].
  rewrite <- app_assoc in Hdone. simpl in Hdone. rewrite asked_of_app in Hdone. simpl in Hdone.
  rewrite asked_of_app in Hdone. simpl in Hdone. symmetry in Hdone.
  destruct (split_labels _ _ _ _ Hdone) as (before & ra & rest & -> & Hra & _ & Hrest).
  destruct (split_labels _ _ _ _ Hrest) as (between & rp & after & -> & Hrp & Hbt & Haf).
  exists before, ra, (ann_content_type ann), between, rp, after, todo. split_and!.
  - repeat (rewrite <- ?app_assoc; simpl). done.
  - done.
  - exists ann. by rewrite Hann, Hc.
  - by exists pd.
  - apply Forall_app. split; apply unannounced_labels; rewrite ?Hbt, ?Haf; by apply not_announce_asked.
Qed.

Lemma announced_requests reqs tr h t :
  schedule_of reqs tr -> announced tr h t -> exists r, r ∈ reqs /\ announces r h t.
Proof.
  intros (done & todo & -> & _ & Hdone) (ann & Hin & Hh & Ht). apply list_elem_of_split in Hin as (a & b & ->).
  rewrite asked_of_app in Hdone. simpl in Hdone. symmetry in Hdone.
  destruct (split_labels _ _ _ _ Hdone) as (r1 & r & r2 & -> & Hr & _ & _). exists r. split; [set_solver|]. by exists ann.
Qed.

(** ** Provenance *)

Section Provenance.
Context `{Win32Strings}.

(** C3: Whatever the threads interleave, what a render hands the clipboard was
    sent by the client.  Among the requests read until then, in order: one
    announced the hash the render asked for; a later one, with no other
    announcement after it except perhaps the request being handled, provided
    that hash's bytes, which are not empty; and the render writes just these,
    for the type some announcement of the hash named.  And the requests are
    what the clients wrote, frame by frame. *)
Theorem win_pastes_from_peer event_created stop_created watch ls w h c reqs :
  run_win ls (init_win event_created stop_created watch) = Some w -> (h, c, reqs) ∈ n_rendered w ->
  (exists before ra t0 between rp d after last t format,
     reqs = before ++ ra :: between ++ rp :: after ++ last /\ (length last <= 1)%nat /\
     announces ra h t0 /\ provides rp h d /\ d <> [] /\ Forall unannounced (between ++ after) /\
     (exists r, r ∈ reqs /\ announces r h t) /\ render_call t format d = Some c) /\
  reqs `prefix_of` map snd (p_requests (n_pipe w)) /\
  forall client, exists rest, peer_of (n_pipe w) client = concat (map frame_bytes (requests_of client (n_pipe w))) ++ rest.
Proof.
  intros Hr Hin. destruct (reachable_source _ _ _ _ _ Hr) as [Hb Hs].
  pose proof (proj1 (Forall_forall _ _) (so_rendered _ Hs) _ Hin) as [(Hh & tr & t & fmt & d & Hsch & Han & Hpr & Hd & Hc) Hpre].
  destruct (provided_requests _ _ _ _ Hsch Hh Hpr) as (before & ra & t0 & between & rp & after & last & E & Hl & Ha & Hp & Hu).
  pose proof (announced_requests _ _ _ _ Hsch Han).
  split_and!; [by exists before, ra, t0, between, rp, d, after, last, t, fmt|done|].
  intros client. destruct (pe_streams _ (si_peer _ (bi_server _ Hb)) client) as (rest & -> & _). by exists rest.
Qed.
End Provenance.

Lemma win_pastes_from_peer_witness :
  exists w : WinHelper,
    @run_win ascii_strings paste_run (init_win true true true) = Some w /\
    n_rendered w = [(str "h", RenderTextDuringWmRenderFormat (str "ab"), [announce_frame; provide_frame])] /\
    exists rest, peer_of (n_pipe w) 0 = concat (map frame_bytes (requests_of 0 (n_pipe w))) ++ rest.
Proof.
  eexists. split; [vm_compute; reflexivity|]. split; [vm_compute; reflexivity|].
  refine (proj2 (proj2 (@win_pastes_from_peer ascii_strings true true true paste_run _ (str "h")
    (RenderTextDuringWmRenderFormat (str "ab")) [announce_frame; provide_frame] _ _)) 0);
    [vm_compute; reflexivity|]. vm_compute. left.
Defined.
