(* ===== verification/WinShutdown.v ===== *)
(** * WinShutdown: the tear-down of the Windows helper

    Who may still run when [wmain] destroys the dispatcher, the server and the
    STA worker: the STA thread and the watchdog have been joined, a console
    handler has not.  Over the runs of [WinHelper]. *)

From S2P Require Import Prelude Win32 HelperProto ProtoWire WinCodec DelayedRender HandlerProg WinDispatch StaWorker.
From S2P Require Import Framing PipeServer WinMain.
From S2P Require Import WinHelper.

(** ** Life times *)

(** The watchdog has been joined. *)
Definition watch_joined (m : MainPc) : bool :=
  match m with
  | MnNullDispatcher | MnStaStop | MnStaJoin | MnNullServer | MnConsoleOff | MnDtorDispatcher | MnDtorServer
  | MnDtorSta | MnExited | MnProg true _ _ _ => true
  | _ => false
  end.

Record life_inv (w : WinHelper) : Prop := {
  lf_watch : watch_joined (n_main w) = true -> n_watch w = WdNone \/ n_watch w = WdDone;
  lf_dispatcher : n_dangling w = false
}.

(** No console handler has come. *)
Definition no_console (w : WinHelper) : Prop := n_console w = [] /\ p_dangling (n_pipe w) = false.

Lemma pipe_dangling l s s' :
  pipe_exec l s = Some s' -> beside l = false \/ p_accept s <> AcGone -> p_dangling s' = p_dangling s.
Proof.
  intros He Hl.
  destruct l; try (destruct Hl as [Hl|Hl]; [done|]); pipe_cases He; simpl; try done;
    try (unfold destroyed; simpl; destruct (p_accept s); try done; apply orb_false_r).
  match goal with E : write_step _ _ = Some _ |- _ => apply write_step_cases in E as (h & f & sent & header & body & _ & Hc) end.
  destruct Hc as [[_ ->]|(c & w & header' & body' & _ & _ & Hc)]; [done|]. by destruct Hc as [[-> _]|[->|[-> _]]].
Qed.

Lemma side_step_dangling s s' : side_step s s' -> p_accept s <> AcGone -> p_dangling s' = p_dangling s.
Proof. intros (l & _ & He) Hg. eapply pipe_dangling; [done|by right]. Qed.
Lemma aside_dangling s s' : pipe_aside s s' -> p_accept s <> AcGone -> p_dangling s' = p_dangling s.
Proof. intros [->|H]; [done|]. by apply side_step_dangling. Qed.

(** Once the server is destroyed the STA thread has ended. *)
Lemma gone_frames w : base_inv w -> p_accept (n_pipe w) = AcGone -> frames_ (n_sta w) = [] /\ watch_joined (n_main w) = true.
Proof.
  intros Hb Hg. pose proof (bi_main _ Hb) as Hm. pose proof (bi_phase _ Hb) as Hp. rewrite Hg in Hm.
  destruct (n_main w) as [|[] p side pc|pc| | | | | | | | | | | |]; simpl in *; try done;
    try (by destruct Hm as (? & ? & ?)); try (by destruct Hp).
Qed.
Lemma dispatcher_gone_frames w : base_inv w -> dispatcher_gone (n_main w) = true -> thread_ (n_sta w) = ThNone /\ frames_ (n_sta w) = [].
Proof. intros Hb Hg. pose proof (bi_phase _ Hb) as Hp. by destruct (n_main w). Qed.

Lemma handler_frames w : handler_on_top w = true -> frames_ (n_sta w) <> [].
Proof. unfold handler_on_top. by destruct (frames_ (n_sta w)). Qed.
Lemma render_handler w : render_on_top w = true -> handler_on_top w = true.
Proof. unfold render_on_top. by intros [? _]%andb_prop. Qed.

Section Life.
Context `{Win32Strings}.

(** What one step does to what may dangle. *)
Record life_step (l : WinLabel) (w w' : WinHelper) : Prop := {
  ls_watch : watch_joined (n_main w') = true -> n_watch w' = WdNone \/ n_watch w' = WdDone;
  ls_dispatcher : n_dangling w' = false;
  ls_server : l <> NConsole -> no_console w -> no_console w'
}.

Lemma life_plain l w w' :
  life_inv w -> (watch_joined (n_main w') = true -> watch_joined (n_main w) = true) -> n_watch w' = n_watch w ->
  n_dangling w' = n_dangling w -> n_console w' = n_console w -> p_dangling (n_pipe w') = p_dangling (n_pipe w) ->
  life_step l w w'.
Proof.
  intros [H1 H2] Hj Hw Hd Hc Hp. split; [by rewrite Hw; auto|by rewrite Hd|]. intros _ [E1 E2]. split; congruence.
Qed.

(** A callback of the STA thread. *)
Lemma life_callback l w w' :
  base_inv w -> life_inv w -> frames_ (n_sta w) <> [] \/ thread_ (n_sta w) = ThPump -> n_main w' = n_main w -> n_watch w' = n_watch w ->
  n_dangling w' = n_dangling w || dispatcher_gone (n_main w) -> n_console w' = n_console w ->
  p_dangling (n_pipe w') = p_dangling (n_pipe w) -> life_step l w w'.
Proof.
  intros Hb Hi Hf Hm Hw Hd Hc Hp. apply life_plain; try done; [by rewrite Hm|].
  rewrite Hd. destruct (dispatcher_gone (n_main w)) eqn:Eg; [|apply orb_false_r].
  destruct (dispatcher_gone_frames _ Hb Eg). destruct Hf; congruence.
Qed.

Lemma life_pipe l w w' :
  (exists pl, l = NPipe pl) \/ (exists clock, l = NGreet clock) \/ l = NHandle ->
  win_exec l w = Some w' -> life_inv w -> life_step l w w'.
Proof.
  intros Hl He Hi.
  assert (Hp : forall pl s', pipe_exec pl (n_pipe w) = Some s' -> beside pl = false ->
            life_step l w (w <| n_pipe := s' |>)).
  { intros pl s' E Hb. apply life_plain; try done. simpl. eapply pipe_dangling; [done|by left]. }
  destruct Hl as [[pl ->]|[[clock ->]| ->]]; simpl in He; unfold on_pipe in He.
  - destruct (autonomous pl (n_pipe w)) eqn:Ea; [|done]. destruct (pipe_exec pl (n_pipe w)) eqn:E; simpl in He; [|done].
    injection He as <-. eapply Hp; [done|by destruct pl].
  - destruct (p_accept (n_pipe w)); try done. destruct (pipe_exec _ (n_pipe w)) eqn:E; simpl in He; [|done].
    injection He as <-. by eapply Hp.
  - destruct (n_main w) eqn:Em; try done. destruct (p_accept (n_pipe w)); try done. destruct (n_g_dispatcher w).
    + injection He as <-. by apply life_plain.
    + destruct (pipe_exec _ (n_pipe w)) eqn:E; cbn -[pipe_exec] in He; [|done]. injection He as <-.
      apply life_plain; try done. simpl. eapply pipe_dangling; [exact E|by left].
Qed.

Lemma life_main ω w w' : win_exec (NMain ω) w = Some w' -> base_inv w -> life_inv w -> life_step (NMain ω) w w'.
Proof.
  simpl. unfold main_step, run_main, on_pipe, on_sta_worker. intros He Hb Hi. pose proof (bi_main _ Hb) as Hm.
  destruct (n_main w) as [|releasing p side pc| | | | | | | | | | | | |] eqn:Em; try done.
  assert (Hg : p_accept (n_pipe w) <> AcGone) by (destruct releasing; simpl in Hm; [by rewrite Hm|by destruct Hm as (? & ? & ->)]).
  assert (Hrun : forall t side' w1, ('(p', pc', s, d) ← prog_step t ω p pc (n_pipe w) (n_disp w);
            Some (goto_main (MnProg releasing p' side' pc') (w <| n_pipe := s |> <| n_disp := d |>))) = Some w1 -> life_step (NMain ω) w w1).
  { intros t side' w1 E. destruct (prog_step t ω p pc (n_pipe w) (n_disp w)) as [[[[p' pc'] s] d]|] eqn:Ep; simpl in E; [|done].
    injection E as <-. apply prog_step_cases in Ep as [Hs _]. apply life_plain; try done; [by rewrite Em|].
    by apply aside_dangling. }
  destruct side as [|t|t]; [|done|].
  - destruct (negb _); [done|]. destruct p as [reply|B c k|B f k|k|q|]; try done; try (by eapply Hrun).
    + destruct releasing; [injection He as <-; apply life_plain; try done; by rewrite Em|].
      apply fmap_Some in He as (w1 & He & ->). destruct (pipe_exec _ (n_pipe w)) eqn:E; cbn -[pipe_exec] in He; [|done].
      injection He as <-. apply life_plain; try done. simpl. eapply pipe_dangling; [done|by left].
    + simpl in He. injection He as <-. apply life_plain; try done. by rewrite Em.
    + injection He as <-. by apply life_plain.
  - destruct (negb _); [done|]. destruct p as [reply|B c k|B f k|k|q|]; try done; try (by eapply Hrun).
    apply fmap_Some in He as (w1 & He & ->). destruct (sta_exec _ _); cbn -[sta_exec] in He; [|done]. injection He as <-.
    apply life_plain; try done. by rewrite Em.
Qed.

Lemma life_tear posted w w' : win_exec (NTear posted) w = Some w' -> base_inv w -> life_inv w -> life_step (NTear posted) w w'.
Proof.
  simpl. unfold tear_step, on_pipe, on_sta_worker. intros He Hb Hi. pose proof (bi_main _ Hb) as Hm.
  destruct (n_main w) as [|releasing p side pc|pc| | | | | | | | | | | |] eqn:Em; try done; simpl in Hm.
  - destruct (p_accept (n_pipe w)); try done. injection He as <-. by apply life_plain.
  - destruct (Stop_step pc (n_pipe w)) as [[s r]|] eqn:E; simpl in He; [|done]. injection He as <-.
    apply Stop_step_side in E. apply life_plain; try done; [by destruct r|]. apply side_step_dangling; [done|by rewrite Hm].
  - injection He as <-. by apply life_plain.
  - destruct Hi as [H1 H2]. destruct (n_watch w) eqn:Ew; try done; injection He as <-;
      (split; [simpl; rewrite Ew; auto|done|by intros _ [? ?]]).
  - injection He as <-. apply life_plain; try done. by rewrite Em.
  - apply fmap_Some in He as (w1 & He & ->). destruct (sta_exec _ _); cbn -[sta_exec] in He; [|done]. injection He as <-.
    apply life_plain; try done. by rewrite Em.
  - apply fmap_Some in He as (w1 & He & ->).
    assert (exists s', w1 = w <| n_sta := s' |>) as [s' ->].
    { destruct (thread_ (n_sta w));
        [exists (n_sta w); injection He as <-; clear; by destruct w|..];
        (destruct (sta_exec SlJoin (n_sta w)) as [s'|]; cbn -[sta_exec] in He; [|done]; injection He as <-; exists s'; by rewrite Em). }
    apply life_plain; try done. by rewrite Em.
  - injection He as <-. apply life_plain; try done. by rewrite Em.
  - injection He as <-. apply life_plain; try done. by rewrite Em.
  - injection He as <-. apply life_plain; try done. by rewrite Em.
  - apply fmap_Some in He as (w1 & He & ->). destruct (pipe_exec PlDestroy (n_pipe w)) as [s'|] eqn:E; cbn -[pipe_exec] in He; [|done].
    injection He as <-. apply life_plain; try done; [by rewrite Em|]. simpl. eapply pipe_dangling; [done|by left].
  - injection He as <-. apply life_plain; try done. by rewrite Em.
Qed.

Lemma life_sta l w w' : win_exec (NSta l) w = Some w' -> life_inv w -> life_step (NSta l) w w'.
Proof.
  simpl. unfold sta_step. intros He Hi. destruct (negb _); [done|].
  assert (Hw : forall l' w1, on_sta_worker l' w = Some w1 -> exists s', w1 = w <| n_sta := s' |>).
  { unfold on_sta_worker. intros l' w1 E. destruct (sta_exec l' (n_sta w)) as [s'|]; cbn in E; [|done]. injection E as <-. by exists s'. }
  assert (Hgo : forall l' w1, on_sta_worker l' w = Some w1 -> life_step (NSta l) w w1).
  { intros l' w1 E. destruct (Hw _ _ E) as [s' ->]. by apply life_plain. }
  destruct l; try exact (Hgo _ _ He).
  - destruct (at_pump w); [exact (Hgo _ _ He)|done].
  - destruct (frames_ (n_sta w)) as [|[[t|] [|t' rest]|] fs]; try exact (Hgo _ _ He).
    apply fmap_Some in He as (w1 & He & ->). destruct (Hw _ _ He) as [s' ->]. unfold task_begins. simpl.
    destruct (n_main w) as [|rel p side pc| | | | | | | | | | | | |] eqn:Em; try (apply life_plain; try done; by rewrite Em).
    destruct p; try (apply life_plain; try done; by rewrite Em). destruct side; try (apply life_plain; try done; by rewrite Em).
    destruct (_ =? _); apply life_plain; try done; by rewrite Em.
  - destruct (frames_ (n_sta w)) as [|[run rest|] fs]; try exact (Hgo _ _ He); destruct (n_acts w) as [|a acts] eqn:Ea; try exact (Hgo _ _ He); try done.
    destruct (act_finished a); [|done]. apply fmap_Some in He as (w1 & He & ->). destruct (Hw _ _ He) as [s' ->]. by apply life_plain.
  - apply fmap_Some in He as (w1 & He & ->). destruct (Hw _ _ He) as [s' ->]. unfold tasks_dropped. simpl.
    destruct (n_main w) as [|rel p side pc| | | | | | | | | | | | |] eqn:Em; try (apply life_plain; try done; by rewrite Em).
    destruct p; try (apply life_plain; try done; by rewrite Em). destruct side; try (apply life_plain; try done; by rewrite Em).
    destruct (existsb _ _); apply life_plain; try done; by rewrite Em.
Qed.

Lemma life_render lab l w w' :
  base_inv w -> life_inv w -> frames_ (n_sta w) <> [] \/ thread_ (n_sta w) = ThPump ->
  render_advance l w = Some w' -> life_step lab w w'.
Proof.
  intros Hb Hi Hf He. apply render_advance_spec in He as (E1 & E2 & E3 & E4 & E5 & _ & E6 & _).
  apply life_callback; try done. by rewrite E1.
Qed.

Lemma life_message m w w' : win_exec (NMessage m) w = Some w' -> base_inv w -> life_inv w -> life_step (NMessage m) w w'.
Proof.
  intros He Hb Hi.
  unfold win_exec, message_step, on_sta_worker in He. destruct (at_pump w); cbn [negb] in He; [|done].
  destruct (sta_exec SlOther (n_sta w)) as [s'|] eqn:E; cbn -[sta_exec render_advance] in He; [|done].
  assert (Ht : thread_ (n_sta w) = ThPump) by (simpl in E; by destruct (thread_ (n_sta w))).
  destruct m as [|format co|].
  - injection He as <-. apply life_callback; try done; auto.
  - destruct (render_advance _ _) as [w2|] eqn:E2; [|done]. injection He as <-.
    apply render_advance_spec in E2 as (E1 & _ & E3 & E4 & E5 & _ & E6 & _).
    apply life_callback; try done; [auto|simpl; by rewrite E1].
  - injection He as <-. by apply life_plain.
Qed.

Lemma life_render_send clock now w w' :
  win_exec (NRenderSend clock now) w = Some w' -> base_inv w -> life_inv w -> life_step (NRenderSend clock now) w w'.
Proof.
  intros He Hb Hi.
  simpl in He. unfold render_send_step in He. destruct (render_on_top w) eqn:Er; [|done].
  destruct (n_stack w) as [|f fs] eqn:Es; [done|]. rewrite <- Es in He. apply render_handler, handler_frames in Er.
  destruct (rf_pc f); try done. destruct (SendFrame_step _ _ _ _) as [[s r]|] eqn:E; cbn -[render_advance] in He; [|done].
  apply SendFrame_step_side in E.
  assert (Hd : p_dangling s = p_dangling (n_pipe w)).
  { apply side_step_dangling; [done|]. intros Hg. by destruct (gone_frames _ Hb Hg). }
  destruct r as [pc|sent]; [injection He as <-; by apply life_plain|].
  apply render_advance_spec in He as (E1 & E2 & E3 & E4 & E5 & _ & E6 & _). apply life_callback; try done; [by left|by rewrite E1].
Qed.

Lemma life_watch b w w' : win_exec (NWatch b) w = Some w' -> base_inv w -> life_inv w -> life_step (NWatch b) w w'.
Proof.
  intros He Hb Hi.
  simpl in He. unfold watch_step in He. pose proof (lf_watch _ Hi) as Hw. destruct (n_watch w) as [| |pc|] eqn:Ew; try done.
  - assert (Hj : watch_joined (n_main w) = true -> False) by (intros Hj; by destruct (Hw Hj)).
    destruct (_ && _); [done|]; injection He as <-;
      (split; [by intros Hj'; destruct (Hj Hj')|apply Hi|by intros _ [? ?]]).
  - assert (Hj : watch_joined (n_main w) = true -> False) by (intros Hj; by destruct (Hw Hj)).
    destruct (Stop_step pc (n_pipe w)) as [[s r]|] eqn:E; simpl in He; [|done]. injection He as <-.
    apply Stop_step_side in E.
    assert (Hd : p_dangling s = p_dangling (n_pipe w)).
    { apply side_step_dangling; [done|]. intros Hg. by destruct (gone_frames _ Hb Hg). }
    split; [by intros Hj'; destruct (Hj Hj')|apply Hi|]. intros _ [? ?]. split; simpl; congruence.
Qed.

Lemma win_exec_life l w w' : win_exec l w = Some w' -> base_inv w -> life_inv w -> life_step l w w'.
Proof.
  intros He Hb Hi. destruct l as [l|clock| |ω|posted|l|m|ω|clock now|l|b| |i].
  - eapply life_pipe; [left; by eexists|done|done].
  - eapply life_pipe; [right; left; by eexists|done|done].
  - eapply life_pipe; [by right; right|done|done].
  - by apply life_main.
  - by apply life_tear.
  - by apply life_sta.
  - by apply life_message.
  - simpl in He. unfold act_step in He. destruct (handler_on_top w) eqn:Eh; [|done]. destruct (n_acts w) as [|[|p pc| |] acts]; try done.
    destruct (prog_step _ _ _ _ _ _) as [[[[p' pc'] s] d]|] eqn:E; simpl in He; [|done]. injection He as <-.
    apply handler_frames in Eh. apply prog_step_cases in E as [Hs _].
    apply life_callback; try done; [by left|]. simpl. apply aside_dangling; [done|]. intros Hg. by destruct (gone_frames _ Hb Hg).
  - by apply life_render_send.
  - simpl in He. destruct l; try done; destruct (render_on_top w) eqn:Er; try done; apply render_handler, handler_frames in Er;
      (eapply life_render; [done|done|by left|exact He]).
  - by apply life_watch.
  - simpl in He. destruct (_ && _); [|done]. injection He as <-. destruct Hi. by split.
  - simpl in He. unfold console_step in He. destruct (n_console w !! i) as [pc|] eqn:Ec; simpl in He; [|done].
    destruct (Stop_step pc (n_pipe w)) as [[s r]|] eqn:E; simpl in He; [|done]. injection He as <-.
    split; [apply Hi|apply Hi|]. intros _ [Hn _]. by rewrite Hn in Ec.
Qed.

Lemma reachable_life event_created stop_created watch ls w :
  run_win ls (init_win event_created stop_created watch) = Some w ->
  base_inv w /\ life_inv w /\ (Forall (fun l => l <> NConsole) ls -> no_console w).
Proof.
  intros Hr. assert (Hb : base_inv w /\ life_inv w).
  { apply (run_win_invariant life_inv) with (ls := ls) (w := init_win event_created stop_created watch); try done; [|apply init_base].
    intros l w1 w2 He Hb Hi. destruct (win_exec_life _ _ _ He Hb Hi). by split. }
  destruct Hb as [Hb Hl]. split_and!; [done|done|]. intros Hls.
  apply (run_exec_invariant win_exec (fun w => base_inv w /\ life_inv w /\ no_console w) (fun l => l <> NConsole)) with (ls := ls)
    (s := init_win event_created stop_created watch); [|done|exact Hr|split; [apply init_base|done]].
  intros l w1 w2 Hn He (Hb1 & Hl1 & Hc1). destruct (win_exec_life _ _ _ He Hb1 Hl1) as [H1 H2 H3].
  split; [by eapply win_exec_base|]. split; [by split|by apply H3].
Qed.
End Life.

(** ** Order of release *)

Section Teardown.
Context `{Win32Strings}.

(** C23: The tear-down releases in a safe order.  No callback of the STA thread
    runs on the destroyed dispatcher: once it is gone the thread has been
    joined.  Once the server is destroyed the watchdog has been joined too, and
    unless a console handler came, nothing is called on it. *)
Theorem win_teardown event_created stop_created watch ls w :
  run_win ls (init_win event_created stop_created watch) = Some w ->
  n_dangling w = false /\
  (dispatcher_gone (n_main w) = true -> thread_ (n_sta w) = ThNone /\ frames_ (n_sta w) = []) /\
  (p_accept (n_pipe w) = AcGone -> n_watch w = WdNone \/ n_watch w = WdDone) /\
  (Forall (fun l => l <> NConsole) ls -> p_dangling (n_pipe w) = false).
Proof.
  intros Hr. destruct (reachable_life _ _ _ _ _ Hr) as (Hb & [H1 H2] & Hc). split_and!; [done| | |].
  - by apply dispatcher_gone_frames.
  - intros Hg. apply H1. by destruct (gone_frames _ Hb Hg).
  - intros Hls. by destruct (Hc Hls).
Qed.
End Teardown.

Lemma win_teardown_witness :
  exists w : WinHelper,
    @run_win ascii_strings ([NPipe PlRun] ++ exit_run ++ [NTear true]) (init_win true true true) = Some w /\
    n_main w = MnExited /\ p_dangling (n_pipe w) = false.
Proof.
  eexists. split; [vm_compute; reflexivity|]. split; [reflexivity|].
  refine (proj2 (proj2 (proj2 (@win_teardown ascii_strings true true true ([NPipe PlRun] ++ exit_run ++ [NTear true]) _ _))) _);
    [vm_compute; reflexivity|repeat constructor; congruence].
Defined.

(** A console handler can call [Stop] on the destroyed server: it loads
    [g_server] before [wmain] clears it, and neither that nor
    [SetConsoleCtrlHandler] waits for it. *)
Theorem console_dangles :
  exists (w : WinHelper),
    @run_win ascii_strings ([NPipe PlRun; NConsole] ++ exit_run ++ [NConsoleStep 0]) (init_win true true true) = Some w /\
    p_dangling (n_pipe w) = true.
Proof. eexists. split; [vm_compute; reflexivity|]. reflexivity. Qed.
