(* ===== verification/Images.v ===== *)
(** * Images: decoding and encoding at the edges

    [linux/src/webp_decode.cpp] over libwebp and [windows/src/wic_image.cpp]
    over Windows Imaging.  The libraries are answers: what each call returns is
    given, and the model is the code between the calls, which decides what is
    accepted, how large every buffer is and what is given back. *)

From S2P Require Import Prelude ClipboardFormat.

(** ** webp_decode *)

Record DecodedImage := { width : Z; height : Z; rgba : list Z }.
Definition no_image : DecodedImage := {| width := 0; height := 0; rgba := [] |}.
Definition ok (d : DecodedImage) : bool :=
  (width d >? 0) && (height d >? 0) && (Zlen (rgba d) =? u64 (u64 (width d) * u64 (height d) * 4)).

Definition SIZE_MAX : Z := 2 ^ 64 - 1.

(** libwebp: the dimensions [WebPGetInfo] reads, and the dimensions and the
    buffer of [WebPDecodeRGBA]. *)
Class WebP := {
  WebPGetInfo : list Z -> option (Z * Z);
  WebPDecodeRGBA : list Z -> option (Z * Z * list Z)
}.

(** The image, the buffers allocated and freed, and whether the copy ran past
    the buffer.  The vector's own allocation succeeds: were [rgba.assign] to
    throw, the decoded buffer would stay allocated. *)
Record DecodeRun := { dr_image : DecodedImage; dr_allocs : nat; dr_frees : nat; dr_over_read : bool }.
Definition refused : DecodeRun := {| dr_image := no_image; dr_allocs := 0; dr_frees := 0; dr_over_read := false |}.

Section WebPDecode.
Context {webp : WebP}.

Definition DecodeWebP (data : list Z) : DecodeRun :=
  match data with
  | [] => refused
  | _ =>
      match WebPGetInfo data with
      | None => refused
      | Some (w, h) =>
          if (w <=? 0) || (h <=? 0) then refused
          else if u64 w >? (SIZE_MAX / 4) / u64 h then refused
          else
            let rgba_size := u64 (u64 w * u64 h * 4) in
            match WebPDecodeRGBA data with
            | None => refused
            | Some (decoded_w, decoded_h, decoded) =>
                if negb (decoded_w =? w) || negb (decoded_h =? h)
                then {| dr_image := no_image; dr_allocs := 1; dr_frees := 1; dr_over_read := false |}
                else {| dr_image := {| width := w; height := h; rgba := take (Z.to_nat rgba_size) decoded |};
                        dr_allocs := 1; dr_frees := 1; dr_over_read := Zlen decoded <? rgba_size |}
            end
      end
  end.
End WebPDecode.

(** ** wic_image *)

(** The answers of [PngToBgra]'s calls, in their order; [true] is a success,
    [pd_pixels] is what [CopyPixels] writes for a buffer of the size given. *)
Record PngDecoder := {
  pd_factory : bool;
  pd_stream : bool;
  pd_initialize : bool;
  pd_decoder : bool;
  pd_frame : bool;
  pd_size : option (Z * Z);
  pd_converter : bool;
  pd_convert : bool;
  pd_pixels : Z -> Z -> option (list Z)   (* stride, buffer size *)
}.

(** The result and the out parameter. *)
Definition PngToBgra (d : PngDecoder) (out : BgraImage) : bool * BgraImage :=
  if negb (pd_factory d && pd_stream d && pd_initialize d && pd_decoder d && pd_frame d) then (false, out)
  else match pd_size d with
       | None => (false, out)
       | Some (w, h) =>
           if (w =? 0) || (h =? 0) then (false, out)
           else if (w >? u32 kMaxImageDimension) || (h >? u32 kMaxImageDimension) then (false, out)
           else if negb (pd_converter d && pd_convert d) then (false, out)
           else
             let stride := u32 (w * 4) in
             let size := u64 (stride * h) in
             match pd_pixels d stride (u32 size) with
             | None => (false, {| img_width := i32 w; img_height := i32 h; img_pixels := [] |})
             | Some pixels => (true, {| img_width := i32 w; img_height := i32 h; img_pixels := pixels |})
             end
       end.

(** The answers of [BgraToPng]'s calls: the arguments of [SetSize] and
    [WritePixels] go to the encoder, which leaves [pe_stream] in memory whose
    block is [pe_slack] bytes longer. *)
Record PngEncoder := {
  pe_factory : bool;
  pe_setup : bool;       (* the calls from CreateStreamOnHGlobal to Initialize *)
  pe_accept : Z -> Z -> Z -> Z -> list Z -> bool;  (* width, height, stride, buffer size, pixels; and both Commits *)
  pe_stream : list Z;
  pe_slack : list Z;
  pe_hglobal : bool;     (* GetHGlobalFromStream and GlobalLock *)
}.

Definition BgraToPng (e : PngEncoder) (img : BgraImage) (out_png : list Z) : bool * list Z :=
  if (img_width img <=? 0) || (img_height img <=? 0) || (Zlen (img_pixels img) =? 0) then (false, out_png)
  else if (img_width img >? kMaxImageDimension) || (img_height img >? kMaxImageDimension) then (false, out_png)
  else if negb (pe_factory e && pe_setup e) then (false, out_png)
  else if negb (pe_accept e (u32 (img_width img)) (u32 (img_height img)) (u32 (u32 (img_width img) * 4))
                  (u32 (Zlen (img_pixels img))) (img_pixels img)) then (false, out_png)
  else if negb (pe_hglobal e) then (false, out_png)
  else (true, pe_stream e ++ pe_slack e).

(** The thread's factory: [Factory] creates it when it is missing;
    [ResetWicFactoryForThread] goes through [Factory] and so creates one only
    to release it. *)
Record WicThread := { g_factory : bool; factories_created : nat; factories_released : nat }.
Definition Factory (created : bool) (t : WicThread) : WicThread :=
  if g_factory t then t
  else if created then {| g_factory := true; factories_created := S (factories_created t);
                          factories_released := factories_released t |} else t.
Definition ResetWicFactoryForThread (created : bool) (t : WicThread) : WicThread :=
  let t := Factory created t in
  if g_factory t then {| g_factory := false; factories_created := factories_created t;
                         factories_released := S (factories_released t) |} else t.

(** ** Sizes *)

(** The dimensions of a C [int] never make the size wrap. *)
Lemma rgba_size_exact w h :
  0 < w < 2 ^ 31 -> 0 < h < 2 ^ 31 ->
  u64 (u64 w * u64 h * 4) = w * h * 4 /\ u64 w >? (SIZE_MAX / 4) / u64 h = false.
Proof.
  intros Hw Hh. unfold u64. rewrite (Z.mod_small w), (Z.mod_small h) by lia. split.
  - apply Z.mod_small. nia.
  - rewrite Z.gtb_ltb. apply Z.ltb_ge. apply Z.div_le_lower_bound; [lia|]. unfold SIZE_MAX.
    change ((2 ^ 64 - 1) / 4) with 4611686018427387903. nia.
Qed.

Lemma bitmap_size_exact w h :
  1 <= w <= kMaxImageDimension -> 1 <= h <= kMaxImageDimension ->
  u32 (w * 4) = w * 4 /\ u64 (w * 4 * h) = w * h * 4 /\ u32 (w * h * 4) = w * h * 4 /\ i32 w = w /\ i32 h = h /\ u32 w = w /\ u32 h = h.
Proof.
  unfold kMaxImageDimension. intros Hw Hh. assert (w * h * 4 < 2 ^ 32) by nia. unfold u32, u64, i32.
  replace (w * 4 * h) with (w * h * 4) by lia.
  rewrite !(Z.mod_small w), !(Z.mod_small h), !Z.mod_small by nia.
  rewrite (proj2 (Z.ltb_lt w _)), (proj2 (Z.ltb_lt h _)) by lia. done.
Qed.

(** ** Properties *)

(** C38: WebP.  For any bytes from the peer and any libwebp whose decoded buffers
    have the size their dimensions say: the copy never leaves the decoded
    buffer, the buffer is freed exactly once on every path, and an image is
    accepted exactly when the stream is not empty, its header announces
    positive dimensions whose size fits, and it decodes to those very
    dimensions; then the pixels are the decoder's, four bytes each. *)
Theorem webp_decode_exact {webp : WebP} data :
  (forall w h buf, WebPDecodeRGBA data = Some (w, h, buf) -> Zlen buf = w * h * 4) ->
  (forall w h, WebPGetInfo data = Some (w, h) -> - 2 ^ 31 <= w < 2 ^ 31 /\ - 2 ^ 31 <= h < 2 ^ 31) ->
  let r := DecodeWebP data in
  dr_over_read r = false /\ dr_frees r = dr_allocs r /\
  (ok (dr_image r) = true <->
   data <> [] /\ exists w h buf, WebPGetInfo data = Some (w, h) /\ WebPDecodeRGBA data = Some (w, h, buf) /\ 0 < w /\ 0 < h) /\
  (forall w h buf, WebPDecodeRGBA data = Some (w, h, buf) -> ok (dr_image r) = true ->
     dr_image r = {| width := w; height := h; rgba := buf |}).
Proof.
  intros Hbuf Hint. unfold DecodeWebP. destruct data as [|c data]; [cbn; split_and!; try done; naive_solver|].
  set (bytes := c :: data) in *. destruct (WebPGetInfo bytes) as [[w h]|] eqn:Ei; [|cbn; split_and!; try done; naive_solver].
  destruct (Hint w h eq_refl) as [Hw Hh].
  destruct ((w <=? 0) || (h <=? 0)) eqn:Ez.
  { apply orb_prop in Ez as [Ez|Ez]; zbool; cbn; split_and!; try done; split; try done; intros (_ & w' & h' & buf & ? & _ & ? & ?); simplify_eq; lia. }
  apply orb_false_elim in Ez as [Ezw Ezh]. zbool.
  destruct (rgba_size_exact w h) as [Esz ->]; [lia..|].
  rewrite Esz. destruct (WebPDecodeRGBA bytes) as [[[dw dh] buf]|] eqn:Ed; [|cbn; split_and!; try done; naive_solver].
  specialize (Hbuf dw dh buf eq_refl).
  destruct (negb (dw =? w) || negb (dh =? h)) eqn:Em.
  { cbn. split_and!; try done. split; [done|]. intros (_ & w' & h' & buf' & ? & ? & _). simplify_eq.
    by rewrite !Z.eqb_refl in Em. }
  apply orb_false_elim in Em as [Em1%negb_false_iff Em2%negb_false_iff]. zbool. subst dw dh.
  assert (Htake : take (Z.to_nat (w * h * 4)) buf = buf).
  { apply take_ge. unfold Zlen in Hbuf. lia. }
  cbn [dr_over_read dr_frees dr_allocs dr_image]. rewrite Htake. split_and!.
  - apply Z.ltb_ge. lia.
  - done.
  - split; [|intros _]; [intros _; split; [done|]; exists w, h, buf; split_and!; try done; lia|].
    unfold ok. cbn. rewrite Esz, Hbuf, Z.eqb_refl, !Z.gtb_ltb, !(proj2 (Z.ltb_lt 0 _)) by lia. done.
  - intros w' h' buf' [= <- <- <-] _. done.
Qed.

(** Windows Imaging.  A decoded bitmap has dimensions from 1 to the cap, and
    the buffer handed to [CopyPixels] holds exactly its rows: neither the
    stride nor the 32-bit size wraps; a failure leaves no pixels and never an
    image that was not there before.  What is encoded is within the cap too,
    with a stride that does not wrap. *)
Theorem wic_bounds d out e img out_png :
  (forall w h, pd_size d = Some (w, h) -> is_u32 w /\ is_u32 h) ->
  (forall stride size pixels, 0 <= size -> pd_pixels d stride size = Some pixels -> Zlen pixels = size) ->
  (let (ok, out') := PngToBgra d out in
   if ok : bool
   then 1 <= img_width out' <= kMaxImageDimension /\ 1 <= img_height out' <= kMaxImageDimension /\
        Zlen (img_pixels out') = img_width out' * img_height out' * 4 /\
        pd_pixels d (img_width out' * 4) (img_width out' * img_height out' * 4) = Some (img_pixels out')
   else out' = out \/ img_pixels out' = []) /\
  ((BgraToPng e img out_png).1 = true ->
   1 <= img_width img <= kMaxImageDimension /\ 1 <= img_height img <= kMaxImageDimension /\
   pe_accept e (img_width img) (img_height img) (img_width img * 4) (u32 (Zlen (img_pixels img))) (img_pixels img) = true).
Proof.
  intros Hsize Hpix. split.
  - unfold PngToBgra. destruct (pd_factory d && _ && _ && _ && _); cbn [negb]; [|by left].
    destruct (pd_size d) as [[w h]|]; [|by left]. destruct (Hsize w h eq_refl) as [Hw Hh]. unfold is_u32 in *.
    destruct ((w =? 0) || (h =? 0)) eqn:Ez; [by left|]. apply orb_false_elim in Ez as [Ezw Ezh]. zbool.
    destruct ((w >? u32 kMaxImageDimension) || (h >? u32 kMaxImageDimension)) eqn:Ec; [by left|].
    change (u32 kMaxImageDimension) with kMaxImageDimension in Ec.
    apply orb_false_elim in Ec as [Ecw Ech]. rewrite Z.gtb_ltb in Ecw, Ech. zbool.
    destruct (pd_converter d && pd_convert d); cbn [negb]; [|by left].
    destruct (bitmap_size_exact w h) as (E1 & E2 & E3 & E4 & E5 & _); [lia..|]. rewrite E1, E2, E3.
    destruct (pd_pixels d (w * 4) (w * h * 4)) as [pixels|] eqn:Ep; [|by right]. cbn [img_width img_height img_pixels].
    rewrite E4, E5. split_and!; try lia; [|done]. apply (Hpix (w * 4)); [nia|done].
  - unfold BgraToPng. destruct ((img_width img <=? 0) || (img_height img <=? 0) || (Zlen (img_pixels img) =? 0)) eqn:Ez; [done|].
    apply orb_false_elim in Ez as [Ez _]. apply orb_false_elim in Ez as [Ezw Ezh]. zbool.
    destruct ((img_width img >? kMaxImageDimension) || (img_height img >? kMaxImageDimension)) eqn:Ec; [done|].
    apply orb_false_elim in Ec as [Ecw Ech]. rewrite Z.gtb_ltb in Ecw, Ech. zbool.
    destruct (bitmap_size_exact (img_width img) (img_height img)) as (E1 & _ & _ & _ & _ & E6 & E7); [lia..|].
    rewrite E6, E7, E1. destruct (pe_factory e && pe_setup e); cbn [negb]; [|done].
    destruct (pe_accept e _ _ _ _ _) eqn:Ea; cbn [negb]; [|done]. intros _. by split_and!; try lia.
Qed.

(** *** Witnesses *)

Definition one_pixel_webp : WebP := {|
  WebPGetInfo := fun _ => Some (1, 1); WebPDecodeRGBA := fun _ => Some (1, 1, [10; 20; 30; 255])
|}.
Lemma webp_decode_exact_witness :
  let r := @DecodeWebP one_pixel_webp [82; 73] in
  dr_over_read r = false /\ dr_frees r = dr_allocs r /\ ok (dr_image r) = true /\
  dr_image r = {| width := 1; height := 1; rgba := [10; 20; 30; 255] |}.
Proof.
  destruct (@webp_decode_exact one_pixel_webp [82; 73]) as (H1 & H2 & _ & H4).
  - intros w h buf [= <- <- <-]. reflexivity.
  - intros w h [= <- <-]. split; split; discriminate || reflexivity.
  - split; [exact H1|]. split; [exact H2|]. split; [reflexivity|]. apply (H4 1 1); reflexivity.
Defined.

Definition wic_decoder : PngDecoder := {|
  pd_factory := true; pd_stream := true; pd_initialize := true; pd_decoder := true; pd_frame := true;
  pd_size := Some (2, 1); pd_converter := true; pd_convert := true;
  pd_pixels := fun _ size => Some (replicate (Z.to_nat size) 7)
|}.
(** The block of memory is larger than the PNG stream. *)
Definition wic_encoder : PngEncoder := {|
  pe_factory := true; pe_setup := true; pe_accept := fun _ _ _ _ _ => true; pe_stream := [137; 80]; pe_slack := [0];
  pe_hglobal := true
|}.
Definition small_image : BgraImage := {| img_width := 1; img_height := 1; img_pixels := [1; 2; 3; 4] |}.
Lemma wic_bounds_witness :
  1 <= img_width small_image <= kMaxImageDimension /\ 1 <= img_height small_image <= kMaxImageDimension /\
  pe_accept wic_encoder 1 1 4 4 [1; 2; 3; 4] = true.
Proof.
  apply (wic_bounds wic_decoder small_image wic_encoder small_image []); [| |reflexivity].
  - intros w h [= <- <-]. split; split; discriminate || reflexivity.
  - intros stride size pixels Hs [= <-]. unfold Zlen. rewrite length_replicate. apply Z2Nat.id. exact Hs.
Defined.

(** The bytes reported as PNG are the whole memory block. *)
Example png_with_slack : BgraToPng wic_encoder small_image [] = (true, [137; 80; 0]).
Proof. reflexivity. Qed.

(** Resetting a thread that has no factory creates one first. *)
Example reset_creates_a_factory :
  factories_created (ResetWicFactoryForThread true {| g_factory := false; factories_created := 0; factories_released := 0 |}) = 1%nat.
Proof. reflexivity. Qed.
