(* ===== verification/Log.v ===== *)
(** * Log: one log line

    [linux/src/log.cpp]; [windows/src/log.cpp] formats the same line with
    [localtime_s] and writes it to the standard error handle and to the
    debugger.  [localtime] is a parameter. *)

From S2P Require Import Prelude.

Inductive LogLevel := Debug_ | Info_ | Warn_ | Error_.
Definition LevelTag (level : LogLevel) : list Z :=
  match level with
  | Debug_ => str "DEBUG" | Info_ => str "INFO " | Warn_ => str "WARN " | Error_ => str "ERROR"
  end.

(** [struct tm]. *)
Record Tm := { tm_year : Z; tm_mon : Z; tm_mday : Z; tm_hour : Z; tm_min : Z; tm_sec : Z }.

(** The conversion [%0<width>d]. *)
Definition pad0 (width : nat) (digits : list Z) : list Z := replicate (width - length digits) 48 ++ digits.
Definition format_0d (width : nat) (n : Z) : list Z :=
  if n <? 0 then 45 :: pad0 (width - 1) (to_string (- n)) else pad0 width (to_string n).

(** [snprintf] into a buffer of [size] bytes: the characters stored before the
    NUL and the value returned. *)
Definition snprintf (size : Z) (text : list Z) : list Z * Z := (take (Z.to_nat (size - 1)) text, Zlen text).

Definition INT_MAX : Z := 2 ^ 31 - 1.

Section Format.
Context (localtime : Z -> option Tm).

(** [(raw_ms + 1000) % 1000] on the truncated remainder. *)
Definition milliseconds_field (now_ns : Z) : Z := Z.rem (Z.rem (Z.quot now_ns 1000000) 1000 + 1000) 1000.

Definition format_timestamp (tm : Tm) (ms : Z) : list Z :=
  (snprintf 32
     (format_0d 4 (tm_year tm + 1900) ++ [45] ++ format_0d 2 (tm_mon tm + 1) ++ [45] ++ format_0d 2 (tm_mday tm) ++ [32] ++
      format_0d 2 (tm_hour tm) ++ [58] ++ format_0d 2 (tm_min tm) ++ [58] ++ format_0d 2 (tm_sec tm) ++ [46] ++
      format_0d 3 ms)).1.

(** [%.*s]: up to the precision or the first NUL. *)
Definition log_text (timestamp : list Z) (level : LogLevel) (pid : Z) (msg : list Z) : list Z :=
  let precision := if Zlen msg >? INT_MAX then INT_MAX else Zlen msg in
  str "[" ++ timestamp ++ str "] [" ++ LevelTag level ++ str "] [helper:" ++ to_string pid ++ str "] " ++
  c_str (take (Z.to_nat precision) msg) ++ [10].

(** The bytes stored in [out] before the NUL and the count returned; [None] is
    the null buffer. *)
Definition FormatLogLine (level : LogLevel) (now_ns pid : Z) (msg : list Z) (out_size : option Z) : list Z * Z :=
  match out_size with
  | None => ([], 0)
  | Some size =>
      if size =? 0 then ([], 0)
      else match localtime (Z.quot now_ns 1000000000) with
           | None => ([], 0)
           | Some tm =>
               let (stored, written_raw) :=
                 snprintf size (log_text (format_timestamp tm (milliseconds_field now_ns)) level pid msg) in
               if written_raw <=? 0 then (stored, 0) else (stored, Z.min written_raw (size - 1))
           end
  end.

(** What goes to the standard error. *)
Definition LogMessage (verbose : bool) (level : LogLevel) (now_ns pid : Z) (msg : list Z) : list Z :=
  if (match level with Debug_ => true | _ => false end) && negb verbose then []
  else let (line, written) := FormatLogLine level now_ns pid msg (Some 2048) in
       if written =? 0 then [] else take (Z.to_nat written) line.

(** [LogMessage] of the Windows helper: what goes to the standard error, if the
    process has one, and the string handed to the debugger. *)
Definition WinLogMessage (has_stderr : bool) (level : LogLevel) (now_ns pid : Z) (msg : list Z) : list Z * option (list Z) :=
  let (line, written) := FormatLogLine level now_ns pid msg (Some 2048) in
  if written =? 0 then ([], None)
  else (if has_stderr then take (Z.to_nat written) line else [], Some (c_str line)).

Lemma milliseconds_field_range now_ns : 0 <= milliseconds_field now_ns < 1000.
Proof.
  unfold milliseconds_field. set (r := Z.rem (Z.quot now_ns 1000000) 1000).
  assert (Z.abs r < 1000) by (unfold r; pose proof (Z.rem_bound_abs (Z.quot now_ns 1000000) 1000); lia).
  apply Z.rem_bound_pos; lia.
Qed.

Lemma snprintf_stored size text : 1 <= size -> Zlen (snprintf size text).1 = Z.min (Zlen text) (size - 1).
Proof. intros Hs. unfold snprintf, Zlen. cbn. rewrite length_take. lia. Qed.

(** A log line.  The formatter stores at most the buffer, returns exactly the
    number of characters it stored before the NUL (so what is written out is
    only what was formatted), prints a millisecond field from 0 to 999 also
    before the epoch, and stores a prefix of the whole line; [LogMessage] writes
    at most 2047 bytes, and nothing for a debug message unless the helper is
    verbose. *)
Theorem log_line_bounded verbose level now_ns pid msg size :
  1 <= size ->
  let (line, written) := FormatLogLine level now_ns pid msg (Some size) in
  written <= size - 1 /\ (localtime (Z.quot now_ns 1000000000) <> None -> written = Zlen line) /\
  0 <= milliseconds_field now_ns < 1000 /\
  (forall tm, localtime (Z.quot now_ns 1000000000) = Some tm ->
     line `prefix_of` log_text (format_timestamp tm (milliseconds_field now_ns)) level pid msg) /\
  Zlen (LogMessage verbose level now_ns pid msg) <= 2047 /\
  LogMessage false Debug_ now_ns pid msg = [].
Proof.
  intros Hs.
  assert (Hmsg : Zlen (LogMessage verbose level now_ns pid msg) <= 2047).
  { unfold LogMessage. destruct (_ && negb verbose); [done|].
    destruct (FormatLogLine level now_ns pid msg (Some 2048)) as [line written] eqn:E.
    assert (written <= 2047).
    { unfold FormatLogLine in E. cbn [Z.eqb] in E. destruct (localtime _); [|simplify_eq; done].
      destruct (snprintf _ _) as [st raw]. destruct (raw <=? 0); simplify_eq; lia. }
    destruct (written =? 0); [done|]. unfold Zlen. rewrite length_take. lia. }
  unfold FormatLogLine. rewrite (proj2 (Z.eqb_neq size 0)) by lia.
  destruct (localtime (Z.quot now_ns 1000000000)) as [tm|]; [|split_and!; try done; lia || apply milliseconds_field_range].
  set (text := log_text _ level pid msg). pose proof (snprintf_stored size text Hs) as Hlen.
  destruct (snprintf size text) as [stored raw] eqn:E. assert (Hraw : raw = Zlen text) by (by injection E as _ <-).
  assert (Hpos : 1 <= raw).
  { rewrite Hraw. unfold text, log_text. rewrite !Zlen_app. pose proof (Zlen_nonneg (format_timestamp tm (milliseconds_field now_ns))).
    repeat match goal with |- context [Zlen ?l] => lazymatch goal with H : 0 <= Zlen l |- _ => fail | _ => pose proof (Zlen_nonneg l) end end.
    change (Zlen [10]) with 1. lia. }
  rewrite (proj2 (Z.leb_gt raw 0)) by lia. cbn [fst] in Hlen. split_and!; try done; [lia|lia|apply milliseconds_field_range..|].
  intros tm' [= <-]. fold text. injection E as <- _. apply prefix_take.
Qed.

(** The two helpers log alike: the Windows one is always verbose, writes to its
    standard error what the Linux one would, and tells the debugger whenever it
    has formatted a line, with or without a standard error. *)
Theorem win_logs_alike has_stderr level now_ns pid msg :
  (WinLogMessage has_stderr level now_ns pid msg).1 = (if has_stderr then LogMessage true level now_ns pid msg else []) /\
  (WinLogMessage has_stderr level now_ns pid msg).2 =
    (if decide (LogMessage true level now_ns pid msg = []) then None
     else Some (c_str (FormatLogLine level now_ns pid msg (Some 2048)).1)).
Proof.
  unfold WinLogMessage, LogMessage. rewrite andb_false_r.
  assert (Hpos : forall line written, FormatLogLine level now_ns pid msg (Some 2048) = (line, written) ->
    written <> 0 -> take (Z.to_nat written) line <> []).
  { intros line written E Hw. unfold FormatLogLine in E. cbn [Z.eqb] in E. destruct (localtime _) as [tm|]; [|by simplify_eq].
    set (text := log_text _ level pid msg) in E. clearbody text. pose proof (snprintf_stored 2048 text ltac:(done)) as Hl.
    destruct (snprintf 2048 text) as [st raw] eqn:Es. assert (Hraw : raw = Zlen text) by (by injection Es as _ <-). cbn [fst] in Hl.
    destruct (raw <=? 0) eqn:Er; [by simplify_eq|]. zbool. injection E as <- <-. intros Ht%(f_equal Zlen).
    unfold Zlen in *. rewrite length_take in Ht. change (length (@nil Z)) with O in Ht. lia. }
  destruct (FormatLogLine level now_ns pid msg (Some 2048)) as [line written] eqn:E.
  destruct (written =? 0) eqn:Ew; zbool; [by destruct has_stderr|]. by rewrite decide_False by by eapply Hpos.
Qed.
End Format.

Definition fixed_time (t : Z) : option Tm :=
  Some {| tm_year := 124; tm_mon := 0; tm_mday := 2; tm_hour := 3; tm_min := 4; tm_sec := 5 |}.
Lemma log_line_bounded_witness :
  (FormatLogLine fixed_time Warn_ (- 1000001) 7 (str "x") (Some 60)).2 <= 59.
Proof.
  pose proof (log_line_bounded fixed_time false Warn_ (- 1000001) 7 (str "x") 60 ltac:(discriminate)) as H.
  destruct (FormatLogLine fixed_time Warn_ (- 1000001) 7 (str "x") (Some 60)) as [line written]. apply H.
Defined.
Example log_line_example :
  FormatLogLine fixed_time Warn_ (- 1000001) 7 (str "x") (Some 60) =
  (str "[2024-01-02 03:04:05.999] [WARN ] [helper:7] x" ++ [10], 47).
Proof. vm_compute. reflexivity. Qed.
